(* ===== verification/_CoqProject ===== *)
-Q . S2P
Prelude.v
Packed.v
Cards.v
Libc.v
Game.v
GameInv.v
Rules.v
Turns.v
TurnsInv.v
TypesInv.v
GameThms.v
Match.v
Ipc.v
IpcThms.v
Race.v
StoreRace.v
Session.v
SessionThms.v
SessionProps.v
Server.v
System.v
Net.v
NetThms.v
Os.v
TestOs.v
Sockets.v
Segments.v
ServerMain.v
Monitor.v
Proto.v
ProtoThms.v
Wire.v
SessionSim.v
WireSession.v
ConnHeld.v
ClientApp.v
Gui.v
GuiNet.v
Float.v
Float32.v
GuiDraw.v
GuiDrawThms.v
Bench.v
BenchMain.v
AppMain.v
BenchReport.v
Play.v
Hall.v
GuiMain.v
GuiPlay.v
