(* ===== verification/Prelude.v ===== *)
(** * Mini TCG: a verified model of the card game server and its clients

    Mini TCG is a two-sided card game in C.  A server forks a worker per TLS
    connection; the worker plays one match of the player against an AI, keeps
    it in shared memory so that a lost connection can be resumed, and talks to
    a terminal or a graphical client in small packets.

    ** The parts of the program and the files that model them

    The files are listed in dependency order; a name in brackets is a
    definition, and carries the name of the C function where there is one.

    - Prelude.v: machine integers ([u8] ... [i32] are the conversions of C,
      with their wrap-around), C loops as [loop] over a step function with
      fuel, the state monad [St] with the triples [triple] and [post], the
      monad [StO] of computations that may run out of fuel, and struct fields
      as lenses.
    - Packed.v: the packed structs of src/common/proto.h and their bytes, as
      [codec]s (encoding, decoding, and the laws that make them inverse).
    - Cards.v: src/common/cards.c, the card table and [get_card_def].
    - Libc.v: [rand], [srand], [time], [getpid] as the class [Libc], and
      [LibcOK], the range of [rand].
    - Game.v, GameInv.v, Rules.v: src/server.c up to [handle_play_card]; the
      invariant [game_inv]; the rules on a board with unbounded counters
      ([board_play], [board_tick]) that the code is shown to follow.
    - Turns.v, TurnsInv.v: [phase_draw], [phase_end], [enter_turn], the AI's
      [ai_eval_card] and [process_ai_turn].  TypesInv.v: that all of it keeps
      any state inside its struct.
    - GameThms.v, Match.v: the theorems on the game; the match as a transition
      relation [reach].
    - Ipc.v, IpcThms.v: src/common/ipc.c, the shared store, and that it
      implements a finite map ([store_map]) from session ids to games.
    - Race.v: [ipc_alloc_session] access by access, two workers interleaved.
      StoreRace.v: saving, loading and touching a session access by access, any
      number of workers interleaved.
    - Session.v, SessionThms.v, SessionProps.v: [run_session] of src/server.c:
      [handshake_step] is one iteration of its first loop, [main_step] of its
      second, [dispatch] what the second does with a packet.  The connection
      is the class [Channel] and its promises the class [ChannelOK]; [Queue]
      is an instance.
    - Server.v: [main] of src/server.c from the shared segments on, with its
      children one after the other.  System.v: any number of workers on one
      store, interleaved packet by packet ([sys_step]).
    - Net.v, NetThms.v: src/common/net.c, reading and writing exactly [n]
      bytes.  OpenSSL and the system calls are the class [NetIO]; what the code
      relies on are the laws [ssl_reads] and [ssl_writes], which [TestNet]
      obeys.
    - Os.v, TestOs.v: the other system calls and OpenSSL functions, as the class
      [Os] with laws on the resources a process holds ([os_holds]) and on the
      shared segments ([os_shm]); [TestOs] is an instance driven by a script.
    - Sockets.v: the rest of src/common/net.c, listening, connecting, timeouts
      and TLS contexts.  Segments.v: [ipc_stats_init] and [ipc_store_init].
    - ServerMain.v: [main] of src/server.c as a whole ([server_process]: start-up,
      accept loop, [fork], child, shutdown), the handler of SIGCHLD, the log.
    - Monitor.v: src/monitor.c.
    - Proto.v, ProtoThms.v: src/common/proto.c, checksum, framing, receiving;
      [unframe] is the receiver as a function on the byte stream.
    - Wire.v: a connection with its packets simulates [Queue], which links
      the byte level to the packet level of the sessions and the clients.
    - SessionSim.v, WireSession.v: a session over a connection that simulates
      another, and with it the whole session over the bytes of a TLS connection.
    - ConnHeld.v: what a session over such a connection holds and releases.
    - ClientApp.v: src/client_app.c, [recv_until], [draw_ui], the key loop.
    - Gui.v, GuiNet.v: src/client_gui.c, the network thread and the mouse clicks;
      the thread's reconnecting loop.
    - Float.v: binary floating-point formats, on SpecFloat, with integer bounds
      that survive rounding; Float32.v: C's [float].
    - GuiDraw.v, GuiDrawThms.v: src/client_gui.c, the drawing functions, the
      animation and the frame of the main loop, as lists of raylib calls.
    - Bench.v, BenchMain.v: src/client.c, one thread of the load generator, its
      connecting, the command line, the results of the threads and their
      statistics.
    - AppMain.v: the connecting and the releasing of [run_app_mode] of
      src/client_app.c around the session of ClientApp.v.  BenchReport.v: [main]
      of src/client.c, in both modes, and the report of the load generator.
    - Play.v: a client and the server as one closed system, a [table]: what the
      client sends goes through one iteration of its worker's loop ([react]),
      and what the worker sends is what the client reads.  Hall.v: any number of
      terminal clients at one server, interleaved ([hall_step]).
    - GuiMain.v: [main] of src/client_gui.c: the pipe, the thread, the window,
      and the two threads interleaved ([gui_step]).
    - GuiPlay.v: its network thread and the server as one closed system, over
      lost connections and resumed sessions ([visit_step]).

    The parts are put together through classes, so that a theorem on one part
    holds for every other end that keeps the promises: [Channel] with
    [ChannelOK] (a session's connection), [ChannelIn] and [ChannelApart] (what a
    client reads; that sending does not disturb it), [NetIO] and [Os] (the operating system),
    [Curses] with [CursesQuits], [Window], [Raylib], [NetOS] and [PipeOS] (the
    terminal, the window, the calls of the network thread and the pipe), [Libc] with [LibcOK].  Each has an instance that the
    witnesses run.

    The state of a worker is the record [world]: its connection, its process
    environment, and the two structures in shared memory.  The game itself is
    passed from call to call as a [state_t] and a [hand_t], as the C code
    passes pointers to the two local variables.

    ** What the theorems show

    - The rules.  A card has the verdict and the effect of the abstract rules
      for either side; poison and the end of the game likewise; every position
      that a match can reach is well-formed and undecided exactly while both
      sides have hit points; no counter overflows in the first 28 draw phases,
      and what happens when one does.  From any state at all the operations
      keep every field in the range of its C type.
    - Turns and the AI.  The AI's loop ends, plays greedily, and leaves the
      game decided or at the player's main phase.
    - The store.  Its operations are those of a finite map; slots are never
      recycled; two interleaved logins can lose a session.  Calls on different
      sessions, interleaved access by access, have the effect and the results of
      the calls one after the other; a load beside a save of the same session
      can return half of each.
    - The session.  For each request, the exact packets of the reply and the
      effect on the store; that the store follows the game that is played;
      that no session disturbs another; that a session ends with its
      connection.
    - The system.  Workers interleaved in any order keep every stored game
      playable, and each of them finds its own game in the store as long as no
      two play the same session; when a resume breaks that, a finished turn can
      be rolled back.  Running the children one by one is one such schedule.
    - The processes.  On every path of start-up, failure and shutdown, sockets,
      TLS objects and segments are released; a child releases its connection; a
      second server on a taken port wipes the first one's store; the monitor
      shows the counters; ended children are reaped.
    - The wire.  Reads and writes are exact; a packet that is sent is
      received; corruption of one byte is noticed and a permutation is not;
      receiving is total, except that a silent peer blocks it for ever.  A
      session over TLS is the session over the packets that its bytes spell.
    - The clients.  What a client shows is what the server holds, after a
      login, a resume, a card or the end of a turn; a client only sends
      requests that its view allows; a window's frame is always defined, its
      bars fit, and every card, log line and verdict is in it; the network
      threads leak nothing; the load generator counts a session that it lost as
      a success, and its results do not depend on the order of its threads, and the
      average that it prints lies between its bounds.
      The window's clicks reach the server in their order; two clicks on the
      button end two turns.
    - The closed system.  A terminal client at a worker shows, after every key,
      the game that the rules make of the one before, and the server stores
      exactly that game; its whole session ends and releases everything; a
      thread of the load generator completes against the server; and with many
      clients in any interleaving each shows its own worker's game.  The graphical
      client, over any losses and resumptions, is always on its way to the game
      that the store keeps for its session, and never loses a session it knows.

    ** Fuel

    Every loop of C is a [loop] with fuel.  Folding a 32-bit checksum takes at
    most two iterations ([fold_fuel] is 3); the AI's loop empties one of eight
    slots per iteration ([ai_fuel] is 9); the loops of a session receive one
    packet per iteration ([run_session_ends]); [recv_until] receives one packet
    per iteration ([recv_until_game]), so that 4 are enough for the answer of a
    worker to a request (an error, the state, the hand) and 5 for that to a
    login; the loops of Net.v end by a lexicographic
    measure, the bytes left and the retries that the transport still asks for,
    so that their theorems speak of all sufficiently large amounts.  The loops
    that run until the user, a signal or the network stops them (the accept loop,
    the monitor, the key loop of the terminal client, the network thread of the
    graphical one) have theorems about single steps or about every run that some
    amount of fuel completes; the handler of SIGCHLD needs one step more than
    there are ended children ([sigchld_reaps]).

    ** What is not modelled

    - src/client_app.c and the [main] of src/client.c declare [ctx] and [ssl]
      twice in one block, so no C compiler gives them a meaning.  In
      [run_app_mode] one of the two handshakes (lines 82 to 94) is left out, in
      [main] one of the two contexts (lines 211 to 217).  src/common/net.c defines
      [net_set_timeout] twice, and both definitions are in Sockets.v.
    - The interleaving of the load generator's threads (they run one after the
      other, in any order), and the lines that the first of them prints on every
      state.
    - What ncurses, raylib and the threads library do: they are the operations
      of the classes [Curses], [Raylib], [Window] and [Os].  A write to the pipe
      of the graphical client is assumed to find room, and a command is read as
      a whole.
    - src/test_ssl.c, the Makefile, the certificates and the assets.
    - Signals other than as the flag that the accept loop tests and the handler
      of SIGCHLD as a function; the installation of the handlers.
    - Interleaving below one packet, except in the operations of the store
      (Race.v, StoreRace.v).  The counters of the statistics are updated
      atomically by the code ([__sync_fetch_and_add]).

    Arithmetic on the narrow integer fields is done in [int] by C and does not
    overflow there; the assignment back to the field is modelled as the
    reduction that gcc performs.  [float] operations round to nearest even after
    each operation, as on x86-64 without contraction. *)

From stdpp Require Export base tactics list list_numbers strings pretty gmap.
From coqutil Require Export Byte Word.LittleEndianList.
From Stdlib Require Export ZArith Lia.

#[global] Open Scope Z_scope.

(** ** Arithmetic automation *)

(** [zlia] is [lia] with [/] and [mod] by constants replaced by their
    Euclidean equations. *)
Ltac zlia := Z.to_euclidean_division_equations; lia.

(** Case analysis on the boolean comparisons of [Z] that occur in a goal or in
    a hypothesis, as the C conditions are translated to them. *)
Ltac zcase :=
  match goal with
  | |- context [?a <? ?b] => destruct (Z.ltb_spec a b)
  | |- context [?a <=? ?b] => destruct (Z.leb_spec a b)
  | |- context [?a =? ?b] => destruct (Z.eqb_spec a b)
  | _ : context [?a <? ?b] |- _ => destruct (Z.ltb_spec a b)
  | _ : context [?a <=? ?b] |- _ => destruct (Z.leb_spec a b)
  | _ : context [?a =? ?b] |- _ => destruct (Z.eqb_spec a b)
  end.

(** Split conjunctions in the goal, without unfolding definitions. *)
Ltac splits := repeat match goal with |- _ /\ _ => split end.

(** ** Machine integers

    A [w]-bit C integer is a [Z]; a conversion to the type is written out as
    the wrap-around that gcc performs on x86-64 (two's complement, reduction
    modulo [2^w] also for the signed types). *)

Definition u8 (z : Z) : Z := z mod 256.
Definition u16 (z : Z) : Z := z mod 65536.
Definition u32 (z : Z) : Z := z mod 4294967296.
Definition u64 (z : Z) : Z := z mod 18446744073709551616.
Definition i16 (z : Z) : Z := (z + 32768) mod 65536 - 32768.
Definition i32 (z : Z) : Z := (z + 2147483648) mod 4294967296 - 2147483648.

Definition is_u8 (z : Z) : Prop := 0 <= z < 256.
Definition is_u16 (z : Z) : Prop := 0 <= z < 65536.
Definition is_u32 (z : Z) : Prop := 0 <= z < 4294967296.
Definition is_u64 (z : Z) : Prop := 0 <= z < 18446744073709551616.
Definition is_i16 (z : Z) : Prop := -32768 <= z < 32768.
Definition is_i32 (z : Z) : Prop := -2147483648 <= z < 2147483648.

Create HintDb mach.

Lemma u8_range z : is_u8 (u8 z). Proof. unfold is_u8, u8. zlia. Qed.
Lemma u16_range z : is_u16 (u16 z). Proof. unfold is_u16, u16. zlia. Qed.
Lemma u32_range z : is_u32 (u32 z). Proof. unfold is_u32, u32. zlia. Qed.
Lemma u64_range z : is_u64 (u64 z). Proof. unfold is_u64, u64. zlia. Qed.
Lemma i16_range z : is_i16 (i16 z). Proof. unfold is_i16, i16. zlia. Qed.
Lemma i32_range z : is_i32 (i32 z). Proof. unfold is_i32, i32. zlia. Qed.

#[export] Hint Resolve u8_range u16_range u32_range u64_range i16_range
  i32_range : mach.

Lemma u8_id z : is_u8 z -> u8 z = z. Proof. unfold is_u8, u8. zlia. Qed.
Lemma u16_id z : is_u16 z -> u16 z = z. Proof. unfold is_u16, u16. zlia. Qed.
Lemma u32_id z : is_u32 z -> u32 z = z. Proof. unfold is_u32, u32. zlia. Qed.
Lemma u64_id z : is_u64 z -> u64 z = z. Proof. unfold is_u64, u64. zlia. Qed.
Lemma i16_id z : is_i16 z -> i16 z = z. Proof. unfold is_i16, i16. zlia. Qed.
Lemma i32_id z : is_i32 z -> i32 z = z. Proof. unfold is_i32, i32. zlia. Qed.

#[export] Instance is_u8_dec z : Decision (is_u8 z).
Proof. unfold is_u8. apply _. Defined.
#[export] Instance is_u16_dec z : Decision (is_u16 z).
Proof. unfold is_u16. apply _. Defined.
#[export] Instance is_u64_dec z : Decision (is_u64 z).
Proof. unfold is_u64. apply _. Defined.
#[export] Instance is_i16_dec z : Decision (is_i16 z).
Proof. unfold is_i16. apply _. Defined.

(** Decide a closed proposition by evaluating its decision procedure. *)
Ltac by_decide := apply (bool_decide_unpack _); vm_compute; exact I.

(** The range predicates, opened for [lia]. *)
Ltac mach_lia :=
  unfold is_u8, is_u16, is_u32, is_u64, is_i16, is_i32 in *; lia.

(** Remove the conversions that do not change their argument. *)
Ltac mach_norm :=
  repeat first
    [ rewrite u8_id by mach_lia | rewrite u16_id by mach_lia
    | rewrite u32_id by mach_lia | rewrite u64_id by mach_lia
    | rewrite i16_id by mach_lia | rewrite i32_id by mach_lia ].

(** ** Loops

    A C loop is a step function on its variables: [inl] continues with new
    values, [inr] leaves the loop (its condition is false, or [break], or
    [return]).  [loop] runs it with fuel; [None] means the fuel ran out. *)

Fixpoint loop {S R : Type} (step : S -> S + R) (fuel : nat) (s : S) : option R :=
  match fuel with
  | O => None
  | Datatypes.S fuel' =>
      match step s with
      | inl s' => loop step fuel' s'
      | inr r => Some r
      end
  end.

Section Loops.
Context {S R : Type} (step : S -> S + R).

Lemma loop_mono n m s r :
  loop step n s = Some r -> (n <= m)%nat -> loop step m s = Some r.
Proof.
  revert m s. induction n as [|n IH]; intros [|m] s H Hle; try done; [lia|].
  cbn in *. destruct (step s); [apply IH; [done|lia] | done].
Qed.

Lemma loop_det n m s r r' :
  loop step n s = Some r -> loop step m s = Some r' -> r = r'.
Proof.
  intros H1 H2.
  apply (loop_mono _ (n `max` m)%nat) in H1; [|lia].
  apply (loop_mono _ (n `max` m)%nat) in H2; [|lia].
  congruence.
Qed.

(** Termination by a measure that every continuing step decreases. *)
Lemma loop_total (I : S -> Prop) (mu : S -> nat) n s :
  (forall s s', I s -> step s = inl s' -> I s' /\ (mu s' < mu s)%nat) ->
  I s -> (mu s < n)%nat -> is_Some (loop step n s).
Proof.
  intros Hstep. revert s. induction n as [|n IH]; intros s Hs Hn; [lia|].
  cbn. destruct (step s) as [s'|r] eqn:E; [|eauto].
  destruct (Hstep _ _ Hs E). apply IH; [done|lia].
Qed.

(** Termination by a lexicographic measure; no bound on the fuel follows, but
    some amount is enough. *)
Lemma loop_total_lex (I : S -> Prop) (mu nu : S -> nat) s :
  (forall s s', I s -> step s = inl s' ->
    I s' /\ ((mu s' < mu s)%nat \/ mu s' = mu s /\ (nu s' < nu s)%nat)) ->
  I s -> exists n r, loop step n s = Some r.
Proof.
  intros Hstep. remember (mu s) as m eqn:Em. revert s Em.
  induction (lt_wf m) as [m _ IHm]. intros s Em. remember (nu s) as k eqn:Ek.
  revert s Em Ek. induction (lt_wf k) as [k _ IHk]. intros s Em Ek Hs.
  destruct (step s) as [s'|r] eqn:E; [|exists 1%nat, r; simpl; by rewrite E].
  destruct (Hstep _ _ Hs E) as [Hs' Hlt].
  assert (exists n r, loop step n s' = Some r) as (n & r & Hr).
  { destruct Hlt as [Hlt|[Heq Hlt]].
    - by apply (IHm (mu s')); [lia|..].
    - by apply (IHk (nu s')); [lia|lia|..]. }
  exists (Datatypes.S n), r. simpl. by rewrite E.
Qed.

(** Partial correctness by a loop invariant. *)
Lemma loop_inv (I : S -> Prop) (Q : R -> Prop) n s r :
  (forall s s', I s -> step s = inl s' -> I s') ->
  (forall s r, I s -> step s = inr r -> Q r) ->
  I s -> loop step n s = Some r -> Q r.
Proof.
  intros Hl Hr. revert s. induction n as [|n IH]; intros s Hs H; [done|].
  cbn in H. destruct (step s) as [s'|r'] eqn:E; [eauto|].
  simplify_eq. eauto.
Qed.

(** Divergence by an invariant under which the loop always continues. *)
Lemma loop_diverges (I : S -> Prop) n s :
  (forall s, I s -> exists s', step s = inl s' /\ I s') ->
  I s -> loop step n s = None.
Proof.
  intros Hstep. revert s. induction n as [|n IH]; intros s Hs; [done|].
  cbn. destruct (Hstep _ Hs) as (s' & -> & Hs'). eauto.
Qed.
End Loops.

(** ** State-passing computations

    [St W A] is a computation that reads and changes a [W] and returns an
    [A]; stdpp's [x ← m; k] sequences two of them. *)

Definition St (W A : Type) : Type := W -> A * W.

#[export] Instance St_ret W : MRet (St W) := fun A a w => (a, w).
#[export] Instance St_bind W : MBind (St W) := fun A B k m w =>
  let '(a, w') := m w in k a w'.

(** [triple P m Q]: started in a state satisfying [P], [m] returns a value and
    a state satisfying [Q].  [post m Q] constrains the value only. *)
Definition triple {W A} (P : W -> Prop) (m : St W A) (Q : A -> W -> Prop) : Prop :=
  forall w, P w -> Q (m w).1 (m w).2.
Definition post {W A} (m : St W A) (Q : A -> Prop) : Prop :=
  forall w, Q (m w).1.

Create HintDb tcg.

Section Triples.
Context {W A B : Type}.

Lemma triple_ret (P : W -> Prop) (a : A) (Q : A -> W -> Prop) :
  (forall w, P w -> Q a w) -> triple P (mret a) Q.
Proof. intros H w Hw. exact (H w Hw). Qed.

Lemma triple_bind (P : W -> Prop) (m : St W A) (k : A -> St W B) R Q :
  triple P m R -> (forall a, triple (R a) (k a) Q) -> triple P (m ≫= k) Q.
Proof.
  intros Hm Hk w Hw. specialize (Hm w Hw).
  unfold mbind, St_bind. destruct (m w) as [a w'] eqn:E. exact (Hk a w' Hm).
Qed.

Lemma triple_conseq (P P' : W -> Prop) (m : St W A) (Q Q' : A -> W -> Prop) :
  triple P' m Q' -> (forall w, P w -> P' w) ->
  (forall a w, Q' a w -> Q a w) -> triple P m Q.
Proof. intros Hm HP HQ w Hw. apply HQ, Hm, HP, Hw. Qed.

(** Facts that do not depend on the state move out of the precondition. *)
Lemma triple_pure (phi : Prop) (P : W -> Prop) (m : St W A) (Q : A -> W -> Prop) :
  (phi -> triple P m Q) -> triple (fun w => phi /\ P w) m Q.
Proof. intros H w [Hphi Hw]. exact (H Hphi w Hw). Qed.

Lemma triple_exists {X} (P : X -> W -> Prop) (m : St W A) (Q : A -> W -> Prop) :
  (forall x, triple (P x) m Q) -> triple (fun w => exists x, P x w) m Q.
Proof. intros H w [x Hw]. exact (H x w Hw). Qed.

Lemma post_ret (a : A) (Q : A -> Prop) : Q a -> post (W:=W) (mret a) Q.
Proof. intros H w. exact H. Qed.

Lemma post_bind (m : St W A) (k : A -> St W B) (R : A -> Prop) (Q : B -> Prop) :
  post m R -> (forall a, R a -> post (k a) Q) -> post (m ≫= k) Q.
Proof.
  intros Hm Hk w. specialize (Hm w).
  unfold mbind, St_bind. destruct (m w) as [a w'] eqn:E. exact (Hk a Hm w').
Qed.

Lemma post_weaken (m : St W A) (Q Q' : A -> Prop) :
  post m Q' -> (forall a, Q' a -> Q a) -> post m Q.
Proof. intros Hm HQ w. apply HQ, Hm. Qed.
End Triples.

(** [StO W A] is such a computation that may also run out of fuel. *)
Definition StO (W A : Type) : Type := W -> option (A * W).

#[export] Instance StO_ret W : MRet (StO W) := fun A a w => Some (a, w).
#[export] Instance StO_bind W : MBind (StO W) := fun A B k m w =>
  match m w with
  | Some (a, w') => k a w'
  | None => None
  end.

Lemma StO_bind_Some {W A B} (m : StO W A) (k : A -> StO W B) w a w' :
  m w = Some (a, w') -> (m ≫= k) w = k a w'.
Proof. intros H. unfold mbind, StO_bind. by rewrite H. Qed.

(** ** Pointers into a struct

    A pointer to a field of a struct, such as
    [is_player ? &st->p_hp : &st->ai_hp], is a getter and a setter. *)

Record lens (S A : Type) := Lens { lget : S -> A; lset : A -> S -> S }.
Arguments Lens {S A} _ _.
Arguments lget {S A} _ _.
Arguments lset {S A} _ _ _.

Declare Scope tcg_scope.
Delimit Scope tcg_scope with tcg.
Notation "s .@ l" := (lget l s)
  (at level 1, l at level 0, left associativity, format "s .@ l") : tcg_scope.
Notation "s .{ l := v }" := (lset l v s)
  (at level 1, l at level 1, v at level 200, left associativity,
   format "s .{ l  :=  v }") : tcg_scope.

(** ** Bytes and byte strings *)

#[export] Instance byte_eq_dec : EqDecision byte := Byte.byte_eq_dec.
#[export] Instance byte_inhabited : Inhabited byte := populate Byte.x00.

Abbreviation str := String.list_byte_of_string (only parsing).

(** Unsigned little-endian fields of [n] bytes. *)
Lemma le_combine_split_id n z :
  0 <= z < 2 ^ (Z.of_nat n * 8) -> le_combine (le_split n z) = z.
Proof. intros H. rewrite le_combine_split. by apply Z.mod_small. Qed.

Lemma le_combine_range bs n :
  length bs = n -> 0 <= le_combine bs < 2 ^ (Z.of_nat n * 8).
Proof. intros <-. rewrite Z.mul_comm. apply le_combine_bound. Qed.

Lemma byte_unsigned_range b : 0 <= byte.unsigned b < 256.
Proof. apply byte.unsigned_range. Qed.

Create Rewrite HintDb len.
#[export] Hint Rewrite @length_app @length_take @length_drop @length_insert
  @length_alter @length_rev @length_fmap length_le_split : len.

(** Lengths of lists built by the usual operations, then arithmetic. *)
Ltac len := autorewrite with len in *; simpl in *; lia.

(** ** Loops of computations *)

(** A C loop whose body is a computation. *)
Definition loopM {W S R} (body : S -> St W (S + R)) (fuel : nat) (s : S) : StO W R := fun w =>
  loop (fun v => match body v.1 v.2 with
                 | (inl s', w') => inl (s', w')
                 | (inr r, w') => inr (r, w')
                 end) fuel (s, w).

(** A loop whose body keeps an invariant. *)
Lemma loopM_triple {W S R} (I : S -> W -> Prop) (Q : R -> W -> Prop)
    (body : S -> St W (S + R)) fuel s w r w' :
  (forall s, triple (I s) (body s)
     (fun x w => match x with inl s' => I s' w | inr r => Q r w end)) ->
  I s w -> loopM body fuel s w = Some (r, w') -> Q r w'.
Proof.
  intros Hb Hs Hr. unfold loopM in Hr.
  refine (loop_inv _ (fun v => I v.1 v.2) (fun v => Q v.1 v.2) fuel (s, w) (r, w') _ _ Hs Hr).
  - intros [s1 w1] v2 Hi E. specialize (Hb s1 w1 Hi). cbn in *.
    destruct (body s1 w1) as [[]]; by simplify_eq.
  - intros [s1 w1] v2 Hi E. specialize (Hb s1 w1 Hi). cbn in *.
    destruct (body s1 w1) as [[]]; by simplify_eq.
Qed.

Lemma loopM_step {W S R} (body : S -> St W (S + R)) fuel s w s' w' :
  body s w = (inl s', w') -> loopM body (Datatypes.S fuel) s w = loopM body fuel s' w'.
Proof. intros E. unfold loopM. cbn [loop fst snd]. by rewrite E. Qed.

Lemma loopM_stop {W S R} (body : S -> St W (S + R)) fuel s w r w' :
  body s w = (inr r, w') -> loopM body (Datatypes.S fuel) s w = Some (r, w').
Proof. intros E. unfold loopM. cbn [loop fst snd]. by rewrite E. Qed.
