(* ===== verification/Packed.v ===== *)
(** * Wire and shared-memory layouts

    The packed structs of src/common/proto.h as records, with the byte layout
    that gcc gives them on little-endian x86-64.  A [codec] is the interface
    the rest of the development uses: [enc] is what [memcpy] out of a struct
    copies, [dec] is what [memcpy] into one stores, and its laws say that the
    two are inverse bijections between the well-formed values and the byte
    strings of the struct's size. *)

From S2P Require Export Prelude.

(** ** Codecs *)

Record codec (A : Type) := Codec {
  csize : nat;
  cwf : A -> Prop;
  enc : A -> list byte;
  dec : list byte -> A;
  enc_length : forall a, cwf a -> length (enc a) = csize;
  dec_enc : forall a, cwf a -> dec (enc a) = a;
  dec_wf : forall bs, length bs = csize -> cwf (dec bs);
  enc_dec : forall bs, length bs = csize -> enc (dec bs) = bs;
}.
Arguments csize {A} _.
Arguments cwf {A} _ _.
Arguments enc {A} _ _.
Arguments dec {A} _ _.
Arguments enc_length {A} _ _ _.
Arguments dec_enc {A} _ _ _.
Arguments dec_wf {A} _ _ _.
Arguments enc_dec {A} _ _ _.


Section Combinators.
#[local] Obligation Tactic := idtac.

(** An unsigned field of [n] bytes. *)
Program Definition uint_codec (n : nat) : codec Z :=
  {| csize := n; cwf z := 0 <= z < 2 ^ (Z.of_nat n * 8);
     enc := le_split n; dec := le_combine |}.
Next Obligation. intros. apply length_le_split. Qed.
Next Obligation. intros. by apply le_combine_split_id. Qed.
Next Obligation. intros. by apply le_combine_range. Qed.
Next Obligation. intros n bs <-. apply split_le_combine. Qed.

(** Signed fields: the two's complement of the value. *)
Program Definition i16_codec : codec Z :=
  {| csize := 2; cwf := is_i16; enc := le_split 2;
     dec bs := i16 (le_combine bs) |}.
Next Obligation. intros. apply length_le_split. Qed.
Next Obligation.
  intros z Hz. cbv beta. rewrite le_combine_split.
  change (2 ^ _) with 65536.
  unfold i16, is_i16 in *. zlia.
Qed.
Next Obligation. intros. apply i16_range. Qed.
Next Obligation.
  intros bs Hbs. cbv beta. rewrite <- (split_le_combine' bs 2 Hbs) at 2.
  rewrite le_split_mod, (le_split_mod (le_combine bs)). f_equal.
  change (2 ^ _) with 65536. unfold i16. zlia.
Qed.

Program Definition i32_codec : codec Z :=
  {| csize := 4; cwf := is_i32; enc := le_split 4;
     dec bs := i32 (le_combine bs) |}.
Next Obligation. intros. apply length_le_split. Qed.
Next Obligation.
  intros z Hz. cbv beta. rewrite le_combine_split.
  change (2 ^ _) with 4294967296.
  unfold i32, is_i32 in *. zlia.
Qed.
Next Obligation. intros. apply i32_range. Qed.
Next Obligation.
  intros bs Hbs. cbv beta. rewrite <- (split_le_combine' bs 4 Hbs) at 2.
  rewrite le_split_mod, (le_split_mod (le_combine bs)). f_equal.
  change (2 ^ _) with 4294967296. unfold i32. zlia.
Qed.

(** A [char] array of [n] bytes. *)
Program Definition bytes_codec (n : nat) : codec (list byte) :=
  {| csize := n; cwf bs := length bs = n; enc bs := bs; dec bs := bs |}.
Solve All Obligations with (intros; done).

(** Two adjacent fields. *)
Program Definition pair_codec {A B} (ca : codec A) (cb : codec B) : codec (A * B) :=
  {| csize := csize ca + csize cb; cwf p := cwf ca p.1 /\ cwf cb p.2;
     enc p := enc ca p.1 ++ enc cb p.2;
     dec bs := (dec ca (take (csize ca) bs), dec cb (drop (csize ca) bs)) |}.
Next Obligation.
  intros A B ca cb [a b] [Ha Hb]. rewrite length_app, !enc_length; done.
Qed.
Next Obligation.
  intros A B ca cb [a b] [Ha Hb]. cbn in *.
  rewrite take_app_length', drop_app_length' by (by rewrite enc_length).
  by rewrite !dec_enc.
Qed.
Next Obligation. intros A B ca cb bs H. split; apply dec_wf; cbn; len. Qed.
Next Obligation.
  intros A B ca cb bs H. cbn. rewrite !enc_dec by len. apply take_drop.
Qed.

(** [k] adjacent elements. *)
Fixpoint dec_array {A} (c : codec A) (k : nat) (bs : list byte) : list A :=
  match k with
  | O => []
  | S k' => dec c (take (csize c) bs) :: dec_array c k' (drop (csize c) bs)
  end.

Program Definition array_codec {A} (c : codec A) (k : nat) : codec (list A) :=
  {| csize := k * csize c; cwf l := length l = k /\ Forall (cwf c) l;
     enc l := flat_map (enc c) l; dec := dec_array c k |}.
Next Obligation.
  intros A c k l [<- Hl]. induction Hl as [|x l Hx Hl IH]; [done|].
  simpl. by rewrite length_app, enc_length, IH.
Qed.
Next Obligation.
  intros A c k l [<- Hl]. induction Hl as [|x l Hx Hl IH]; [done|].
  simpl. rewrite take_app_length', drop_app_length' by (by rewrite enc_length).
  by rewrite dec_enc, IH.
Qed.
Next Obligation.
  intros A c k. induction k as [|k IH]; intros bs H; [done|].
  destruct (IH (drop (csize c) bs)) as [Hl Hf]; [len|].
  split; simpl; [by rewrite Hl|]. constructor; [|done].
  apply dec_wf. len.
Qed.
Next Obligation.
  intros A c k. induction k as [|k IH]; intros bs H; simpl in *.
  - by apply nil_length_inv in H.
  - rewrite enc_dec by len. rewrite IH by len. apply take_drop.
Qed.

(** A struct and the tuple of its fields. *)
Program Definition iso_codec {A B} (c : codec A) (f : B -> A) (g : A -> B)
    (gf : forall b, g (f b) = b) (fg : forall a, f (g a) = a) : codec B :=
  {| csize := csize c; cwf b := cwf c (f b); enc b := enc c (f b);
     dec bs := g (dec c bs) |}.
Next Obligation. intros. by apply enc_length. Qed.
Next Obligation. intros A B c f g gf fg b Hb. cbn. by rewrite dec_enc. Qed.
Next Obligation. intros A B c f g gf fg bs H. cbn. rewrite fg. by apply dec_wf. Qed.
Next Obligation. intros A B c f g gf fg bs H. cbn. rewrite fg. by apply enc_dec. Qed.
End Combinators.

(** ** Protocol constants *)

Definition LOG_LINES : Z := 6.
Definition LOG_LEN : nat := 64.

Inductive opcode_t :=
  | OP_LOGIN_REQ | OP_LOGIN_RESP | OP_PING | OP_PONG | OP_RESUME_REQ
  | OP_RESUME_RESP | OP_PLAY_CARD | OP_END_TURN | OP_STATE | OP_HAND | OP_ERROR.

(** The value of an enumerator, a [uint16_t] on the wire. *)
Definition opcode (o : opcode_t) : Z :=
  match o with
  | OP_LOGIN_REQ => 0x0001
  | OP_LOGIN_RESP => 0x8001
  | OP_PING => 0x0002
  | OP_PONG => 0x8002
  | OP_RESUME_REQ => 0x0003
  | OP_RESUME_RESP => 0x8003
  | OP_PLAY_CARD => 0x0101
  | OP_END_TURN => 0x0102
  | OP_STATE => 0x0201
  | OP_HAND => 0x0202
  | OP_ERROR => 0xFFFF
  end.
Coercion opcode : opcode_t >-> Z.

#[export] Instance opcode_t_eq_dec : EqDecision opcode_t.
Proof. solve_decision. Defined.

Lemma opcode_u16 (o : opcode_t) : is_u16 o.
Proof. destruct o; done. Qed.
#[export] Hint Resolve opcode_u16 : mach.

Definition PHASE_DRAW : Z := 0.
Definition PHASE_MAIN : Z := 1.
Definition PHASE_END : Z := 2.

(** ** The structs *)

Record pkt_hdr_t := { hdr_len : Z; hdr_opcode : Z; hdr_cksum : Z }.
Record login_resp_t := { login_ok : Z }.
Record resume_req_t := { req_session_id : Z }.
Record resume_resp_t := { resp_ok : Z; resp_session_id : Z }.
Record hand_t := { hand_n : Z; card_ids : list Z }.
Record play_req_t := { hand_idx : Z }.
Record error_t := { err_code : Z; err_msg : list byte }.

Record state_t := {
  p_hp : Z;
  ai_hp : Z;
  turn : Z;
  phase : Z;
  game_over : Z;
  winner : Z;
  mana : Z;
  max_mana : Z;
  p_shield : Z;
  ai_shield : Z;
  p_buff : Z;
  ai_buff : Z;
  p_poison : Z;
  ai_poison : Z;
  log_head : Z;
  logs : list (list byte);
}.

(** Assignments [st->field = v]. *)
Definition set_p_hp (v : Z) (s : state_t) : state_t :=
  Build_state_t v (ai_hp s) (turn s) (phase s) (game_over s) (winner s)
    (mana s) (max_mana s) (p_shield s) (ai_shield s) (p_buff s) (ai_buff s)
    (p_poison s) (ai_poison s) (log_head s) (logs s).
Definition set_ai_hp (v : Z) (s : state_t) : state_t :=
  Build_state_t (p_hp s) v (turn s) (phase s) (game_over s) (winner s) (mana
    s) (max_mana s) (p_shield s) (ai_shield s) (p_buff s) (ai_buff s)
    (p_poison s) (ai_poison s) (log_head s) (logs s).
Definition set_turn (v : Z) (s : state_t) : state_t :=
  Build_state_t (p_hp s) (ai_hp s) v (phase s) (game_over s) (winner s)
    (mana s) (max_mana s) (p_shield s) (ai_shield s) (p_buff s) (ai_buff s)
    (p_poison s) (ai_poison s) (log_head s) (logs s).
Definition set_phase (v : Z) (s : state_t) : state_t :=
  Build_state_t (p_hp s) (ai_hp s) (turn s) v (game_over s) (winner s) (mana
    s) (max_mana s) (p_shield s) (ai_shield s) (p_buff s) (ai_buff s)
    (p_poison s) (ai_poison s) (log_head s) (logs s).
Definition set_game_over (v : Z) (s : state_t) : state_t :=
  Build_state_t (p_hp s) (ai_hp s) (turn s) (phase s) v (winner s) (mana s)
    (max_mana s) (p_shield s) (ai_shield s) (p_buff s) (ai_buff s) (p_poison
    s) (ai_poison s) (log_head s) (logs s).
Definition set_winner (v : Z) (s : state_t) : state_t :=
  Build_state_t (p_hp s) (ai_hp s) (turn s) (phase s) (game_over s) v (mana
    s) (max_mana s) (p_shield s) (ai_shield s) (p_buff s) (ai_buff s)
    (p_poison s) (ai_poison s) (log_head s) (logs s).
Definition set_mana (v : Z) (s : state_t) : state_t :=
  Build_state_t (p_hp s) (ai_hp s) (turn s) (phase s) (game_over s) (winner
    s) v (max_mana s) (p_shield s) (ai_shield s) (p_buff s) (ai_buff s)
    (p_poison s) (ai_poison s) (log_head s) (logs s).
Definition set_max_mana (v : Z) (s : state_t) : state_t :=
  Build_state_t (p_hp s) (ai_hp s) (turn s) (phase s) (game_over s) (winner
    s) (mana s) v (p_shield s) (ai_shield s) (p_buff s) (ai_buff s)
    (p_poison s) (ai_poison s) (log_head s) (logs s).
Definition set_p_shield (v : Z) (s : state_t) : state_t :=
  Build_state_t (p_hp s) (ai_hp s) (turn s) (phase s) (game_over s) (winner
    s) (mana s) (max_mana s) v (ai_shield s) (p_buff s) (ai_buff s)
    (p_poison s) (ai_poison s) (log_head s) (logs s).
Definition set_ai_shield (v : Z) (s : state_t) : state_t :=
  Build_state_t (p_hp s) (ai_hp s) (turn s) (phase s) (game_over s) (winner
    s) (mana s) (max_mana s) (p_shield s) v (p_buff s) (ai_buff s) (p_poison
    s) (ai_poison s) (log_head s) (logs s).
Definition set_p_buff (v : Z) (s : state_t) : state_t :=
  Build_state_t (p_hp s) (ai_hp s) (turn s) (phase s) (game_over s) (winner
    s) (mana s) (max_mana s) (p_shield s) (ai_shield s) v (ai_buff s)
    (p_poison s) (ai_poison s) (log_head s) (logs s).
Definition set_ai_buff (v : Z) (s : state_t) : state_t :=
  Build_state_t (p_hp s) (ai_hp s) (turn s) (phase s) (game_over s) (winner
    s) (mana s) (max_mana s) (p_shield s) (ai_shield s) (p_buff s) v
    (p_poison s) (ai_poison s) (log_head s) (logs s).
Definition set_p_poison (v : Z) (s : state_t) : state_t :=
  Build_state_t (p_hp s) (ai_hp s) (turn s) (phase s) (game_over s) (winner
    s) (mana s) (max_mana s) (p_shield s) (ai_shield s) (p_buff s) (ai_buff
    s) v (ai_poison s) (log_head s) (logs s).
Definition set_ai_poison (v : Z) (s : state_t) : state_t :=
  Build_state_t (p_hp s) (ai_hp s) (turn s) (phase s) (game_over s) (winner
    s) (mana s) (max_mana s) (p_shield s) (ai_shield s) (p_buff s) (ai_buff
    s) (p_poison s) v (log_head s) (logs s).
Definition set_log_head (v : Z) (s : state_t) : state_t :=
  Build_state_t (p_hp s) (ai_hp s) (turn s) (phase s) (game_over s) (winner
    s) (mana s) (max_mana s) (p_shield s) (ai_shield s) (p_buff s) (ai_buff
    s) (p_poison s) (ai_poison s) v (logs s).
Definition set_logs (v : list (list byte)) (s : state_t) : state_t :=
  Build_state_t (p_hp s) (ai_hp s) (turn s) (phase s) (game_over s) (winner
    s) (mana s) (max_mana s) (p_shield s) (ai_shield s) (p_buff s) (ai_buff
    s) (p_poison s) (ai_poison s) (log_head s) v.

(** [memset(&st, 0, sizeof(st))] and [memset(&hand, 0, sizeof(hand))]. *)
Definition zero_state : state_t :=
  Build_state_t 0 0 0 0 0 0 0 0 0 0 0 0 0 0 0
    (replicate (Z.to_nat LOG_LINES) (replicate LOG_LEN Byte.x00)).
Definition zero_hand : hand_t := {| hand_n := 0; card_ids := replicate 8 0 |}.

(** Every field holds a value of its C type. *)
Record state_wf (s : state_t) : Prop := {
  wf_p_hp : is_i16 (p_hp s);
  wf_ai_hp : is_i16 (ai_hp s);
  wf_turn : is_u8 (turn s);
  wf_phase : is_u8 (phase s);
  wf_game_over : is_u8 (game_over s);
  wf_winner : is_u8 (winner s);
  wf_mana : is_u8 (mana s);
  wf_max_mana : is_u8 (max_mana s);
  wf_p_shield : is_i16 (p_shield s);
  wf_ai_shield : is_i16 (ai_shield s);
  wf_p_buff : is_i16 (p_buff s);
  wf_ai_buff : is_i16 (ai_buff s);
  wf_p_poison : is_u8 (p_poison s);
  wf_ai_poison : is_u8 (ai_poison s);
  wf_log_head : is_u8 (log_head s);
  wf_logs : length (logs s) = Z.to_nat LOG_LINES;
  wf_lines : Forall (fun l => length l = LOG_LEN) (logs s);
}.

Record hand_wf (h : hand_t) : Prop := {
  wf_hand_n : is_u8 (hand_n h);
  wf_card_ids : length (card_ids h) = 8%nat;
  wf_card_id : Forall is_u16 (card_ids h);
}.

#[export] Instance state_wf_dec s : Decision (state_wf s).
Proof.
  refine (cast_if (decide (
    (is_i16 (p_hp s) /\ is_i16 (ai_hp s) /\ is_u8 (turn s) /\ is_u8 (phase s)) /\
    (is_u8 (game_over s) /\ is_u8 (winner s) /\ is_u8 (mana s) /\ is_u8 (max_mana s)) /\
    (is_i16 (p_shield s) /\ is_i16 (ai_shield s) /\ is_i16 (p_buff s) /\ is_i16 (ai_buff s)) /\
    (is_u8 (p_poison s) /\ is_u8 (ai_poison s) /\ is_u8 (log_head s)) /\
    length (logs s) = Z.to_nat LOG_LINES /\
    Forall (fun l => length l = LOG_LEN) (logs s))));
  [by destruct_and!; split | by intros []; apply n; tauto].
Defined.

#[export] Instance hand_wf_dec h : Decision (hand_wf h).
Proof.
  refine (cast_if (decide (is_u8 (hand_n h) /\ length (card_ids h) = 8%nat /\
    Forall is_u16 (card_ids h))));
  [by destruct_and!; split | by intros []; apply n].
Defined.

(** ** Their layouts *)

Section Layouts.
#[local] Obligation Tactic := (intros; repeat match goal with
  | x : (_ * _)%type |- _ => destruct x
  | x : state_t |- _ => destruct x
  | x : hand_t |- _ => destruct x
  | x : error_t |- _ => destruct x
  | x : play_req_t |- _ => destruct x
  | x : pkt_hdr_t |- _ => destruct x
  | x : resume_resp_t |- _ => destruct x
  | x : resume_req_t |- _ => destruct x
  | x : login_resp_t |- _ => destruct x
  end; reflexivity).

Abbreviation U8 := (uint_codec 1) (only parsing).
Abbreviation U16 := (uint_codec 2) (only parsing).
Abbreviation U32 := (uint_codec 4) (only parsing).
Abbreviation U64 := (uint_codec 8) (only parsing).
Abbreviation I16 := (i16_codec) (only parsing).
Abbreviation I32 := (i32_codec) (only parsing).
Infix "⊗" := pair_codec (at level 40, left associativity).

Program Definition pkt_hdr_codec : codec pkt_hdr_t :=
  iso_codec (U32 ⊗ U16 ⊗ U16)
    (fun h => (hdr_len h, hdr_opcode h, hdr_cksum h))
    (fun '(l, o, c) => Build_pkt_hdr_t l o c) _ _.

Program Definition login_resp_codec : codec login_resp_t :=
  iso_codec I32 login_ok Build_login_resp_t _ _.

Program Definition resume_req_codec : codec resume_req_t :=
  iso_codec U64 req_session_id Build_resume_req_t _ _.

Program Definition resume_resp_codec : codec resume_resp_t :=
  iso_codec (I32 ⊗ U64) (fun r => (resp_ok r, resp_session_id r))
    (fun '(o, s) => Build_resume_resp_t o s) _ _.

Program Definition hand_codec : codec hand_t :=
  iso_codec (U8 ⊗ array_codec U16 8) (fun h => (hand_n h, card_ids h))
    (fun '(n, c) => Build_hand_t n c) _ _.

Program Definition play_req_codec : codec play_req_t :=
  iso_codec U8 hand_idx Build_play_req_t _ _.

Program Definition error_codec : codec error_t :=
  iso_codec (I32 ⊗ bytes_codec 48) (fun e => (err_code e, err_msg e))
    (fun '(c, m) => Build_error_t c m) _ _.

Program Definition state_codec : codec state_t :=
  iso_codec
    (I16 ⊗ I16 ⊗ U8 ⊗ U8 ⊗ U8 ⊗ U8 ⊗ U8 ⊗ U8 ⊗ I16 ⊗ I16 ⊗ I16 ⊗ I16 ⊗ U8 ⊗ U8
      ⊗ U8 ⊗ array_codec (bytes_codec LOG_LEN) 6)
    (fun s => (p_hp s, ai_hp s, turn s, phase s, game_over s, winner s, mana s,
      max_mana s, p_shield s, ai_shield s, p_buff s, ai_buff s, p_poison s,
      ai_poison s, log_head s, logs s))
    (fun '(a, b, c, d, e, f, g, h, i, j, k, l, m, n, o, p) =>
      Build_state_t a b c d e f g h i j k l m n o p) _ _.
End Layouts.

Lemma state_codec_wf s : cwf state_codec s <-> state_wf s.
Proof.
  split.
  - intros H. cbn in H. destruct_and?. by split.
  - intros []. cbn. splits; first [mach_lia | done].
Qed.

Lemma hand_codec_wf h : cwf hand_codec h <-> hand_wf h.
Proof.
  split.
  - intros H. cbn in H. destruct_and?. by split.
  - intros []. cbn. splits; first [mach_lia | done].
Qed.

(** Network byte order: [htonl] and [htons] store the most significant byte
    first, so on a little-endian host they reverse the bytes of the value;
    [ntohl] and [ntohs] are the same functions. *)
Definition htonl (z : Z) : Z := le_combine (rev (le_split 4 z)).
Definition htons (z : Z) : Z := le_combine (rev (le_split 2 z)).
Definition ntohl : Z -> Z := htonl.
Definition ntohs : Z -> Z := htons.

Section ByteOrder.
Lemma rev_split_involutive n z :
  0 <= z < 2 ^ (Z.of_nat n * 8) ->
  le_combine (rev (le_split n (le_combine (rev (le_split n z))))) = z.
Proof.
  intros Hz. rewrite split_le_combine' by len. rewrite rev_involutive.
  by apply le_combine_split_id.
Qed.

Lemma ntohl_htonl z : is_u32 z -> ntohl (htonl z) = z.
Proof. apply (rev_split_involutive 4). Qed.
Lemma ntohs_htons z : is_u16 z -> ntohs (htons z) = z.
Proof. apply (rev_split_involutive 2). Qed.
Lemma htonl_range z : is_u32 (htonl z).
Proof. apply (le_combine_range _ 4). len. Qed.
Lemma htons_range z : is_u16 (htons z).
Proof. apply (le_combine_range _ 2). len. Qed.
End ByteOrder.

#[export] Hint Resolve htonl_range htons_range : mach.
