(* ===== verification/Cards.v ===== *)
(** * Card definitions

    src/common/cards.c: the static card table and its lookup, with the card
    types of src/common/proto.h. *)

From S2P Require Export Packed.

Inductive card_type_t := CT_ATK | CT_HEAL | CT_SHIELD | CT_BUFF | CT_POISON.

#[export] Instance card_type_eq_dec : EqDecision card_type_t.
Proof. solve_decision. Defined.

(** The enumerator's value, and the enumerator of a [uint8_t] tag: [None] is
    what falls into the [default] of a [switch] on it. *)
Definition card_type_val (t : card_type_t) : Z :=
  match t with
  | CT_ATK => 1 | CT_HEAL => 2 | CT_SHIELD => 3 | CT_BUFF => 4 | CT_POISON => 5
  end.
Definition card_type_of (z : Z) : option card_type_t :=
  match z with
  | 1 => Some CT_ATK | 2 => Some CT_HEAL | 3 => Some CT_SHIELD
  | 4 => Some CT_BUFF | 5 => Some CT_POISON | _ => None
  end.
Coercion card_type_val : card_type_t >-> Z.

Lemma card_type_of_val t : card_type_of (card_type_val t) = Some t.
Proof. by destruct t. Qed.

Lemma card_type_of_Some z t : card_type_of z = Some t -> z = t.
Proof.
  unfold card_type_of. intros H. by repeat case_match; simplify_eq.
Qed.

Record card_def_t := {
  card_id : Z;
  card_type : Z;
  card_cost : Z;
  card_value : Z;
  card_duration : Z;
  card_name : string;
}.

Definition g_cards : list card_def_t := [
  Build_card_def_t 100 CT_ATK 1 3 0 "Slash";
  Build_card_def_t 101 CT_ATK 2 5 0 "Heavy Hit";
  Build_card_def_t 102 CT_ATK 3 8 0 "Execute";
  Build_card_def_t 200 CT_HEAL 2 4 0 "Bandage";
  Build_card_def_t 201 CT_HEAL 3 7 0 "Potion";
  Build_card_def_t 300 CT_SHIELD 1 3 0 "Block";
  Build_card_def_t 301 CT_SHIELD 2 6 0 "Barrier";
  Build_card_def_t 400 CT_BUFF 1 2 0 "Sharpen";
  Build_card_def_t 401 CT_BUFF 2 4 0 "Empower";
  Build_card_def_t 500 CT_POISON 2 2 0 "Toxic Dagger";
  Build_card_def_t 501 CT_POISON 3 3 0 "Venom"
].

(** The loop over [g_cards]: the first entry with the id, or [NULL]. *)
Fixpoint find_card (l : list card_def_t) (id : Z) : option card_def_t :=
  match l with
  | [] => None
  | c :: l' => if card_id c =? id then Some c else find_card l' id
  end.
Definition get_card_def (id : Z) : option card_def_t := find_card g_cards id.

(** ** Properties *)

Lemma find_card_Some l id c :
  find_card l id = Some c -> c ∈ l /\ card_id c = id.
Proof.
  induction l as [|d l IH]; simpl; [done|].
  rewrite elem_of_cons.
  destruct (Z.eqb_spec (card_id d) id); intros H; [by simplify_eq; auto|].
  destruct (IH H). auto.
Qed.

Lemma find_card_None l id :
  find_card l id = None <-> Forall (fun c => card_id c <> id) l.
Proof.
  induction l as [|d l IH]; simpl; [done|].
  rewrite Forall_cons. destruct (Z.eqb_spec (card_id d) id); [|tauto].
  split; [done|]. by intros [].
Qed.

Lemma find_card_NoDup l c :
  NoDup (card_id <$> l) -> c ∈ l -> find_card l (card_id c) = Some c.
Proof.
  induction l as [|d l IH]; intros Hnd Hc; [set_solver|].
  apply NoDup_cons in Hnd as [Hd Hnd]. simpl.
  apply elem_of_cons in Hc as [->|Hc]; [by rewrite Z.eqb_refl|].
  destruct (Z.eqb_spec (card_id d) (card_id c)) as [E|]; [|auto].
  destruct Hd. change (card_id d) with (card_id d) in E. rewrite E.
  by apply list_elem_of_fmap_2.
Qed.

(** The largest value of a card of each type. *)
Definition max_value (t : card_type_t) : Z :=
  match t with CT_ATK => 8 | CT_HEAL => 7 | CT_SHIELD => 6 | CT_BUFF => 4 | CT_POISON => 3 end.

(** What the rest of the program relies on for a card of the table. *)
Record card_ok (c : card_def_t) : Prop := {
  card_ok_id : is_u16 (card_id c) /\ card_id c <> 0;
  card_ok_cost : 1 <= card_cost c <= 3;
  card_ok_type : exists t, card_type_of (card_type c) = Some t /\
    1 <= card_value c <= max_value t;
}.

Lemma g_cards_ok : Forall card_ok g_cards.
Proof.
  repeat constructor; simpl; try done; try mach_lia; by eexists.
Qed.

Lemma g_cards_nodup : NoDup (card_id <$> g_cards).
Proof. apply (bool_decide_unpack _). by vm_compute. Qed.

Lemma get_card_def_ok id c : get_card_def id = Some c -> card_ok c /\ card_id c = id.
Proof.
  intros [Hin Hid]%find_card_Some. split; [|done].
  pose proof g_cards_ok as H. rewrite Forall_forall in H. by apply H.
Qed.

#[export] Hint Resolve get_card_def_ok : tcg.

(** [get_card_def] is the inverse of the table's id column: it finds every
    card of the table under its own id, and nothing under any other id. *)
Theorem get_card_def_spec id c :
  get_card_def id = Some c <-> c ∈ g_cards /\ card_id c = id.
Proof.
  split; [apply find_card_Some|].
  intros [Hc <-]. apply find_card_NoDup; [apply g_cards_nodup|done].
Qed.
