(* ===== verification/Libc.v ===== *)
(** * The C library and system calls the game logic depends on

    [rand], [srand], [time] and [getpid] are operations on an abstract
    environment; [LibcOK] states what the C standard and POSIX promise of
    them.  [TestLibc] is a concrete environment, with the generator that the
    C standard gives as an example implementation of [rand]. *)

From S2P Require Export Prelude.

Class Libc := {
  env : Type;
  rand : St env Z;
  srand : Z -> env -> env;
  time : St env Z;
  getpid : env -> Z;
}.

(** [getpid()] as a computation. *)
Definition get_pid `{Libc} : St env Z := fun e => (getpid e, e).

Class LibcOK (L : Libc) : Prop := {
  (** [RAND_MAX] is at most [INT_MAX]. *)
  rand_range : forall e, 0 <= (rand e).1 <= 2147483647;
}.

Module TestLibc.
Record test_env := { seed : Z; now : Z; pid : Z }.

Definition test_rand : St test_env Z := fun e =>
  let s := (seed e * 1103515245 + 12345) mod 2147483648 in
  ((s / 65536) mod 32768, {| seed := s; now := now e; pid := pid e |}).

#[global] Instance libc : Libc := {|
  env := test_env;
  rand := test_rand;
  srand s e := {| seed := u32 s; now := now e; pid := pid e |};
  time e := (now e, {| seed := seed e; now := now e + 1; pid := pid e |});
  getpid := pid;
|}.

#[global] Instance libc_ok : LibcOK libc.
Proof. split. intros e. cbn. zlia. Qed.

Definition env0 : env := {| seed := 1; now := 1000; pid := 7 |}.
End TestLibc.

(** [post_rand]: the only fact about [rand] that the game relies on. *)
Lemma post_rand `{LibcOK} : post rand (fun r => 0 <= r <= 2147483647).
Proof. intros e. apply rand_range. Qed.
#[export] Hint Resolve post_rand : tcg.
