(* ===== verification/Game.v ===== *)
(** * Game rules as the server applies them

    src/server.c, lines 49 to 193: the battle log, damage, poison, the end of
    the game, dealing a hand and playing a card. *)

From S2P Require Export Cards Libc.

#[local] Open Scope tcg_scope.

(** ** Pointers to the fields of [state_t] *)

Definition l_p_hp : lens state_t Z := Lens p_hp set_p_hp.
Definition l_ai_hp : lens state_t Z := Lens ai_hp set_ai_hp.
Definition l_p_shield : lens state_t Z := Lens p_shield set_p_shield.
Definition l_ai_shield : lens state_t Z := Lens ai_shield set_ai_shield.
Definition l_p_buff : lens state_t Z := Lens p_buff set_p_buff.
Definition l_ai_buff : lens state_t Z := Lens ai_buff set_ai_buff.
Definition l_p_poison : lens state_t Z := Lens p_poison set_p_poison.
Definition l_ai_poison : lens state_t Z := Lens ai_poison set_ai_poison.

(** ** The battle log *)

(** [vsnprintf(buf, LOG_LEN, ...)] of the formatted text [text]: at most
    [LOG_LEN - 1] characters and a terminating NUL are stored, the rest of the
    buffer keeps its old bytes. *)
Definition vsnprintf (buf : list byte) (text : string) : list byte :=
  let t := take (LOG_LEN - 1) (str text) in
  t ++ [Byte.x00] ++ drop (length t + 1) buf.

Definition push_log (st : state_t) (text : string) : state_t :=
  let idx := Z.rem (log_head st) LOG_LINES in
  let st := set_logs (alter (fun l => vsnprintf l text) (Z.to_nat idx) (logs st)) st in
  set_log_head (u8 (Z.rem (log_head st + 1) LOG_LINES)) st.

(** ** Damage, poison, end of the game *)

Definition apply_damage (hp shield : lens state_t Z) (dmg : Z) (st : state_t) : state_t :=
  if dmg <=? 0 then st else
  let '(st, dmg) :=
    if 0 <? st.@shield then
      let s := st.@shield in
      let used := if dmg <? s then dmg else s in
      (st.{shield := i16 (st.@shield - used)}, dmg - used)
    else (st, dmg) in
  if 0 <? dmg then
    let st := st.{hp := i16 (st.@hp - dmg)} in
    if st.@hp <? 0 then st.{hp := 0} else st
  else st.

(** One of the two [if] blocks of [tick_poison]. *)
Definition tick_one (poison hp : lens state_t Z) (text : string) (st : state_t) : state_t :=
  if 0 <? st.@poison then
    let st := st.{poison := u8 (st.@poison - 1)} in
    let st := st.{hp := i16 (st.@hp - 2)} in
    let st := if st.@hp <? 0 then st.{hp := 0} else st in
    push_log st text
  else st.

Definition tick_poison (st : state_t) : state_t :=
  let st := tick_one l_p_poison l_p_hp "P takes poison (-2)" st in
  tick_one l_ai_poison l_ai_hp "AI takes poison (-2)" st.

(** A C integer as a condition. *)
Definition truthy (z : Z) : bool := negb (z =? 0).

Definition check_game_over (st : state_t) : state_t :=
  if truthy (game_over st) then st else
  if (p_hp st <=? 0) || (ai_hp st <=? 0) then
    let st := set_game_over 1 st in
    let st :=
      if ai_hp st <? p_hp st then set_winner 1 st
      else if p_hp st <? ai_hp st then set_winner 2 st
      else set_winner 0 st in
    push_log st "GAME OVER"
  else st.

(** ** Cards *)

Definition pool : list Z := [100; 101; 102; 200; 201; 300; 301; 400; 401; 500; 501].

Section Deal.
Context `{Libc}.

Definition rand_card_id : St env Z :=
  r ← rand; mret (default 0 (pool !! Z.to_nat (Z.rem r (Z.of_nat (length pool))))).

Definition deal_hand : St env hand_t :=
  c0 ← rand_card_id; c1 ← rand_card_id; c2 ← rand_card_id;
  mret {| hand_n := 3; card_ids := [c0; c1; c2; 0; 0; 0; 0; 0] |}.
End Deal.

(** [hand->card_ids[idx]]; the struct has 8 elements, and every reachable hand
    has [n <= 8]. *)
Definition card_at (h : hand_t) (idx : Z) : Z := default 0 (card_ids h !! Z.to_nat idx).

Definition who (is_player : bool) : string := if is_player then "P" else "AI".

Definition fmt_mana (st : state_t) : string := " [mana " +:+ pretty (mana st) +:+ "]".

(** The [switch] on the card's type; [None] is its [default] branch. *)
Definition play_effect (st : state_t) (c : card_def_t) (is_player : bool) : option state_t :=
  let self_hp := if is_player then l_p_hp else l_ai_hp in
  let enemy_hp := if is_player then l_ai_hp else l_p_hp in
  let self_shield := if is_player then l_p_shield else l_ai_shield in
  let enemy_shield := if is_player then l_ai_shield else l_p_shield in
  let self_buff := if is_player then l_p_buff else l_ai_buff in
  let enemy_poison := if is_player then l_ai_poison else l_p_poison in
  let v := card_value c in
  match card_type_of (card_type c) with
  | Some CT_ATK =>
      let dmg := v + st.@self_buff in
      let st := st.{self_buff := 0} in
      let st := apply_damage enemy_hp enemy_shield dmg st in
      Some (push_log st (who is_player +:+ " ATK (" +:+ pretty dmg +:+ ")" +:+ fmt_mana st))
  | Some CT_HEAL =>
      let st := st.{self_hp := i16 (st.@self_hp + v)} in
      Some (push_log st (who is_player +:+ " HEAL (+" +:+ pretty v +:+ ")" +:+ fmt_mana st))
  | Some CT_SHIELD =>
      let st := st.{self_shield := i16 (st.@self_shield + v)} in
      Some (push_log st (who is_player +:+ " SHIELD (+" +:+ pretty v +:+ ")" +:+ fmt_mana st))
  | Some CT_BUFF =>
      let st := st.{self_buff := i16 (st.@self_buff + v)} in
      Some (push_log st (who is_player +:+ " BUFF (+" +:+ pretty v +:+ " next)" +:+ fmt_mana st))
  | Some CT_POISON =>
      let st := st.{enemy_poison := u8 (st.@enemy_poison + u8 v)} in
      Some (push_log st (who is_player +:+ " POISON (+" +:+ pretty v +:+ " turns)" +:+ fmt_mana st))
  | None => None
  end.

Definition handle_play_card (st : state_t) (hand : hand_t) (is_player : bool)
    (idx : Z) : Z * state_t :=
  if hand_n hand <=? idx then (-1, st) else
  let cid := card_at hand idx in
  if cid =? 0 then (-3, st) else
  match get_card_def cid with
  | None => (-3, st)
  | Some c =>
      if mana st <? card_cost c then (-2, st) else
      let st := set_mana (u8 (mana st - card_cost c)) st in
      match play_effect st c is_player with
      | None => (-3, st)
      | Some st => (0, check_game_over st)
      end
  end.
