(* ===== verification/GameInv.v ===== *)
(** * Invariants of the game state

    The type invariant (every field stays in the range of its C type) and the
    game invariant (phases, mana, and a verdict that agrees with the hit
    points), and that each rule of Game.v preserves them. *)

From S2P Require Export Game.

#[local] Open Scope tcg_scope.

(** ** The invariants *)

(** The verdict that [check_game_over] computes. *)
Definition winner_of (p a : Z) : Z := if a <? p then 1 else if p <? a then 2 else 0.

(** [live s]: well-formed, in the game's ranges, and not yet decided; this is
    what holds between two statements of a handler. *)
Record live (s : state_t) : Prop := {
  live_wf : state_wf s;
  live_turn : 0 <= turn s <= 1;
  live_phase : 0 <= phase s <= 2;
  live_mana : mana s <= max_mana s;
  live_max_mana : max_mana s = 3;
  live_log_head : log_head s < LOG_LINES;
  live_over : game_over s = 0;
  live_winner : winner s = 0;
}.

(** [game_inv s]: what holds between two calls. *)
Record game_inv (s : state_t) : Prop := {
  gi_wf : state_wf s;
  gi_turn : 0 <= turn s <= 1;
  gi_phase : 0 <= phase s <= 2;
  gi_mana : mana s <= max_mana s;
  gi_max_mana : max_mana s = 3;
  gi_log_head : log_head s < LOG_LINES;
  gi_verdict :
    (game_over s = 0 /\ winner s = 0 /\ 0 < p_hp s /\ 0 < ai_hp s) \/
    (game_over s = 1 /\ (p_hp s <= 0 \/ ai_hp s <= 0) /\
     winner s = winner_of (p_hp s) (ai_hp s));
}.

(** A hand the server can hold: three slots, each empty (played by the AI) or
    holding a card of the pool. *)
Record hand_inv (h : hand_t) : Prop := {
  hi_wf : hand_wf h;
  hi_n : 0 <= hand_n h <= 8;
  hi_cards : Forall (fun c => c = 0 \/ c ∈ pool) (card_ids h);
}.

#[export] Instance game_inv_dec s : Decision (game_inv s).
Proof.
  refine (cast_if (decide (state_wf s /\ (0 <= turn s <= 1 /\ 0 <= phase s <= 2) /\
    (mana s <= max_mana s /\ max_mana s = 3 /\ log_head s < LOG_LINES) /\
    ((game_over s = 0 /\ winner s = 0 /\ 0 < p_hp s /\ 0 < ai_hp s) \/
     (game_over s = 1 /\ (p_hp s <= 0 \/ ai_hp s <= 0) /\
      winner s = winner_of (p_hp s) (ai_hp s))))));
  [by destruct_and!; split | by intros []; apply n].
Defined.

#[export] Instance hand_inv_dec h : Decision (hand_inv h).
Proof.
  refine (cast_if (decide (hand_wf h /\ 0 <= hand_n h <= 8 /\
    Forall (fun c => c = 0 \/ c ∈ pool) (card_ids h))));
  [by destruct_and!; split | by intros []; apply n].
Defined.

Lemma live_game_inv s :
  live s -> 0 < p_hp s -> 0 < ai_hp s -> game_inv s.
Proof. intros [] ??. split; auto. Qed.

Lemma game_inv_live s : game_inv s -> game_over s = 0 -> live s.
Proof. intros [] ?. split; auto. intuition lia. Qed.

#[export] Hint Resolve gi_wf live_wf hi_wf : tcg.

(** ** Frame lemmas for the assignments *)

Ltac game_lia := unfold LOG_LINES in *; mach_lia.

Ltac solve_frame :=
  intros;
  repeat match goal with
  | H : live _ |- _ => destruct H
  | H : state_wf _ |- _ => destruct H
  | H : game_inv _ |- _ => destruct H
  end;
  repeat split; cbn; first [assumption | game_lia | solve [auto]].

Section Frames.
Implicit Types (s : state_t) (v : Z).

Lemma live_set_p_hp v s : is_i16 v -> live s -> live (set_p_hp v s).
Proof. solve_frame. Qed.
Lemma live_set_ai_hp v s : is_i16 v -> live s -> live (set_ai_hp v s).
Proof. solve_frame. Qed.
Lemma live_set_p_shield v s : is_i16 v -> live s -> live (set_p_shield v s).
Proof. solve_frame. Qed.
Lemma live_set_ai_shield v s : is_i16 v -> live s -> live (set_ai_shield v s).
Proof. solve_frame. Qed.
Lemma live_set_p_buff v s : is_i16 v -> live s -> live (set_p_buff v s).
Proof. solve_frame. Qed.
Lemma live_set_ai_buff v s : is_i16 v -> live s -> live (set_ai_buff v s).
Proof. solve_frame. Qed.
Lemma live_set_p_poison v s : is_u8 v -> live s -> live (set_p_poison v s).
Proof. solve_frame. Qed.
Lemma live_set_ai_poison v s : is_u8 v -> live s -> live (set_ai_poison v s).
Proof. solve_frame. Qed.
Lemma live_set_mana v s : 0 <= v <= max_mana s -> live s -> live (set_mana v s).
Proof. solve_frame. Qed.
Lemma live_set_turn v s : 0 <= v <= 1 -> live s -> live (set_turn v s).
Proof. solve_frame. Qed.
Lemma live_set_phase v s : 0 <= v <= 2 -> live s -> live (set_phase v s).
Proof. solve_frame. Qed.

Lemma is_i16_0 : is_i16 0. Proof. done. Qed.
End Frames.

#[export] Hint Resolve live_set_p_hp live_set_ai_hp live_set_p_shield
  live_set_ai_shield live_set_p_buff live_set_ai_buff live_set_p_poison
  live_set_ai_poison is_i16_0 : tcg.

(** ** The battle log *)

Lemma vsnprintf_length buf text :
  length buf = LOG_LEN -> length (vsnprintf buf text) = LOG_LEN.
Proof.
  unfold vsnprintf, LOG_LEN. intros H. generalize (str text). intros t.
  rewrite !length_app, !length_drop, !length_take. cbn [length]. lia.
Qed.

(** The two writes of [push_log] keep the log a ring of [LOG_LINES] buffers. *)
Definition log_wf (l : list (list byte)) : Prop :=
  length l = Z.to_nat LOG_LINES /\ Forall (fun b => length b = LOG_LEN) l.

Lemma state_wf_log s : state_wf s -> log_wf (logs s).
Proof. intros []. by split. Qed.

Lemma push_log_writes s text :
  state_wf s -> exists h l, push_log s text = set_log_head h (set_logs l s) /\
    0 <= h < LOG_LINES /\ log_wf l.
Proof.
  intros Hs. destruct (state_wf_log _ Hs) as [Hl Hf]. destruct Hs.
  eexists _, _. split; [reflexivity|]. split.
  - unfold LOG_LINES, u8. cbn. mach_lia || (unfold is_u8 in *; zlia).
  - split; [by rewrite length_alter|].
    apply Forall_alter; [done|]. intros; by apply vsnprintf_length.
Qed.

Lemma live_set_log h l s :
  0 <= h < LOG_LINES -> log_wf l -> live s -> live (set_log_head h (set_logs l s)).
Proof. intros ? []. solve_frame. Qed.

Lemma game_inv_set_log h l s :
  0 <= h < LOG_LINES -> log_wf l -> game_inv s ->
  game_inv (set_log_head h (set_logs l s)).
Proof. intros ? []. solve_frame. Qed.

Lemma push_log_live s text : live s -> live (push_log s text).
Proof.
  intros Hs. destruct (push_log_writes s text (live_wf _ Hs)) as (h & l & -> & ? & ?).
  by apply live_set_log.
Qed.

Lemma push_log_inv s text : game_inv s -> game_inv (push_log s text).
Proof.
  intros Hs. destruct (push_log_writes s text (gi_wf _ Hs)) as (h & l & -> & ? & ?).
  by apply game_inv_set_log.
Qed.

#[export] Hint Resolve push_log_live push_log_inv : tcg.

(** ** The rules preserve [live] *)

(** A pointer through which any value of its C type may be stored. *)
Definition live_lens (l : lens state_t Z) (R : Z -> Prop) : Prop :=
  forall v s, R v -> live s -> live (lset l v s).

Lemma live_l_p_hp : live_lens l_p_hp is_i16. Proof. exact live_set_p_hp. Qed.
Lemma live_l_ai_hp : live_lens l_ai_hp is_i16. Proof. exact live_set_ai_hp. Qed.
Lemma live_l_p_shield : live_lens l_p_shield is_i16. Proof. exact live_set_p_shield. Qed.
Lemma live_l_ai_shield : live_lens l_ai_shield is_i16. Proof. exact live_set_ai_shield. Qed.
Lemma live_l_p_buff : live_lens l_p_buff is_i16. Proof. exact live_set_p_buff. Qed.
Lemma live_l_ai_buff : live_lens l_ai_buff is_i16. Proof. exact live_set_ai_buff. Qed.
Lemma live_l_p_poison : live_lens l_p_poison is_u8. Proof. exact live_set_p_poison. Qed.
Lemma live_l_ai_poison : live_lens l_ai_poison is_u8. Proof. exact live_set_ai_poison. Qed.

#[export] Hint Resolve live_l_p_hp live_l_ai_hp live_l_p_shield live_l_ai_shield
  live_l_p_buff live_l_ai_buff live_l_p_poison live_l_ai_poison : tcg.

Lemma live_lset l R v s : live_lens l R -> R v -> live s -> live (lset l v s).
Proof. intros Hl. apply Hl. Qed.
#[export] Hint Extern 1 (live (lset _ _ _)) =>
  eapply live_lset; [solve [eauto with tcg] | .. ] : tcg.

Lemma apply_damage_live hp shield dmg s :
  live_lens hp is_i16 -> live_lens shield is_i16 -> live s ->
  live (apply_damage hp shield dmg s).
Proof.
  intros Hh Hs Hl. unfold apply_damage.
  repeat case_match; simplify_eq; eauto 8 with tcg mach.
Qed.

Lemma tick_one_live poison hp text s :
  live_lens poison is_u8 -> live_lens hp is_i16 -> live s ->
  live (tick_one poison hp text s).
Proof.
  intros Hp Hh Hl. unfold tick_one. cbv zeta.
  repeat case_match; eauto 8 with tcg mach.
Qed.

Lemma tick_poison_live s : live s -> live (tick_poison s).
Proof. intros Hl. apply tick_one_live; [..|apply tick_one_live]; auto with tcg. Qed.

Lemma play_effect_live s c is_player s' :
  live s -> play_effect s c is_player = Some s' -> live s'.
Proof.
  intros Hl H. unfold play_effect in H. cbv zeta in H.
  repeat case_match; simplify_eq; apply push_log_live;
    first [apply apply_damage_live | idtac]; eauto 6 with tcg mach.
Qed.

(** [check_game_over] turns an undecided state into one with its verdict. *)
Lemma check_game_over_inv s : live s -> game_inv (check_game_over s).
Proof.
  intros Hl. unfold check_game_over, truthy. rewrite (live_over _ Hl). cbn [negb Z.eqb].
  destruct ((p_hp s <=? 0) || (ai_hp s <=? 0)) eqn:E.
  - apply push_log_inv. unfold winner_of. destruct Hl, live_wf0.
    cbn. repeat case_match; repeat split; cbn; try first [assumption | game_lia | done];
      right; unfold winner_of; repeat zcase; lia.
  - apply live_game_inv; [done|lia..].
Qed.

(** Playing a card, accepted or refused, keeps the game invariant. *)
Lemma handle_play_card_inv s h is_player idx :
  game_inv s -> game_over s = 0 -> game_inv (handle_play_card s h is_player idx).2.
Proof.
  intros Hg Ho. pose proof (game_inv_live _ Hg Ho) as Hl.
  unfold handle_play_card. repeat case_match; try done.
  - cbn. eapply check_game_over_inv, play_effect_live; [|done].
    apply live_set_mana; [|done]. destruct Hl, live_wf0.
    destruct (get_card_def_ok _ _ H1) as [[] _]. unfold u8. zlia || mach_lia.
  - (* the [default] branch needs an unknown card type *)
    destruct (get_card_def_ok _ _ H1) as [[_ _ (t & Ht & _)] _].
    unfold play_effect in *. rewrite Ht in *. by destruct t.
Qed.
