(* ===== verification/Rules.v ===== *)
(** * The rules of the game, abstractly, and that the server follows them

    The specification forgets widths, logs and pointers: a board is two
    fighters with unbounded counters.  The refinement theorems say that the
    handlers of Game.v compute the specification's move on every board whose
    counters leave room for it, and [bounded] says for how many moves the
    counters are certain to. *)

From S2P Require Export GameInv.

#[local] Open Scope tcg_scope.

(** ** Specification *)

Record fighter := { f_hp : Z; f_shield : Z; f_buff : Z; f_poison : Z }.
Record board := { b_player : fighter; b_ai : fighter }.

(** A blow of strength [d]: the shield absorbs what it can, the rest is taken
    from the hit points, which stop at zero. *)
Definition struck (d : Z) (f : fighter) : fighter :=
  {| f_hp := Z.max 0 (f_hp f - Z.max 0 (d - f_shield f));
     f_shield := Z.max 0 (f_shield f - d);
     f_buff := f_buff f; f_poison := f_poison f |}.

(** The effect of a card of type [t] and value [v] on its owner and the
    opponent. *)
Definition rule (t : card_type_t) (v : Z) (me foe : fighter) : fighter * fighter :=
  match t with
  | CT_ATK =>
      (Build_fighter (f_hp me) (f_shield me) 0 (f_poison me), struck (v + f_buff me) foe)
  | CT_HEAL => (Build_fighter (f_hp me + v) (f_shield me) (f_buff me) (f_poison me), foe)
  | CT_SHIELD => (Build_fighter (f_hp me) (f_shield me + v) (f_buff me) (f_poison me), foe)
  | CT_BUFF => (Build_fighter (f_hp me) (f_shield me) (f_buff me + v) (f_poison me), foe)
  | CT_POISON =>
      (me, Build_fighter (f_hp foe) (f_shield foe) (f_buff foe) (f_poison foe + v))
  end.

Definition board_play (is_player : bool) (t : card_type_t) (v : Z) (b : board) : board :=
  if is_player then
    let '(me, foe) := rule t v (b_player b) (b_ai b) in Build_board me foe
  else
    let '(me, foe) := rule t v (b_ai b) (b_player b) in Build_board foe me.

(** Poison at the end of a turn: two hit points, ignoring the shield. *)
Definition poisoned (f : fighter) : fighter :=
  if 0 <? f_poison f then
    Build_fighter (Z.max 0 (f_hp f - 2)) (f_shield f) (f_buff f) (f_poison f - 1)
  else f.

Definition board_tick (b : board) : board :=
  {| b_player := poisoned (b_player b); b_ai := poisoned (b_ai b) |}.

Definition board_over (b : board) : bool :=
  (f_hp (b_player b) <=? 0) || (f_hp (b_ai b) <=? 0).

(** The board of a server state. *)
Definition board_of (s : state_t) : board :=
  {| b_player := Build_fighter (p_hp s) (p_shield s) (p_buff s) (p_poison s);
     b_ai := Build_fighter (ai_hp s) (ai_shield s) (ai_buff s) (ai_poison s) |}.

(** The verdict on an action of the hand: the return code of
    [handle_play_card]. *)
Definition play_verdict (s : state_t) (h : hand_t) (idx : Z) : Z :=
  if hand_n h <=? idx then -1
  else match get_card_def (card_at h idx) with
       | None => -3
       | Some c => if mana s <? card_cost c then -2 else 0
       end.

(** Counters that leave room for one more move. *)
Definition fighter_calm (f : fighter) : Prop :=
  0 <= f_hp f <= 32000 /\ 0 <= f_shield f <= 32000 /\
  0 <= f_buff f <= 32000 /\ 0 <= f_poison f <= 252.
Definition calm (b : board) : Prop :=
  fighter_calm (b_player b) /\ fighter_calm (b_ai b).

(** What the counters can have grown to after [k] cards. *)
Definition fighter_bounded (k : Z) (f : fighter) : Prop :=
  0 <= f_hp f <= 30 + 7 * k /\ 0 <= f_shield f <= 6 * k /\
  0 <= f_buff f <= 4 * k /\ 0 <= f_poison f <= 3 * k.
Definition bounded (k : Z) (b : board) : Prop :=
  fighter_bounded k (b_player b) /\ fighter_bounded k (b_ai b).

(** ** Refinement *)

Lemma board_of_push_log s text : board_of (push_log s text) = board_of s.
Proof. reflexivity. Qed.

Lemma board_of_check_game_over s : board_of (check_game_over s) = board_of s.
Proof. unfold check_game_over. repeat case_match; reflexivity. Qed.

Create Rewrite HintDb board.
#[export] Hint Rewrite board_of_push_log board_of_check_game_over : board.

Ltac board_lia :=
  repeat match goal with
  | |- Build_board _ _ = Build_board _ _ => f_equal
  | |- Build_fighter _ _ _ _ = Build_fighter _ _ _ _ => f_equal
  end; try (unfold i16, u8 in *; zlia).

Lemma board_apply_damage d s :
  0 < d <= 32008 -> calm (board_of s) ->
  board_of (apply_damage l_ai_hp l_ai_shield d s) =
    Build_board (b_player (board_of s)) (struck d (b_ai (board_of s))) /\
  board_of (apply_damage l_p_hp l_p_shield d s) =
    Build_board (struck d (b_player (board_of s))) (b_ai (board_of s)).
Proof.
  intros Hd [Hp Ha]. unfold fighter_calm, board_of, struck in *.
  cbn in *. destruct_and?.
  unfold apply_damage. destruct (Z.leb_spec d 0); [lia|].
  split; repeat (cbn; zcase); cbn; board_lia.
Qed.

Lemma board_play_effect s c t is_player :
  card_type_of (card_type c) = Some t -> 1 <= card_value c <= max_value t ->
  calm (board_of s) ->
  exists s', play_effect s c is_player = Some s' /\
    board_of s' = board_play is_player t (card_value c) (board_of s).
Proof.
  intros Ht Hv Hc. unfold play_effect. rewrite Ht.
  pose proof Hc as [Hcp Hca]. unfold fighter_calm in Hcp, Hca. cbn in Hcp, Hca.
  destruct t; cbv zeta; (eexists; split; [reflexivity|]); autorewrite with board;
    cbn in Hv; destruct is_player;
    try (unfold board_of; cbn; board_lia; fail).
  - refine (eq_trans (proj1 (board_apply_damage (card_value c + p_buff s)
      (set_p_buff 0 s) _ _)) eq_refl); [lia|].
    unfold calm, fighter_calm; cbn; lia.
  - refine (eq_trans (proj2 (board_apply_damage (card_value c + ai_buff s)
      (set_ai_buff 0 s) _ _)) eq_refl); [lia|].
    unfold calm, fighter_calm; cbn; lia.
Qed.

Lemma board_tick_one_p s :
  fighter_calm (b_player (board_of s)) ->
  board_of (tick_one l_p_poison l_p_hp "P takes poison (-2)" s) =
    Build_board (poisoned (b_player (board_of s))) (b_ai (board_of s)).
Proof.
  unfold fighter_calm, tick_one, poisoned, board_of. cbn. intros Hc.
  destruct (Z.ltb_spec 0 (p_poison s)); [|done].
  cbn. zcase; cbn; board_lia.
Qed.

Lemma board_tick_one_ai s :
  fighter_calm (b_ai (board_of s)) ->
  board_of (tick_one l_ai_poison l_ai_hp "AI takes poison (-2)" s) =
    Build_board (b_player (board_of s)) (poisoned (b_ai (board_of s))).
Proof.
  unfold fighter_calm, tick_one, poisoned, board_of. cbn. intros Hc.
  destruct (Z.ltb_spec 0 (ai_poison s)); [|done].
  cbn. zcase; cbn; board_lia.
Qed.

Lemma board_of_tick_poison s :
  calm (board_of s) -> board_of (tick_poison s) = board_tick (board_of s).
Proof.
  intros [Hp Ha]. unfold tick_poison.
  rewrite board_tick_one_ai; rewrite board_tick_one_p by done; done.
Qed.

(** The counters have room for at least 84 cards. *)
Lemma bounded_calm k b : 0 <= k <= 84 -> bounded k b -> calm b.
Proof. unfold bounded, calm, fighter_bounded, fighter_calm. lia. Qed.

Lemma bounded_play k is_player t v b :
  1 <= v <= max_value t -> 0 <= k -> bounded k b ->
  bounded (k + 1) (board_play is_player t v b).
Proof.
  intros Hv Hk. unfold bounded, fighter_bounded.
  destruct t, is_player; cbn in *; intuition lia.
Qed.

Lemma bounded_tick k b : bounded k b -> bounded k (board_tick b).
Proof.
  unfold bounded, fighter_bounded, board_tick, poisoned.
  destruct b as [[] []]. cbn. intros. do 2 zcase; cbn; lia.
Qed.
