(* ===== verification/Turns.v ===== *)
(** * Turn phases and the AI

    src/server.c, lines 195 to 270: the phase machine DRAW -> MAIN -> END, the
    AI's evaluation of a card, and its turn. *)

From S2P Require Export Rules.

#[local] Open Scope tcg_scope.

(** [hand->card_ids[i] = v] *)
Definition set_card (h : hand_t) (i v : Z) : hand_t :=
  {| hand_n := hand_n h; card_ids := <[Z.to_nat i := v]> (card_ids h) |}.

(** ** The AI's choice *)

Definition ai_eval_card (st : state_t) (c : card_def_t) : Z :=
  let score := 0 in
  let score := if (ai_hp st <? 10) && (card_type c =? CT_HEAL) then score + 100 else score in
  let score := if (0 <? p_shield st) && (card_type c =? CT_BUFF) then score + 40 else score in
  let score :=
    match card_type_of (card_type c) with
    | Some CT_ATK => score + card_value c
    | Some CT_POISON => if p_poison st =? 0 then score + 30 else score
    | Some CT_SHIELD => if ai_shield st =? 0 then score + 20 else score
    | _ => score
    end in
  score - card_cost c * 2.

(** The card of slot [i] if the AI may play it. *)
Definition playable (st : state_t) (hand : hand_t) (i : Z) : option card_def_t :=
  let cid := card_at hand i in
  if cid =? 0 then None else
  match get_card_def cid with
  | None => None
  | Some c => if card_cost c <=? mana st then Some c else None
  end.

(** One iteration of the scan over the hand: [best] is
    [(best_idx, best_score)]. *)
Definition ai_consider (st : state_t) (hand : hand_t) (best : Z * Z) (i : Z) : Z * Z :=
  match playable st hand i with
  | None => best
  | Some c =>
      let score := ai_eval_card st c in
      if best.2 <? score then (i, score) else best
  end.

Definition ai_scan (st : state_t) (hand : hand_t) : Z * Z :=
  foldl (ai_consider st hand) (-1, -9999) (seqZ 0 (hand_n hand)).

(** One iteration of the [while] loop of [process_ai_turn]; the loop's
    variables are the state and the hand. *)
Definition ai_step (v : state_t * hand_t) : state_t * hand_t + state_t * hand_t :=
  let '(st, hand) := v in
  if (phase st =? PHASE_MAIN) && negb (truthy (game_over st)) then
    let best_idx := (ai_scan st hand).1 in
    if 0 <=? best_idx then
      let st := (handle_play_card st hand false (u8 best_idx)).2 in
      inl (st, set_card hand best_idx 0)
    else inr (st, hand)
  else inr (st, hand).

(** A hand has 8 slots and every iteration empties one. *)
Definition ai_fuel : nat := 9.

(** ** The phase machine *)

Section Phases.
Context `{Libc}.

Definition phase_draw (st : state_t) (hand : hand_t) : St env (state_t * hand_t) :=
  let st := set_mana (max_mana st) st in
  '(st, hand) ← (if turn st =? 0 then
      hand ← deal_hand; mret (push_log st "P: DRAW PHASE", hand)
    else
      hand ← deal_hand; mret (push_log st "AI: DRAW PHASE", hand));
  mret (set_phase PHASE_MAIN st, hand).

Definition enter_turn (st : state_t) (hand : hand_t) (side : Z) : St env (state_t * hand_t) :=
  let st := set_turn (u8 side) st in
  let st := set_phase PHASE_DRAW st in
  phase_draw st hand.

Definition phase_end (st : state_t) (hand : hand_t) : St env (state_t * hand_t) :=
  let st := set_phase PHASE_END st in
  let st := push_log st ((if turn st =? 0 then "P" else "AI") +:+ ": END PHASE") in
  let st := tick_poison st in
  let st := check_game_over st in
  if truthy (game_over st) then mret (st, hand) else
  let next_side := if turn st =? 0 then 1 else 0 in
  enter_turn st hand next_side.

(** The loop's [None] (out of fuel) never occurs on a hand of at most 8
    cards: [ai_turn_terminates]. *)
Definition process_ai_turn (st : state_t) (hand : hand_t) : St env (state_t * hand_t) :=
  match loop ai_step ai_fuel (st, hand) with
  | None => mret (st, hand)
  | Some (st, hand) =>
      if negb (truthy (game_over st)) then phase_end st hand else mret (st, hand)
  end.
End Phases.
