(* ===== verification/TurnsInv.v ===== *)
(** * The phase machine and the AI: choice, termination, invariants

    The scan of the AI finds a best card, its loop ends, and the phases and the
    turn of the AI preserve the invariants of GameInv.v. *)

From S2P Require Export Turns.

#[local] Open Scope tcg_scope.

(** ** The AI's choice *)

(** [best] is the AI's choice among the first [k] slots: nothing when no slot
    is playable, otherwise the first slot of maximal score. *)
Definition best_of (st : state_t) (hand : hand_t) (k : Z) (best : Z * Z) : Prop :=
  (best = (-1, -9999) /\ forall j, 0 <= j < k -> playable st hand j = None) \/
  (0 <= best.1 < k /\
   (exists c, playable st hand best.1 = Some c /\ best.2 = ai_eval_card st c) /\
   (forall j d, 0 <= j < k -> playable st hand j = Some d ->
      ai_eval_card st d <= best.2 /\ (j < best.1 -> ai_eval_card st d < best.2))).

Lemma playable_Some st hand i c :
  playable st hand i = Some c <->
  card_at hand i <> 0 /\ get_card_def (card_at hand i) = Some c /\ card_cost c <= mana st.
Proof.
  unfold playable. zcase; [by split; [|intros [? _]]|].
  destruct (get_card_def _) as [d|]; [|by split; [|intros (_ & ? & _)]].
  zcase; split; try done; [by intros [= ->]|by intros (_ & [= ->] & _)|].
  intros (_ & [= ->] & ?). lia.
Qed.

Lemma ai_eval_card_bound st c : card_ok c -> -9999 < ai_eval_card st c.
Proof.
  intros [_ Hc (t & Ht & Hv)]. unfold ai_eval_card. rewrite Ht.
  destruct t; repeat case_match; lia.
Qed.

Lemma playable_score st hand i c :
  playable st hand i = Some c -> -9999 < ai_eval_card st c.
Proof. intros (_ & [Hc _]%get_card_def_ok & _)%playable_Some. by apply ai_eval_card_bound. Qed.

Lemma ai_consider_best st hand k best :
  0 <= k -> best_of st hand k best ->
  best_of st hand (k + 1) (ai_consider st hand best k).
Proof.
  intros Hk Hb. unfold ai_consider. destruct (playable st hand k) as [c|] eqn:E.
  - pose proof (playable_score _ _ _ _ E) as Hs.
    destruct Hb as [[-> Hn]|(Hr & (c' & Hc' & Hs') & Hm)]; cbn [fst snd].
    + destruct (Z.ltb_spec (-9999) (ai_eval_card st c)); [|lia].
      right. cbn. split; [lia|]. split; [eauto|]. intros j d Hj Hd.
      destruct (decide (j = k)) as [->|]; [rewrite E in Hd; simplify_eq; lia|].
      rewrite Hn in Hd by lia. done.
    + destruct (Z.ltb_spec best.2 (ai_eval_card st c)); right; cbn.
      * split; [lia|]. split; [eauto|]. intros j d Hj Hd.
        destruct (decide (j = k)) as [->|]; [rewrite E in Hd; simplify_eq; lia|].
        destruct (Hm j d); [lia|done|]. lia.
      * split; [lia|]. split; [eauto|]. intros j d Hj Hd.
        destruct (decide (j = k)) as [->|]; [rewrite E in Hd; simplify_eq; lia|].
        apply Hm; [lia|done].
  - assert (forall j d, 0 <= j < k + 1 -> playable st hand j = Some d -> 0 <= j < k) as Hlt.
    { intros j d Hj Hd. destruct (decide (j = k)) as [->|]; [congruence|lia]. }
    destruct Hb as [[-> Hn]|(Hr & Hc & Hm)]; [left|right].
    + split; [done|]. intros j Hj. destruct (playable st hand j) eqn:Ej; [|done].
      rewrite <- Ej. eauto.
    + split; [lia|]. split; [done|]. eauto.
Qed.

Lemma ai_scan_best st hand :
  0 <= hand_n hand -> best_of st hand (hand_n hand) (ai_scan st hand).
Proof.
  intros Hn. unfold ai_scan. rewrite <- (Z2Nat.id _ Hn).
  induction (Z.to_nat (hand_n hand)) as [|n IH].
  - left. split; [done|lia].
  - rewrite seqZ_S, foldl_app, Nat2Z.inj_succ. apply ai_consider_best; [lia|done].
Qed.

(** The slot the AI plays holds a card that it can pay for. *)
Lemma ai_scan_plays st hand :
  0 <= hand_n hand -> 0 <= (ai_scan st hand).1 ->
  (ai_scan st hand).1 < hand_n hand /\
  exists c, playable st hand (ai_scan st hand).1 = Some c.
Proof.
  intros Hn H0. destruct (ai_scan_best st hand Hn) as [[E _]|(Hr & (c & Hc & _) & _)].
  - rewrite E in H0. cbn in H0. lia.
  - split; [lia|eauto].
Qed.

(** ** Hands *)

Lemma pool_u16 c : c ∈ pool -> is_u16 c.
Proof.
  assert (Forall is_u16 pool) as H by (repeat constructor; done).
  rewrite Forall_forall in H. apply H.
Qed.

Lemma set_card_inv h i : hand_inv h -> hand_inv (set_card h i 0).
Proof.
  intros [[? Hl Hc] ? Hp]. split; cbn; [split; cbn|done|].
  - done.
  - by rewrite length_insert.
  - by apply Forall_insert.
  - apply Forall_insert; [done|by left].
Qed.

(** The number of cards left, the measure of the AI's loop. *)
Definition cards_left (l : list Z) : nat := length (filter (fun c => c <> 0) l).

Lemma cards_left_clear l i c :
  l !! i = Some c -> c <> 0 -> (cards_left (<[i := 0%Z]> l) < cards_left l)%nat.
Proof.
  intros Hi Hc. unfold cards_left.
  rewrite <- (take_drop_middle l i c Hi) at 2.
  assert (i < length l)%nat by (by eapply lookup_lt_Some).
  rewrite insert_take_drop by done.
  rewrite !filter_app, !filter_cons, !length_app.
  destruct (decide (0 <> 0)); [done|]. destruct (decide (c <> 0)); [|done]. cbn. lia.
Qed.

Lemma cards_left_bound l : (cards_left l <= length l)%nat.
Proof. apply length_filter. Qed.

Lemma card_at_nonzero h i :
  card_at h i <> 0 -> card_ids h !! Z.to_nat i = Some (card_at h i).
Proof. unfold card_at. by destruct (card_ids h !! Z.to_nat i). Qed.

(** ** The AI's loop *)

(** What no card changes: whose turn it is, the phase and the mana cap. *)
Definition same_turn (s s' : state_t) : Prop :=
  turn s' = turn s /\ phase s' = phase s /\ max_mana s' = max_mana s.

Lemma check_game_over_same s : same_turn s (check_game_over s).
Proof. unfold check_game_over. repeat case_match; done. Qed.

Lemma apply_damage_same is_player d s :
  same_turn s (apply_damage (if is_player : bool then l_ai_hp else l_p_hp)
    (if is_player then l_ai_shield else l_p_shield) d s).
Proof. unfold apply_damage. destruct is_player; repeat case_match; simplify_eq; done. Qed.

Lemma play_effect_same s c is_player s' :
  play_effect s c is_player = Some s' -> same_turn s s'.
Proof.
  intros H. unfold play_effect in H. cbv zeta in H.
  destruct (card_type_of (card_type c)) as [[]|]; simplify_eq;
    try (destruct is_player; done).
  exact (apply_damage_same is_player _ (lset (if is_player then l_p_buff else l_ai_buff) 0 s))
  || (destruct is_player;
      [exact (apply_damage_same true _ (set_p_buff 0 s))
      |exact (apply_damage_same false _ (set_ai_buff 0 s))]).
Qed.

Lemma handle_play_card_same s h is_player idx :
  same_turn s (handle_play_card s h is_player idx).2.
Proof.
  unfold handle_play_card. repeat case_match; try done.
  match goal with H : play_effect _ _ _ = Some _ |- _ => apply play_effect_same in H as H' end.
  cbn [snd]. match goal with |- same_turn _ (check_game_over ?t) =>
    destruct (check_game_over_same t) as (-> & -> & ->) || pose proof (check_game_over_same t) end.
  unfold same_turn in *. cbn in *. intuition congruence.
Qed.

(** Only [handle_play_card] itself spends mana. *)
Lemma check_game_over_mana s : mana (check_game_over s) = mana s.
Proof. unfold check_game_over. repeat case_match; done. Qed.

Lemma play_effect_mana s c is_player s' :
  play_effect s c is_player = Some s' -> mana s' = mana s.
Proof.
  intros H. unfold play_effect, apply_damage in H. cbv zeta in H.
  destruct is_player; repeat case_match; simplify_eq; done.
Qed.

(** A card the rules accept is played. *)
Lemma play_card_ok_rc s h is_player idx :
  play_verdict s h idx = 0 -> exists s', handle_play_card s h is_player idx = (0, s').
Proof.
  unfold play_verdict, handle_play_card. destruct (hand_n h <=? idx); [done|].
  destruct (Z.eqb_spec (card_at h idx) 0) as [->|]; [done|].
  destruct (get_card_def (card_at h idx)) as [c|] eqn:Hc; [|done].
  destruct (mana s <? card_cost c); [done|intros _].
  destruct (get_card_def_ok _ _ Hc) as [[_ _ (t & Ht & _)] _].
  unfold play_effect. rewrite Ht. destruct t; eauto.
Qed.

(** A card they refuse changes nothing, although the mana is deducted before
    the card's type is examined. *)
Lemma play_card_refused s h is_player idx :
  play_verdict s h idx <> 0 ->
  handle_play_card s h is_player idx = (play_verdict s h idx, s).
Proof.
  unfold play_verdict, handle_play_card. destruct (hand_n h <=? idx); [done|].
  destruct (Z.eqb_spec (card_at h idx) 0) as [->|]; [done|].
  destruct (get_card_def (card_at h idx)) as [c|]; [|done].
  by destruct (mana s <? card_cost c).
Qed.

(** On a board with room, an accepted card is the move of the rules. *)
Lemma play_card_move s h is_player idx :
  state_wf s -> calm (board_of s) -> play_verdict s h idx = 0 ->
  exists c t, get_card_def (card_at h idx) = Some c /\
    card_type_of (card_type c) = Some t /\
    board_of (handle_play_card s h is_player idx).2 =
      board_play is_player t (card_value c) (board_of s) /\
    mana (handle_play_card s h is_player idx).2 = mana s - card_cost c.
Proof.
  intros Hwf Hcalm. unfold play_verdict, handle_play_card.
  destruct (hand_n h <=? idx); [done|].
  destruct (Z.eqb_spec (card_at h idx) 0) as [->|]; [done|].
  destruct (get_card_def (card_at h idx)) as [c|] eqn:Hc; [|done].
  destruct (Z.ltb_spec (mana s) (card_cost c)) as [|Hm]; [done|intros _].
  destruct (get_card_def_ok _ _ Hc) as [[_ Hcost (t & Ht & Hv)] _].
  edestruct (board_play_effect (set_mana (u8 (mana s - card_cost c)) s) c t is_player)
    as (s' & Hs' & Hb); [done..|].
  exists c, t. rewrite Hs'. splits; [done..| |]; cbn [snd].
  - rewrite board_of_check_game_over. exact Hb.
  - apply play_effect_mana in Hs'. rewrite check_game_over_mana, Hs'. cbn.
    pose proof (wf_mana _ Hwf). apply u8_id. mach_lia.
Qed.

(** The loop invariant. *)
Definition ai_inv (v : state_t * hand_t) : Prop := game_inv v.1 /\ hand_inv v.2.

Lemma ai_step_inl v v' :
  ai_inv v -> ai_step v = inl v' ->
  ai_inv v' /\ same_turn v.1 v'.1 /\
  (cards_left (card_ids v'.2) < cards_left (card_ids v.2))%nat.
Proof.
  destruct v as [st h]. intros [Hs Hh] H. unfold ai_step in H. cbn [fst snd] in *.
  destruct (_ && _) eqn:Hw; [|done].
  destruct (Z.leb_spec 0 (ai_scan st h).1) as [H0|]; [|done]. simplify_eq. cbn [fst snd].
  destruct (ai_scan_plays st h (proj1 (hi_n _ Hh)) H0) as (_ & c & Hc).
  apply playable_Some in Hc as (Hnz & _ & _).
  split; [split; cbn|split].
  - apply handle_play_card_inv; [done|].
    unfold truthy in Hw. destruct (Z.eqb_spec (game_over st) 0); [done|].
    by rewrite andb_false_r in Hw.
  - by apply set_card_inv.
  - apply handle_play_card_same.
  - eapply cards_left_clear, Hnz. by apply card_at_nonzero.
Qed.

Lemma ai_step_inr v v' : ai_step v = inr v' -> v' = v.
Proof. destruct v as [st h]. unfold ai_step. repeat case_match; naive_solver. Qed.

(** The loop ends within its fuel, in a state of the same turn. *)
Lemma ai_loop_ends st h :
  game_inv st -> hand_inv h ->
  exists st' h', loop ai_step ai_fuel (st, h) = Some (st', h') /\
    game_inv st' /\ hand_inv h' /\ same_turn st st'.
Proof.
  intros Hs Hh.
  destruct (loop_total ai_step ai_inv (fun v => cards_left (card_ids v.2)) ai_fuel (st, h))
    as [[st' h'] Hr].
  - intros v v' Hv Hi. destruct (ai_step_inl _ _ Hv Hi) as (? & _ & ?). done.
  - done.
  - cbn. pose proof (cards_left_bound (card_ids h)) as Hb.
    rewrite (wf_card_ids _ (hi_wf _ Hh)) in Hb. unfold ai_fuel. lia.
  - exists st', h'. split; [done|].
    pose proof (loop_inv ai_step (fun v => ai_inv v /\ same_turn st v.1)
      (fun v => ai_inv v /\ same_turn st v.1) ai_fuel (st, h) (st', h')) as Hi.
    destruct Hi as ([] & ?); [| |done|done|done].
    + intros v v' [Hv Ht] Hst. destruct (ai_step_inl _ _ Hv Hst) as (? & Ht' & _).
      unfold same_turn in *. intuition congruence.
    + intros v v' Hv ->%ai_step_inr. done.
Qed.

(** ** The phase machine *)

(** A hand as [deal_hand] leaves it. *)
Definition fresh_hand (h : hand_t) : Prop :=
  hand_n h = 3 /\ exists c0 c1 c2, c0 ∈ pool /\ c1 ∈ pool /\ c2 ∈ pool /\
    card_ids h = [c0; c1; c2; 0; 0; 0; 0; 0].

Lemma fresh_hand_inv h : fresh_hand h -> hand_inv h.
Proof.
  intros (Hn & c0 & c1 & c2 & H0 & H1 & H2 & Hc).
  pose proof (pool_u16 _ H0). pose proof (pool_u16 _ H1). pose proof (pool_u16 _ H2).
  split; [split|..]; rewrite ?Hn, ?Hc; try done.
  - do 8 (apply Forall_cons_2; [done|]). by apply Forall_nil_2.
  - do 8 (apply Forall_cons_2; [by auto|]). by apply Forall_nil_2.
Qed.

(** The start of a main phase: the state in which a side can act. *)
Record main_phase (side : Z) (s : state_t) (h : hand_t) : Prop := {
  mp_inv : game_inv s;
  mp_over : game_over s = 0;
  mp_turn : turn s = side;
  mp_phase : phase s = PHASE_MAIN;
  mp_mana : mana s = max_mana s;
  mp_hand : fresh_hand h;
}.

Lemma game_inv_set_mana v s : 0 <= v <= max_mana s -> game_inv s -> game_inv (set_mana v s).
Proof. solve_frame. Qed.
Lemma game_inv_set_turn v s : 0 <= v <= 1 -> game_inv s -> game_inv (set_turn v s).
Proof. solve_frame. Qed.
Lemma game_inv_set_phase v s : 0 <= v <= 2 -> game_inv s -> game_inv (set_phase v s).
Proof. solve_frame. Qed.

(** What an end of turn leaves behind: the verdict, or the other side's main
    phase. *)
Definition turn_passed (from : Z) (r : state_t * hand_t) : Prop :=
  (game_inv r.1 /\ game_over r.1 = 1 /\ hand_inv r.2) \/ main_phase (1 - from) r.1 r.2.

Section Phases.
Context `{LibcOK}.

Lemma rand_card_id_post : post rand_card_id (fun c => c ∈ pool).
Proof.
  unfold rand_card_id. eapply post_bind; [apply post_rand|].
  intros r Hr. apply post_ret.
  destruct (pool !! Z.to_nat _) as [c|] eqn:E; [by eapply list_elem_of_lookup_2|].
  apply lookup_ge_None in E. change (length pool) with 11%nat in E.
  change (Z.of_nat 11) with 11 in E.
  pose proof (Z.rem_bound_pos r 11 (proj1 Hr) eq_refl).
  generalize dependent (Z.rem r 11). lia.
Qed.

Lemma deal_hand_post : post deal_hand fresh_hand.
Proof.
  unfold deal_hand.
  eapply post_bind; [apply rand_card_id_post|]. intros c0 H0'.
  eapply post_bind; [apply rand_card_id_post|]. intros c1 H1'.
  eapply post_bind; [apply rand_card_id_post|]. intros c2 H2'.
  apply post_ret. split; [done|]. by exists c0, c1, c2.
Qed.

Lemma enter_turn_post s h side :
  game_inv s -> game_over s = 0 -> 0 <= side <= 1 ->
  post (enter_turn s h side) (fun r => main_phase side r.1 r.2).
Proof.
  intros Hs Ho Hside. unfold enter_turn, phase_draw.
  rewrite u8_id by mach_lia. cbn [turn set_turn set_phase set_mana max_mana].
  set (t := set_mana _ _).
  assert (game_inv t) as Ht.
  { apply game_inv_set_mana; [cbn; pose proof (gi_max_mana _ Hs); lia|].
    apply game_inv_set_phase; [done|]. by apply game_inv_set_turn. }
  assert (forall text hand, fresh_hand hand ->
    main_phase side (set_phase PHASE_MAIN (push_log t text)) hand) as Hm.
  { intros text hand Hf. split; try done.
    apply game_inv_set_phase; [done|]. by apply push_log_inv. }
  eapply (post_bind _ _ (fun r => main_phase side (set_phase PHASE_MAIN r.1) r.2)).
  - case_match; (eapply post_bind; [apply deal_hand_post|]);
      intros hand Hf; apply post_ret; by apply Hm.
  - intros [st hand] Hr. by apply post_ret.
Qed.

Lemma phase_end_post s h :
  game_inv s -> game_over s = 0 -> hand_inv h ->
  post (phase_end s h) (turn_passed (turn s)).
Proof.
  intros Hs Ho Hh. unfold phase_end.
  set (t := check_game_over _).
  assert (game_inv t) as Ht.
  { apply check_game_over_inv, tick_poison_live, push_log_live.
    apply game_inv_live; [|done]. by apply game_inv_set_phase. }
  assert (turn t = turn s) as Etr.
  { unfold t. match goal with |- turn (check_game_over ?u) = _ =>
      rewrite (proj1 (check_game_over_same u)) end.
    unfold tick_poison, tick_one. repeat case_match; done. }
  unfold truthy. destruct (Z.eqb_spec (game_over t) 0) as [E|E]; cbn [negb].
  - eapply post_weaken; [apply enter_turn_post; [done|done|case_match; lia]|].
    intros r Hr. right. rewrite Etr in Hr.
    replace (1 - turn s) with (if turn s =? 0 then 1 else 0); [done|].
    destruct Hs. zcase; lia.
  - apply post_ret. left. cbn. split; [done|]. split; [|done].
    destruct (gi_verdict _ Ht) as [[]|[]]; [done|done].
Qed.

(** After the AI's turn the server waits for the player: the game is decided
    or it is the player's main phase. *)
Lemma process_ai_turn_post s h :
  game_inv s -> hand_inv h -> turn s = 1 ->
  post (process_ai_turn s h) (turn_passed 1).
Proof.
  intros Hs Hh Ht. unfold process_ai_turn.
  destruct (ai_loop_ends s h Hs Hh) as (st & hand & -> & Hst & Hhand & [Htr _]).
  unfold truthy. destruct (Z.eqb_spec (game_over st) 0) as [E|E]; cbn [negb].
  - rewrite <- Ht, <- Htr. by apply phase_end_post.
  - apply post_ret. left. cbn. split; [done|]. split; [|done].
    destruct (gi_verdict _ Hst) as [[]|[]]; [done|done].
Qed.

(** Poison is all that the end of a turn does to the board. *)
Lemma enter_turn_board s h side e :
  board_of (enter_turn s h side e).1.1 = board_of s.
Proof.
  unfold enter_turn, phase_draw, mbind, mret, St_bind, St_ret.
  cbv zeta. repeat case_match; simplify_eq; done.
Qed.

Lemma phase_end_board s h e :
  calm (board_of s) ->
  board_of (phase_end s h e).1.1 = board_tick (board_of s).
Proof.
  intros Hc. unfold phase_end. cbv zeta. case_match.
  - cbn [mret St_ret fst]. rewrite board_of_check_game_over.
    by rewrite board_of_tick_poison.
  - rewrite enter_turn_board, board_of_check_game_over.
    by rewrite board_of_tick_poison.
Qed.
End Phases.
