(* ===== verification/TypesInv.v ===== *)
(** * The representation types

    Whatever well-typed state and hand it starts from (a client's, an old
    entry's of the store, a decided or impossible position), every operation of
    the rules and of the turns leaves a well-typed state and hand: each counter
    in the range of its C field, six log lines of 64 bytes, eight card slots.
    The invariants of GameInv.v are about the positions of real matches; this
    one is what makes the states fit their structs and packets. *)

From S2P Require Export TurnsInv.

#[local] Open Scope tcg_scope.

Create HintDb types.

(** ** Assignments *)

Section Frames.
Implicit Types (s : state_t) (v : Z).

Lemma wf_set_p_hp v s : is_i16 v -> state_wf s -> state_wf (set_p_hp v s).
Proof. solve_frame. Qed.
Lemma wf_set_ai_hp v s : is_i16 v -> state_wf s -> state_wf (set_ai_hp v s).
Proof. solve_frame. Qed.
Lemma wf_set_p_shield v s : is_i16 v -> state_wf s -> state_wf (set_p_shield v s).
Proof. solve_frame. Qed.
Lemma wf_set_ai_shield v s : is_i16 v -> state_wf s -> state_wf (set_ai_shield v s).
Proof. solve_frame. Qed.
Lemma wf_set_p_buff v s : is_i16 v -> state_wf s -> state_wf (set_p_buff v s).
Proof. solve_frame. Qed.
Lemma wf_set_ai_buff v s : is_i16 v -> state_wf s -> state_wf (set_ai_buff v s).
Proof. solve_frame. Qed.
Lemma wf_set_p_poison v s : is_u8 v -> state_wf s -> state_wf (set_p_poison v s).
Proof. solve_frame. Qed.
Lemma wf_set_ai_poison v s : is_u8 v -> state_wf s -> state_wf (set_ai_poison v s).
Proof. solve_frame. Qed.
Lemma wf_set_mana v s : is_u8 v -> state_wf s -> state_wf (set_mana v s).
Proof. solve_frame. Qed.
Lemma wf_set_turn v s : is_u8 v -> state_wf s -> state_wf (set_turn v s).
Proof. solve_frame. Qed.
Lemma wf_set_phase v s : is_u8 v -> state_wf s -> state_wf (set_phase v s).
Proof. solve_frame. Qed.
Lemma wf_set_game_over v s : is_u8 v -> state_wf s -> state_wf (set_game_over v s).
Proof. solve_frame. Qed.
Lemma wf_set_winner v s : is_u8 v -> state_wf s -> state_wf (set_winner v s).
Proof. solve_frame. Qed.
Lemma wf_set_log h l s :
  0 <= h < LOG_LINES -> log_wf l -> state_wf s -> state_wf (set_log_head h (set_logs l s)).
Proof. intros ? []. solve_frame. Qed.
End Frames.

Lemma small_u8 z : 0 <= z <= 2 -> is_u8 z.
Proof. mach_lia. Qed.
#[export] Hint Extern 1 (is_u8 _) => apply small_u8; unfold PHASE_DRAW, PHASE_MAIN, PHASE_END; lia : types.
#[export] Hint Resolve wf_set_p_hp wf_set_ai_hp wf_set_p_shield wf_set_ai_shield wf_set_p_buff
  wf_set_ai_buff wf_set_p_poison wf_set_ai_poison wf_set_mana wf_set_turn wf_set_phase
  wf_set_game_over wf_set_winner is_i16_0 wf_max_mana : types.

Lemma push_log_wf s text : state_wf s -> state_wf (push_log s text).
Proof.
  intros Hs. destruct (push_log_writes s text Hs) as (h & l & -> & ? & ?). by apply wf_set_log.
Qed.
#[export] Hint Resolve push_log_wf : types.

(** ** The rules *)

(** A pointer through which any value of its C type may be stored. *)
Definition wf_lens (l : lens state_t Z) (R : Z -> Prop) : Prop :=
  forall v s, R v -> state_wf s -> state_wf (lset l v s).

Lemma wf_l_p_hp : wf_lens l_p_hp is_i16. Proof. exact wf_set_p_hp. Qed.
Lemma wf_l_ai_hp : wf_lens l_ai_hp is_i16. Proof. exact wf_set_ai_hp. Qed.
Lemma wf_l_p_shield : wf_lens l_p_shield is_i16. Proof. exact wf_set_p_shield. Qed.
Lemma wf_l_ai_shield : wf_lens l_ai_shield is_i16. Proof. exact wf_set_ai_shield. Qed.
Lemma wf_l_p_buff : wf_lens l_p_buff is_i16. Proof. exact wf_set_p_buff. Qed.
Lemma wf_l_ai_buff : wf_lens l_ai_buff is_i16. Proof. exact wf_set_ai_buff. Qed.
Lemma wf_l_p_poison : wf_lens l_p_poison is_u8. Proof. exact wf_set_p_poison. Qed.
Lemma wf_l_ai_poison : wf_lens l_ai_poison is_u8. Proof. exact wf_set_ai_poison. Qed.
#[export] Hint Resolve wf_l_p_hp wf_l_ai_hp wf_l_p_shield wf_l_ai_shield
  wf_l_p_buff wf_l_ai_buff wf_l_p_poison wf_l_ai_poison : types.

Lemma wf_lset l R v s : wf_lens l R -> R v -> state_wf s -> state_wf (lset l v s).
Proof. intros Hl. apply Hl. Qed.
#[export] Hint Extern 1 (state_wf (lset _ _ _)) =>
  eapply wf_lset; [solve [eauto with types] | .. ] : types.

Lemma apply_damage_wf hp shield dmg s :
  wf_lens hp is_i16 -> wf_lens shield is_i16 -> state_wf s -> state_wf (apply_damage hp shield dmg s).
Proof.
  intros Hh Hs Hw. unfold apply_damage. repeat case_match; simplify_eq; eauto 8 with types mach.
Qed.

Lemma tick_one_wf poison hp text s :
  wf_lens poison is_u8 -> wf_lens hp is_i16 -> state_wf s -> state_wf (tick_one poison hp text s).
Proof. intros Hp Hh Hw. unfold tick_one. cbv zeta. repeat case_match; eauto 8 with types mach. Qed.

Lemma tick_poison_wf s : state_wf s -> state_wf (tick_poison s).
Proof. intros Hw. apply tick_one_wf; [..|apply tick_one_wf]; auto with types. Qed.

Lemma check_game_over_wf s : state_wf s -> state_wf (check_game_over s).
Proof. intros Hw. unfold check_game_over. repeat case_match; auto 8 with types. Qed.

Lemma play_effect_wf s c is_player s' :
  state_wf s -> play_effect s c is_player = Some s' -> state_wf s'.
Proof.
  intros Hw E. unfold play_effect in E. cbv zeta in E.
  repeat case_match; simplify_eq; apply push_log_wf;
    first [apply apply_damage_wf | idtac]; eauto 6 with types mach.
Qed.

Lemma handle_play_card_wf s h is_player idx :
  state_wf s -> state_wf (handle_play_card s h is_player idx).2.
Proof.
  intros Hw. unfold handle_play_card. repeat case_match; cbn; try done;
    try (apply check_game_over_wf; eapply play_effect_wf; [|eassumption]);
    apply wf_set_mana; auto with mach.
Qed.
#[export] Hint Resolve tick_poison_wf check_game_over_wf handle_play_card_wf : types.

(** ** Turns *)

Lemma set_card_wf h i : hand_wf h -> hand_wf (set_card h i 0).
Proof.
  intros [Hn Hl Hc]. split; cbn; [done|by rewrite length_insert|].
  apply Forall_insert; [done|by_decide].
Qed.

Definition typed (v : state_t * hand_t) : Prop := state_wf v.1 /\ hand_wf v.2.

Lemma ai_step_typed v : typed v ->
  match ai_step v with inl v' | inr v' => typed v' end.
Proof.
  intros [Hs Hh]. destruct v as [st hand]. unfold ai_step. repeat case_match; simplify_eq; try by split.
  split; [by apply handle_play_card_wf|by apply set_card_wf].
Qed.

Section Phases.
Context `{Libc}.

Lemma rand_card_typed : post rand_card_id is_u16.
Proof.
  intros e. unfold rand_card_id, mbind, St_bind, mret, St_ret. destruct (rand e) as [r e']. cbn.
  assert (Forall is_u16 pool) as Hp by (repeat constructor; unfold is_u16; lia).
  destruct (pool !! _) as [c|] eqn:E; cbn; [by eapply Forall_lookup_1|by_decide].
Qed.

Lemma deal_hand_typed : post deal_hand hand_wf.
Proof.
  intros e. unfold deal_hand, mbind, St_bind, mret, St_ret.
  pose proof (rand_card_typed e) as Hc0. destruct (rand_card_id e) as [c0 e0].
  pose proof (rand_card_typed e0) as Hc1. destruct (rand_card_id e0) as [c1 e1].
  pose proof (rand_card_typed e1) as Hc2. destruct (rand_card_id e1) as [c2 e2].
  split; cbn in *; [by_decide|done|]. repeat (constructor; [done || by_decide|]). constructor.
Qed.

Lemma phase_draw_typed st hand : state_wf st -> post (phase_draw st hand) typed.
Proof.
  intros Hs e. unfold phase_draw, mbind, St_bind, mret, St_ret.
  pose proof (deal_hand_typed e) as Hd.
  destruct (turn _ =? 0); destruct (deal_hand e) as [hand' e']; (split; [|exact Hd]); cbn [fst];
    auto 8 with types.
Qed.

Lemma enter_turn_typed st hand side : state_wf st -> post (enter_turn st hand side) typed.
Proof. intros Hs. apply phase_draw_typed. auto 8 with types mach. Qed.

Lemma phase_end_typed st hand : state_wf st -> hand_wf hand -> post (phase_end st hand) typed.
Proof.
  intros Hs Hh. unfold phase_end. cbv zeta. case_match.
  - intros e. split; cbn [fst snd mret St_ret]; auto 8 with types.
  - apply enter_turn_typed. auto 8 with types.
Qed.

Lemma process_ai_turn_typed st hand : state_wf st -> hand_wf hand ->
  post (process_ai_turn st hand) typed.
Proof.
  intros Hs Hh. unfold process_ai_turn.
  destruct (loop ai_step ai_fuel (st, hand)) as [[st' hand']|] eqn:E; [|by intros e].
  apply (loop_inv ai_step typed typed) in E; [|..|by split].
  - destruct E. case_match; [by apply phase_end_typed|by intros e].
  - intros v v' Hv E'. pose proof (ai_step_typed v Hv) as Ht. by rewrite E' in Ht.
  - intros v v' Hv E'. pose proof (ai_step_typed v Hv) as Ht. by rewrite E' in Ht.
Qed.
End Phases.

(** ** Theorem *)


(** A position that no match reaches: the AI to move with a hand of slot
    numbers, a decided game, counters at their limits. *)
Definition odd_state : state_t :=
  set_p_hp (-32768) (set_ai_hp 32767 (set_p_poison 255 (set_turn 77 (set_mana 255 zero_state)))).

