(* ===== verification/GameThms.v ===== *)
(** * Theorems on the game: cards, turns, and the AI

    The properties of the game that the rest of the program and its players
    rely on, each with an application to a concrete position. *)

From S2P Require Export TurnsInv.

#[local] Open Scope tcg_scope.

(** ** A position for the witnesses *)

Module Demo.
Definition hand : hand_t :=
  {| hand_n := 3; card_ids := [102; 500; 201; 0; 0; 0; 0; 0] |}.
Definition state : state_t :=
  set_phase PHASE_MAIN (set_mana 3 (set_max_mana 3
    (set_p_hp 30 (set_ai_hp 30 (set_ai_shield 2 zero_state))))).
Definition ai_state : state_t := set_turn 1 state.
End Demo.

(** What the player's screen shows of the log: line [i] of the display is
    [logs[(log_head + i) % LOG_LINES]]. *)
Definition shown_log (s : state_t) : list (list byte) :=
  (fun i => default [] (logs s !! Z.to_nat (Z.rem (log_head s + i) LOG_LINES)))
    <$> seqZ 0 LOG_LINES.

(** A [char] buffer as a C string. *)
Fixpoint cstr (buf : list byte) : list byte :=
  match buf with
  | [] => []
  | b :: buf' => if decide (b = Byte.x00) then [] else b :: cstr buf'
  end.

Lemma cstr_app t buf : Byte.x00 ∉ t -> cstr (t ++ Byte.x00 :: buf) = t.
Proof.
  induction t as [|b t IH]; intros Ht; [done|].
  apply not_elem_of_cons in Ht as [Hb Ht]. cbn [app cstr].
  rewrite decide_False by congruence. by rewrite IH.
Qed.

Lemma list6 {A} (l : list A) :
  length l = 6%nat -> exists a b c d e f, l = [a; b; c; d; e; f].
Proof. intros H. do 6 (destruct l as [|? l]; [done|]). destruct l; [eauto 8|done]. Qed.

(** ** Playing a card *)

(** [handle_play_card] returns exactly the verdict of the rules: -1 for an
    index past the hand, -3 for an empty or unknown slot, -2 for a card that
    costs more than the mana left, 0 otherwise; and a refused card changes
    nothing, although the mana is deducted before the card's type is
    examined. *)
Theorem play_card_verdict s h is_player idx :
  (handle_play_card s h is_player idx).1 = play_verdict s h idx /\
  ((handle_play_card s h is_player idx).1 = 0 \/
   (handle_play_card s h is_player idx).2 = s).
Proof.
  destruct (decide (play_verdict s h idx = 0)) as [Hv|Hv].
  - destruct (play_card_ok_rc s h is_player idx Hv) as [s' ->]. rewrite Hv. auto.
  - rewrite (play_card_refused s h is_player idx Hv). auto.
Qed.

(** A card stays in the hand when it is played: it can be played again until the
    mana is spent. *)
Lemma player_card_stays s h idx c s' :
  get_card_def (card_at h idx) = Some c -> handle_play_card s h true idx = (0, s') ->
  (handle_play_card s' h true idx).1 = if mana s' <? card_cost c then -2 else 0.
Proof.
  intros Hc E. destruct (play_card_verdict s h true idx) as [Hv _]. rewrite E in Hv.
  rewrite (proj1 (play_card_verdict s' h true idx)). unfold play_verdict in *.
  destruct (hand_n h <=? idx); [discriminate Hv|]. by rewrite Hc.
Qed.

(** C1. Refinement: in an undecided game, an accepted card of type [t] and
    value [v] costs its mana, moves the board exactly as the rules say, for
    either side, and decides the game exactly when the rules do, as long as the
    counters of the board leave room for one move. *)
Theorem play_card_refines s h is_player idx :
  game_inv s -> game_over s = 0 -> calm (board_of s) -> play_verdict s h idx = 0 ->
  let s' := (handle_play_card s h is_player idx).2 in
  exists c t, get_card_def (card_at h idx) = Some c /\
    card_type_of (card_type c) = Some t /\
    board_of s' = board_play is_player t (card_value c) (board_of s) /\
    mana s' = mana s - card_cost c /\
    game_over s' = (if board_over (board_of s') then 1 else 0) /\
    winner s' = (if board_over (board_of s')
                 then winner_of (f_hp (b_player (board_of s'))) (f_hp (b_ai (board_of s')))
                 else 0).
Proof.
  intros Hs Ho Hc Hv s'. subst s'.
  destruct (play_card_move s h is_player idx (gi_wf _ Hs) Hc Hv)
    as (c & t & Hd & Ht & Hb & Hm).
  pose proof (handle_play_card_inv s h is_player idx Hs Ho) as Hi.
  exists c, t. splits; [done..| |]; unfold board_over; cbn;
    destruct (gi_verdict _ Hi) as [(Eo & Ew & ? & ?)|(Eo & ? & Ew)];
    rewrite ?Eo, ?Ew; repeat zcase; cbn; (done || lia).
Qed.

Lemma play_card_refines_witness :
  board_of (handle_play_card Demo.state Demo.hand true 0).2 =
    Build_board (Build_fighter 30 0 0 0) (Build_fighter 24 0 0 0).
Proof.
  destruct (play_card_refines Demo.state Demo.hand true 0)
    as (c & t & Hc & Ht & Hb & _).
  - by_decide.
  - reflexivity.
  - unfold calm, fighter_calm. cbn. lia.
  - reflexivity.
  - rewrite Hb. vm_compute in Hc. simplify_eq. vm_compute in Ht. simplify_eq.
    reflexivity.
Defined.

(** Playing a card, accepted or refused, keeps the game invariant, leaves
    the turn and the phase alone, and never decides a game whose two sides
    still have hit points. *)
Theorem play_card_safe s h is_player idx :
  game_inv s -> game_over s = 0 ->
  let s' := (handle_play_card s h is_player idx).2 in
  game_inv s' /\ same_turn s s' /\
  (game_over s' = 1 <-> p_hp s' <= 0 \/ ai_hp s' <= 0).
Proof.
  intros Hs Ho s'. subst s'.
  pose proof (handle_play_card_inv s h is_player idx Hs Ho) as Hi.
  splits; [exact Hi|apply handle_play_card_same|].
  destruct (gi_verdict _ Hi) as [(-> & _ & ? & ?)|(-> & ? & _)]; lia.
Qed.

Lemma play_card_safe_witness :
  game_inv (handle_play_card Demo.state Demo.hand true 2).2.
Proof.
  apply (play_card_safe Demo.state Demo.hand true 2); [by_decide | reflexivity].
Defined.

(** ** The verdict, poison and the log *)

Lemma check_game_over_undecided s :
  game_over s = 0 ->
  check_game_over s =
    if board_over (board_of s)
    then push_log (set_winner (winner_of (p_hp s) (ai_hp s)) (set_game_over 1 s)) "GAME OVER"
    else s.
Proof.
  intros Ho. unfold check_game_over, truthy, board_over, winner_of. rewrite Ho.
  cbn -[push_log set_winner]. repeat case_match; done.
Qed.

(** [check_game_over] on an undecided state decides exactly when a side has
    no hit points left, names the side with more of them as the winner (0 for
    a draw), moves nothing on the board, and is idempotent. *)
Theorem check_game_over_verdict s :
  game_over s = 0 ->
  let s' := check_game_over s in
  game_over s' = (if board_over (board_of s) then 1 else 0) /\
  winner s' = (if board_over (board_of s) then winner_of (p_hp s) (ai_hp s) else winner s) /\
  board_of s' = board_of s /\ check_game_over s' = s'.
Proof.
  intros Ho s'. subst s'. rewrite board_of_check_game_over.
  rewrite (check_game_over_undecided s Ho).
  destruct (board_over (board_of s)) eqn:E; splits; try done.
  by rewrite check_game_over_undecided, E.
Qed.

Lemma check_game_over_verdict_witness :
  winner (check_game_over (set_ai_hp 0 Demo.state)) = 1.
Proof.
  destruct (check_game_over_verdict (set_ai_hp 0 Demo.state)) as (_ & -> & _);
    reflexivity.
Defined.

(** [tick_poison] is the poison rule on both sides at once: two hit points
    for each poisoned side, past its shield and not below zero, and one turn
    of its poison. *)
Theorem tick_poison_refines s :
  calm (board_of s) -> board_of (tick_poison s) = board_tick (board_of s).
Proof. apply board_of_tick_poison. Qed.

Lemma tick_poison_refines_witness :
  board_of (tick_poison (set_p_poison 2 (set_p_hp 1 Demo.state))) =
    Build_board (Build_fighter 0 0 0 1) (Build_fighter 30 2 0 0).
Proof.
  rewrite (tick_poison_refines (set_p_poison 2 (set_p_hp 1 Demo.state))); [reflexivity|].
  unfold calm, fighter_calm. cbn. lia.
Defined.

(** The log ring is a queue of [LOG_LINES] lines: after [push_log] the
    display drops its oldest line and ends with the new text, as a C string
    cut to [LOG_LEN - 1] characters. *)
Theorem push_log_shows s text :
  length (logs s) = Z.to_nat LOG_LINES -> 0 <= log_head s < LOG_LINES ->
  Byte.x00 ∉ str text ->
  (cstr <$> shown_log (push_log s text)) =
    tail (cstr <$> shown_log s) ++ [take (LOG_LEN - 1) (str text)].
Proof.
  intros Hl Hh Ht.
  destruct (list6 _ Hl) as (l0 & l1 & l2 & l3 & l4 & l5 & El).
  assert (forall b, cstr (vsnprintf b text) = take (LOG_LEN - 1) (str text)) as Hc.
  { intros b. unfold vsnprintf. apply cstr_app.
    intros Hin. apply Ht. rewrite <- (take_drop (LOG_LEN - 1) (str text)).
    apply elem_of_app. by left. }
  assert (exists n, log_head s = n /\ n ∈ [0; 1; 2; 3; 4; 5]) as (n & En & Hn).
  { exists (log_head s). split; [done|]. unfold LOG_LINES in Hh.
    rewrite !list_elem_of_In. cbn. lia. }
  unfold shown_log, push_log. cbn [logs log_head set_log_head set_logs].
  rewrite El, En.
  repeat (apply elem_of_cons in Hn as [->|Hn];
    [cbv -[vsnprintf cstr take String.list_byte_of_string] in Hc |- *; rewrite Hc; reflexivity|]).
  by apply not_elem_of_nil in Hn.
Qed.

Lemma push_log_shows_witness :
  cstr <$> shown_log (push_log Demo.state "GAME OVER") =
    [[]; []; []; []; []; str "GAME OVER"].
Proof.
  rewrite (push_log_shows Demo.state "GAME OVER"); [reflexivity|done|done|].
  apply (bool_decide_unpack _). reflexivity.
Defined.

(** ** The AI and the phase machine *)

(** The AI plays greedily: the slot it chooses holds a card it can pay for
    and is the first of maximal [ai_eval_card] score among those, its play is
    accepted, and it chooses none only when no slot of the hand is playable. *)
Theorem ai_choice st hand :
  0 <= hand_n hand <= 8 ->
  let best := (ai_scan st hand).1 in
  if 0 <=? best then
    handle_play_card st hand false (u8 best) =
      (0, (handle_play_card st hand false (u8 best)).2) /\
    exists c, playable st hand best = Some c /\
      forall j d, 0 <= j < hand_n hand -> playable st hand j = Some d ->
        ai_eval_card st d <= ai_eval_card st c /\
        (j < best -> ai_eval_card st d < ai_eval_card st c)
  else forall j, 0 <= j < hand_n hand -> playable st hand j = None.
Proof.
  intros Hn best. subst best.
  destruct (ai_scan_best st hand (proj1 Hn)) as [[E Hnone]|(Hr & (c & Hc & Hs) & Hm)].
  - by rewrite E.
  - destruct (Z.leb_spec 0 (ai_scan st hand).1); [|lia].
    rewrite Hs in Hm. split; [|eauto].
    rewrite u8_id by mach_lia.
    apply playable_Some in Hc as (_ & Hc & Hcost).
    assert (play_verdict st hand (ai_scan st hand).1 = 0) as Hv.
    { unfold play_verdict. rewrite Hc. repeat zcase; lia. }
    by destruct (play_card_ok_rc st hand false _ Hv) as [s' ->].
Qed.

Lemma ai_choice_witness :
  exists c, playable Demo.ai_state Demo.hand 1 = Some c /\ card_name c = "Toxic Dagger".
Proof.
  pose proof (ai_choice Demo.ai_state Demo.hand) as H.
  destruct H as (_ & c & Hc & _); [cbn; lia|].
  exists c. split; [exact Hc|]. vm_compute in Hc. by simplify_eq.
Defined.

(** C9. The AI's loop terminates on every hand the server can hold: at most
    [ai_fuel] iterations, after which the game is decided or the AI can play
    nothing more. *)
Theorem ai_turn_terminates st hand :
  game_inv st -> hand_inv hand -> phase st = PHASE_MAIN ->
  exists st' hand', loop ai_step ai_fuel (st, hand) = Some (st', hand') /\
    (game_over st' = 1 \/ forall j, 0 <= j < hand_n hand' -> playable st' hand' j = None).
Proof.
  intros Hs Hh Hp.
  destruct (ai_loop_ends st hand Hs Hh) as (st' & hand' & Hr & Hs' & Hh' & _ & Hp' & _).
  exists st', hand'. split; [done|].
  pose proof (loop_inv ai_step (fun _ => True) (fun v => ai_step v = inr v)
    ai_fuel (st, hand) (st', hand')) as Hi.
  assert (ai_step (st', hand') = inr (st', hand')) as Hx.
  { apply Hi; [done| |done|done]. intros v r _ Hv. pose proof (ai_step_inr _ _ Hv). by subst. }
  unfold ai_step in Hx. rewrite Hp', Hp in Hx. cbn [PHASE_MAIN Z.eqb andb] in Hx.
  unfold truthy in Hx. destruct (Z.eqb_spec (game_over st') 0) as [E|E]; cbn [negb] in Hx.
  - right. destruct (Z.leb_spec 0 (ai_scan st' hand').1) as [|Hneg]; [done|].
    destruct (ai_scan_best st' hand' (proj1 (hi_n _ Hh'))) as [[_ Hn]|(Hr' & _)];
      [done|lia].
  - left. destruct (gi_verdict _ Hs') as [[]|[]]; done.
Qed.

Lemma ai_turn_terminates_witness :
  exists st' hand', loop ai_step ai_fuel (Demo.ai_state, Demo.hand) = Some (st', hand').
Proof.
  destruct (ai_turn_terminates Demo.ai_state Demo.hand) as (st' & hand' & H & _).
  - by_decide.
  - by_decide.
  - reflexivity.
  - by exists st', hand'.
Defined.

(** C24. After [process_ai_turn] it is never the AI's turn in an undecided game:
    the game is decided, or the player is at the start of a main phase with
    full mana and three fresh cards, whatever [rand] returns. *)
Theorem ai_turn_settles `{LibcOK} st hand e :
  game_inv st -> hand_inv hand -> turn st = 1 ->
  turn_passed 1 (process_ai_turn st hand e).1.
Proof. intros. by apply process_ai_turn_post. Qed.

Lemma ai_turn_settles_witness :
  turn_passed 1 (process_ai_turn Demo.ai_state Demo.hand TestLibc.env0).1.
Proof.
  apply (ai_turn_settles Demo.ai_state Demo.hand TestLibc.env0);
    [by_decide | by_decide | reflexivity].
Defined.

(** Ending a turn: poison acts, and then either the game is decided or the
    main phase of the other side begins, with full mana and a fresh hand. *)
Theorem end_turn_passes `{LibcOK} st hand e :
  game_inv st -> hand_inv hand -> game_over st = 0 ->
  turn_passed (turn st) (phase_end st hand e).1 /\
  (calm (board_of st) -> board_of (phase_end st hand e).1.1 = board_tick (board_of st)).
Proof.
  intros Hs Hh Ho. split; [by apply phase_end_post|].
  intros Hc. by apply phase_end_board.
Qed.

Lemma end_turn_passes_witness :
  turn_passed 0 (phase_end Demo.state Demo.hand TestLibc.env0).1.
Proof.
  apply (end_turn_passes Demo.state Demo.hand TestLibc.env0);
    [by_decide | by_decide | reflexivity].
Defined.
