(* ===== verification/Match.v ===== *)
(** * A match as a state machine

    The moves that the server makes on one session's game, as a step relation
    on the state and the hand: the login's first turn, a card of the player
    (accepted or refused), the end of the player's turn, and the AI's turn.
    The environment of each move is arbitrary, so every outcome of [rand] is
    covered. *)

From S2P Require Export GameThms.

#[local] Open Scope tcg_scope.

(** The state that a login starts from: src/server.c, lines 302 to 304. *)
Definition login_state : state_t :=
  set_game_over 0 (set_max_mana 3 (set_ai_hp 30 (set_p_hp 30 zero_state))).

(** [reach n s h]: the server can hold [s] and [h] after [n] draw phases. *)
Inductive reach `{Libc} : nat -> state_t -> hand_t -> Prop :=
  | reach_login e s h e' :
      enter_turn login_state zero_hand 0 e = ((s, h), e') -> reach 1 s h
  | reach_card n s h idx rc s' :
      reach n s h -> game_over s = 0 -> turn s = 0 ->
      handle_play_card s h true idx = (rc, s') -> reach n s' h
  | reach_end n s h e s' h' e' :
      reach n s h -> game_over s = 0 -> turn s = 0 ->
      phase_end s h e = ((s', h'), e') -> reach (S n) s' h'
  | reach_ai n s h e s' h' e' :
      reach n s h -> game_over s = 0 -> turn s = 1 ->
      process_ai_turn s h e = ((s', h'), e') -> reach (S n) s' h'.

Lemma post_run {W A} (m : St W A) (Q : A -> Prop) w r : post m Q -> m w = r -> Q r.1.
Proof. intros Hm <-. apply Hm. Qed.

Lemma login_state_inv : game_inv login_state.
Proof. by_decide. Qed.

(** What a server holds between two moves. *)
Record ready (s : state_t) (h : hand_t) : Prop := {
  rd_inv : game_inv s;
  rd_hand : hand_inv h;
  rd_main : game_over s = 1 \/ phase s = PHASE_MAIN;
}.

Lemma main_phase_ready side s h : main_phase side s h -> ready s h.
Proof. intros []. split; auto. by apply fresh_hand_inv. Qed.

Lemma turn_passed_ready side r : turn_passed side r -> ready r.1 r.2.
Proof.
  intros [(?&?&?)|Hm]; [split; auto|by eapply main_phase_ready].
Qed.

Lemma reach_ready `{LibcOK} n s h : reach n s h -> ready s h.
Proof.
  induction 1 as [e s h e' He|n s h idx rc s' _ [] Ho Ht Hp
    |n s h e s' h' e' _ [] Ho Ht He|n s h e s' h' e' _ [] Ho Ht He].
  - assert (post (enter_turn login_state zero_hand 0) (fun r => main_phase 0 r.1 r.2))
      as Hp by (by apply enter_turn_post; [apply login_state_inv|..]).
    exact (main_phase_ready 0 _ _ (post_run _ _ _ _ Hp He)).
  - pose proof (handle_play_card_inv s h true idx rd_inv0 Ho) as Hi.
    pose proof (handle_play_card_same s h true idx) as (_ & Hs & _).
    rewrite Hp in Hi, Hs. split; [done|done|].
    right. cbn in Hs. rewrite Hs. destruct rd_main0; [lia|done].
  - exact (turn_passed_ready _ _ (post_run _ _ _ _ (phase_end_post _ _
      rd_inv0 Ho rd_hand0) He)).
  - exact (turn_passed_ready _ _ (post_run _ _ _ _ (process_ai_turn_post _ _
      rd_inv0 rd_hand0 Ht) He)).
Qed.

(** ** The growth of the counters

    Every draw phase brings three mana and every card costs at least one, so
    after [n] draws with [mana s] mana left at most [3 * n - mana s] cards
    have been played. *)

Lemma bounded_mono k k' b : k <= k' -> bounded k b -> bounded k' b.
Proof. unfold bounded, fighter_bounded. lia. Qed.

Lemma play_card_bounded k s h is_player idx :
  state_wf s -> 0 <= k <= 84 -> bounded k (board_of s) ->
  let s' := (handle_play_card s h is_player idx).2 in
  mana s' <= mana s /\ bounded (k + (mana s - mana s')) (board_of s').
Proof.
  intros Hwf Hk Hb s'. subst s'.
  destruct (decide (play_verdict s h idx = 0)) as [Hv|Hv].
  - destruct (play_card_move s h is_player idx Hwf (bounded_calm _ _ Hk Hb) Hv)
      as (c & t & Hc & Ht & -> & ->).
    destruct (get_card_def_ok _ _ Hc) as [[_ Hcost (t' & Ht' & Hval)] _]. simplify_eq.
    split; [lia|]. apply (bounded_mono (k + 1)); [lia|].
    apply bounded_play; [done|lia|done].
  - rewrite (play_card_refused s h is_player idx Hv). cbn [snd].
    split; [lia|]. by replace (k + (mana s - mana s)) with k by lia.
Qed.

Lemma ai_loop_bounded K st h v :
  game_inv st -> hand_inv h -> K <= 84 -> mana st <= K ->
  bounded (K - mana st) (board_of st) ->
  loop ai_step ai_fuel (st, h) = Some v ->
  bounded (K - mana v.1) (board_of v.1).
Proof.
  intros Hs Hh HK Hm Hb.
  set (I := fun v => ai_inv v /\ mana v.1 <= K /\ bounded (K - mana v.1) (board_of v.1)).
  intros Hr. apply (loop_inv ai_step I (fun v => bounded (K - mana v.1) (board_of v.1))
    ai_fuel (st, h)); [| |done|done].
  - intros v1 v2 (Hi & Hmv & Hbv) Hst.
    destruct (ai_step_inl _ _ Hi Hst) as (Hi2 & _). split; [done|].
    destruct v1 as [s1 h1]. unfold ai_step in Hst. repeat case_match; simplify_eq.
    cbn [fst] in *. destruct Hi as [Hg _]. cbn [fst] in Hg.
    pose proof (wf_mana _ (gi_wf _ Hg)) as Hwm.
    pose proof (wf_mana _ (gi_wf _ (proj1 Hi2))) as Hwm2. cbn [fst] in Hwm2.
    destruct (play_card_bounded (K - mana s1) s1 h1 false (u8 (ai_scan s1 h1).1)
      (gi_wf _ Hg)) as [Hle Hbb]; [mach_lia|done|].
    split; [lia|]. eapply bounded_mono; [|exact Hbb]. lia.
  - intros v1 v2 (_ & _ & Hbv) Hst. by rewrite (ai_step_inr _ _ Hst).
Qed.

Lemma game_inv_mana s : game_inv s -> 0 <= mana s <= 3.
Proof.
  intros Hs. pose proof (wf_mana _ (gi_wf _ Hs)). pose proof (gi_mana _ Hs).
  pose proof (gi_max_mana _ Hs). mach_lia.
Qed.

(** The potential of a reachable state. *)
Definition within (n : nat) (s : state_t) : Prop :=
  bounded (3 * Z.of_nat n - mana s) (board_of s).

Lemma phase_end_within `{LibcOK} n s h e r e' :
  (n <= 28)%nat -> game_inv s -> game_over s = 0 -> hand_inv h -> within n s ->
  phase_end s h e = (r, e') -> within (S n) r.1.
Proof.
  intros Hn Hs Ho Hh Hw He. unfold within in *. pose proof (game_inv_mana _ Hs).
  assert (calm (board_of s)) as Hc.
  { apply (bounded_calm 84); [lia|]. eapply bounded_mono; [|exact Hw]. lia. }
  pose proof (phase_end_board s h e Hc) as Hb.
  pose proof (turn_passed_ready _ _ (phase_end_post s h Hs Ho Hh e)) as [Hi _ _].
  rewrite He in Hb, Hi. cbn [fst] in *. pose proof (game_inv_mana _ Hi).
  rewrite Hb. apply bounded_tick. eapply bounded_mono; [|exact Hw]. lia.
Qed.

Lemma login_within `{LibcOK} s h e e' :
  enter_turn login_state zero_hand 0 e = ((s, h), e') -> within 1 s.
Proof.
  intros He. pose proof (enter_turn_board login_state zero_hand 0 e) as Hb.
  pose proof (game_inv_mana _ (rd_inv _ _ (reach_ready _ _ _ (reach_login _ _ _ _ He)))).
  rewrite He in Hb. cbn [fst] in Hb. unfold within. rewrite Hb.
  apply (bounded_mono 0); [lia|]. unfold bounded, fighter_bounded. cbn. lia.
Qed.

Lemma ai_turn_within `{LibcOK} n s h e r e' :
  (1 <= n <= 28)%nat -> game_inv s -> hand_inv h -> within n s ->
  process_ai_turn s h e = (r, e') -> within (S n) r.1.
Proof.
  intros Hn Hs Hh Hw. pose proof (game_inv_mana _ Hs).
  destruct (ai_loop_ends s h Hs Hh) as (s1 & h1 & Hl & Hs1 & Hh1 & _).
  assert (within n s1) as Hb.
  { unfold within in *. refine (ai_loop_bounded _ s h (s1, h1) Hs Hh _ _ Hw Hl); lia. }
  unfold process_ai_turn. rewrite Hl. unfold truthy.
  destruct (Z.eqb_spec (game_over s1) 0) as [E|E]; cbn [negb].
  - intros He. eapply (phase_end_within n s1 h1 e r e'); [lia|done..].
  - intros He. unfold mret, St_ret in He. injection He as <- <-. unfold within in *. cbn [fst].
    pose proof (game_inv_mana _ Hs1). eapply bounded_mono; [|exact Hb]. lia.
Qed.

Lemma reach_pos `{Libc} n s h : reach n s h -> (1 <= n)%nat.
Proof. induction 1; lia. Qed.

Lemma reach_within `{LibcOK} n s h : reach n s h -> (n <= 28)%nat -> within n s.
Proof.
  induction 1 as [e s h e' He|n s h idx rc s' Hr IH Ho Ht Hp
    |n s h e s' h' e' Hr IH Ho Ht He|n s h e s' h' e' Hr IH Ho Ht He]; intros Hn.
  - exact (login_within _ _ _ _ He).
  - destruct (reach_ready _ _ _ Hr) as [Hs _ _]. specialize (IH Hn).
    pose proof (game_inv_mana _ Hs). pose proof (reach_pos _ _ _ Hr).
    destruct (play_card_bounded (3 * Z.of_nat n - mana s) s h true idx (gi_wf _ Hs))
      as [Hle Hb]; [lia|done|]. rewrite Hp in Hle, Hb. cbn [snd] in *.
    unfold within. eapply bounded_mono; [|exact Hb]. lia.
  - destruct (reach_ready _ _ _ Hr) as [Hs Hh _].
    eapply (phase_end_within n s h e (s', h') e'); [lia|done..|apply IH; lia|done].
  - destruct (reach_ready _ _ _ Hr) as [Hs Hh _]. pose proof (reach_pos _ _ _ Hr).
    exact (ai_turn_within n s h e (s', h') e' ltac:(lia) Hs Hh (IH ltac:(lia)) He).
Qed.

(** ** Theorems *)

Lemma reach_login_run `{Libc} e :
  reach 1 (enter_turn login_state zero_hand 0 e).1.1
    (enter_turn login_state zero_hand 0 e).1.2.
Proof.
  destruct (enter_turn login_state zero_hand 0 e) as [[s h] e'] eqn:E.
  exact (reach_login e s h e' E).
Qed.

(** A reachable position for the witnesses. *)
Lemma demo_reach :
  reach 1 (enter_turn login_state zero_hand 0 TestLibc.env0).1.1
    (enter_turn login_state zero_hand 0 TestLibc.env0).1.2.
Proof. apply reach_login_run. Qed.

(** C12. Safety of every match: in each reachable position the state and the
    hand are well-formed, the mana is at most 3, the verdict agrees with the
    hit points, and an undecided game is in a main phase, so the server never
    answers "phase error". *)
Theorem reach_safe `{LibcOK} n s h :
  reach n s h ->
  game_inv s /\ hand_inv h /\ 0 <= mana s <= 3 /\
  (game_over s = 0 -> phase s = PHASE_MAIN /\ 0 < p_hp s /\ 0 < ai_hp s).
Proof.
  intros Hr. destruct (reach_ready _ _ _ Hr) as [Hs Hh Hm].
  splits; [done|done|by apply game_inv_mana..|].
  intros Ho. destruct Hm as [|Hm]; [lia|]. split; [done|].
  destruct (gi_verdict _ Hs) as [(_&_&?&?)|(?&_)]; lia.
Qed.

Lemma reach_safe_witness :
  game_inv (enter_turn login_state zero_hand 0 TestLibc.env0).1.1.
Proof. apply (reach_safe _ _ _ demo_reach). Defined.

(** C25. No overflow in the first 28 draw phases (14 rounds): in each position
    reachable within them every counter leaves room for the next move, so by
    the refinement theorems each move is the move of the unbounded rules. *)
Theorem reach_no_overflow `{LibcOK} n s h :
  reach n s h -> (n <= 28)%nat -> calm (board_of s).
Proof.
  intros Hr Hn. pose proof (reach_within _ _ _ Hr Hn) as Hw.
  pose proof (game_inv_mana _ (rd_inv _ _ (reach_ready _ _ _ Hr))).
  apply (bounded_calm 84); [lia|]. eapply bounded_mono; [|exact Hw]. lia.
Qed.

Lemma reach_no_overflow_witness :
  calm (board_of (enter_turn login_state zero_hand 0 TestLibc.env0).1.1).
Proof. apply (reach_no_overflow _ _ _ demo_reach). lia. Defined.

(** Hit points, which no rule caps, are an [int16_t]: a healing card
    played at 32767 - v + 1 hit points or more wraps them to a negative number
    and the healer loses the game on the spot. *)
Theorem heal_overflow_loses s h idx c :
  state_wf s -> game_over s = 0 -> play_verdict s h idx = 0 ->
  get_card_def (card_at h idx) = Some c -> card_type c = CT_HEAL ->
  32767 < p_hp s + card_value c -> 0 <= ai_hp s ->
  let s' := (handle_play_card s h true idx).2 in
  p_hp s' < 0 /\ game_over s' = 1 /\ winner s' = 2.
Proof.
  intros Hwf Ho Hv Hc Ht Hbig Ha s'. subst s'.
  destruct (get_card_def_ok _ _ Hc) as [[_ _ (t & Ht' & Hval)] _].
  rewrite Ht, card_type_of_val in Ht'. simplify_eq. cbn in Hval.
  pose proof (wf_p_hp _ Hwf) as Hp.
  unfold handle_play_card, play_verdict in *. destruct (hand_n h <=? idx); [done|].
  rewrite Hc in *. destruct (Z.eqb_spec (card_at h idx) 0) as [E|]; [by rewrite E in Hc|].
  destruct (mana s <? card_cost c); [done|].
  unfold play_effect. rewrite Ht, card_type_of_val. cbn [snd]. cbv zeta.
  rewrite check_game_over_undecided by done.
  assert (i16 (p_hp s + card_value c) < 0) by (unfold i16, is_i16 in *; zlia).
  cbn -[push_log i16]. unfold board_over, winner_of. cbn -[i16].
  destruct (Z.leb_spec (i16 (p_hp s + card_value c)) 0); [|lia].
  cbn -[i16]. splits; [done|done|]. repeat zcase; lia.
Qed.

Lemma heal_overflow_loses_witness :
  winner (handle_play_card (set_p_hp 32761 Demo.state) Demo.hand true 2).2 = 2.
Proof.
  apply (heal_overflow_loses (set_p_hp 32761 Demo.state) Demo.hand 2
    (Build_card_def_t 201 CT_HEAL 3 7 0 "Potion")); try reflexivity; try by_decide; cbn; lia.
Defined.
