(* ===== verification/Ipc.v ===== *)
(** * The shared-memory session store and the statistics

    src/common/ipc.c and ipc.h: the two structures that the server's worker
    processes share, and the operations on them.  Each operation is modelled
    as run by one process without interference; Race.v interleaves the
    individual memory accesses of [ipc_alloc_session]. *)

From S2P Require Export Match.

(** ** Data *)

Record shm_stats_t := { total_connections : Z; total_packets : Z }.

Definition ipc_stats_inc_conn (s : shm_stats_t) : shm_stats_t :=
  {| total_connections := u64 (total_connections s + 1);
     total_packets := total_packets s |}.
Definition ipc_stats_inc_pkt (s : shm_stats_t) : shm_stats_t :=
  {| total_connections := total_connections s;
     total_packets := u64 (total_packets s + 1) |}.

Definition MAX_SESSIONS : nat := 128.

Record session_entry_t := {
  session_id : Z;
  last_seen : Z;
  ent_st : state_t;
  ent_hand : hand_t;
  valid : Z;
}.
Record shm_store_t := { sessions : list session_entry_t }.

(** What [ipc_store_init(1)] leaves in the segment. *)
Definition zero_entry : session_entry_t :=
  {| session_id := 0; last_seen := 0; ent_st := zero_state; ent_hand := zero_hand;
     valid := 0 |}.
Definition zero_store : shm_store_t := {| sessions := replicate MAX_SESSIONS zero_entry |}.
Definition zero_stats : shm_stats_t := {| total_connections := 0; total_packets := 0 |}.

(** ** The linear search and the assignments of the operations *)

(** The [for] loop of every operation: the first slot that satisfies the
    condition of its [if], or [None] when the loop runs out of slots. *)
Fixpoint find_slot (p : session_entry_t -> bool) (l : list session_entry_t) : option nat :=
  match l with
  | [] => None
  | e :: l' => if p e then Some O else S <$> find_slot p l'
  end.

Definition is_free (e : session_entry_t) : bool := negb (truthy (valid e)).
Definition entry_match (sid : Z) (e : session_entry_t) : bool :=
  truthy (valid e) && (session_id e =? sid).

Definition upd_slot (f : session_entry_t -> session_entry_t) (i : nat)
    (store : shm_store_t) : shm_store_t :=
  {| sessions := alter f i (sessions store) |}.

Definition set_valid (v : Z) (e : session_entry_t) : session_entry_t :=
  Build_session_entry_t (session_id e) (last_seen e) (ent_st e) (ent_hand e) v.
Definition set_session_id (v : Z) (e : session_entry_t) : session_entry_t :=
  Build_session_entry_t v (last_seen e) (ent_st e) (ent_hand e) (valid e).
Definition set_last_seen (v : Z) (e : session_entry_t) : session_entry_t :=
  Build_session_entry_t (session_id e) v (ent_st e) (ent_hand e) (valid e).
Definition set_game (st : state_t) (h : hand_t) (e : session_entry_t) : session_entry_t :=
  Build_session_entry_t (session_id e) (last_seen e) st h (valid e).

(** ** The operations *)

Section Operations.
Context `{Libc}.

(** The session id of [ipc_alloc_session] for slot [i]. *)
Definition make_sid (now : Z) (i : nat) (pid : Z) (r : Z) : Z :=
  let sid := u64 (u64 (u64 now + Z.of_nat i) + u64 pid) in
  let sid := Z.lxor sid (u64 (Z.shiftl (u64 r) 32)) in
  if sid =? 0 then 1 else sid.

Definition ipc_alloc_session (store : shm_store_t) : St env (Z * shm_store_t) :=
  match find_slot is_free (sessions store) with
  | None => mret (0, store)
  | Some i =>
      let store := upd_slot (set_valid 1) i store in
      now ← time;
      pid ← get_pid;
      r ← rand;
      let sid := make_sid now i pid r in
      let store := upd_slot (set_session_id sid) i store in
      now ← time;
      let store := upd_slot (set_last_seen now) i store in
      mret (sid, store)
  end.

Definition ipc_save_session (store : shm_store_t) (sid : Z) (st : state_t)
    (h : hand_t) : St env (Z * shm_store_t) :=
  match find_slot (entry_match sid) (sessions store) with
  | None => mret (-1, store)
  | Some i =>
      let store := upd_slot (set_game st h) i store in
      now ← time;
      mret (0, upd_slot (set_last_seen now) i store)
  end.

(** The out-parameters [st] and [h] are threaded: they keep their values when
    the session is not found. *)
Definition ipc_load_session (store : shm_store_t) (sid : Z) (st : state_t)
    (h : hand_t) : St env (Z * (state_t * hand_t) * shm_store_t) :=
  match find_slot (entry_match sid) (sessions store) with
  | None => mret (-1, (st, h), store)
  | Some i =>
      let e := nth i (sessions store) zero_entry in
      now ← time;
      mret (0, (ent_st e, ent_hand e), upd_slot (set_last_seen now) i store)
  end.

Definition ipc_touch_session (store : shm_store_t) (sid : Z) : St env (Z * shm_store_t) :=
  match find_slot (entry_match sid) (sessions store) with
  | None => mret (-1, store)
  | Some i =>
      now ← time;
      mret (0, upd_slot (set_last_seen now) i store)
  end.
End Operations.

(** ** The abstract store

    A finite map from session ids to games; the array's first valid entry with
    an id is the one that counts. *)

Definition entry_pair (e : session_entry_t) : option (Z * (state_t * hand_t)) :=
  if truthy (valid e) then Some (session_id e, (ent_st e, ent_hand e)) else None.

Definition entries_map (l : list session_entry_t) : gmap Z (state_t * hand_t) :=
  list_to_map (omap entry_pair l).

Definition store_map (store : shm_store_t) : gmap Z (state_t * hand_t) :=
  entries_map (sessions store).

Definition free_slots (store : shm_store_t) : nat :=
  length (filter (fun e => is_free e = true) (sessions store)).
