(* ===== verification/IpcThms.v ===== *)
(** * The session store implements a finite map

    The operations of ipc.c against the abstract store of Ipc.v: load is
    lookup, save is update of an existing key, touch is the identity, and
    allocation adds a key as long as a slot is free. *)

From S2P Require Export Ipc.

(** ** The search *)

Lemma entry_match_spec sid e :
  entry_match sid e = true <-> truthy (valid e) = true /\ session_id e = sid.
Proof. unfold entry_match. by rewrite andb_true_iff, Z.eqb_eq. Qed.

Lemma find_slot_lookup p l i :
  find_slot p l = Some i -> exists e, l !! i = Some e /\ p e = true.
Proof.
  revert i. induction l as [|e l IH]; intros i H; [done|]. simpl in H.
  destruct (p e) eqn:E; [simplify_eq; by exists e|].
  destruct (find_slot p l) as [j|]; simplify_eq/=. by apply IH.
Qed.

Lemma find_slot_None p l : find_slot p l = None <-> Forall (fun e => p e = false) l.
Proof.
  induction l as [|e l IH]; simpl; [done|]. rewrite Forall_cons.
  destruct (p e); [by split; [|intros []]|].
  rewrite fmap_None, IH. tauto.
Qed.

(** ** The map of an array of entries *)

Lemma entries_map_cons e l :
  entries_map (e :: l) =
    if truthy (valid e)
    then <[session_id e := (ent_st e, ent_hand e)]> (entries_map l)
    else entries_map l.
Proof.
  unfold entries_map. cbn [omap list_omap]. unfold entry_pair at 1.
  by destruct (truthy (valid e)).
Qed.

Lemma entries_map_find sid l :
  match find_slot (entry_match sid) l with
  | Some i => entries_map l !! sid =
      Some (ent_st (nth i l zero_entry), ent_hand (nth i l zero_entry))
  | None => entries_map l !! sid = None
  end.
Proof.
  induction l as [|e l IH]; [done|]. rewrite entries_map_cons. cbn [find_slot].
  destruct (entry_match sid e) eqn:E.
  - apply entry_match_spec in E as [-> <-]. by rewrite lookup_insert_eq.
  - unfold entry_match in E. destruct (truthy (valid e)); simpl in E.
    + apply Z.eqb_neq in E.
      by destruct (find_slot _ l); simpl; rewrite lookup_insert_ne by done.
    + by destruct (find_slot _ l).
Qed.

(** Changing the games of the matching slot changes them in the map. *)
Lemma entries_map_alter sid l i f g :
  find_slot (entry_match sid) l = Some i ->
  (forall e, valid (f e) = valid e /\ session_id (f e) = session_id e /\
     (ent_st (f e), ent_hand (f e)) = g (ent_st e, ent_hand e)) ->
  entries_map (alter f i l) = alter g sid (entries_map l).
Proof.
  intros H Hf. revert i H. induction l as [|e l IH]; intros i H; [done|].
  cbn [find_slot] in H. destruct (entry_match sid e) eqn:E.
  - simplify_eq. change (alter f 0%nat (e :: l)) with (f e :: l).
    apply entry_match_spec in E as [Ev <-]. destruct (Hf e) as (Hv & Hs & Hg).
    rewrite !entries_map_cons, Hv, Ev, Hs, Hg. by rewrite alter_insert_eq.
  - destruct (find_slot (entry_match sid) l) as [j|] eqn:Ej; simplify_eq/=.
    change (alter f (S j) (e :: l)) with (e :: alter f j l).
    rewrite !entries_map_cons, (IH j eq_refl). unfold entry_match in E.
    destruct (truthy (valid e)); [|done]. apply Z.eqb_neq in E.
    by rewrite alter_insert_ne.
Qed.

(** Changing the time stamp of any slot changes nothing. *)
Lemma entries_map_last_seen now i l :
  entries_map (alter (set_last_seen now) i l) = entries_map l.
Proof.
  revert i. induction l as [|e l IH]; intros i; [done|]. destruct i as [|i].
  - change (alter _ 0%nat (e :: l)) with (set_last_seen now e :: l).
    by rewrite !entries_map_cons.
  - change (alter (set_last_seen now) (S i) (e :: l))
      with (e :: alter (set_last_seen now) i l).
    by rewrite !entries_map_cons, IH.
Qed.

(** Claiming the first free slot for a fresh id adds the id. *)
Lemma entries_map_claim sid l i :
  find_slot is_free l = Some i -> entries_map l !! sid = None ->
  exists e, l !! i = Some e /\
    entries_map (alter (set_session_id sid) i (alter (set_valid 1) i l)) =
      <[sid := (ent_st e, ent_hand e)]> (entries_map l).
Proof.
  revert i. induction l as [|e l IH]; intros i H Hn; [done|].
  cbn [find_slot] in H. rewrite entries_map_cons in *.
  assert (truthy (valid e) = negb (is_free e)) as Ev
    by (unfold is_free; by rewrite negb_involutive).
  rewrite Ev in *. destruct (is_free e); cbn [negb] in *; [|
    destruct (find_slot is_free l) as [j|] eqn:Ej; simplify_eq/=].
  - simplify_eq. exists e. split; [done|].
    change (alter (set_session_id sid) 0%nat (alter (set_valid 1) 0%nat (e :: l)))
      with (set_session_id sid (set_valid 1 e) :: l).
    by rewrite entries_map_cons.
  - apply lookup_insert_None in Hn as [Hn Hne].
    destruct (IH j eq_refl Hn) as (e' & He' & Hm). exists e'. split; [done|].
    change (alter (set_session_id sid) (S j) (alter (set_valid 1) (S j) (e :: l)))
      with (e :: alter (set_session_id sid) j (alter (set_valid 1) j l)).
    rewrite entries_map_cons, Ev, Hm. by rewrite insert_insert_ne.
Qed.

(** Claiming a slot for an id that is in use may shadow or be shadowed by the
    other session with the id, but touches no third one. *)
Lemma entries_map_claim_other sid l i :
  find_slot is_free l = Some i ->
  is_Some (entries_map (alter (set_session_id sid) i (alter (set_valid 1) i l)) !! sid) /\
  forall k, k <> sid ->
    entries_map (alter (set_session_id sid) i (alter (set_valid 1) i l)) !! k =
      entries_map l !! k.
Proof.
  revert i. induction l as [|e l IH]; intros i H; [done|].
  cbn [find_slot] in H. rewrite entries_map_cons.
  assert (truthy (valid e) = negb (is_free e)) as Ev
    by (unfold is_free; by rewrite negb_involutive).
  rewrite Ev. destruct (is_free e); cbn [negb] in *; [|
    destruct (find_slot is_free l) as [j|] eqn:Ej; simplify_eq/=].
  - simplify_eq. change (alter (set_session_id sid) 0%nat (alter (set_valid 1) 0%nat (e :: l)))
      with (set_session_id sid (set_valid 1 e) :: l).
    rewrite entries_map_cons. cbn [valid set_session_id set_valid truthy Z.eqb negb session_id].
    rewrite lookup_insert_eq. split; [by eexists|]. intros k Hk.
    by rewrite lookup_insert_ne.
  - destruct (IH j eq_refl) as [Hs Hk].
    change (alter (set_session_id sid) (S j) (alter (set_valid 1) (S j) (e :: l)))
      with (e :: alter (set_session_id sid) j (alter (set_valid 1) j l)).
    rewrite entries_map_cons, Ev. split.
    + rewrite lookup_insert. case_decide; [by eexists|done].
    + intros k Hne. rewrite !lookup_insert. case_decide; [done|]. by apply Hk.
Qed.

Lemma free_slots_claim f l i :
  find_slot is_free l = Some i -> (forall e, is_free (f e) = false) ->
  S (length (filter (fun e => is_free e = true) (alter f i l))) =
    length (filter (fun e => is_free e = true) l).
Proof.
  intros H Hf. revert i H. induction l as [|e l IH]; intros i H; [done|].
  cbn [find_slot] in H. rewrite (filter_cons _ e). destruct (is_free e) eqn:E.
  - simplify_eq. change (alter f 0%nat (e :: l)) with (f e :: l).
    rewrite filter_cons, Hf. done.
  - destruct (find_slot is_free l) as [j|] eqn:Ej; simplify_eq/=.
    change (alter f (S j) (e :: l)) with (e :: alter f j l).
    rewrite filter_cons, E. by apply IH.
Qed.

(** ** The session ids *)

Lemma make_sid_range `{Libc} now i pid r :
  0 < make_sid now i pid r < 18446744073709551616.
Proof.
  unfold make_sid. cbv zeta.
  set (a := u64 (_ + u64 pid)). set (b := u64 (Z.shiftl _ _)).
  pose proof (u64_range (u64 (u64 now + Z.of_nat i) + u64 pid)) as Ha.
  pose proof (u64_range (Z.shiftl (u64 r) 32)) as Hb. fold a in Ha. fold b in Hb.
  unfold is_u64 in *. change 18446744073709551616 with (2 ^ 64) in *.
  assert (0 <= Z.lxor a b) by (apply Z.lxor_nonneg; lia).
  destruct (Z.eqb_spec (Z.lxor a b) 0) as [|Hne]; [lia|]. split; [lia|].
  apply Z.log2_lt_pow2; [lia|].
  eapply Z.le_lt_trans; [apply Z.log2_lxor; lia|].
  apply Z.max_lub_lt.
  - destruct (decide (a = 0)) as [->|]; [done|]. apply Z.log2_lt_pow2; lia.
  - destruct (decide (b = 0)) as [->|]; [done|]. apply Z.log2_lt_pow2; lia.
Qed.

(** ** The operations against the abstract store *)

Lemma upd_slot_last_seen now i store :
  store_map (upd_slot (set_last_seen now) i store) = store_map store.
Proof. apply entries_map_last_seen. Qed.

Lemma free_slots_alter f i l :
  (forall e, is_free (f e) = is_free e) ->
  length (filter (fun e => is_free e = true) (alter f i l)) =
    length (filter (fun e => is_free e = true) l).
Proof.
  intros Hf. revert i. induction l as [|e l IH]; intros i; [done|]. destruct i as [|i].
  - change (alter f 0%nat (e :: l)) with (f e :: l). rewrite !filter_cons, Hf.
    by destruct (decide _).
  - change (alter f (S i) (e :: l)) with (e :: alter f i l). rewrite !filter_cons.
    destruct (decide _); cbn [length]; by rewrite IH.
Qed.

Lemma free_slots_upd f i store :
  (forall e, is_free (f e) = is_free e) -> free_slots (upd_slot f i store) = free_slots store.
Proof. apply free_slots_alter. Qed.

Lemma free_slots_0 store :
  free_slots store = 0%nat <-> find_slot is_free (sessions store) = None.
Proof.
  unfold free_slots. rewrite find_slot_None, length_zero_iff_nil.
  induction (sessions store) as [|e l IH]; [done|].
  rewrite filter_cons, Forall_cons. destruct (is_free e) eqn:E.
  - rewrite decide_True by done. by split; [|intros []].
  - rewrite decide_False by done. tauto.
Qed.

Section Refinement.
Context `{LibcOK}.

Lemma save_spec store sid st h e :
  match store_map store !! sid with
  | Some _ => exists store', (ipc_save_session store sid st h e).1 = (0, store') /\
      store_map store' = <[sid := (st, h)]> (store_map store) /\
      free_slots store' = free_slots store
  | None => (ipc_save_session store sid st h e).1 = (-1, store)
  end.
Proof.
  unfold ipc_save_session, store_map.
  pose proof (entries_map_find sid (sessions store)) as Hm.
  destruct (find_slot (entry_match sid) (sessions store)) as [i|] eqn:E; rewrite Hm; [|done].
  unfold mbind, St_bind, mret, St_ret. destruct (time e) as [now e']. cbn [fst].
  eexists. split; [done|]. split.
  - unfold upd_slot. cbn [sessions]. rewrite entries_map_last_seen.
    rewrite (entries_map_alter sid _ i (set_game st h) (fun _ => (st, h)) E) by done.
    apply map_eq. intros k. rewrite lookup_alter, lookup_insert.
    case_decide; [|done]. subst. by rewrite Hm.
  - by rewrite !free_slots_upd.
Qed.

Lemma save_map store sid st h e :
  store_map (ipc_save_session store sid st h e).1.2 =
    match store_map store !! sid with
    | Some _ => <[sid := (st, h)]> (store_map store)
    | None => store_map store
    end.
Proof.
  pose proof (save_spec store sid st h e) as Hs. destruct (store_map store !! sid).
  - destruct Hs as (s1 & E & Hm & _). by rewrite E.
  - by rewrite Hs.
Qed.

Lemma load_spec store sid st h e :
  exists rc out store', (ipc_load_session store sid st h e).1 = (rc, out, store') /\
    store_map store' = store_map store /\ free_slots store' = free_slots store /\
    match store_map store !! sid with
    | Some g => rc = 0 /\ out = g
    | None => rc = -1 /\ out = (st, h) /\ store' = store
    end.
Proof.
  unfold ipc_load_session, store_map.
  pose proof (entries_map_find sid (sessions store)) as Hm.
  destruct (find_slot (entry_match sid) (sessions store)) as [i|] eqn:E; rewrite Hm.
  - unfold mbind, St_bind, mret, St_ret. destruct (time e) as [now e']. cbn [fst].
    eexists _, _, _. split; [done|]. splits; try done.
    + apply entries_map_last_seen.
    + by rewrite free_slots_upd.
  - by eexists _, _, _.
Qed.

Lemma touch_spec store sid e :
  exists store', (ipc_touch_session store sid e).1 =
      (if decide (is_Some (store_map store !! sid)) then 0 else -1, store') /\
    store_map store' = store_map store /\ free_slots store' = free_slots store.
Proof.
  unfold ipc_touch_session, store_map.
  pose proof (entries_map_find sid (sessions store)) as Hm.
  destruct (find_slot (entry_match sid) (sessions store)) as [i|] eqn:E; rewrite Hm.
  - unfold mbind, St_bind, mret, St_ret. destruct (time e) as [now e']. cbn [fst].
    rewrite decide_True by eauto. eexists. splits; [done| |].
    + apply entries_map_last_seen.
    + by rewrite free_slots_upd.
  - rewrite decide_False by (by intros []). by eexists.
Qed.

Lemma alloc_spec store e :
  match free_slots store with
  | O => (ipc_alloc_session store e).1 = (0, store)
  | S n => exists sid store', (ipc_alloc_session store e).1 = (sid, store') /\
      0 < sid < 18446744073709551616 /\ free_slots store' = n /\
      (store_map store !! sid = None -> exists g,
         store_map store' = <[sid := g]> (store_map store)) /\
      is_Some (store_map store' !! sid) /\
      (forall k, k <> sid -> store_map store' !! k = store_map store !! k)
  end.
Proof.
  destruct (free_slots store) as [|n] eqn:En.
  - apply free_slots_0 in En. unfold ipc_alloc_session. by rewrite En.
  - unfold ipc_alloc_session.
    destruct (find_slot is_free (sessions store)) as [i|] eqn:E;
      [|by apply free_slots_0 in E; rewrite E in En].
    unfold get_pid, mbind, St_bind, mret, St_ret. destruct (time e) as [now e1].
    destruct (rand e1) as [r e2]. destruct (time e2) as [now' e3]. cbn [fst].
    eexists _, _. split; [done|]. split; [apply make_sid_range|]. split.
    + rewrite free_slots_upd by done. rewrite free_slots_upd by done.
      pose proof (free_slots_claim (set_valid 1) _ _ E ltac:(done)) as Hc.
      unfold free_slots in *. cbn [upd_slot sessions]. lia.
    + unfold store_map, upd_slot. cbn [sessions]. rewrite !entries_map_last_seen.
      split; [|by apply entries_map_claim_other].
      intros Hn. destruct (entries_map_claim _ _ _ E Hn) as (en & _ & Hm).
      by exists (ent_st en, ent_hand en).
Qed.
End Refinement.

(** ** Traces of the store

    [store_run n store]: the operations of any number of sessions, in any
    order, with any environment, take the zeroed store to [store], and [n] of
    the allocations among them succeeded. *)

Inductive store_run `{Libc} : nat -> shm_store_t -> Prop :=
  | run_init : store_run 0 zero_store
  | run_alloc_ok n store e sid store' :
      store_run n store -> (ipc_alloc_session store e).1 = (sid, store') -> sid <> 0 ->
      store_run (S n) store'
  | run_alloc_full n store e store' :
      store_run n store -> (ipc_alloc_session store e).1 = (0, store') -> store_run n store'
  | run_save n store e sid st h rc store' :
      store_run n store -> (ipc_save_session store sid st h e).1 = (rc, store') ->
      store_run n store'
  | run_load n store e sid st h rc out store' :
      store_run n store -> (ipc_load_session store sid st h e).1 = (rc, out, store') ->
      store_run n store'
  | run_touch n store e sid rc store' :
      store_run n store -> (ipc_touch_session store sid e).1 = (rc, store') ->
      store_run n store'.

Lemma store_run_count `{LibcOK} n store :
  store_run n store -> (n + free_slots store)%nat = MAX_SESSIONS.
Proof.
  induction 1 as [|n store e sid store' _ IH He Hne|n store e store' _ IH He
    |n store e sid st h rc store' _ IH He|n store e sid st h rc out store' _ IH He
    |n store e sid rc store' _ IH He].
  - by vm_compute.
  - pose proof (alloc_spec store e) as Ha. destruct (free_slots store) eqn:E.
    + rewrite He in Ha. by simplify_eq.
    + destruct Ha as (sid' & store'' & Ha & _ & Hf & _). rewrite He in Ha. simplify_eq. lia.
  - pose proof (alloc_spec store e) as Ha. destruct (free_slots store) eqn:E.
    + rewrite He in Ha. simplify_eq. lia.
    + destruct Ha as (sid' & store'' & Ha & ? & _). rewrite He in Ha. simplify_eq. lia.
  - pose proof (save_spec store sid st h e) as Hs. destruct (store_map store !! sid).
    + destruct Hs as (store'' & Hs & _ & Hf). rewrite He in Hs. simplify_eq. lia.
    + rewrite He in Hs. by simplify_eq.
  - destruct (load_spec store sid st h e) as (? & ? & ? & Hl & _ & Hf & _).
    rewrite He in Hl. simplify_eq. lia.
  - destruct (touch_spec store sid e) as (? & Ht & _ & Hf). rewrite He in Ht. simplify_eq. lia.
Qed.

(** ** Theorems *)

Module StoreDemo.
Definition store1 : shm_store_t := (ipc_alloc_session zero_store TestLibc.env0).1.2.
Definition sid1 : Z := (ipc_alloc_session zero_store TestLibc.env0).1.1.
End StoreDemo.

(** Loading a session is a lookup in the abstract store: a known id gives
    return code 0 and the session's game, an unknown id gives -1 and leaves
    the caller's variables alone, and neither changes any stored game. *)
Theorem load_is_lookup `{LibcOK} store sid st h e :
  exists rc out store', (ipc_load_session store sid st h e).1 = (rc, out, store') /\
    store_map store' = store_map store /\
    (rc, out) = match store_map store !! sid with
                | Some g => (0, g)
                | None => (-1, (st, h))
                end.
Proof.
  destruct (load_spec store sid st h e) as (rc & out & store' & Hl & Hm & _ & Hr).
  exists rc, out, store'. splits; [done..|].
  destruct (store_map store !! sid); [by destruct Hr as [-> ->]|by destruct Hr as (-> & -> & _)].
Qed.

(** C16. Round trip through shared memory: a game saved under a known id is the
    game that a later load of the id returns, to any process, also after saves
    of other sessions in between. *)
Theorem save_load_roundtrip `{LibcOK} store sid st h e sid' st' h' e' e'' st0 h0 :
  is_Some (store_map store !! sid) -> sid' <> sid ->
  let store1 := (ipc_save_session store sid st h e).1.2 in
  let store2 := (ipc_save_session store1 sid' st' h' e').1.2 in
  (ipc_load_session store2 sid st0 h0 e'').1.1 = (0, (st, h)).
Proof.
  intros [g Hg] Hne store1 store2.
  assert (store_map store2 !! sid = Some (st, h)) as H2.
  { subst store2. rewrite save_map. subst store1. rewrite save_map, Hg.
    case_match; rewrite ?lookup_insert_ne by done; apply lookup_insert_eq. }
  destruct (load_spec store2 sid st0 h0 e'') as (rc & out & s3 & -> & _ & _ & Hr).
  rewrite H2 in Hr. by destruct Hr as [-> ->].
Qed.

Lemma save_load_roundtrip_witness :
  (ipc_load_session
     (ipc_save_session
        (ipc_save_session StoreDemo.store1 StoreDemo.sid1 Demo.state Demo.hand TestLibc.env0).1.2
        5 zero_state zero_hand TestLibc.env0).1.2
     StoreDemo.sid1 zero_state zero_hand TestLibc.env0).1.1 = (0, (Demo.state, Demo.hand)).
Proof.
  apply (save_load_roundtrip StoreDemo.store1 StoreDemo.sid1 Demo.state Demo.hand TestLibc.env0).
  - by_decide.
  - by_decide.
Defined.

(** Allocation: when a slot is free the new id is a nonzero [uint64_t], one
    slot fewer is free, and if no live session has the id then exactly that id
    is added; when none is free the result is 0 and nothing changes. *)
Theorem alloc_adds_session `{LibcOK} store e :
  exists sid store', (ipc_alloc_session store e).1 = (sid, store') /\
    is_u64 sid /\ (sid = 0 <-> free_slots store = 0%nat) /\
    free_slots store' = pred (free_slots store) /\
    if sid =? 0 then store' = store
    else store_map store !! sid = None -> exists g,
      store_map store' = <[sid := g]> (store_map store).
Proof.
  pose proof (alloc_spec store e) as Ha. destruct (free_slots store) as [|n] eqn:E.
  - exists 0, store. by rewrite E.
  - destruct Ha as (sid & store' & Hr & Hs & Hf & Hm & _). exists sid, store'.
    splits; try done.
    + unfold is_u64. lia.
    + split; lia.
    + by destruct (Z.eqb_spec sid 0); [lia|].
Qed.

Lemma alloc_adds_session_witness : exists sid store',
  (ipc_alloc_session zero_store TestLibc.env0).1 = (sid, store') /\ is_u64 sid /\
  free_slots store' = pred (free_slots zero_store).
Proof.
  destruct (alloc_adds_session zero_store TestLibc.env0) as (sid & store' & ? & ? & _ & ? & _).
  by exists sid, store'.
Defined.


