(* ===== verification/Race.v ===== *)
(** * Concurrent logins

    src/common/ipc.c, [ipc_alloc_session], as the sequence of its accesses to
    the shared memory, so that the workers of two connections can be
    interleaved access by access.  The function takes no lock. *)

From S2P Require Export IpcThms.

(** Where a worker is inside [ipc_alloc_session]: about to test
    [sessions[i].valid]; about to set it; about to compute the id; about to
    store it; about to stamp the entry; returned. *)
Inductive alloc_pc :=
  | at_test (i : nat)
  | at_claim (i : nat)
  | at_sid (i : nat)
  | at_store_sid (i : nat) (sid : Z)
  | at_stamp (i : nat) (sid : Z)
  | returned (sid : Z).

Section Race.
Context `{Libc}.

(** One access of a worker with its own environment. *)
Definition alloc_step (pc : alloc_pc) (store : shm_store_t) : St env (alloc_pc * shm_store_t) :=
  match pc with
  | at_test i =>
      match sessions store !! i with
      | None => mret (returned 0, store)
      | Some e => if is_free e then mret (at_claim i, store) else mret (at_test (S i), store)
      end
  | at_claim i => mret (at_sid i, upd_slot (set_valid 1) i store)
  | at_sid i =>
      now ← time;
      pid ← get_pid;
      r ← rand;
      mret (at_store_sid i (make_sid now i pid r), store)
  | at_store_sid i sid => mret (at_stamp i sid, upd_slot (set_session_id sid) i store)
  | at_stamp i sid =>
      now ← time;
      mret (returned sid, upd_slot (set_last_seen now) i store)
  | returned sid => mret (pc, store)
  end.

(** A worker on its own. *)
Fixpoint alloc_run (n : nat) (pc : alloc_pc) (store : shm_store_t) :
    St env (alloc_pc * shm_store_t) :=
  match n with
  | O => mret (pc, store)
  | S n' => '(pc, store) ← alloc_step pc store; alloc_run n' pc store
  end.

(** Two workers and the shared store. *)
Record duo := { pc1 : alloc_pc; env1 : env; pc2 : alloc_pc; env2 : env; shm : shm_store_t }.

Definition duo_step (first : bool) (d : duo) : duo :=
  if first then
    let '((pc, s), e) := alloc_step (pc1 d) (shm d) (env1 d) in
    {| pc1 := pc; env1 := e; pc2 := pc2 d; env2 := env2 d; shm := s |}
  else
    let '((pc, s), e) := alloc_step (pc2 d) (shm d) (env2 d) in
    {| pc1 := pc1 d; env1 := env1 d; pc2 := pc; env2 := e; shm := s |}.

(** A schedule says whose turn each access is. *)
Definition duo_run (sched : list bool) (d : duo) : duo := foldl (fun d b => duo_step b d) d sched.

Definition duo_start (store : shm_store_t) (e1 e2 : env) : duo :=
  {| pc1 := at_test 0; env1 := e1; pc2 := at_test 0; env2 := e2; shm := store |}.

(** Both test the slot before either claims it; then the first worker runs to
    its end, and then the second. *)
Definition bad_schedule : list bool :=
  [true; false; true; true; true; true; false; false; false; false].

(** ** A worker on its own *)

Lemma alloc_run_done n sid store e : alloc_run n (returned sid) store e = ((returned sid, store), e).
Proof. induction n as [|n IH]; [done|]. apply IH. Qed.

Lemma drop_cons_inv {A} i (l : list A) x k :
  drop i l = x :: k -> l !! i = Some x /\ drop (S i) l = k.
Proof.
  intros E. split.
  - rewrite <- (Nat.add_0_r i), <- lookup_drop, E. done.
  - replace (S i) with (i + 1)%nat by lia. by rewrite <- drop_drop, E.
Qed.

Lemma alloc_run_scan l i store n e :
  drop i (sessions store) = l ->
  alloc_run (length l + 5 + n) (at_test i) store e =
    match find_slot is_free l with
    | None => ((returned 0, store), e)
    | Some j => alloc_run (length l + 5 + n - S j) (at_claim (i + j)) store e
    end.
Proof.
  revert i n. induction l as [|x l IH]; intros i n E.
  - assert (sessions store !! i = None) as Hn.
    { rewrite <- (Nat.add_0_r i), <- lookup_drop, E. done. }
    cbn [length Nat.add find_slot alloc_run alloc_step]. rewrite Hn. apply alloc_run_done.
  - apply drop_cons_inv in E as [Hx E]. cbn [length Nat.add].
    cbn [alloc_run alloc_step]. rewrite Hx. cbn [find_slot].
    destruct (is_free x).
    + rewrite Nat.add_0_r. unfold mbind, St_bind, mret, St_ret. f_equal. lia.
    + unfold mbind, St_bind, mret, St_ret. rewrite (IH _ _ E).
      destruct (find_slot is_free l) as [j|]; [|done]. cbn [fmap option_fmap option_map].
      by replace (i + S j)%nat with (S i + j)%nat by lia.
Qed.

(** Run alone, the accesses amount to the function of Ipc.v. *)
Lemma alloc_run_alone store e :
  alloc_run (length (sessions store) + 5) (at_test 0) store e =
    let '((sid, store'), e') := ipc_alloc_session store e in ((returned sid, store'), e').
Proof.
  rewrite <- (Nat.add_0_r (_ + 5)). rewrite (alloc_run_scan (sessions store)) by done.
  unfold ipc_alloc_session. destruct (find_slot is_free (sessions store)) as [i|] eqn:E; [|done].
  apply find_slot_lookup in E as (x & Hx & _). apply lookup_lt_Some in Hx.
  replace (length (sessions store) + 5 + 0 - S i)%nat
    with (4 + (length (sessions store) - i))%nat by lia.
  cbn [Nat.add alloc_run alloc_step]. unfold mbind, St_bind, mret, St_ret, get_pid.
  cbn [alloc_step]. unfold mbind, St_bind, mret, St_ret, get_pid.
  destruct (time e) as [now e1]. destruct (rand e1) as [r e2].
  do 2 (cbn [alloc_step]; unfold mbind, St_bind, mret, St_ret).
  destruct (time e2) as [now' e3]. apply alloc_run_done.
Qed.
End Race.

(** ** Two workers at once *)

Lemma omap_zero n : omap entry_pair (replicate n zero_entry) = [].
Proof. by induction n. Qed.

Section Duo.
Context `{Libc}.

(** A stretch of a schedule in which one worker runs alone. *)
Lemma duo_run_first n d :
  duo_run (replicate n true) d =
    let '((pc, s), e) := alloc_run n (pc1 d) (shm d) (env1 d) in
    {| pc1 := pc; env1 := e; pc2 := pc2 d; env2 := env2 d; shm := s |}.
Proof.
  revert d. induction n as [|n IH]; intros [p1 e1 p2 e2 s]; [done|].
  cbn [replicate alloc_run]. unfold duo_run in *. cbn [foldl duo_step pc1 env1 shm].
  unfold mbind, St_bind. destruct (alloc_step p1 s e1) as [[p s'] e]. by rewrite IH.
Qed.

Lemma duo_run_second n d :
  duo_run (replicate n false) d =
    let '((pc, s), e) := alloc_run n (pc2 d) (shm d) (env2 d) in
    {| pc1 := pc1 d; env1 := env1 d; pc2 := pc; env2 := e; shm := s |}.
Proof.
  revert d. induction n as [|n IH]; intros [p1 e1 p2 e2 s]; [done|].
  cbn [replicate alloc_run]. unfold duo_run in *. cbn [foldl duo_step pc2 env2 shm].
  unfold mbind, St_bind. destruct (alloc_step p2 s e2) as [[p s'] e]. by rewrite IH.
Qed.

Lemma duo_run_app l1 l2 d : duo_run (l1 ++ l2) d = duo_run l2 (duo_run l1 d).
Proof. apply foldl_app. Qed.

Lemma test_free x l e :
  is_free x = true ->
  alloc_step (at_test 0) {| sessions := x :: l |} e = ((at_claim 0, {| sessions := x :: l |}), e).
Proof.
  intros Hx. unfold alloc_step.
  change (sessions {| sessions := x :: l |} !! 0%nat) with (Some x). cbn match. by rewrite Hx.
Qed.

(** From the claim on, a worker writes its id into the slot, whoever has
    claimed it since. *)
Lemma claim_run i store e :
  exists sid now e', alloc_run 4 (at_claim i) store e =
    ((returned sid, upd_slot (set_last_seen now) i
       (upd_slot (set_session_id sid) i (upd_slot (set_valid 1) i store))), e') /\ sid <> 0.
Proof.
  cbn [alloc_run]. do 2 (cbn [alloc_step]; unfold mbind, St_bind, mret, St_ret, get_pid).
  destruct (time e) as [now e1]. destruct (rand e1) as [r e2].
  do 2 (cbn [alloc_step]; unfold mbind, St_bind, mret, St_ret). destruct (time e2) as [now' e3].
  eexists _, _, _. split; [reflexivity|]. unfold make_sid.
  cbv zeta. match goal with |- context [?a =? 0] => destruct (Z.eqb_spec a 0) end; lia.
Qed.

(** The [bad_schedule] on a store whose first slot is free. *)
Lemma bad_run x l e1 e2 :
  is_free x = true ->
  exists sid1 sid2 t1 t2 e1' e2',
    duo_run bad_schedule (duo_start {| sessions := x :: l |} e1 e2) =
      {| pc1 := returned sid1; env1 := e1'; pc2 := returned sid2; env2 := e2';
         shm := {| sessions := set_last_seen t2 (set_session_id sid2 (set_valid 1
           (set_last_seen t1 (set_session_id sid1 (set_valid 1 x))))) :: l |} |} /\
    sid1 <> 0 /\ sid2 <> 0.
Proof.
  intros Hx.
  change bad_schedule with (([true] ++ [false]) ++ replicate 4 true ++ replicate 4 false).
  rewrite !duo_run_app. unfold duo_start.
  set (s0 := {| sessions := x :: l |}).
  assert (duo_run [false] (duo_run [true]
      {| pc1 := at_test 0; env1 := e1; pc2 := at_test 0; env2 := e2; shm := s0 |}) =
    {| pc1 := at_claim 0; env1 := e1; pc2 := at_claim 0; env2 := e2; shm := s0 |}) as ->.
  { unfold duo_run, s0. cbn [foldl]. unfold duo_step. cbn [pc1 env1 pc2 env2 shm].
    rewrite test_free by done. cbn [pc1 env1 pc2 env2 shm]. by rewrite test_free. }
  rewrite duo_run_first. cbn [pc1 env1 pc2 env2 shm].
  destruct (claim_run 0 s0 e1) as (sid1 & t1 & e1' & -> & Hs1).
  rewrite duo_run_second. cbn [pc1 env1 pc2 env2 shm].
  destruct (claim_run 0 (upd_slot (set_last_seen t1) 0 (upd_slot (set_session_id sid1) 0
    (upd_slot (set_valid 1) 0 s0))) e2) as (sid2 & t2 & e2' & -> & Hs2).
  by exists sid1, sid2, t1, t2, e1', e2'.
Qed.
End Duo.

(** ** Theorems *)

(** Run without interference, the accesses of [ipc_alloc_session] are the
    function that the sessions are verified with: after one access per slot
    and five more the worker has returned, with the same id, store and
    environment. *)
Theorem alloc_alone_refines `{Libc} store e :
  alloc_run (length (sessions store) + 5) (at_test 0) store e =
    let '((sid, store'), e') := ipc_alloc_session store e in ((returned sid, store'), e').
Proof. apply alloc_run_alone. Qed.

(** C35. Two logins at once can take the same slot: when both test it before
    either claims it, both are given a session, and unless the ids happen to
    be equal the first one's is not in the store, so that its games are never
    saved and cannot be resumed. *)
Theorem alloc_race `{Libc} e1 e2 :
  let d := duo_run bad_schedule (duo_start zero_store e1 e2) in
  exists sid1 sid2, pc1 d = returned sid1 /\ pc2 d = returned sid2 /\
    sid1 <> 0 /\ sid2 <> 0 /\ is_Some (store_map (shm d) !! sid2) /\
    (sid1 <> sid2 -> store_map (shm d) !! sid1 = None /\
       forall st hand e, (ipc_save_session (shm d) sid1 st hand e).1.1 = -1).
Proof.
  intros d. subst d. unfold zero_store, MAX_SESSIONS. cbn [replicate].
  change (zero_entry :: _) with (zero_entry :: replicate 127 zero_entry).
  destruct (bad_run zero_entry (replicate 127 zero_entry) e1 e2 eq_refl)
    as (sid1 & sid2 & t1 & t2 & e1' & e2' & -> & Hs1 & Hs2).
  exists sid1, sid2. cbn [pc1 pc2 shm].
  set (s := {| sessions := _ :: _ |}).
  assert (store_map s = {[ sid2 := (zero_state, zero_hand) ]}) as Hm.
  { unfold store_map, entries_map, s. cbn [sessions omap list_omap]. rewrite omap_zero.
    reflexivity. }
  rewrite Hm, lookup_singleton_eq. splits; [done|done|done|done|by eexists|].
  intros Hne. assert (store_map s !! sid1 = None) as Hn
    by (rewrite Hm; by apply lookup_singleton_ne).
  split; [rewrite <- Hm; exact Hn|].
  intros st hand e. pose proof (save_spec s sid1 st hand e) as Hsv.
  rewrite Hn in Hsv. by rewrite Hsv.
Qed.
