(* ===== verification/StoreRace.v ===== *)
(** * Concurrent accesses to the sessions

    src/common/ipc.c, [ipc_save_session], [ipc_load_session] and
    [ipc_touch_session], as the sequences of their accesses to the shared
    memory: the test of [valid], the test of [session_id], the copy of [st],
    the copy of [hand], the stamp.  None of them takes a lock.  Any number of
    workers are interleaved access by access; as long as they use different
    sessions this is the same as letting each run on its own, which is what
    System.v takes for granted.  Two workers on one session can tear a game. *)

From S2P Require Export Race.

(** ** The accesses *)

(** A call with its variables [st] and [hand]: what is saved, or the
    out-parameters. *)
Inductive sess_call :=
  | do_save (st : state_t) (hand : hand_t)
  | do_load (st : state_t) (hand : hand_t)
  | do_touch.

(** Where a worker is: between two calls; in the loop, about to test [valid] or
    [session_id] of slot [i]; or about to copy or to stamp. *)
Inductive call_pc :=
  | between
  | at_valid (c : sess_call) (i : nat)
  | at_id (c : sess_call) (i : nat)
  | at_st (c : sess_call) (i : nat)
  | at_hand (c : sess_call) (i : nat)
  | at_seen (c : sess_call) (i : nat).

Definition result : Type := Z * option (state_t * hand_t).

Definition call_out (c : sess_call) : option (state_t * hand_t) :=
  match c with do_load st hand => Some (st, hand) | _ => None end.

(** A worker that uses session [r_sid]: the next call is a function of the
    results of the calls before, which are its log. *)
Record runner := { r_sid : Z; r_next : list result -> option sess_call;
                   r_log : list result; r_pc : call_pc }.

Definition go (pc : call_pc) (r : runner) : runner :=
  {| r_sid := r_sid r; r_next := r_next r; r_log := r_log r; r_pc := pc |}.
Definition give (rc : Z) (c : sess_call) (r : runner) : runner :=
  {| r_sid := r_sid r; r_next := r_next r; r_log := r_log r ++ [(rc, call_out c)];
     r_pc := between |}.

Definition set_st (st : state_t) (e : session_entry_t) : session_entry_t := set_game st (ent_hand e) e.
Definition set_hand (h : hand_t) (e : session_entry_t) : session_entry_t := set_game (ent_st e) h e.

(** The slot of the next access. *)
Definition slot (r : runner) : nat :=
  match r_pc r with
  | between => 0
  | at_valid _ i | at_id _ i | at_st _ i | at_hand _ i | at_seen _ i => i
  end.

Section Accesses.
Context `{Libc}.

(** The next access, given what its slot holds, [None] past the last slot:
    where the worker is then, and what becomes of the slot. *)
Definition access (r : runner) (x : option session_entry_t) :
    St env (runner * (session_entry_t -> session_entry_t)) :=
  match r_pc r, x with
  | between, _ =>
      mret (match r_next r (r_log r) with Some c => go (at_valid c 0) r | None => r end, id)
  | at_valid c i, None => mret (give (-1) c r, id)
  | at_valid c i, Some e =>
      mret (go (if truthy (valid e) then at_id c i else at_valid c (S i)) r, id)
  | at_id c i, Some e =>
      mret (go (if session_id e =? r_sid r
                then match c with do_touch => at_seen c i | _ => at_st c i end
                else at_valid c (S i)) r, id)
  | at_st c i, Some e =>
      match c with
      | do_save st _ => mret (go (at_hand c i) r, set_st st)
      | do_load _ hand => mret (go (at_hand (do_load (ent_st e) hand) i) r, id)
      | do_touch => mret (r, id)
      end
  | at_hand c i, Some e =>
      match c with
      | do_save _ hand => mret (go (at_seen c i) r, set_hand hand)
      | do_load st _ => mret (go (at_seen (do_load st (ent_hand e)) i) r, id)
      | do_touch => mret (r, id)
      end
  | at_seen c i, Some e =>
      now ← time;
      mret (give 0 c r, set_last_seen now)
  | _, None => mret (r, id)
  end.

(** A worker on its own. *)
Definition alone_step (r : runner) (store : shm_store_t) : St env (runner * shm_store_t) :=
  '(r', g) ← access r (sessions store !! slot r);
  mret (r', upd_slot g (slot r) store).

Fixpoint alone (n : nat) (r : runner) (store : shm_store_t) : St env (runner * shm_store_t) :=
  match n with
  | O => mret (r, store)
  | S n' => '(r, store) ← alone_step r store; alone n' r store
  end.

(** The call as a whole: Ipc.v. *)
Definition do_call (sid : Z) (c : sess_call) (store : shm_store_t) : St env (result * shm_store_t) :=
  match c with
  | do_save st hand =>
      '(rc, store) ← ipc_save_session store sid st hand; mret ((rc, None), store)
  | do_load st hand =>
      '(rc, g, store) ← ipc_load_session store sid st hand; mret ((rc, Some g), store)
  | do_touch => '(rc, store) ← ipc_touch_session store sid; mret ((rc, None), store)
  end.

Definition log_result (res : result) (r : runner) : runner :=
  {| r_sid := r_sid r; r_next := r_next r; r_log := r_log r ++ [res]; r_pc := between |}.

(** ** Many workers *)

Record crew := { c_runners : list (runner * env); c_store : shm_store_t }.

Definition crew_step (c : crew) (i : nat) : crew :=
  match c_runners c !! i with
  | None => c
  | Some (r, e) =>
      let '((r', store), e') := alone_step r (c_store c) e in
      {| c_runners := <[i := (r', e')]> (c_runners c); c_store := store |}
  end.

(** A schedule is the sequence of the workers whose turn it is. *)
Definition crew_run (sched : list nat) (c : crew) : crew := foldl crew_step c sched.
End Accesses.

(** ** Two workers on different sessions commute *)

Section Commute.
Context `{Libc}.

(** No access touches what the loops test. *)
Definition keeps_key (g : session_entry_t -> session_entry_t) : Prop :=
  forall x, session_id (g x) = session_id x /\ valid (g x) = valid x.

Lemma access_keeps_key r x e : keeps_key ((access r x) e).1.2.
Proof.
  unfold access. destruct (r_pc r); destruct x; try (intros y; split; reflexivity);
    try (destruct c; intros y; split; reflexivity).
  unfold mbind, St_bind. by destruct (time e).
Qed.

Lemma access_sid r x e : r_sid ((access r x) e).1.1 = r_sid r.
Proof.
  unfold access. destruct (r_pc r), x as [x|]; cbn; try done; try (by destruct (r_next _ _));
    try (by destruct c).
  unfold mbind, St_bind. by destruct (time e).
Qed.

Lemma alone_sid n r store e : r_sid ((alone n r store) e).1.1 = r_sid r.
Proof.
  revert r store e. induction n as [|n IH]; intros r store e; [done|].
  cbn [alone]. unfold alone_step, mbind, St_bind.
  pose proof (access_sid r (sessions store !! slot r) e) as Hs.
  destruct (access r _ e) as [[r' g] e']. cbn [fst] in Hs. unfold mret, St_ret.
  rewrite <- Hs. apply IH.
Qed.

(** Inside a call the worker has found its session in the slot it is at. *)
Definition scanning (pc : call_pc) : bool :=
  match pc with between | at_valid _ _ | at_id _ _ => true | _ => false end.

Definition holds_slot (store : shm_store_t) (r : runner) : Prop :=
  scanning (r_pc r) = false ->
  exists x, sessions store !! slot r = Some x /\ session_id x = r_sid r.

Lemma holds_slot_upd g i store r :
  keeps_key g -> holds_slot store r -> holds_slot (upd_slot g i store) r.
Proof.
  intros Hg Hh Hs. destruct (Hh Hs) as (x & Hx & Hid). unfold upd_slot. cbn [sessions].
  destruct (decide (i = slot r)) as [->|Hne].
  - exists (g x). rewrite list_lookup_alter_eq, Hx. split; [done|]. by rewrite (proj1 (Hg x)).
  - exists x. by rewrite list_lookup_alter_ne.
Qed.

(** While it scans, a worker changes nothing and sees of a slot only what no
    access changes. *)
Lemma access_scanning r x g e :
  scanning (r_pc r) = true -> keeps_key g ->
  access r (g <$> x) e = access r x e /\ ((access r x) e).1.2 = id.
Proof.
  intros Hs Hg. unfold access. destruct (r_pc r); try done; destruct x as [x|]; cbn [fmap option_fmap option_map];
    try done; by rewrite ?(proj1 (Hg x)), ?(proj2 (Hg x)).
Qed.

Lemma access_holds r store e :
  holds_slot store r -> holds_slot store ((access r (sessions store !! slot r)) e).1.1.
Proof.
  intros Hh. unfold holds_slot, access in *. unfold slot in *.
  destruct (r_pc r) as [|c i|c i|c i|c i|c i] eqn:Ep; cbn [scanning] in Hh.
  - by destruct (r_next r (r_log r)); cbn; rewrite ?Ep.
  - destruct (sessions store !! i); [|done]. cbn. by destruct (truthy _).
  - destruct (sessions store !! i) as [x|] eqn:Ex; cbn; [|by rewrite Ep].
    destruct (Z.eqb_spec (session_id x) (r_sid r)); [|done]. by destruct c; intros _; exists x.
  - destruct (Hh eq_refl) as (x & -> & Hid). destruct c; cbn; rewrite ?Ep; eauto.
  - destruct (Hh eq_refl) as (x & -> & Hid). destruct c; cbn; rewrite ?Ep; eauto.
  - destruct (Hh eq_refl) as (x & -> & Hid). unfold mbind, St_bind. by destruct (time e).
Qed.

Lemma upd_slot_commute g1 i1 g2 i2 store :
  i1 <> i2 \/ g1 = id \/ g2 = id ->
  upd_slot g1 i1 (upd_slot g2 i2 store) = upd_slot g2 i2 (upd_slot g1 i1 store).
Proof.
  unfold upd_slot. cbn [sessions]. intros Hc. f_equal. apply list_eq. intros k.
  rewrite !list_lookup_alter. repeat case_decide; subst; try done.
  destruct Hc as [|[-> | ->]]; [congruence|by rewrite !option_fmap_id..].
Qed.

(** The next access of a worker is the same after an access of a worker on
    another session. *)
Lemma access_apart r1 r2 store e1 e2 :
  holds_slot store r1 -> holds_slot store r2 -> r_sid r1 <> r_sid r2 ->
  let g2 := ((access r2 (sessions store !! slot r2)) e2).1.2 in
  access r1 (sessions (upd_slot g2 (slot r2) store) !! slot r1) e1 =
    access r1 (sessions store !! slot r1) e1 /\
  (slot r1 <> slot r2 \/ ((access r1 (sessions store !! slot r1)) e1).1.2 = id \/ g2 = id).
Proof.
  intros Hh1 Hh2 Hne g2. pose proof (access_keeps_key r2 (sessions store !! slot r2) e2) as Hg.
  fold g2 in Hg. unfold upd_slot. cbn [sessions].
  destruct (decide (slot r1 = slot r2)) as [E|Hs].
  2:{ rewrite list_lookup_alter_ne by done. by auto. }
  rewrite <- E. rewrite list_lookup_alter_eq.
  destruct (scanning (r_pc r1)) eqn:E1.
  { destruct (access_scanning r1 (sessions store !! slot r1) g2 e1 E1 Hg). auto. }
  destruct (scanning (r_pc r2)) eqn:E2.
  { destruct (access_scanning r2 (sessions store !! slot r2) id e2 E2) as [_ Hid];
      [by intros x|]. subst g2. rewrite Hid. rewrite option_fmap_id. auto. }
  destruct (Hh1 E1) as (x1 & Hx1 & Hid1), (Hh2 E2) as (x2 & Hx2 & Hid2).
  rewrite E in Hx1. congruence.
Qed.
End Commute.

(** ** Schedules *)

Section Schedules.
Context `{Libc}.

(** Every worker has its own session, and is where the code can be. *)
Record crew_ok (c : crew) : Prop := {
  co_apart : forall i j ri rj, i <> j -> c_runners c !! i = Some ri -> c_runners c !! j = Some rj ->
    r_sid ri.1 <> r_sid rj.1;
  co_holds : forall i ri, c_runners c !! i = Some ri -> holds_slot (c_store c) ri.1;
}.

(** A step of worker [i], spelled out. *)
Lemma crew_step_eq c i r e r' g e' :
  c_runners c !! i = Some (r, e) ->
  access r (sessions (c_store c) !! slot r) e = ((r', g), e') ->
  crew_step c i = {| c_runners := <[i := (r', e')]> (c_runners c);
                     c_store := upd_slot g (slot r) (c_store c) |}.
Proof.
  intros Hi Ha. unfold crew_step. rewrite Hi. unfold alone_step, mbind, St_bind. by rewrite Ha.
Qed.

Lemma crew_step_none c i : c_runners c !! i = None -> crew_step c i = c.
Proof. intros Hi. unfold crew_step. by rewrite Hi. Qed.

Lemma crew_step_ok c i : crew_ok c -> crew_ok (crew_step c i).
Proof.
  intros [Ha Hh]. destruct (c_runners c !! i) as [[r e]|] eqn:Hi;
    [|by rewrite crew_step_none].
  destruct (access r (sessions (c_store c) !! slot r) e) as [[r' g] e'] eqn:E.
  rewrite (crew_step_eq _ _ _ _ _ _ _ Hi E).
  pose proof (access_sid r (sessions (c_store c) !! slot r) e) as Hsid.
  pose proof (access_keeps_key r (sessions (c_store c) !! slot r) e) as Hg.
  pose proof (access_holds r (c_store c) e (Hh _ _ Hi)) as Hr'. rewrite E in Hsid, Hg, Hr'.
  cbn [fst snd] in Hsid, Hg, Hr'.
  pose proof (lookup_lt_Some _ _ _ Hi) as Hlt.
  split; cbn [c_runners c_store].
  - assert (forall j rj, <[i := (r', e')]> (c_runners c) !! j = Some rj ->
      exists r0, c_runners c !! j = Some r0 /\ r_sid r0.1 = r_sid rj.1) as Hold.
    { intros j rj. rewrite list_lookup_insert. case_decide as Hd; [|by exists rj].
      intros [= <-]. destruct Hd as [<- _]. by exists (r, e). }
    intros j k rj rk Hjk (rj0 & Ej & <-)%Hold (rk0 & Ek & <-)%Hold. by apply (Ha j k).
  - intros j rj. rewrite list_lookup_insert. case_decide; intros Ej; simplify_eq;
      apply holds_slot_upd; try done. by eapply Hh.
Qed.

(** Steps of two workers commute. *)
Lemma crew_step_commute c i j :
  crew_ok c -> i <> j -> crew_step (crew_step c i) j = crew_step (crew_step c j) i.
Proof.
  intros [Ha Hh] Hij.
  destruct (c_runners c !! i) as [[ri ei]|] eqn:Hi.
  2:{ rewrite (crew_step_none c i Hi). symmetry. apply crew_step_none.
      unfold crew_step. destruct (c_runners c !! j) as [[rj ej]|]; [|done].
      destruct (alone_step rj (c_store c) ej) as [[rj' sj] ej']. cbn.
      by rewrite list_lookup_insert_ne. }
  destruct (c_runners c !! j) as [[rj ej]|] eqn:Hj.
  2:{ rewrite (crew_step_none c j Hj). apply crew_step_none.
      unfold crew_step. rewrite Hi.
      destruct (alone_step ri (c_store c) ei) as [[ri' si] ei']. cbn.
      by rewrite list_lookup_insert_ne. }
  pose proof (Ha i j _ _ Hij Hi Hj) as Hne. cbn [fst] in Hne.
  destruct (access_apart ri rj (c_store c) ei ej (Hh _ _ Hi) (Hh _ _ Hj) Hne) as [Ei Hc].
  destruct (access_apart rj ri (c_store c) ej ei (Hh _ _ Hj) (Hh _ _ Hi) (not_eq_sym Hne)) as [Ej _].
  destruct (access ri (sessions (c_store c) !! slot ri) ei) as [[ri' gi] ei'] eqn:Eri.
  destruct (access rj (sessions (c_store c) !! slot rj) ej) as [[rj' gj] ej'] eqn:Erj.
  cbn [fst snd] in *.
  rewrite (crew_step_eq _ _ _ _ _ _ _ Hi Eri), (crew_step_eq _ _ _ _ _ _ _ Hj Erj).
  rewrite (crew_step_eq _ j rj ej rj' gj ej'), (crew_step_eq _ i ri ei ri' gi ei'); cbn [c_runners c_store];
    [|by rewrite list_lookup_insert_ne|done|by rewrite list_lookup_insert_ne|done].
  f_equal; [by apply list_insert_insert_ne|]. apply upd_slot_commute.
  destruct Hc as [|[|]]; auto.
Qed.

Lemma crew_run_ok sched c : crew_ok c -> crew_ok (crew_run sched c).
Proof.
  revert c. induction sched as [|i sched IH]; intros c Hc; [done|]. by apply IH, crew_step_ok.
Qed.

(** The order of the accesses does not matter, only how many each worker made. *)
Lemma crew_run_permutation s1 s2 c : crew_ok c -> s1 ≡ₚ s2 -> crew_run s1 c = crew_run s2 c.
Proof.
  intros Hc Hp. revert c Hc.
  induction Hp as [|i s1 s2 _ IH|i j s|s1 s2 s3 _ IH1 _ IH2]; intros c Hc.
  - done.
  - apply IH. by apply crew_step_ok.
  - unfold crew_run. cbn [foldl]. destruct (decide (i = j)) as [->|Hne]; [done|].
    by rewrite crew_step_commute.
  - rewrite IH1 by done. by apply IH2.
Qed.

Lemma crew_run_app s1 s2 c : crew_run (s1 ++ s2) c = crew_run s2 (crew_run s1 c).
Proof. apply foldl_app. Qed.

(** One worker running on its own. *)
Lemma crew_run_alone n i c r e :
  c_runners c !! i = Some (r, e) ->
  crew_run (replicate n i) c =
    let '((r', store), e') := alone n r (c_store c) e in
    {| c_runners := <[i := (r', e')]> (c_runners c); c_store := store |}.
Proof.
  revert c r e. induction n as [|n IH]; intros c r e Hi.
  - cbn. unfold mret, St_ret. rewrite list_insert_id by done. by destruct c.
  - cbn [replicate alone]. unfold crew_run, mbind, St_bind in *. cbn [foldl].
    unfold crew_step at 2. rewrite Hi.
    destruct (alone_step r (c_store c) e) as [[r1 s1] e1].
    rewrite (IH _ r1 e1) by (cbn; apply list_lookup_insert_eq; by eapply lookup_lt_Some).
    cbn [c_runners c_store]. destruct (alone n r1 s1 e1) as [[r2 s2] e2].
    by rewrite list_insert_insert_eq.
Qed.

(** The others leave a worker, and the slots of its session, alone. *)
Lemma crew_run_others i sched c r e :
  crew_ok c -> i ∉ sched -> c_runners c !! i = Some (r, e) ->
  c_runners (crew_run sched c) !! i = Some (r, e) /\
  forall k x, sessions (c_store c) !! k = Some x -> session_id x = r_sid r ->
    sessions (c_store (crew_run sched c)) !! k = Some x.
Proof.
  revert c. induction sched as [|j sched IH]; intros c Hc Hns Hi; [done|].
  apply not_elem_of_cons in Hns as [Hne Hns]. unfold crew_run. cbn [foldl].
  fold (crew_run sched (crew_step c j)).
  assert (c_runners (crew_step c j) !! i = Some (r, e) /\
    forall k x, sessions (c_store c) !! k = Some x -> session_id x = r_sid r ->
      sessions (c_store (crew_step c j)) !! k = Some x) as [Hi' Hk'].
  { destruct (c_runners c !! j) as [[rj ej]|] eqn:Hj; [|by rewrite crew_step_none].
    destruct (access rj (sessions (c_store c) !! slot rj) ej) as [[rj' g] ej'] eqn:E.
    rewrite (crew_step_eq _ _ _ _ _ _ _ Hj E). cbn [c_runners c_store].
    split; [by rewrite list_lookup_insert_ne|]. intros k x Hx Hid. unfold upd_slot. cbn [sessions].
    destruct (decide (slot rj = k)) as [<-|Hs]; [|by rewrite list_lookup_alter_ne].
    rewrite list_lookup_alter_eq, Hx. destruct (scanning (r_pc rj)) eqn:Esc.
    - pose proof (access_scanning rj (sessions (c_store c) !! slot rj) id ej Esc) as [_ Hg];
        [by intros y|]. rewrite E in Hg. cbn in Hg. by rewrite Hg.
    - destruct (co_holds c Hc j _ Hj Esc) as (x' & Hx' & Hid'). cbn [fst] in *.
      rewrite Hx in Hx'. injection Hx' as <-.
      destruct (co_apart c Hc i j _ _ Hne Hi Hj). cbn. congruence. }
  destruct (IH (crew_step c j) (crew_step_ok c j Hc) Hns Hi') as [Hi2 Hk2].
  split; [exact Hi2|]. intros k x Hx Hid. apply Hk2; [|done]. by apply Hk'.
Qed.

Lemma sched_split (i : nat) sched :
  sched ≡ₚ replicate (count_occ Nat.eq_dec sched i) i ++ filter (fun j => j <> i) sched.
Proof.
  induction sched as [|j sched IH]; [done|]. rewrite filter_cons. cbn [count_occ].
  destruct (Nat.eq_dec j i) as [->|Hne].
  - rewrite decide_False by (by intros []). cbn [replicate app]. by constructor.
  - rewrite decide_True by done. rewrite <- Permutation_middle. by constructor.
Qed.

Lemma crew_run_project sched c i r e :
  crew_ok c -> c_runners c !! i = Some (r, e) ->
  let '((r', store), e') := alone (count_occ Nat.eq_dec sched i) r (c_store c) e in
  c_runners (crew_run sched c) !! i = Some (r', e') /\
  forall k x, sessions store !! k = Some x -> session_id x = r_sid r ->
    sessions (c_store (crew_run sched c)) !! k = Some x.
Proof.
  intros Hc Hi. pose proof (sched_split i sched) as Hp.
  rewrite (crew_run_permutation _ _ c Hc Hp), crew_run_app.
  assert (i ∉ filter (fun j => j <> i) sched) as Hni.
  { intros [Hne _]%list_elem_of_filter. done. }
  revert Hni. generalize (filter (fun j => j <> i) sched) as rest. intros rest Hni.
  set (n := count_occ _ _ _). clearbody n. clear Hp.
  pose proof (crew_run_ok (replicate n i) c Hc) as Hc'.
  pose proof (alone_sid n r (c_store c) e) as Hsid.
  rewrite (crew_run_alone n i c r e Hi) in Hc' |- *.
  destruct (alone n r (c_store c) e) as [[r' store] e']. cbn [fst] in Hsid.
  pose proof (crew_run_others i rest _ r' e' Hc' Hni) as Ho. cbn [c_runners c_store] in Ho.
  rewrite Hsid in Ho. apply Ho. apply list_lookup_insert_eq. by eapply lookup_lt_Some.
Qed.
End Schedules.

(** ** A call on its own *)

Section Alone.
Context `{Libc}.

Lemma alone_S n r store e r' g e' :
  access r (sessions store !! slot r) e = ((r', g), e') ->
  alone (S n) r store e = alone n r' (upd_slot g (slot r) store) e'.
Proof. intros E. cbn [alone]. unfold alone_step, mbind, St_bind. by rewrite E. Qed.

Lemma upd_slot_id i store : upd_slot id i store = store.
Proof.
  destruct store as [l]. unfold upd_slot. cbn. f_equal. apply list_eq. intros k.
  rewrite list_lookup_alter. case_decide as E; [subst; apply option_fmap_id|done].
Qed.

(** An access that only reads. *)
Lemma alone_read n r store e r' :
  access r (sessions store !! slot r) e = ((r', id), e) ->
  alone (S n) r store e = alone n r' store e.
Proof. intros E. by rewrite (alone_S _ _ _ _ _ _ _ E), upd_slot_id. Qed.

Definition found_pc (c : sess_call) (i : nat) : call_pc :=
  match c with do_touch => at_seen c i | _ => at_st c i end.

Lemma alone_scan l i c r store e n :
  drop i (sessions store) = l ->
  exists m, alone (m + n) (go (at_valid c i) r) store e =
    alone n (match find_slot (entry_match (r_sid r)) l with
             | None => give (-1) c r
             | Some j => go (found_pc c (i + j)) r
             end) store e.
Proof.
  revert i. induction l as [|x l IH]; intros i E.
  - assert (sessions store !! i = None) as Hn.
    { rewrite <- (Nat.add_0_r i), <- lookup_drop, E. done. }
    exists 1%nat. apply alone_read. unfold access, slot. cbn [r_pc go]. by rewrite Hn.
  - apply drop_cons_inv in E as [Hx E]. destruct (IH (S i) E) as [m Em].
    cbn [find_slot]. unfold entry_match at 1. destruct (truthy (valid x)) eqn:Ev; cbn [andb].
    + destruct (session_id x =? r_sid r) eqn:Es.
      * exists 2%nat. cbn [Nat.add]. rewrite Nat.add_0_r.
        rewrite (alone_read _ _ _ _ (go (at_id c i) r)).
        2:{ unfold access, slot. cbn [r_pc go]. by rewrite Hx, Ev. }
        apply alone_read. unfold access, slot. cbn [r_pc go r_sid]. rewrite Hx, Es. by destruct c.
      * exists (S (S m)). cbn [Nat.add].
        rewrite (alone_read _ _ _ _ (go (at_id c i) r)).
        2:{ unfold access, slot. cbn [r_pc go]. by rewrite Hx, Ev. }
        rewrite (alone_read _ _ _ _ (go (at_valid c (S i)) r)).
        2:{ unfold access, slot. cbn [r_pc go r_sid]. by rewrite Hx, Es. }
        rewrite Em. destruct (find_slot _ l) as [j|]; [|done]. cbn [fmap option_fmap option_map].
        by replace (i + S j)%nat with (S i + j)%nat by lia.
    + exists (S m). cbn [Nat.add]. rewrite (alone_read _ _ _ _ (go (at_valid c (S i)) r)).
      2:{ unfold access, slot. cbn [r_pc go]. by rewrite Hx, Ev. }
      rewrite Em. destruct (find_slot _ l) as [j|]; [|done]. cbn [fmap option_fmap option_map].
      by replace (i + S j)%nat with (S i + j)%nat by lia.
Qed.

Lemma upd_slot_twice f g i store : upd_slot f i (upd_slot g i store) = upd_slot (fun x => f (g x)) i store.
Proof.
  unfold upd_slot. cbn [sessions]. f_equal. apply list_eq. intros k.
  rewrite !list_lookup_alter. repeat case_decide; subst; try done.
  by destruct (sessions store !! k).
Qed.

Lemma slot_upd f i store x :
  sessions store !! i = Some x -> sessions (upd_slot f i store) !! i = Some (f x).
Proof. intros Hx. unfold upd_slot. cbn [sessions]. by rewrite list_lookup_alter_eq, Hx. Qed.

Lemma alone_stamp n c i r store e x :
  sessions store !! i = Some x ->
  alone (S n) (go (at_seen c i) r) store e =
    let '(now, e') := time e in alone n (give 0 c r) (upd_slot (set_last_seen now) i store) e'.
Proof.
  intros Hx. destruct (time e) as [now e'] eqn:Et.
  apply (alone_S n (go (at_seen c i) r) store e (give 0 c r) (set_last_seen now) e').
  unfold access, slot, mbind, St_bind. cbn [r_pc go]. by rewrite Hx, Et.
Qed.

(** From the slot on. *)
Lemma alone_found c i r store e n x :
  sessions store !! i = Some x ->
  exists m, alone (m + n) (go (found_pc c i) r) store e =
    let '(now, e') := time e in
    alone n (log_result (0, match c with do_load _ _ => Some (ent_st x, ent_hand x) | _ => None end) r)
      (upd_slot (set_last_seen now) i
        (match c with do_save st hand => upd_slot (set_game st hand) i store | _ => store end)) e'.
Proof.
  intros Hx. destruct c as [st hand|st hand|]; cbn [found_pc].
  - exists 3%nat. cbn [Nat.add].
    rewrite (alone_S _ _ _ _ (go (at_hand (do_save st hand) i) r) (set_st st) e)
      by (unfold access, slot; cbn [r_pc go]; by rewrite Hx).
    pose proof (slot_upd (set_st st) i store x Hx) as Hx1.
    rewrite (alone_S _ _ _ _ (go (at_seen (do_save st hand) i) r) (set_hand hand) e)
      by (unfold access, slot; cbn [r_pc go]; by rewrite Hx1).
    unfold slot. cbn [r_pc go]. rewrite upd_slot_twice.
    change (fun x0 => set_hand hand (set_st st x0)) with (set_game st hand).
    pose proof (slot_upd (set_game st hand) i store x Hx) as Hx2.
    exact (alone_stamp n _ i r _ e _ Hx2).
  - exists 3%nat. cbn [Nat.add].
    rewrite (alone_read _ _ _ _ (go (at_hand (do_load (ent_st x) hand) i) r))
      by (unfold access, slot; cbn [r_pc go]; by rewrite Hx).
    rewrite (alone_read _ _ _ _ (go (at_seen (do_load (ent_st x) (ent_hand x)) i) r))
      by (unfold access, slot; cbn [r_pc go]; by rewrite Hx).
    exact (alone_stamp n _ i r _ e _ Hx).
  - exists 1%nat. exact (alone_stamp n _ i r _ e _ Hx).
Qed.

(** Run on its own, the accesses of a call are the function of Ipc.v. *)
Lemma alone_call r c store e :
  r_pc r = between -> r_next r (r_log r) = Some c ->
  exists n, alone n r store e =
    let '((res, store'), e') := do_call (r_sid r) c store e in ((log_result res r, store'), e').
Proof.
  intros Hp Hn.
  enough (forall n, exists m, alone (m + n) (go (at_valid c 0) r) store e =
    let '((res, store'), e') := do_call (r_sid r) c store e in
    alone n (log_result res r) store' e') as Hc.
  { destruct (Hc 0%nat) as [m Em]. exists (S (m + 0)).
    rewrite (alone_read _ _ _ _ (go (at_valid c 0) r)).
    - rewrite Em. by destruct (do_call (r_sid r) c store e) as [[res s'] e'].
    - unfold access. by rewrite Hp, Hn. }
  intros n.
  unfold do_call, ipc_save_session, ipc_load_session, ipc_touch_session, mbind, St_bind, mret, St_ret.
  destruct (find_slot (entry_match (r_sid r)) (sessions store)) as [i|] eqn:Ef.
  - pose proof Ef as (x & Hx & _)%find_slot_lookup.
    destruct (alone_found c i r store e n x Hx) as [m2 E2].
    destruct (alone_scan (sessions store) 0 c r store e (m2 + n) eq_refl) as [m1 E1].
    rewrite Ef in E1. cbn [Nat.add] in E1. exists (m1 + m2)%nat. rewrite <- Nat.add_assoc, E1, E2.
    rewrite (nth_lookup_Some _ _ _ _ Hx).
    by destruct c; destruct (time e).
  - destruct (alone_scan (sessions store) 0 c r store e n eq_refl) as [m Em].
    rewrite Ef in Em. exists m. rewrite Em. by destruct c.
Qed.

(** The first [m] calls of a worker as a whole. *)
Fixpoint calls (m : nat) (r : runner) (store : shm_store_t) : St env (runner * shm_store_t) :=
  match m with
  | O => mret (r, store)
  | S m' =>
      match r_next r (r_log r) with
      | None => mret (r, store)
      | Some c => '(res, store) ← do_call (r_sid r) c store; calls m' (log_result res r) store
      end
  end.

Lemma alone_app n1 n2 r store e :
  alone (n1 + n2) r store e = let '((r', store'), e') := alone n1 r store e in alone n2 r' store' e'.
Proof.
  revert r store e. induction n1 as [|n1 IH]; intros r store e; [done|].
  cbn [Nat.add alone]. unfold mbind, St_bind.
  destruct (alone_step r store e) as [[r1 s1] e1]. apply IH.
Qed.

Lemma alone_calls m r store e :
  r_pc r = between -> exists n, alone n r store e = calls m r store e.
Proof.
  revert r store e. induction m as [|m IH]; intros r store e Hp; [by exists 0%nat|].
  cbn [calls]. destruct (r_next r (r_log r)) as [c|] eqn:Hn; [|by exists 0%nat].
  destruct (alone_call r c store e Hp Hn) as [n1 E1]. unfold mbind, St_bind.
  destruct (do_call (r_sid r) c store e) as [[res s1] e1].
  destruct (IH (log_result res r) s1 e1 eq_refl) as [n2 E2]. exists (n1 + n2)%nat.
  by rewrite alone_app, E1, E2.
Qed.
End Alone.

(** ** Theorems *)

(** C8. The save, load and touch of workers on different sessions are atomic,
    although they take no lock.  However the accesses of any number of workers
    are interleaved, only how many each has made matters, not their order; and
    each worker, after some number of its own accesses, has made its first [m]
    calls with the results, and has left its session's slots with the contents,
    that the functions of Ipc.v give when nobody else is there. *)
Theorem calls_atomic `{Libc} (c : crew) i r e m :
  crew_ok c -> c_runners c !! i = Some (r, e) -> r_pc r = between ->
  (forall s1 s2, s1 ≡ₚ s2 -> crew_run s1 c = crew_run s2 c) /\
  exists k, forall sched, count_occ Nat.eq_dec sched i = k ->
    let '((r', store), e') := calls m r (c_store c) e in
    c_runners (crew_run sched c) !! i = Some (r', e') /\
    forall j x, sessions store !! j = Some x -> session_id x = r_sid r ->
      sessions (c_store (crew_run sched c)) !! j = Some x.
Proof.
  intros Hc Hi Hp. split; [intros s1 s2; by apply crew_run_permutation|].
  destruct (alone_calls m r (c_store c) e Hp) as [k Ek]. exists k. intros sched Hk.
  pose proof (crew_run_project sched c i r e Hc Hi) as Hr. by rewrite Hk, Ek in Hr.
Qed.

(** A worker that makes one call. *)
Definition once (sid : Z) (c : sess_call) : runner :=
  {| r_sid := sid; r_next l := match l with [] => Some c | _ => None end; r_log := [];
     r_pc := between |}.

(** The first worker saves: it finds the slot and copies the state; then the
    second loads as a whole; then the first copies the hand and stamps. *)
Definition torn_schedule : list nat := replicate 4 0%nat ++ replicate 6 1%nat ++ replicate 2 0%nat.

(** The accesses of such a worker that finds its session in the first slot. *)
Lemma once_finds `{Libc} c x l e n :
  truthy (valid x) = true ->
  alone (3 + n) (once (session_id x) c) {| sessions := x :: l |} e =
    alone n (go (found_pc c 0) (once (session_id x) c)) {| sessions := x :: l |} e.
Proof.
  intros Hv. cbn [Nat.add]. set (store := {| sessions := x :: l |}).
  assert (sessions store !! 0%nat = Some x) as Hx by done.
  rewrite (alone_read _ _ _ _ (go (at_valid c 0) (once (session_id x) c))) by done.
  rewrite (alone_read _ _ _ _ (go (at_id c 0) (once (session_id x) c)))
    by (unfold access, slot; cbn [r_pc go]; by rewrite Hx, Hv).
  apply alone_read. unfold access, slot. cbn [r_pc go r_sid once].
  rewrite Hx, Z.eqb_refl. by destruct c.
Qed.

Lemma once_loads `{Libc} x l e :
  truthy (valid x) = true ->
  exists r store e', alone 6 (once (session_id x) (do_load zero_state zero_hand)) {| sessions := x :: l |} e =
    ((r, store), e') /\ r_log r = [(0, Some (ent_st x, ent_hand x))] /\
    exists now, store = {| sessions := set_last_seen now x :: l |}.
Proof.
  intros Hv. change 6%nat with (3 + 3)%nat. rewrite once_finds by done.
  set (store := {| sessions := x :: l |}). assert (sessions store !! 0%nat = Some x) as Hx by done.
  set (r := once _ _).
  rewrite (alone_read _ _ _ _ (go (at_hand (do_load (ent_st x) zero_hand) 0) r)) by done.
  rewrite (alone_read _ _ _ _ (go (at_seen (do_load (ent_st x) (ent_hand x)) 0) r)) by done.
  rewrite (alone_stamp 0 _ 0 r store e x Hx). destruct (time e) as [now e'].
  eexists _, _, _. split; [reflexivity|]. split; [done|]. by exists now.
Qed.

Lemma torn_run `{Libc} x l st1 hand1 e1 e2 :
  truthy (valid x) = true ->
  let save := once (session_id x) (do_save st1 hand1) in
  exists r1 e1' e2' y,
    crew_run torn_schedule
      {| c_runners := [(save, e1); (once (session_id x) (do_load zero_state zero_hand), e2)];
         c_store := {| sessions := x :: l |} |} =
    {| c_runners := [(log_result (0, None) save, e1'); (r1, e2')];
       c_store := {| sessions := y :: l |} |} /\
    r_log r1 = [(0, Some (st1, ent_hand x))] /\ (ent_st y, ent_hand y) = (st1, hand1).
Proof.
  intros Hv save. unfold torn_schedule. rewrite !crew_run_app.
  set (load := once _ (do_load _ _)).
  rewrite (crew_run_alone (3 + 1) 0 _ save e1) by done. cbn [c_store c_runners].
  unfold save at 1. rewrite once_finds by done. fold save.
  rewrite (alone_S 0 _ _ _ (go (at_hand (do_save st1 hand1) 0) save) (set_st st1) e1) by done.
  cbn [alone]. unfold mret at 1, St_ret at 1.
  change (upd_slot (set_st st1) _ _) with {| sessions := set_st st1 x :: l |}.
  rewrite (crew_run_alone 6 1 _ load e2) by done. cbn [c_store c_runners].
  destruct (once_loads (set_st st1 x) l e2 Hv) as (r1 & store & e2' & E & Hlog & now & ->).
  change (session_id (set_st st1 x)) with (session_id x) in E. fold load in E. rewrite E.
  rewrite (crew_run_alone 2 0 _ (go (at_hand (do_save st1 hand1) 0) save) e1) by done.
  cbn [c_store c_runners].
  rewrite (alone_S 1 _ _ _ (go (at_seen (do_save st1 hand1) 0) save) (set_hand hand1) e1) by done.
  rewrite (alone_stamp 0 _ 0 save _ e1 (set_hand hand1 (set_last_seen now (set_st st1 x)))) by done.
  destruct (time e1) as [now' e1']. cbn [alone]. unfold mret, St_ret.
  exists r1, e1', e2'. eexists. split; [reflexivity|]. split; [exact Hlog|reflexivity].
Qed.


(** ** Witnesses *)

(** Two workers, on the sessions of two slots. *)
Definition two_slots : shm_store_t :=
  {| sessions := [set_valid 1 (set_session_id 7 zero_entry); set_valid 1 (set_session_id 8 zero_entry)] |}.
Definition two_workers : crew := {|
  c_runners := [(once 7 (do_save zero_state zero_hand), TestLibc.env0); (once 8 do_touch, TestLibc.env0)];
  c_store := two_slots |}.

Lemma two_workers_ok : crew_ok two_workers.
Proof.
  split.
  - intros [|[|i]] [|[|j]] ri rj Hij; cbn; rewrite ?lookup_nil; intros; simplify_eq; done.
  - intros [|[|i]] ri; cbn; rewrite ?lookup_nil; intros; simplify_eq; done.
Qed.

Lemma calls_atomic_witness : exists k, forall sched, count_occ Nat.eq_dec sched 1%nat = k ->
  exists r' e', c_runners (crew_run sched two_workers) !! 1%nat = Some (r', e') /\
    r_log r' = [(0, None)].
Proof.
  destruct (calls_atomic two_workers 1 (once 8 do_touch) TestLibc.env0 1 two_workers_ok eq_refl eq_refl)
    as [_ [k Hk]]. exists k. intros sched Hs. specialize (Hk sched Hs).
  destruct (calls 1 (once 8 do_touch) (c_store two_workers) TestLibc.env0) as [[r' s'] e'] eqn:E.
  exists r', e'. split; [apply Hk|].
  apply (f_equal (fun p => r_log p.1.1)) in E. cbn [fst] in E. by rewrite <- E.
Defined.

