(* ===== verification/Session.v ===== *)
(** * A session of the server

    src/server.c, [err_send] and [run_session]: the handshake loop and the
    main loop of one worker process.  The connection is used through the
    interface [Channel]: [proto_send], [proto_recv] and [conn_close]. *)

From S2P Require Export IpcThms.

(** ** The connection, as the session uses it *)

Class Channel (C : Type) := {
  (** [proto_recv] with a buffer of the given capacity; [None] is -1. *)
  ch_recv : Z -> St C (option (Z * list byte));
  ch_send : Z -> list byte -> St C Z;
  ch_close : C -> C;
}.

(** What a working connection promises: [sent] is the sequence of packets that
    were handed to it, and a packet received has a payload within the
    capacity. *)
Class ChannelOK (C : Type) `{Channel C} := {
  sent : C -> list (Z * list byte);
  sent_send : forall op payload c, (length payload <= 4088)%nat ->
    sent (ch_send op payload c).2 = sent c ++ [(op, payload)];
  sent_recv : forall cap c, sent (ch_recv cap c).2 = sent c;
  sent_close : forall c, sent (ch_close c) = sent c;
}.

(** A connection from which only finitely many packets can still be received. *)
Class ChannelFin (C : Type) `{Channel C} := {
  pending : C -> nat;
  pending_recv : forall c p, (ch_recv 1024 c).1 = Some p ->
    (pending (ch_recv 1024 c).2 < pending c)%nat;
  pending_fail : forall c, (pending (ch_recv 1024 c).2 <= pending c)%nat;
  pending_send : forall op payload c, (pending (ch_send op payload c).2 <= pending c)%nat;
  pending_close : forall c, (pending (ch_close c) <= pending c)%nat;
}.

(** ** The world of a worker process *)

Record world `{Libc} (C : Type) := World {
  w_conn : C;
  w_env : env;
  w_stats : shm_stats_t;
  w_store : shm_store_t;
}.
Arguments World {_ C} _ _ _ _.
Arguments w_conn {_ C} _.
Arguments w_env {_ C} _.
Arguments w_stats {_ C} _.
Arguments w_store {_ C} _.

Section Session.
Context `{Libc} {C : Type} `{Channel C}.

Definition M (A : Type) : Type := St (world C) A.

(** *** The calls of the session, on the components of its world *)

Definition on_conn {A} (m : St C A) : M A := fun w =>
  let '(a, c) := m (w_conn w) in (a, World c (w_env w) (w_stats w) (w_store w)).
Definition on_env {A} (m : St env A) : M A := fun w =>
  let '(a, e) := m (w_env w) in (a, World (w_conn w) e (w_stats w) (w_store w)).
Definition on_store {A} (m : shm_store_t -> St env (A * shm_store_t)) : M A := fun w =>
  let '((a, s), e) := m (w_store w) (w_env w) in (a, World (w_conn w) e (w_stats w) s).
Definition on_stats (f : shm_stats_t -> shm_stats_t) : M unit := fun w =>
  (tt, World (w_conn w) (w_env w) (f (w_stats w)) (w_store w)).

Definition send (op : Z) (payload : list byte) : M Z := on_conn (ch_send op payload).
Definition recv : M (option (Z * list byte)) := on_conn (ch_recv 1024).
Definition close_conn : M unit := on_conn (fun c => (tt, ch_close c)).
Definition alloc : M Z := on_store ipc_alloc_session.
Definition save (sid : Z) (st : state_t) (hand : hand_t) : M Z :=
  on_store (fun s => ipc_save_session s sid st hand).
Definition load (sid : Z) (st : state_t) (hand : hand_t) : M (Z * (state_t * hand_t)) :=
  on_store (fun s => ipc_load_session s sid st hand).
Definition touch (sid : Z) : M Z := on_store (fun s => ipc_touch_session s sid).

(** [strncpy(e.msg, msg, sizeof(e.msg) - 1)] into the zeroed struct. *)
Definition err_payload (code : Z) (msg : string) : list byte :=
  let m := take 47 (str msg) in
  enc error_codec {| err_code := code; err_msg := m ++ replicate (48 - length m) Byte.x00 |}.

Definition err_send (code : Z) (msg : string) : M Z := send OP_ERROR (err_payload code msg).

(** The pair of packets that answers every game request. *)
Definition send_game (st : state_t) (hand : hand_t) : M unit :=
  _ ← send OP_STATE (enc state_codec st);
  _ ← send OP_HAND (enc hand_codec hand);
  mret tt.

(** *** The handshake

    One iteration of [while (my_sid == 0)].  The loop's variables are [st] and
    [hand]; it is left with the session to play, or by a [return]. *)

Definition handshake_login (st : state_t) (hand : hand_t) :
    M (state_t * hand_t + option (Z * state_t * hand_t)) :=
  let st := set_p_hp 30 st in
  let st := set_ai_hp 30 st in
  let st := set_max_mana 3 st in
  let st := set_game_over 0 st in
  '(st, hand) ← on_env (enter_turn st hand 0);
  my_sid ← alloc;
  if my_sid =? 0 then
    _ ← err_send (-999) "server full";
    _ ← close_conn;
    mret (inr None)
  else
    _ ← save my_sid st hand;
    _ ← send OP_LOGIN_RESP (enc login_resp_codec {| login_ok := 1 |});
    _ ← send OP_RESUME_RESP (enc resume_resp_codec
          {| resp_ok := 1; resp_session_id := my_sid |});
    _ ← send_game st hand;
    mret (inr (Some (my_sid, st, hand))).

Definition handshake_resume (payload : list byte) (st : state_t) (hand : hand_t) :
    M (state_t * hand_t + option (Z * state_t * hand_t)) :=
  if Z.of_nat (length payload) <? Z.of_nat (csize resume_req_codec) then
    _ ← close_conn; mret (inr None)
  else
    let rr := dec resume_req_codec (take (csize resume_req_codec) payload) in
    '(rc, (st, hand)) ← load (req_session_id rr) st hand;
    if rc =? 0 then
      let my_sid := req_session_id rr in
      _ ← send OP_RESUME_RESP (enc resume_resp_codec
            {| resp_ok := 1; resp_session_id := my_sid |});
      _ ← send_game st hand;
      let st := push_log st "Player Resumed Session" in
      mret (inr (Some (my_sid, st, hand)))
    else
      _ ← send OP_RESUME_RESP (enc resume_resp_codec
            {| resp_ok := 0; resp_session_id := 0 |});
      mret (inl (st, hand)).

Definition handshake_step (v : state_t * hand_t) :
    M (state_t * hand_t + option (Z * state_t * hand_t)) :=
  let '(st, hand) := v in
  p ← recv;
  match p with
  | None => _ ← close_conn; mret (inr None)
  | Some (op, payload) =>
      if op =? OP_PING then
        _ ← send OP_PONG []; mret (inl (st, hand))
      else if op =? OP_LOGIN_REQ then handshake_login st hand
      else if op =? OP_RESUME_REQ then handshake_resume payload st hand
      else mret (inl (st, hand))
  end.

(** *** The main loop *)

(** The AI's turn at the head of the loop and after the player's. *)
Definition ai_if_due (my_sid : Z) (st : state_t) (hand : hand_t) : M (state_t * hand_t) :=
  if (turn st =? 1) && negb (truthy (game_over st)) then
    '(st, hand) ← on_env (process_ai_turn st hand);
    _ ← save my_sid st hand;
    mret (st, hand)
  else mret (st, hand).

Definition on_play_card (my_sid : Z) (payload : list byte) (st : state_t) (hand : hand_t) :
    M (state_t * hand_t) :=
  if negb (turn st =? 0) then
    _ ← err_send (-11) "not your turn"; mret (st, hand)
  else if negb (phase st =? PHASE_MAIN) then
    _ ← err_send (-12) "phase error"; mret (st, hand)
  else if negb (Z.of_nat (length payload) =? Z.of_nat (csize play_req_codec)) then
    _ ← err_send (-10) "bad payload"; mret (st, hand)
  else
    let pr := dec play_req_codec payload in
    let '(rc, st) := handle_play_card st hand true (hand_idx pr) in
    _ ← (if rc =? 0 then mret 0
         else if rc =? -1 then err_send (-1) "invalid hand idx"
         else if rc =? -2 then err_send (-2) "not enough mana"
         else err_send (-3) "invalid card");
    _ ← save my_sid st hand;
    _ ← send_game st hand;
    mret (st, hand).

Definition on_end_turn (my_sid : Z) (st : state_t) (hand : hand_t) : M (state_t * hand_t) :=
  if negb (turn st =? 0) then
    _ ← err_send (-11) "not your turn"; mret (st, hand)
  else
    '(st, hand) ← on_env (phase_end st hand);
    _ ← save my_sid st hand;
    '(st, hand) ← ai_if_due my_sid st hand;
    _ ← send_game st hand;
    mret (st, hand).

(** What the loop does with a received packet. *)
Definition dispatch (my_sid op : Z) (payload : list byte) (st : state_t) (hand : hand_t) :
    M (state_t * hand_t) :=
  if op =? OP_PING then _ ← send OP_PONG []; mret (st, hand)
  else if truthy (game_over st) then _ ← send_game st hand; mret (st, hand)
  else if op =? OP_PLAY_CARD then on_play_card my_sid payload st hand
  else if op =? OP_END_TURN then on_end_turn my_sid st hand
  else if (op =? OP_LOGIN_REQ) || (op =? OP_RESUME_REQ) then mret (st, hand)
  else _ ← err_send (-99) "unknown opcode"; mret (st, hand).

Definition main_step (my_sid : Z) (v : state_t * hand_t) : M (state_t * hand_t + unit) :=
  let '(st, hand) := v in
  '(st, hand) ← ai_if_due my_sid st hand;
  p ← recv;
  match p with
  | None => mret (inr tt)
  | Some (op, payload) =>
      _ ← on_stats ipc_stats_inc_pkt;
      _ ← touch my_sid;
      v ← dispatch my_sid op payload st hand;
      mret (inl v)
  end.

(** *** The session *)

(** [srand((unsigned)(time(NULL) ^ getpid()))] *)
Definition seed_rand : M unit := on_env (
  now ← time;
  pid ← get_pid;
  ((fun e => (tt, srand (u32 (Z.lxor now pid)) e)) : St env unit)).

Definition close_session : StO (world C) unit := fun w => Some (close_conn w).

(** The handshake and, if it opened a session, the main loop. *)
Definition session_loops (fuel : nat) : StO (world C) unit :=
  r ← loopM handshake_step fuel (zero_state, zero_hand);
  match r with
  | None => mret tt
  | Some (my_sid, st, hand) =>
      _ ← loopM (main_step my_sid) fuel (st, hand);
      close_session
  end.

Definition run_session (fuel : nat) : StO (world C) unit := fun w =>
  session_loops fuel (seed_rand w).2.
End Session.

(** ** A concrete channel

    Packets waiting to be received, and the packets sent. *)

Module Queue.
Record chan := { inbox : list (Z * list byte); outbox : list (Z * list byte) }.

#[global] Instance channel : Channel chan := {|
  ch_recv cap c :=
    match inbox c with
    | [] => (None, c)
    | (op, payload) :: q =>
        (if cap <? Z.of_nat (length payload) then None else Some (op, payload),
         {| inbox := q; outbox := outbox c |})
    end;
  ch_send op payload c :=
    if (4088 <? length payload)%nat then (-1, c)
    else (0, {| inbox := inbox c; outbox := outbox c ++ [(op, payload)] |});
  ch_close c := c;
|}.

#[global] Program Instance channel_ok : ChannelOK chan := {| sent := outbox |}.
Next Obligation.
  intros op payload c Hl. unfold ch_send, channel.
  destruct (Nat.ltb_spec 4088 (length payload)); [lia|done].
Qed.
Next Obligation. intros cap [[|[op p] q] o]; done. Qed.
Next Obligation. done. Qed.

#[global] Program Instance channel_fin : ChannelFin chan := {| pending c := length (inbox c) |}.
Next Obligation. intros [[|[op payload] q] o] p E; cbn in *; [done|lia]. Qed.
Next Obligation. intros [[|[op payload] q] o]; cbn; lia. Qed.
Next Obligation. intros op payload [q o]. unfold ch_send, channel. by case_match. Qed.
Next Obligation. done. Qed.

Definition world0 (inb : list (Z * list byte)) : world chan :=
  World {| inbox := inb; outbox := [] |} TestLibc.env0 zero_stats zero_store.
End Queue.
