(* ===== verification/SessionThms.v ===== *)
(** * The session: what each call and each handler does

    Triples for the calls of Session.v and, from them, for its handlers, its
    loops and the whole session, over the packets sent and the abstract store. *)

From S2P Require Export Session.

(** ** Assertions on the world of a worker

    [at_ l sm w]: the packets sent so far are [l] and the abstract store is
    [sm]; the environment and the statistics are arbitrary. *)

Definition game : Type := state_t * hand_t.

(** Every stored game can be played on. *)
Definition ok_map (sm : gmap Z game) : Prop := map_Forall (fun _ g => ready g.1 g.2) sm.

(** The abstract effect of [ipc_save_session]. *)
Definition put (sid : Z) (g : game) (sm : gmap Z game) : gmap Z game :=
  match sm !! sid with Some _ => <[sid := g]> sm | None => sm end.

Lemma ok_map_put sid g sm : ok_map sm -> ready g.1 g.2 -> ok_map (put sid g sm).
Proof.
  intros Hs Hg. unfold put. destruct (sm !! sid); [|done]. by apply map_Forall_insert_2.
Qed.

Lemma put_put sid g g' sm : put sid g (put sid g' sm) = put sid g sm.
Proof.
  unfold put at 2 3. destruct (sm !! sid) eqn:E; unfold put.
  - rewrite lookup_insert_eq. apply insert_insert_eq.
  - by rewrite E.
Qed.

Lemma put_lookup sid g sm : is_Some (sm !! sid) -> put sid g sm !! sid = Some g.
Proof. intros [g' E]. unfold put. rewrite E. apply lookup_insert_eq. Qed.

#[export] Hint Resolve ok_map_put : tcg.

Section Session.
Context `{LibcOK} {C : Type} `{ChannelOK C}.

Definition at_ (l : list (Z * list byte)) (sm : gmap Z game) (w : world C) : Prop :=
  sent (w_conn w) = l /\ store_map (w_store w) = sm.

(** ** The calls of the session *)

Lemma send_at l sm op payload :
  (length payload <= 4088)%nat ->
  triple (at_ l sm) (send op payload) (fun _ => at_ (l ++ [(op, payload)]) sm).
Proof.
  intros Hp w [Hl Hs]. unfold send, on_conn. pose proof (sent_send op payload (w_conn w) Hp) as Hc.
  destruct (ch_send op payload (w_conn w)) as [r c]. cbn in *. split; [|done].
  cbn. by rewrite Hc, Hl.
Qed.

Lemma recv_at l sm : triple (at_ l sm) recv (fun _ => at_ l sm).
Proof.
  intros w [Hl Hs]. unfold recv, on_conn. pose proof (sent_recv 1024 (w_conn w)) as Hc.
  destruct (ch_recv 1024 (w_conn w)) as [r c]. cbn in *. split; [|done]. cbn. congruence.
Qed.

Lemma close_at l sm : triple (at_ l sm) close_conn (fun _ => at_ l sm).
Proof. intros w [Hl Hs]. split; [|done]. cbn. by rewrite sent_close. Qed.

Lemma env_at {A} l sm (m : St env A) (Q : A -> Prop) :
  post m Q -> triple (at_ l sm) (on_env m) (fun a w => Q a /\ at_ l sm w).
Proof.
  intros Hm w Hw. unfold on_env. specialize (Hm (w_env w)).
  destruct (m (w_env w)) as [a e]. done.
Qed.

(** A frame that does not look at the environment. *)
Lemma env_frame {A} (P : world C -> Prop) (m : St env A) (Q : A -> Prop) :
  (forall w e, P w -> P (World (w_conn w) e (w_stats w) (w_store w))) ->
  post m Q -> triple P (on_env m) (fun a w => Q a /\ P w).
Proof.
  intros HP Hm w Hw. unfold on_env. specialize (Hm (w_env w)).
  destruct (m (w_env w)) as [a e]. cbn in *. auto.
Qed.

Lemma stats_at l sm f : triple (at_ l sm) (on_stats f) (fun _ => at_ l sm).
Proof. intros w Hw. exact Hw. Qed.

Lemma save_at l sm sid st hand :
  triple (at_ l sm) (save sid st hand) (fun _ => at_ l (put sid (st, hand) sm)).
Proof.
  intros w [Hl Hs]. unfold save, on_store.
  pose proof (save_map (w_store w) sid st hand (w_env w)) as Hm.
  destruct (ipc_save_session _ _ _ _ _) as [[r s] e]. cbn in *. split; [done|].
  cbn. rewrite Hm, Hs. done.
Qed.

Lemma load_at l sm sid st hand :
  triple (at_ l sm) (load sid st hand) (fun r w =>
    r = match sm !! sid with Some g => (0, g) | None => (-1, (st, hand)) end /\ at_ l sm w).
Proof.
  intros w [Hl Hs]. unfold load, on_store.
  destruct (load_spec (w_store w) sid st hand (w_env w)) as (rc & out & s & He & Hm & _ & Hr).
  destruct (ipc_load_session _ _ _ _ _) as [[r s'] e]. cbn in *. simplify_eq.
  unfold game. destruct (store_map (w_store w) !! sid) as [g|]; [destruct Hr as [-> ->]|
    destruct Hr as (-> & -> & ->)]; done.
Qed.

Lemma touch_at l sm sid : triple (at_ l sm) (touch sid) (fun _ => at_ l sm).
Proof.
  intros w [Hl Hs]. unfold touch, on_store.
  destruct (touch_spec (w_store w) sid (w_env w)) as (s & He & Hm & _).
  destruct (ipc_touch_session _ _ _) as [[r s'] e]. cbn in *. simplify_eq. done.
Qed.

(** [at_] with the number of free slots. *)
Definition at_free (l : list (Z * list byte)) (sm : gmap Z game) (n : nat) (w : world C) : Prop :=
  at_ l sm w /\ free_slots (w_store w) = n.

Lemma alloc_at l sm n :
  triple (at_free l sm n) alloc (fun sid w =>
    if (n =? 0)%nat then sid = 0 /\ at_ l sm w
    else (sid <> 0 /\ is_u64 sid) /\ exists sm',
      (is_Some (sm' !! sid) /\ forall k, k <> sid -> sm' !! k = sm !! k) /\ at_ l sm' w).
Proof.
  intros w [[Hl Hs] Hn]. unfold alloc, on_store.
  pose proof (alloc_spec (w_store w) (w_env w)) as Ha. rewrite Hn in Ha. destruct n; cbn [Nat.eqb].
  - destruct (ipc_alloc_session _ _) as [[sid s] e]. cbn in *. by simplify_eq.
  - destruct Ha as (sid & s' & He & Hr & _ & _ & Hsome & Hoth).
    destruct (ipc_alloc_session _ _) as [[sid' s''] e]. cbn in *. simplify_eq.
    split; [unfold is_u64; lia|]. by exists (store_map s').
Qed.

(** The game is sent as its two packets. *)
Definition game_packets (st : state_t) (hand : hand_t) : list (Z * list byte) :=
  [(opcode OP_STATE, enc state_codec st); (opcode OP_HAND, enc hand_codec hand)].

Lemma send_game_at l sm st hand :
  ready st hand ->
  triple (at_ l sm) (send_game st hand) (fun _ => at_ (l ++ game_packets st hand) sm).
Proof.
  intros [Hs Hh _]. unfold send_game.
  eapply triple_bind; [apply send_at|intros ?; cbv beta].
  { rewrite enc_length by (apply state_codec_wf, Hs). cbn. lia. }
  eapply triple_bind; [apply send_at|intros ?; cbv beta].
  { rewrite enc_length by (apply hand_codec_wf, Hh). cbn. lia. }
  apply triple_ret. intros w. by rewrite <- (assoc_L (++)).
Qed.

Lemma err_payload_length code msg :
  is_i32 code -> length (err_payload code msg) = 52%nat.
Proof.
  intros Hc. unfold err_payload. apply (enc_length error_codec). cbn [cwf error_codec iso_codec].
  split; [done|]. cbn [snd err_msg]. change (cwf (bytes_codec 48)) with
    (fun bs : list byte => length bs = 48%nat). cbv beta.
  rewrite length_app, length_replicate, length_take. lia.
Qed.

Definition err_packet (code : Z) (msg : string) : Z * list byte :=
  (opcode OP_ERROR, err_payload code msg).

Lemma err_send_at l sm code msg :
  is_i32 code ->
  triple (at_ l sm) (err_send code msg) (fun _ => at_ (l ++ [err_packet code msg]) sm).
Proof. intros Hc. apply send_at. rewrite err_payload_length by done. lia. Qed.

(** ** The handlers of the main loop *)

(** What holds when the server waits for a packet: the game is decided or it is
    the player's turn. *)
Definition waiting (v : game) : Prop :=
  ready v.1 v.2 /\ (game_over v.1 = 1 \/ turn v.1 = 0).

Lemma waiting_main v : waiting v -> game_over v.1 = 0 -> turn v.1 = 0 /\ phase v.1 = PHASE_MAIN.
Proof. intros [[_ _ Hm] Ht] Ho. lia. Qed.

Lemma ready_over v : ready v.1 v.2 -> truthy (game_over v.1) = negb (game_over v.1 =? 0) /\
  (game_over v.1 = 0 \/ game_over v.1 = 1).
Proof.
  intros [Hi _ _]. split; [done|]. destruct (gi_verdict _ Hi) as [[]|[]]; auto.
Qed.

Lemma ai_if_due_at l sm sid st hand :
  ready st hand ->
  triple (at_ l sm) (ai_if_due sid st hand) (fun v w =>
    (waiting v /\ (waiting (st, hand) -> v = (st, hand))) /\
    at_ l (if (turn st =? 1) && negb (truthy (game_over st)) then put sid v sm else sm) w).
Proof.
  intros Hr. unfold ai_if_due. destruct (ready_over (st, hand) Hr) as [Ho Hov]. cbn in Ho, Hov.
  rewrite Ho, negb_involutive. destruct (Z.eqb_spec (turn st) 1) as [Ht|Ht];
    destruct (Z.eqb_spec (game_over st) 0) as [E|E]; cbn [andb].
  - eapply triple_bind.
    { apply env_at, (process_ai_turn_post st hand); [apply Hr..|done]. }
    intros [st' hand']. apply triple_pure. intros Hp.
    eapply triple_bind; [apply save_at|intros ?; cbv beta]. apply triple_ret.
    intros w Hw. split; [|done]. split.
    + split; [by eapply turn_passed_ready|]. destruct Hp as [(_ & ? & _)|Hp]; [by left|].
      right. exact (mp_turn _ _ _ Hp).
    + intros [_ Hwt]. cbn in Hwt. lia.
  - apply triple_ret. intros w Hw. split; [|done]. split; [|done]. split; [done|left; cbn; lia].
  - apply triple_ret. intros w Hw. split; [|done]. split; [|done]. split; [done|].
    destruct Hr as [Hi _ _]. destruct (gi_turn _ Hi). right. cbn. lia.
  - apply triple_ret. intros w Hw. split; [|done]. split; [|done]. split; [done|left; cbn; lia].
Qed.

(** The packets that answer a card, and the game it leaves. *)
Definition play_errors (rc : Z) : list (Z * list byte) :=
  if rc =? 0 then []
  else if rc =? -1 then [err_packet (-1) "invalid hand idx"]
  else if rc =? -2 then [err_packet (-2) "not enough mana"]
  else [err_packet (-3) "invalid card"].

Lemma play_ready st hand idx :
  ready st hand -> game_over st = 0 -> ready (handle_play_card st hand true idx).2 hand.
Proof.
  intros [Hi Hh Hm] Ho. split; [by apply handle_play_card_inv|done|].
  right. destruct (handle_play_card_same st hand true idx) as (_ & -> & _). lia.
Qed.

Lemma on_play_card_at l sm sid payload st hand :
  waiting (st, hand) -> game_over st = 0 ->
  triple (at_ l sm) (on_play_card sid payload st hand) (fun v w =>
    if Z.of_nat (length payload) =? 1 then
      let r := handle_play_card st hand true (hand_idx (dec play_req_codec payload)) in
      (v = (r.2, hand) /\ waiting v) /\
      at_ (l ++ play_errors r.1 ++ game_packets r.2 hand) (put sid v sm) w
    else (v = (st, hand) /\ waiting v) /\ at_ (l ++ [err_packet (-10) "bad payload"]) sm w).
Proof.
  intros Hw Ho. destruct (waiting_main _ Hw Ho) as [Ht Hp]. cbn in Ht, Hp.
  unfold on_play_card. rewrite Ht, Hp. cbn [Z.eqb negb PHASE_MAIN].
  change (Z.of_nat (csize play_req_codec)) with 1.
  destruct (Z.of_nat (length payload) =? 1); cbn [negb].
  - set (idx := hand_idx _). cbv zeta.
    pose proof (play_ready st hand idx (proj1 Hw) Ho) as Hr.
    destruct (handle_play_card_same st hand true idx) as (Htr & _).
    destruct (handle_play_card st hand true idx) as [rc st']. cbn [fst snd] in *.
    eapply (triple_bind _ _ _ (fun _ => at_ (l ++ play_errors rc) sm)).
    { unfold play_errors. repeat case_match; try (by apply err_send_at).
      apply triple_ret. intros w. by rewrite app_nil_r. }
    intros ?; cbv beta. eapply triple_bind; [apply save_at|intros ?; cbv beta].
    eapply triple_bind; [by apply send_game_at|intros ?; cbv beta].
    apply triple_ret. intros w Hat. split; [|by rewrite (assoc_L (++))].
    split; [done|]. split; [done|]. right. cbn. congruence.
  - eapply triple_bind; [by apply err_send_at|intros ?; cbv beta]. by apply triple_ret.
Qed.

Lemma on_end_turn_at l sm sid st hand :
  waiting (st, hand) -> game_over st = 0 ->
  triple (at_ l sm) (on_end_turn sid st hand) (fun v w =>
    waiting v /\ at_ (l ++ game_packets v.1 v.2) (put sid v sm) w).
Proof.
  intros Hw Ho. destruct (waiting_main _ Hw Ho) as [Ht Hp]. cbn in Ht, Hp.
  destruct (proj1 Hw) as [Hi Hh _]. unfold on_end_turn. rewrite Ht. cbn [Z.eqb negb].
  eapply triple_bind; [by apply env_at, phase_end_post|].
  intros [st1 hand1]. apply triple_pure. intros Hpass.
  pose proof (turn_passed_ready _ _ Hpass) as Hr1. cbn in Hr1.
  eapply triple_bind; [apply save_at|intros ?; cbv beta].
  eapply triple_bind; [by apply ai_if_due_at|]. intros [st2 hand2]. cbv beta.
  apply triple_pure. intros [Hw2 Hsame].
  eapply triple_bind; [apply send_game_at, Hw2|intros ?; cbv beta].
  apply triple_ret. intros w [Hl Hs]. split; [done|]. split; [done|]. rewrite Hs.
  destruct ((turn st1 =? 1) && negb (truthy (game_over st1))) eqn:E; [apply put_put|].
  rewrite Hsame; [done|]. split; [done|]. cbn.
  destruct (ready_over (st1, hand1) Hr1) as [Hov [Ho1|Ho1]]; cbn in Hov, Ho1; [|by left].
  right. rewrite Hov, Ho1 in E. cbn in E. rewrite andb_true_r in E. apply Z.eqb_neq in E.
  destruct (gi_turn _ (rd_inv _ _ Hr1)). lia.
Qed.

(** The part of the dispatch that leaves the game and the store alone. *)
Lemma answered (g : game) (phi : Prop) l out sm w :
  waiting g -> phi -> at_ (l ++ out) sm w -> ok_map sm ->
  exists out, (waiting g /\ phi) /\
    at_ (l ++ out) (store_map (w_store w)) w /\ ok_map (store_map (w_store w)).
Proof. intros Hg Hphi [Hl Hs] Hok. exists out. rewrite Hs. done. Qed.

(** ** One packet

    The effect of a step of the main loop that starts from the game [v0] and
    the store [sm] and ends with the game [v]: some packets are sent, the
    server waits again, a decided game is frozen, and the store is unchanged
    if the game is, or else holds the new game. *)
Definition stepped (sid : Z) (l : list (Z * list byte)) (sm : gmap Z game) (v0 v : game)
    (w : world C) : Prop :=
  exists out sm', at_ (l ++ out) sm' w /\ waiting v /\
    (game_over v0.1 = 1 -> v = v0) /\ (v = v0 /\ sm' = sm \/ sm' = put sid v sm).

Lemma stepped_same sid l out sm v w :
  waiting v -> at_ (l ++ out) sm w -> stepped sid l sm v v w.
Proof. intros Hv Hat. exists out, sm. splits; auto. Qed.

Lemma stepped_put sid l out sm v0 v w :
  game_over v0.1 = 0 -> waiting v -> at_ (l ++ out) (put sid v sm) w ->
  stepped sid l sm v0 v w.
Proof. intros Ho Hv Hat. exists out, (put sid v sm). splits; auto. lia. Qed.

Lemma dispatch_at l sm sid op payload st hand :
  waiting (st, hand) ->
  triple (at_ l sm) (dispatch sid op payload st hand) (stepped sid l sm (st, hand)).
Proof.
  intros Hw. unfold dispatch.
  destruct (ready_over (st, hand) (proj1 Hw)) as [Hov Ho]. cbn in Hov, Ho.
  assert (forall code msg, is_i32 code -> triple (at_ l sm)
    (_ ← err_send code msg; mret (st, hand)) (stepped sid l sm (st, hand))) as Herr.
  { intros code msg Hc. eapply triple_bind; [by apply err_send_at|intros ?; cbv beta].
    apply triple_ret. intros w Hat. by eapply stepped_same. }
  destruct (op =? OP_PING).
  { eapply triple_bind; [by apply send_at; cbn; lia|intros ?; cbv beta].
    apply triple_ret. intros w Hat. by eapply stepped_same. }
  destruct (truthy (game_over st)) eqn:Et.
  { eapply triple_bind; [apply send_game_at, Hw|intros ?; cbv beta].
    apply triple_ret. intros w Hat. by eapply stepped_same. }
  assert (game_over st = 0) as Ho0 by (destruct Ho as [|E]; [done|by rewrite E in Et]).
  destruct (op =? OP_PLAY_CARD).
  { eapply triple_conseq; [by apply on_play_card_at|done|]. intros v w.
    destruct (_ =? 1); intros [[-> Hwv] Hat];
      [by eapply stepped_put|by eapply stepped_same]. }
  destruct (op =? OP_END_TURN).
  { eapply triple_conseq; [by apply on_end_turn_at|done|]. intros v w [Hwv Hat].
    by eapply stepped_put. }
  destruct (_ || _).
  { apply triple_ret. intros w Hat. apply (stepped_same _ _ []); [done|by rewrite app_nil_r]. }
  by apply Herr.
Qed.

(** One iteration of the main loop, from any game that can be stored. *)
Lemma main_step_at l sm sid st hand :
  ready st hand ->
  triple (at_ l sm) (main_step sid (st, hand)) (fun r w =>
    exists v, stepped sid l sm (st, hand) v w /\ (forall v', r = inl v' -> v' = v)).
Proof.
  intros Hr. unfold main_step.
  eapply triple_bind; [by apply ai_if_due_at|]. intros v1. cbv beta.
  apply triple_pure. intros [Hw1 Hsame]. destruct v1 as [st1 hand1].
  set (sm1 := if (turn st =? 1) && negb (truthy (game_over st)) then _ else _).
  assert (((st1, hand1) = (st, hand) \/ game_over st = 0) /\
    (sm1 = sm /\ (st1, hand1) = (st, hand) \/ sm1 = put sid (st1, hand1) sm /\ game_over st = 0))
    as [Hv1 Hsm1].
  { destruct (ready_over (st, hand) Hr) as [Hov Ho]. cbn in Hov, Ho. subst sm1.
    rewrite Hov. assert (turn st = 0 \/ turn st = 1) as [Ht|Ht]
      by (destruct (gi_turn _ (rd_inv _ _ Hr)); lia); rewrite Ht; cbn.
    - rewrite Hsame; [auto|]. split; [done|]. by right.
    - destruct Ho as [Ho|Ho]; rewrite Ho; cbn; [auto|].
      rewrite Hsame; [auto|]. split; [done|]. by left. }
  clearbody sm1.
  eapply triple_bind; [apply recv_at|intros p; cbv beta].
  destruct p as [[op payload]|].
  - eapply triple_bind; [apply stats_at|intros ?; cbv beta].
    eapply triple_bind; [apply touch_at|intros ?; cbv beta].
    eapply triple_bind; [by apply dispatch_at|intros v; cbv beta].
    apply triple_ret. intros w Hst. exists v. split; [|congruence].
    destruct Hst as (out & sm' & Hat & Hwv & Hfr & Hs). exists out, sm'.
    splits; [done|done| |].
    + intros Ho. destruct Hv1 as [E|Ho']; [rewrite <- E in Ho |- *; auto|cbn in Ho; lia].
    + destruct Hsm1 as [[-> E2]| [-> _]]; [rewrite <- E2; auto|].
      right. destruct Hs as [[-> ->]| ->]; [done|apply put_put].
  - apply triple_ret. intros w Hat. exists (st1, hand1). split; [|done].
    exists [], sm1. rewrite app_nil_r. splits; [done|done| |].
    + cbn. intros Ho. destruct Hv1; [done|lia].
    + destruct Hsm1 as [[-> E2]| [-> Ho]]; auto.
Qed.

(** ** The handshake *)

Definition resumed_msg : string := "Player Resumed Session".

(** The store holds the game that the worker plays, up to the log line that a
    resumed game gets. *)
Definition synced (sid : Z) (v : game) (sm : gmap Z game) : Prop :=
  exists st0, sm !! sid = Some (st0, v.2) /\ (v.1 = st0 \/ v.1 = push_log st0 resumed_msg).

(** Two stores that agree on every session but [sid]. *)
Definition same_but (sid : Z) (sm sm' : gmap Z game) : Prop :=
  forall k, k <> sid -> sm' !! k = sm !! k.

Lemma same_but_put sid g sm : same_but sid sm (put sid g sm).
Proof.
  intros k Hk. unfold put. destruct (sm !! sid); [|done]. by rewrite lookup_insert_ne.
Qed.

Lemma same_but_trans sid sm1 sm2 sm3 :
  same_but sid sm1 sm2 -> same_but sid sm2 sm3 -> same_but sid sm1 sm3.
Proof. intros Ha Hb k Hk. rewrite Hb by done. by apply Ha. Qed.

Lemma ok_map_but sid sm sm' g :
  ok_map sm -> same_but sid sm sm' -> sm' !! sid = Some g -> ready g.1 g.2 -> ok_map sm'.
Proof.
  intros Hok Hsb Hg Hr k g' Hk. destruct (decide (k = sid)) as [->|Hne].
  - by simplify_eq.
  - rewrite Hsb in Hk by done. by apply (Hok k).
Qed.

Definition login_packet : Z * list byte :=
  (opcode OP_LOGIN_RESP, enc login_resp_codec {| login_ok := 1 |}).
Definition resume_packet (ok sid : Z) : Z * list byte :=
  (opcode OP_RESUME_RESP,
   enc resume_resp_codec {| resp_ok := ok; resp_session_id := sid |}).

Lemma resume_packet_length ok sid : length (resume_packet ok sid).2 = 12%nat.
Proof. reflexivity. Qed.

Lemma send_packet_at l sm p :
  (length p.2 <= 4088)%nat ->
  triple (at_ l sm) (send p.1 p.2) (fun _ => at_ (l ++ [p]) sm).
Proof. destruct p. apply send_at. Qed.

(** What the handshake leaves: the variables as they were, or a session to
    play, [hs_open]. *)
Definition hs_open (sid : Z) (v : game) (sm sm' : gmap Z game) : Prop :=
  ready v.1 v.2 /\ synced sid v sm' /\ same_but sid sm sm' /\ ok_map sm'.

Definition hs_post (l : list (Z * list byte)) (sm : gmap Z game)
    (r : game + option (Z * state_t * hand_t)) (w : world C) : Prop :=
  exists out sm', at_ (l ++ out) sm' w /\
    match r with
    | inl v => v = (zero_state, zero_hand) /\ sm' = sm
    | inr None => sm' = sm
    | inr (Some (sid, st, hand)) => hs_open sid (st, hand) sm sm'
    end.

Lemma hs_none l out sm w : at_ (l ++ out) sm w -> hs_post l sm (inr None) w.
Proof. intros Hat. by exists out, sm. Qed.

Lemma hs_again l out sm w :
  at_ (l ++ out) sm w -> hs_post l sm (inl (zero_state, zero_hand)) w.
Proof. intros Hat. by exists out, sm. Qed.

(** The login: refused when no slot is free, else answered by the session's id
    and the dealt game, which the store holds under that id. *)
Lemma login_at l sm n :
  triple (at_free l sm n) (handshake_login zero_state zero_hand) (fun r w =>
    if (n =? 0)%nat then r = inr None /\ at_ (l ++ [err_packet (-999) "server full"]) sm w
    else exists sid st hand sm',
      (r = inr (Some (sid, st, hand)) /\ (sid <> 0 /\ is_u64 sid) /\ main_phase 0 st hand) /\
      (sm' !! sid = Some (st, hand) /\ same_but sid sm sm') /\
      at_ (l ++ [login_packet; resume_packet 1 sid] ++ game_packets st hand) sm' w).
Proof.
  unfold handshake_login. cbv zeta. change (set_game_over 0 _) with login_state.
  eapply triple_bind.
  { apply (env_frame _ _ (fun v => main_phase 0 v.1 v.2)); [by intros w e|].
    by apply enter_turn_post; [apply login_state_inv|..]. }
  intros [st hand]. cbn [fst snd]. apply triple_pure. intros Hm.
  eapply triple_bind; [apply alloc_at|intros sid; cbv beta].
  destruct (n =? 0)%nat.
  { apply triple_pure. intros ->. cbn [Z.eqb].
    eapply triple_bind; [by apply err_send_at|intros ?; cbv beta].
    eapply triple_bind; [apply close_at|intros ?; cbv beta]. by apply triple_ret. }
  apply triple_pure. intros Hne. destruct (Z.eqb_spec sid 0); [by destruct Hne|].
  apply triple_exists. intros sm1. apply triple_pure. intros [Hs1 Hb1].
  eapply triple_bind; [apply save_at|intros ?; cbv beta].
  eapply triple_bind; [apply (send_packet_at _ _ login_packet); by vm_compute; lia|].
  intros ?; cbv beta.
  eapply triple_bind; [apply (send_packet_at _ _ (resume_packet 1 sid));
    by rewrite resume_packet_length; lia|intros ?; cbv beta].
  eapply triple_bind; [by apply send_game_at, (main_phase_ready 0)|intros ?; cbv beta].
  apply triple_ret. intros w Hat. rewrite <- !(assoc_L (++)) in Hat.
  exists sid, st, hand, (put sid (st, hand) sm1).
  splits; [done|apply Hne|apply Hne|done|by apply put_lookup| |exact Hat].
  by eapply same_but_trans, same_but_put.
Qed.

Lemma handshake_login_at l sm :
  ok_map sm ->
  triple (at_ l sm) (handshake_login zero_state zero_hand) (hs_post l sm).
Proof.
  intros Hok w Hat. pose proof (login_at l sm _ w (conj Hat eq_refl)) as Hw. cbv beta in Hw.
  destruct (_ =? 0)%nat in Hw; [destruct Hw as [-> Hw]; by eapply hs_none|].
  destruct Hw as (sid & st & hand & sm' & (-> & _ & Hm) & [Hl Hsb] & Hw).
  apply main_phase_ready in Hm. eexists _, sm'. split; [exact Hw|].
  split; [done|]. split; [exists st; auto|]. split; [done|]. by eapply ok_map_but.
Qed.

Lemma resumed_ready st hand : ready st hand -> ready (push_log st resumed_msg) hand.
Proof.
  intros [Hi Hh Hm]. split; [by apply push_log_inv|done|].
  destruct Hm; [by left|by right].
Qed.

(** The session that a resume request names. *)
Definition requested (payload : list byte) : Z :=
  req_session_id (dec resume_req_codec (take (csize resume_req_codec) payload)).

(** The resume: dropped when the request is short, refused when the store has
    no such session, else answered by the stored game. *)
Lemma resume_at l sm payload v :
  ok_map sm ->
  triple (at_ l sm) (handshake_resume payload v.1 v.2) (fun r w =>
    if Z.of_nat (length payload) <? 8 then r = inr None /\ at_ l sm w
    else match sm !! requested payload with
    | Some (st, hand) =>
        r = inr (Some (requested payload, push_log st resumed_msg, hand)) /\
        at_ (l ++ resume_packet 1 (requested payload) :: game_packets st hand) sm w
    | None => r = inl v /\ at_ (l ++ [resume_packet 0 0]) sm w
    end).
Proof.
  intros Hok. destruct v as [st0 hand0]. unfold handshake_resume.
  change (Z.of_nat (csize resume_req_codec)) with 8. destruct (_ <? _).
  { eapply triple_bind; [apply close_at|intros ?; cbv beta]. by apply triple_ret. }
  cbv zeta. fold (requested payload). generalize (requested payload) as sid. intros sid.
  eapply triple_bind; [apply load_at|]. intros [rc [st hand]]. cbv beta.
  apply triple_pure. intros E. destruct (sm !! sid) as [[st1 hand1]|] eqn:Hl; simplify_eq;
    cbn [Z.eqb].
  - eapply triple_bind; [apply (send_packet_at _ _ (resume_packet 1 sid));
      by rewrite resume_packet_length; lia|intros ?; cbv beta].
    eapply triple_bind; [apply send_game_at, (Hok _ _ Hl)|intros ?; cbv beta].
    apply triple_ret. intros w Hat. by rewrite <- !(assoc_L (++)) in Hat.
  - eapply triple_bind; [apply (send_packet_at _ _ (resume_packet 0 0));
      by rewrite resume_packet_length; lia|intros ?; cbv beta]. by apply triple_ret.
Qed.

Lemma handshake_resume_at l sm payload :
  ok_map sm ->
  triple (at_ l sm) (handshake_resume payload zero_state zero_hand) (hs_post l sm).
Proof.
  intros Hok. eapply triple_conseq; [apply (resume_at l sm payload (zero_state, zero_hand) Hok)
    |done|]. intros r w. cbv beta. destruct (_ <? _).
  { intros [-> Hat]. apply (hs_none _ []). by rewrite app_nil_r. }
  destruct (sm !! _) as [[st hand]|] eqn:Hl; intros [-> Hat]; [|by eapply hs_again].
  eexists _, sm. split; [exact Hat|]. split; [apply resumed_ready, (Hok _ _ Hl)|].
  split; [exists st; auto|done].
Qed.

Lemma handshake_step_at l sm :
  ok_map sm ->
  triple (at_ l sm) (handshake_step (zero_state, zero_hand)) (hs_post l sm).
Proof.
  intros Hok. unfold handshake_step.
  eapply triple_bind; [apply recv_at|intros p; cbv beta].
  destruct p as [[op payload]|].
  - destruct (op =? OP_PING).
    { eapply triple_bind; [by apply send_at; cbn; lia|intros ?; cbv beta].
      apply triple_ret. intros w. apply hs_again. }
    destruct (op =? OP_LOGIN_REQ); [by apply handshake_login_at|].
    destruct (op =? OP_RESUME_REQ); [by apply handshake_resume_at|].
    apply triple_ret. intros w Hat. apply (hs_again _ []). by rewrite app_nil_r.
  - eapply triple_bind; [apply close_at|intros ?; cbv beta].
    apply triple_ret. intros w Hat. apply (hs_none _ []). by rewrite app_nil_r.
Qed.

(** ** The whole session *)

(** The invariant of the main loop, relative to the packets and the store at
    its start. *)
Definition main_inv (sid : Z) (l : list (Z * list byte)) (sm : gmap Z game) (v : game)
    (w : world C) : Prop :=
  exists out sm', at_ (l ++ out) sm' w /\ ready v.1 v.2 /\ synced sid v sm' /\
    same_but sid sm sm' /\ ok_map sm'.

Lemma synced_stepped sid l sm v0 v w :
  ready v0.1 v0.2 -> ok_map sm -> synced sid v0 sm -> stepped sid l sm v0 v w ->
  main_inv sid l sm v w.
Proof.
  intros Hr Hok Hsy (out & sm' & Hat & [Hv _] & _ & Hs). exists out, sm'.
  split; [done|]. split; [done|]. destruct Hs as [[-> ->]| ->]; [done|].
  split; [|split; [apply same_but_put|by apply ok_map_put]].
  exists v.1. destruct Hsy as (st0 & Hl & _). split; [|by left].
  rewrite put_lookup by eauto. by destruct v.
Qed.

Lemma main_step_inv sid l sm v :
  triple (main_inv sid l sm v) (main_step sid v) (fun r w =>
    exists v', main_inv sid l sm v' w /\ (forall v1, r = inl v1 -> v1 = v' /\ waiting v1)).
Proof.
  intros w (out & sm' & Hat & Hr & Hsy & Hsb & Hok). destruct v as [st hand].
  destruct (main_step_at (l ++ out) sm' sid st hand Hr w Hat) as (v' & Hst & Hv).
  exists v'. split.
  - destruct (synced_stepped _ _ _ _ _ _ Hr Hok Hsy Hst)
      as (out' & sm2 & Hat2 & Hr2 & Hsy2 & Hsb2 & Hok2).
    exists (out ++ out'), sm2. rewrite (assoc_L (++)). splits; [done..| |done].
    by eapply same_but_trans.
  - intros v1 E. rewrite (Hv v1 E). split; [done|]. by destruct Hst as (? & ? & _ & ? & _).
Qed.

(** What a session leaves behind. *)
Definition session_post (l : list (Z * list byte)) (sm : gmap Z game) (w : world C) : Prop :=
  exists out sid sm', at_ (l ++ out) sm' w /\ same_but sid sm sm' /\ ok_map sm'.

Lemma session_loops_at l sm fuel w w' :
  ok_map sm -> at_ l sm w -> session_loops fuel w = Some (tt, w') -> session_post l sm w'.
Proof.
  intros Hok Hat. unfold session_loops, mbind, StO_bind.
  destruct (loopM handshake_step _ _ _) as [[r w1]|] eqn:E1; [|done].
  apply (loopM_triple (fun v w => v = (zero_state, zero_hand) /\
      exists out, at_ (l ++ out) sm w)
    (fun r w => exists out, match r with
      | None => at_ (l ++ out) sm w
      | Some (sid, st, hand) => exists sm', at_ (l ++ out) sm' w /\ hs_open sid (st, hand) sm sm'
      end)) in E1.
  - destruct E1 as [out E1]. destruct r as [[[sid st] hand]|].
    + destruct E1 as (sm1 & Hat1 & Hr & Hsy & Hsb & Hok1).
      destruct (loopM (main_step sid) _ _ _) as [[[] w2]|] eqn:E2; [|done].
      apply (loopM_triple (main_inv sid (l ++ out) sm1)
        (fun _ w => exists v, main_inv sid (l ++ out) sm1 v w)) in E2.
      * destruct E2 as (v & out2 & sm2 & Hat2 & _ & _ & Hsb2 & Hok2).
        intros E. injection E as <-. exists (out ++ out2), sid, sm2. rewrite (assoc_L (++)).
        split; [exact (close_at _ _ w2 Hat2)|]. split; [by eapply same_but_trans|done].
      * intros v. eapply triple_conseq; [apply main_step_inv|done|]. cbv beta.
        intros [v1|[]] wx (v' & Hi & Hv); [|eauto]. by destruct (Hv v1 eq_refl) as [-> _].
      * exists [], sm1. rewrite app_nil_r. done.
    + intros E. injection E as <-. by exists out, 0, sm.
  - intros v w1' [-> [out Hat1]].
    destruct (handshake_step_at _ _ Hok _ Hat1) as (out2 & sm2 & Hat2 & Hm).
    rewrite <- (assoc_L (++)) in Hat2.
    destruct (handshake_step _ w1').1 as [v|[[[sid st] hand]|]]; cbn [fst snd] in *.
    + destruct Hm as [-> ->]. eauto.
    + eauto.
    + subst. eauto.
  - split; [done|]. exists []. by rewrite app_nil_r.
Qed.

Lemma run_session_at l sm fuel w w' :
  ok_map sm -> at_ l sm w -> run_session fuel w = Some (tt, w') -> session_post l sm w'.
Proof.
  intros Hok Hat. apply session_loops_at; [done|].
  apply (env_at l sm _ (fun _ => True) (fun _ => I) w Hat).
Qed.
End Session.
