(* ===== verification/SessionProps.v ===== *)
(** * The session: theorems

    What a client observes of src/server.c's [run_session], what the session
    leaves in the shared store, and that it ends with its connection. *)

From S2P Require Export SessionThms.

(** ** Frames

    A preorder on worlds that every call of the session other than [recv]
    respects is respected by every handler. *)

Section Frame.
Context `{Libc} {C : Type} `{Channel C} (R : world C -> world C -> Prop) `{!PreOrder R}.
Hypothesis R_send : forall op payload w, R w (send op payload w).2.
Hypothesis R_close : forall w, R w (close_conn w).2.
Hypothesis R_env : forall A (m : St env A) w, R w (on_env m w).2.
Hypothesis R_store : forall A (m : shm_store_t -> St env (A * shm_store_t)) w,
  R w (on_store m w).2.
Hypothesis R_pkt : forall w, R w (on_stats ipc_stats_inc_pkt w).2.

Definition frames {A} (m : M (C:=C) A) : Prop := forall w, R w (m w).2.

Lemma frames_ret {A} (a : A) : frames (mret a).
Proof. intros w. reflexivity. Qed.

Lemma frames_bind {A B} (m : M A) (k : A -> M B) :
  frames m -> (forall a, frames (k a)) -> frames (m ≫= k).
Proof.
  intros Hm Hk w. specialize (Hm w). unfold mbind, St_bind.
  destruct (m w) as [a w1]. specialize (Hk a w1). cbn [snd] in *. by etransitivity.
Qed.

Create HintDb frames.
#[local] Hint Resolve @frames_ret @frames_bind R_send R_close R_env R_store R_pkt : frames.

(** Decompose a computation along its code. *)
Ltac frame_tac :=
  repeat (cbv zeta; match goal with
    | |- frames (let '(_, _) := ?x in _) => destruct x
    | |- frames (if ?b then _ else _) => destruct b
    | |- frames (mbind _ _) => apply frames_bind; [|intros ?]
    | |- frames (match ?x with _ => _ end) => destruct x
    | |- frames _ => solve [eauto with frames nocore | intros ?; eauto with frames nocore]
    end).

Lemma frames_err_send code msg : frames (err_send code msg).
Proof. intros w. apply R_send. Qed.
#[local] Hint Resolve frames_err_send : frames.

Lemma frames_send_game st hand : frames (send_game st hand).
Proof. unfold send_game. frame_tac. Qed.
#[local] Hint Resolve frames_send_game : frames.

Lemma frames_ai_if_due sid st hand : frames (ai_if_due sid st hand).
Proof. unfold ai_if_due, save. frame_tac. Qed.
#[local] Hint Resolve frames_ai_if_due : frames.

Lemma frames_login st hand : frames (handshake_login st hand).
Proof. unfold handshake_login, alloc, save. frame_tac. Qed.

Lemma frames_resume payload st hand : frames (handshake_resume payload st hand).
Proof. unfold handshake_resume, load. frame_tac. Qed.

Lemma frames_dispatch sid op payload st hand : frames (dispatch sid op payload st hand).
Proof. unfold dispatch, on_play_card, on_end_turn, save. frame_tac. Qed.
#[local] Hint Resolve frames_login frames_resume frames_dispatch : frames.

(** What each loop does with a received packet. *)
Lemma frames_handshake (p : option (Z * list byte)) st hand :
  frames (match p with
    | None => _ ← close_conn; mret (inr None)
    | Some (op, payload) =>
        if op =? OP_PING then _ ← send OP_PONG []; mret (inl (st, hand))
        else if op =? OP_LOGIN_REQ then handshake_login st hand
        else if op =? OP_RESUME_REQ then handshake_resume payload st hand
        else mret (inl (st, hand))
    end).
Proof. frame_tac. Qed.

Lemma frames_main sid (p : option (Z * list byte)) st hand :
  frames (match p with
    | None => mret (inr tt)
    | Some (op, payload) =>
        _ ← on_stats ipc_stats_inc_pkt;
        _ ← touch sid;
        v ← dispatch sid op payload st hand;
        mret (inl v)
    end).
Proof. unfold touch. frame_tac. Qed.

(** When reception respects the preorder too, so does the whole session. *)
Hypothesis R_recv : forall w, R w (recv w).2.

Lemma frames_handshake_step v : frames (handshake_step v).
Proof.
  destruct v as [st hand]. apply frames_bind; [exact R_recv|]. intros p. apply frames_handshake.
Qed.

Lemma frames_main_step sid v : frames (main_step sid v).
Proof.
  destruct v as [st hand]. apply frames_bind; [apply frames_ai_if_due|]. intros [st2 hand2].
  apply frames_bind; [exact R_recv|]. intros p. apply frames_main.
Qed.

Lemma loopM_frame {S T} (body : S -> M (S + T)) fuel s w r w' :
  (forall s, frames (body s)) -> loopM body fuel s w = Some (r, w') -> R w w'.
Proof.
  intros Hb E. refine (loopM_triple (fun _ => R w) (fun _ => R w) body fuel s w r w' _ _ E);
    [|reflexivity].
  intros s1 w1 Hw. specialize (Hb s1 w1). destruct (body s1 w1) as [[?|?] w2]; cbn in *;
    by etransitivity.
Qed.

Lemma run_session_frame fuel w w' : run_session fuel w = Some (tt, w') -> R w w'.
Proof.
  unfold run_session, session_loops, mbind, StO_bind.
  assert (R w (seed_rand w).2) as Hs by apply R_env.
  destruct (loopM handshake_step _ _ _) as [[r w1]|] eqn:E1; [|done].
  assert (R (seed_rand w).2 w1) as Hw1.
  { eapply loopM_frame; [apply frames_handshake_step|exact E1]. }
  destruct r as [[[sid st] hand]|]; [|intros E; injection E as <-; by etransitivity].
  destruct (loopM (main_step sid) _ _ _) as [[[] w2]|] eqn:E2; [|done].
  assert (R w1 w2) as Hw2.
  { eapply loopM_frame; [apply frames_main_step|exact E2]. }
  intros E. injection E as <-. pose proof (R_close w2). by repeat (etransitivity; [eassumption|]).
Qed.
End Frame.

(** ** Termination

    On a connection from which finitely many packets can be received. *)

Section Termination.
Context `{Libc} {C : Type} `{ChannelFin C}.

Definition no_more (w w' : world C) : Prop := (pending (w_conn w') <= pending (w_conn w))%nat.

#[local] Instance no_more_preorder : PreOrder no_more.
Proof. split; unfold no_more; [intros w; lia|intros w1 w2 w3; lia]. Qed.

Definition quiet {A} (m : M (C:=C) A) : Prop := frames no_more m.

Lemma quiet_send op payload w : no_more w (send op payload w).2.
Proof.
  unfold no_more, send, on_conn. pose proof (pending_send op payload (w_conn w)) as Hs.
  destruct (ch_send _ _ _). exact Hs.
Qed.

Lemma quiet_close w : no_more w (close_conn w).2.
Proof. apply pending_close. Qed.

Lemma quiet_env A (m : St env A) w : no_more w (on_env m w).2.
Proof. unfold no_more, on_env. destruct (m _). cbn. lia. Qed.

Lemma quiet_store A (m : shm_store_t -> St env (A * shm_store_t)) w : no_more w (on_store m w).2.
Proof. unfold no_more, on_store. destruct (m _ _) as [[]]. cbn. lia. Qed.

Lemma quiet_pkt w : no_more w (on_stats ipc_stats_inc_pkt w).2.
Proof. unfold no_more. cbn. lia. Qed.

#[local] Hint Resolve quiet_send quiet_close quiet_env quiet_store quiet_pkt : core.

(** A step of a loop: it continues only after it has received a packet. *)
Definition consumes {S R} (m : M (C:=C) (S + R)) : Prop :=
  forall w, (pending (w_conn (m w).2) <= pending (w_conn w))%nat /\
    (forall s, (m w).1 = inl s -> (pending (w_conn (m w).2) < pending (w_conn w))%nat).

Lemma consumes_bind {A S R} (m : M A) (k : A -> M (S + R)) :
  quiet m -> (forall a, consumes (k a)) -> consumes (m ≫= k).
Proof.
  intros Hm Hk w. specialize (Hm w). unfold no_more in Hm. unfold mbind, St_bind.
  destruct (m w) as [a w1]. destruct (Hk a w1) as [Hle Hlt]. cbn [snd] in Hm.
  split; [lia|]. intros s E. specialize (Hlt s E). lia.
Qed.

Lemma consumes_recv {S R} (k : option (Z * list byte) -> M (S + R)) :
  (forall p, quiet (k p)) -> (forall w s, (k None w).1 <> inl s) -> consumes (recv ≫= k).
Proof.
  intros Hk Hn w. pose proof (pending_recv (w_conn w)) as Hr.
  unfold mbind, St_bind, recv, on_conn. destruct (ch_recv 1024 (w_conn w)) as [p c] eqn:E.
  set (w1 := World c _ _ _). pose proof (Hk p w1) as Hq.
  unfold no_more in Hq.
  change (w_conn w1) with c in Hq. destruct p as [p|].
  - specialize (Hr p eq_refl). cbn [snd] in Hr. split; [lia|]. intros; lia.
  - split; [|intros s Hs; by destruct (Hn w1 s)]. etrans; [exact Hq|].
    pose proof (pending_fail (w_conn w)) as Hf. rewrite E in Hf. exact Hf.
Qed.

Lemma handshake_consumes v : consumes (handshake_step v).
Proof.
  destruct v as [st hand]. unfold handshake_step. apply consumes_recv; [|done].
  intros p. apply frames_handshake; auto; apply _.
Qed.

Lemma main_consumes sid v : consumes (main_step sid v).
Proof.
  destruct v as [st hand]. unfold main_step.
  apply consumes_bind; [apply frames_ai_if_due; auto; apply _|].
  intros [st1 hand1]. apply consumes_recv; [|done].
  intros p. apply frames_main; auto; apply _.
Qed.

Lemma loopM_total {S R} (body : S -> M (S + R)) fuel s w :
  (forall s, consumes (body s)) -> (pending (w_conn w) < fuel)%nat ->
  exists r w', loopM body fuel s w = Some (r, w') /\
    (pending (w_conn w') <= pending (w_conn w))%nat.
Proof.
  intros Hb. revert s w. induction fuel as [|fuel IH]; intros s w Hf; [lia|].
  unfold loopM. cbn [loop fst snd]. destruct (Hb s w) as [Hle Hlt].
  destruct (body s w) as [[s'|r] w1]; cbn [fst snd] in *; [|eauto].
  specialize (Hlt s' eq_refl). destruct (IH s' w1) as (r & w' & E & Hw'); [lia|].
  exists r, w'. split; [exact E|lia].
Qed.

Lemma run_session_total fuel w :
  (pending (w_conn w) < fuel)%nat -> exists w', run_session fuel w = Some (tt, w').
Proof.
  intros Hf. unfold run_session, session_loops.
  assert (pending (w_conn (seed_rand w).2) <= pending (w_conn w))%nat as Hs
    by apply quiet_env.
  set (w0 := (seed_rand w).2) in *. clearbody w0.
  destruct (loopM_total handshake_step fuel (zero_state, zero_hand) w0)
    as (r & w1 & E1 & Hw1); [apply handshake_consumes|lia|].
  rewrite (StO_bind_Some _ _ _ _ _ E1). destruct r as [[[sid st] hand]|]; [|by eexists].
  destruct (loopM_total (main_step sid) fuel (st, hand) w1)
    as ([] & w2 & E2 & Hw2); [apply main_consumes|lia|].
  rewrite (StO_bind_Some _ _ _ _ _ E2). by eexists.
Qed.
End Termination.

(** ** Theorems *)

Section Replies.
Context `{LibcOK} {C : Type} `{ChannelOK C}.

(** The handshake step on a received packet is its handler. *)
Lemma handshake_recv v w op payload l sm n :
  (ch_recv 1024 (w_conn w)).1 = Some (op, payload) -> at_free l sm n w ->
  exists w1, at_free l sm n w1 /\
    (op = OP_LOGIN_REQ -> handshake_step v w = handshake_login v.1 v.2 w1) /\
    (op = OP_RESUME_REQ -> handshake_step v w = handshake_resume payload v.1 v.2 w1).
Proof.
  intros Hp [[Hl Hs] Hn]. destruct v as [st hand].
  unfold handshake_step, mbind, St_bind, recv, on_conn.
  pose proof (sent_recv 1024 (w_conn w)) as Hr.
  destruct (ch_recv 1024 (w_conn w)) as [p' c]. cbn [fst snd] in Hp, Hr. subst p'.
  exists (World c (w_env w) (w_stats w) (w_store w)). split.
  - split; [|done]. split; [by rewrite <- Hl, <- Hr|done].
  - by split; intros ->.
Qed.

(** While the server waits for the player no turn of the AI is due. *)
Lemma ai_not_due sid st hand :
  waiting (st, hand) -> ai_if_due (C := C) sid st hand = mret (st, hand).
Proof.
  intros Hv. destruct (ready_over _ (proj1 Hv)) as [Hov _]. cbn [fst] in Hov.
  unfold ai_if_due. rewrite Hov. destruct Hv as [_ [E|E]]; cbn in E; rewrite E; [|done].
  by rewrite andb_false_r.
Qed.

(** One iteration of the main loop when a packet arrives: its dispatch. *)
Lemma main_recv sid v w op payload l sm :
  waiting v -> (ch_recv 1024 (w_conn w)).1 = Some (op, payload) -> at_ l sm w ->
  exists w1, at_ l sm w1 /\
    main_step sid v w =
      (inl (dispatch sid op payload v.1 v.2 w1).1, (dispatch sid op payload v.1 v.2 w1).2).
Proof.
  intros Hv Hp Hat. destruct v as [st hand]. cbn [fst snd].
  assert (ai_if_due (C := C) sid st hand = mret (st, hand)) as E by (by apply ai_not_due).
  pose proof (recv_at l sm w Hat) as Hr.
  unfold main_step. rewrite E. unfold mbind, mret, St_bind, St_ret.
  assert ((recv w).1 = Some (op, payload)) as Hp'.
  { unfold recv, on_conn. by destruct (ch_recv 1024 (w_conn w)). }
  destruct (recv w) as [p w1]. cbn [fst snd] in *. subst p.
  set (w2 := (on_stats ipc_stats_inc_pkt w1).2).
  pose proof (touch_at l sm sid w2 Hr) as Ht. exists (touch sid w2).2. split; [exact Ht|].
  subst w2. unfold on_stats. cbn [snd]. destruct (touch sid _) as [z w3]. cbn [fst snd].
  by destruct (dispatch sid op payload st hand w3).
Qed.

Lemma play_req_byte b : hand_idx (dec play_req_codec [b]) = byte.unsigned b.
Proof. cbn. apply Z.lor_0_r. Qed.

Lemma here_now (w : world C) :
  at_free (sent (w_conn w)) (store_map (w_store w)) (free_slots (w_store w)) w.
Proof. done. Qed.
End Replies.

(** The worlds of the witnesses: a server that has just accepted a connection
    on which the given packets will arrive. *)
Module SessionDemo.
Definition game0 : game := (enter_turn login_state zero_hand 0 TestLibc.env0).1.

Lemma game0_main : main_phase 0 game0.1 game0.2.
Proof. by apply (enter_turn_post login_state zero_hand 0); [apply login_state_inv|..]. Qed.

Lemma game0_ready : ready game0.1 game0.2.
Proof. eapply main_phase_ready, game0_main. Qed.

(** A store with that game as session 42. *)
Definition entry0 : session_entry_t :=
  set_valid 1 (set_session_id 42 (set_game game0.1 game0.2 zero_entry)).
Definition store0 : shm_store_t := {| sessions := [entry0] |}.
Definition world0 (inb : list (Z * list byte)) : world Queue.chan :=
  World {| Queue.inbox := inb; Queue.outbox := [] |} TestLibc.env0 zero_stats store0.

Lemma store0_map : store_map store0 = {[ 42 := game0 ]}.
Proof. unfold store_map, entries_map. cbn -[game0]. by destruct game0. Qed.

Lemma store0_ok : ok_map (store_map store0).
Proof. rewrite store0_map. apply map_Forall_singleton, game0_ready. Qed.

Lemma store0_synced : synced 42 game0 (store_map store0).
Proof.
  exists game0.1. rewrite store0_map, lookup_singleton_eq. destruct game0. auto.
Qed.

Lemma game0_waiting : waiting game0 /\ game_over game0.1 = 0.
Proof.
  destruct game0_main.
  split; [|done]. split; [apply game0_ready|by right].
Qed.
End SessionDemo.

(** C10. One packet of the main loop, whatever it is: the server waits for the
    player again, the game in the store is the one the worker plays, every
    stored game stays playable, no other session is touched, nothing already
    sent is taken back, and a decided game does not change. *)
Theorem main_step_safe `{LibcOK} {C} `{ChannelOK C} sid v (w : world C) :
  let sm := store_map (w_store w) in
  ready v.1 v.2 -> synced sid v sm -> ok_map sm ->
  let '(r, w') := main_step sid v w in
  let sm' := store_map (w_store w') in
  same_but sid sm sm' /\ ok_map sm' /\
  (exists out, sent (w_conn w') = sent (w_conn w) ++ out) /\
  (forall v', r = inl v' ->
     waiting v' /\ synced sid v' sm' /\ (game_over v.1 = 1 -> v' = v)).
Proof.
  intros sm Hr Hsy Hok. destruct v as [st hand].
  destruct (main_step_at _ sm sid st hand Hr w (proj1 (here_now w))) as (v1 & Hst & Hv).
  destruct (main_step sid (st, hand) w) as [r w']. cbn [fst snd] in Hst, Hv.
  destruct (synced_stepped _ _ _ _ _ _ Hr Hok Hsy Hst)
    as (out & sm1 & [Hs <-] & _ & Hsy1 & Hsb & Hok1).
  destruct Hst as (? & ? & _ & Hw & Hf & _). cbv zeta.
  splits; [done|done|by exists out|].
  intros v' E. by rewrite (Hv v' E).
Qed.

Lemma main_step_safe_witness :
  let '(r, w') := main_step 42 SessionDemo.game0
    (SessionDemo.world0 [(opcode OP_END_TURN, [])]) in
  forall v', r = inl v' -> waiting v' /\ synced 42 v' (store_map (w_store w')).
Proof.
  pose proof (main_step_safe 42 SessionDemo.game0
    (SessionDemo.world0 [(opcode OP_END_TURN, [])]) SessionDemo.game0_ready
    SessionDemo.store0_synced SessionDemo.store0_ok) as Hm.
  destruct (main_step _ _ _) as [r w']. destruct Hm as (_ & _ & _ & Hm).
  intros v' E. by destruct (Hm v' E) as (? & ? & _).
Defined.

(** A whole session, with any client and any amount of fuel: when the worker
    ends, every stored game is still playable and at most one session's game
    has changed. *)
Theorem run_session_safe `{LibcOK} {C} `{ChannelOK C} fuel (w w' : world C) :
  let sm := store_map (w_store w) in
  let sm' := store_map (w_store w') in
  ok_map sm -> run_session fuel w = Some (tt, w') ->
  ok_map sm' /\ (exists sid, same_but sid sm sm') /\
  (exists out, sent (w_conn w') = sent (w_conn w) ++ out).
Proof.
  intros sm sm' Hok E.
  destruct (run_session_at _ _ _ _ _ Hok (proj1 (here_now w)) E)
    as (out & sid & sm1 & [Hs <-] & Hsb & Hok1). eauto.
Qed.

(** C18. The worker ends: on a connection from which only finitely many packets
    can be received, the session returns within one iteration more than there
    are packets. *)
Theorem run_session_ends `{Libc} {C} `{ChannelFin C} fuel (w : world C) :
  (pending (w_conn w) < fuel)%nat -> exists w', run_session fuel w = Some (tt, w').
Proof. apply run_session_total. Qed.

Definition demo_world : world Queue.chan :=
  Queue.world0 [(opcode OP_LOGIN_REQ, []); (opcode OP_END_TURN, [])].

Lemma run_session_ends_witness : exists w', run_session 3 demo_world = Some (tt, w').
Proof. apply (run_session_ends 3 demo_world). cbn. lia. Defined.

Lemma zero_store_ok : ok_map (store_map zero_store).
Proof.
  replace (store_map zero_store) with (∅ : gmap Z game) by (by vm_compute).
  apply map_Forall_empty.
Qed.

Lemma run_session_safe_witness : exists w',
  run_session 3 demo_world = Some (tt, w') /\ ok_map (store_map (w_store w')).
Proof.
  destruct (run_session_total 3 demo_world) as [w' E]; [cbn; lia|].
  exists w'. split; [done|].
  refine (proj1 (run_session_safe 3 demo_world w' _ E)). exact zero_store_ok.
Defined.

(** C19. The answer to a card: an error packet that names the reason when the
    card is refused, then the resulting state and the hand; the store gets the
    same game. *)
Theorem play_card_reply `{LibcOK} {C} `{ChannelOK C} sid b st hand (w : world C) :
  waiting (st, hand) -> game_over st = 0 ->
  let '(rc, st') := handle_play_card st hand true (byte.unsigned b) in
  let '(v, w') := dispatch sid OP_PLAY_CARD [b] st hand w in
  v = (st', hand) /\
  sent (w_conn w') = sent (w_conn w) ++ play_errors rc ++ game_packets st' hand /\
  store_map (w_store w') = put sid (st', hand) (store_map (w_store w)).
Proof.
  intros Hw Ho. unfold dispatch. cbn [Z.eqb].
  destruct (ready_over (st, hand) (proj1 Hw)) as [Hov _]. cbn in Hov. rewrite Hov, Ho.
  pose proof (on_play_card_at _ _ sid [b] st hand Hw Ho w (proj1 (here_now w))) as Hp.
  cbn [length] in Hp. change (Z.of_nat 1 =? 1) with true in Hp. cbv zeta iota in Hp.
  replace (hand_idx (dec play_req_codec [b])) with (byte.unsigned b) in Hp
    by (symmetry; apply play_req_byte).
  destruct (handle_play_card st hand true _) as [rc st']. cbn [fst snd] in Hp.
  change (opcode OP_PLAY_CARD =? opcode OP_PING) with false. cbn iota.
  change (opcode OP_PLAY_CARD =? opcode OP_PLAY_CARD) with true. cbn iota. cbn [negb Z.eqb].
  destruct (on_play_card sid [b] st hand w) as [v w']. cbn [fst snd] in Hp.
  destruct Hp as ([-> _] & Hs & Hm). done.
Qed.

Lemma play_card_reply_witness :
  let '(v, w') := dispatch 42 OP_PLAY_CARD [Byte.x00] SessionDemo.game0.1 SessionDemo.game0.2
    (SessionDemo.world0 []) in
  store_map (w_store w') = put 42 v (store_map SessionDemo.store0).
Proof.
  destruct SessionDemo.game0_waiting as [Hw Ho].
  assert (waiting (SessionDemo.game0.1, SessionDemo.game0.2)) as Hw'
    by (by destruct SessionDemo.game0).
  pose proof (play_card_reply 42 Byte.x00 _ _ (SessionDemo.world0 []) Hw' Ho) as Hp.
  destruct (handle_play_card _ _ _ _) as [rc st'].
  destruct (dispatch _ _ _ _ _ _) as [v w']. by destruct Hp as (-> & _ & ->).
Defined.



(** C21. The answer to a login: "server full" and the end of the session when the
    store has no free slot; else the login response, the new session's nonzero
    id, and a freshly dealt game in the player's main phase, which the store
    holds under that id, all other sessions unchanged. *)
Theorem login_reply `{LibcOK} {C} `{ChannelOK C} payload (w : world C) :
  (ch_recv 1024 (w_conn w)).1 = Some (opcode OP_LOGIN_REQ, payload) ->
  let '(r, w') := handshake_step (zero_state, zero_hand) w in
  let sm := store_map (w_store w) in
  let sm' := store_map (w_store w') in
  if (free_slots (w_store w) =? 0)%nat then
    r = inr None /\ sm' = sm /\
    sent (w_conn w') = sent (w_conn w) ++ [err_packet (-999) "server full"]
  else exists sid st hand,
    r = inr (Some (sid, st, hand)) /\ sid <> 0 /\ main_phase 0 st hand /\
    sm' !! sid = Some (st, hand) /\ same_but sid sm sm' /\
    sent (w_conn w') =
      sent (w_conn w) ++ [login_packet; resume_packet 1 sid] ++ game_packets st hand.
Proof.
  intros Hr.
  destruct (handshake_recv (zero_state, zero_hand) w _ _ _ _ _ Hr (here_now w))
    as (w1 & Hat & E & _). rewrite E by done. cbn [fst snd].
  pose proof (login_at _ _ _ w1 Hat) as Hl.
  destruct (handshake_login _ _ w1) as [r w']. cbn [fst snd] in Hl.
  destruct (_ =? 0)%nat.
  - destruct Hl as (-> & Hs & Hm). done.
  - destruct Hl as (sid & st & hand & sm' & (? & [? _] & ?) & (? & ?) & (? & <-)).
    exists sid, st, hand. done.
Qed.

Lemma login_reply_witness :
  let '(r, w') := handshake_step (zero_state, zero_hand)
    (Queue.world0 [(opcode OP_LOGIN_REQ, [])]) in
  exists sid st hand, r = inr (Some (sid, st, hand)) /\
    store_map (w_store w') !! sid = Some (st, hand).
Proof.
  pose proof (login_reply [] (Queue.world0 [(opcode OP_LOGIN_REQ, [])]) eq_refl) as Hl.
  destruct (handshake_step _ _) as [r w'].
  destruct Hl as (sid & st & hand & ? & _ & _ & ? & _). by exists sid, st, hand.
Defined.

(** C15. The answer to a resume: a request shorter than its struct ends the
    session; an unknown id is refused and the handshake goes on; a known id
    gets exactly the stored game, from any earlier connection, and the worker
    plays on with it.  The stored games do not change. *)
Theorem resume_reply `{LibcOK} {C} `{ChannelOK C} payload (w : world C) v :
  let sm := store_map (w_store w) in
  let sid := requested payload in
  ok_map sm -> (ch_recv 1024 (w_conn w)).1 = Some (opcode OP_RESUME_REQ, payload) ->
  let '(r, w') := handshake_step v w in
  store_map (w_store w') = sm /\
  if Z.of_nat (length payload) <? 8 then
    r = inr None /\ sent (w_conn w') = sent (w_conn w)
  else match sm !! sid with
  | None => r = inl v /\ sent (w_conn w') = sent (w_conn w) ++ [resume_packet 0 0]
  | Some (st, hand) =>
      r = inr (Some (sid, push_log st resumed_msg, hand)) /\
      sent (w_conn w') = sent (w_conn w) ++ resume_packet 1 sid :: game_packets st hand
  end.
Proof.
  intros sm sid Hok Hr.
  destruct (handshake_recv v w _ _ _ _ _ Hr (here_now w)) as (w1 & [Hat _] & _ & E).
  rewrite E by done. pose proof (resume_at _ _ payload v Hok w1 Hat) as Hl.
  fold sm sid in Hl. unfold game in *.
  destruct (handshake_resume _ _ _ w1) as [r w']. cbn [fst snd] in Hl.
  destruct (_ <? _); [|destruct (sm !! sid) as [[st hand]|]]; by destruct Hl as (-> & ? & ?).
Qed.

(** The resume request of session 42. *)
Definition resume42 : list byte := enc resume_req_codec {| req_session_id := 42 |}.

Lemma resume_reply_witness :
  let '(r, w') := handshake_step (zero_state, zero_hand)
    (SessionDemo.world0 [(opcode OP_RESUME_REQ, resume42)]) in
  sent (w_conn w') = resume_packet 1 42 :: game_packets SessionDemo.game0.1 SessionDemo.game0.2.
Proof.
  pose proof (resume_reply resume42 (SessionDemo.world0 [(opcode OP_RESUME_REQ, resume42)])
    (zero_state, zero_hand) SessionDemo.store0_ok eq_refl) as Hl.
  destruct (handshake_step _ _) as [r w']. destruct Hl as [_ Hl].
  change (Z.of_nat (length resume42) <? 8) with false in Hl.
  change (requested resume42) with 42 in Hl. cbn iota in Hl.
  change (store_map (w_store _)) with (store_map SessionDemo.store0) in Hl.
  rewrite SessionDemo.store0_map, lookup_singleton_eq in Hl.
  destruct SessionDemo.game0 as [st hand]. by destruct Hl as [_ ->].
Defined.

(** The packets that do not move the game: a ping gets a pong, anything
    else after the end of the game gets the final state and hand again, an
    opcode without a meaning gets error -99, and a second login or resume gets
    nothing.  The game and the store stay as they are. *)
Theorem idle_replies `{LibcOK} {C} `{ChannelOK C} sid (op : Z) payload st hand (w : world C) :
  waiting (st, hand) -> (game_over st = 1 \/ op <> opcode OP_PLAY_CARD /\ op <> opcode OP_END_TURN) ->
  let '(v, w') := dispatch sid op payload st hand w in
  v = (st, hand) /\ store_map (w_store w') = store_map (w_store w) /\
  sent (w_conn w') = sent (w_conn w) ++
    (if op =? OP_PING then [(opcode OP_PONG, [])]
     else if game_over st =? 1 then game_packets st hand
     else if (op =? OP_LOGIN_REQ) || (op =? OP_RESUME_REQ) then []
     else [err_packet (-99) "unknown opcode"]).
Proof.
  intros Hw Hop. destruct (ready_over (st, hand) (proj1 Hw)) as [Hov Ho]. cbn in Hov, Ho.
  set (out := if op =? OP_PING then _ else _).
  enough (triple (at_ (sent (w_conn w)) (store_map (w_store w))) (dispatch sid op payload st hand)
    (fun v => fun w' => v = (st, hand) /\ at_ (sent (w_conn w) ++ out) (store_map (w_store w)) w'))
    as Ht.
  { specialize (Ht w (proj1 (here_now w))). destruct (dispatch _ _ _ _ _ w) as [v w'].
    cbn [fst snd] in Ht. by destruct Ht as (-> & ? & ?). }
  subst out. unfold dispatch. destruct (op =? OP_PING).
  { eapply triple_bind; [by apply send_at; cbn; lia|intros ?; cbv beta]. by apply triple_ret. }
  rewrite Hov. destruct Ho as [Ho|Ho]; rewrite Ho; cbn [Z.eqb negb].
  - destruct Hop as [|[Hc He]]; [lia|].
    rewrite (proj2 (Z.eqb_neq _ _) Hc), (proj2 (Z.eqb_neq _ _) He). destruct (_ || _).
    + apply triple_ret. intros w'. by rewrite app_nil_r.
    + eapply triple_bind; [by apply err_send_at|intros ?; cbv beta]. by apply triple_ret.
  - eapply triple_bind; [apply send_game_at, Hw|intros ?; cbv beta]. by apply triple_ret.
Qed.

Lemma idle_replies_witness :
  let '(v, w') := dispatch 42 77 [] SessionDemo.game0.1 SessionDemo.game0.2
    (SessionDemo.world0 []) in
  sent (w_conn w') = [err_packet (-99) "unknown opcode"].
Proof.
  destruct SessionDemo.game0_waiting as [Hw Ho].
  assert (waiting (SessionDemo.game0.1, SessionDemo.game0.2)) as Hw'
    by (by destruct SessionDemo.game0).
  pose proof (idle_replies 42 77 [] _ _ (SessionDemo.world0 []) Hw') as Hp.
  rewrite Ho in Hp. destruct (dispatch _ _ _ _ _ _) as [v w'].
  assert (77 <> opcode OP_PLAY_CARD /\ 77 <> opcode OP_END_TURN) as Hne by done.
  by destruct (Hp (or_intror Hne)) as (_ & _ & ->).
Defined.
