(* ===== verification/Server.v ===== *)
(** * The server's accept loop

    src/server.c, [main], from the two shared segments to the loop over
    [accept].  The outcome of [accept], [fork] and [SSL_accept] for each
    connection is given as data; a child is run to its end before the next
    one starts, which is one of the schedules the operating system may choose.
    Interleaved children are the subject of System.v and Race.v, the system
    calls of [main] that of ServerMain.v. *)

From S2P Require Export SessionProps.

Section Server.
Context `{Libc} {C : Type} `{Channel C}.

(** What one iteration of [while (!g_stop)] meets: [accept] fails, [fork] fails,
    or a child runs with its copy of the process environment; in the child
    [SSL_accept] fails or gives the connection. *)
Inductive incoming_t :=
  | accept_failed
  | fork_failed
  | child (ssl : option C) (e : env).

Definition shm_t : Type := shm_stats_t * shm_store_t.

(** The child between [fork] and [_exit].  Its test [stats && store] holds, since
    [main] has returned when a segment is missing. *)
Definition run_child (fuel : nat) (ssl : option C) (e : env) (shm : shm_t) : option shm_t :=
  match ssl with
  | None => Some shm
  | Some c =>
      match run_session fuel (World c e (ipc_stats_inc_conn shm.1) shm.2) with
      | Some (_, w) => Some (w_stats w, w_store w)
      | None => None
      end
  end.

Definition accept_step (fuel : nat) (x : incoming_t) (shm : shm_t) : option shm_t :=
  match x with
  | accept_failed | fork_failed => Some shm
  | child ssl e => run_child fuel ssl e shm
  end.

(** The loop until [g_stop]. *)
Fixpoint accept_loop (fuel : nat) (l : list incoming_t) (shm : shm_t) : option shm_t :=
  match l with
  | [] => Some shm
  | x :: l' => shm ← accept_step fuel x shm; accept_loop fuel l' shm
  end.

(** [main]: the segments are created zeroed. *)
Definition server_main (fuel : nat) (l : list incoming_t) : option shm_t :=
  accept_loop fuel l (zero_stats, zero_store).

(** The connections that got as far as a session. *)
Fixpoint served (l : list incoming_t) : nat :=
  match l with
  | [] => O
  | child (Some _) _ :: l' => S (served l')
  | _ :: l' => served l'
  end.
End Server.
Arguments incoming_t {_} _.

Section ServerThms.
Context `{LibcOK} {C : Type} `{ChannelOK C}.

Definition same_connections (w w' : world C) : Prop :=
  total_connections (w_stats w') = total_connections (w_stats w).

#[export] Instance same_connections_preorder : PreOrder same_connections.
Proof. split; unfold same_connections; [done|]. intros w1 w2 w3 Ha Hb. congruence. Qed.

(** The calls of a session leave the connection counter alone. *)
Lemma same_connections_calls :
  (forall op payload (w : world C), same_connections w (send op payload w).2) /\
  (forall w : world C, same_connections w (close_conn w).2) /\
  (forall A (m : St env A) (w : world C), same_connections w (on_env m w).2) /\
  (forall A (m : shm_store_t -> St env (A * shm_store_t)) (w : world C),
     same_connections w (on_store m w).2) /\
  (forall w : world C, same_connections w (on_stats ipc_stats_inc_pkt w).2) /\
  (forall w : world C, same_connections w (recv w).2).
Proof.
  unfold same_connections. splits.
  - intros op payload w1. unfold send, on_conn. by destruct (ch_send _ _ _).
  - done.
  - intros A m w1. unfold on_env. by destruct (m _).
  - intros A m w1. unfold on_store. by destruct (m _ _) as [[]].
  - done.
  - intros w1. unfold recv, on_conn. by destruct (ch_recv _ _).
Qed.

Lemma run_session_connections fuel (w w' : world C) :
  run_session fuel w = Some (tt, w') ->
  total_connections (w_stats w') = total_connections (w_stats w).
Proof. by apply (run_session_frame same_connections); apply same_connections_calls. Qed.

(** The invariant of the accept loop after [k] sessions. *)
Definition shm_ok (k : Z) (shm : shm_t) : Prop :=
  ok_map (store_map shm.2) /\ total_connections shm.1 = u64 k.

Lemma child_ok fuel c e shm shm' k :
  shm_ok k shm -> run_child fuel (Some c) e shm = Some shm' -> shm_ok (k + 1) shm'.
Proof.
  intros [Hok Hk]. unfold run_child.
  destruct (run_session _ _) as [[[] w]|] eqn:E; [|done]. intros E'. injection E' as <-.
  split.
  - set (w0 := World c e _ _) in E.
    destruct (run_session_at _ (store_map (w_store w0)) _ _ _ Hok (proj1 (here_now w0)) E)
      as (? & ? & ? & [_ <-] & _ & ?). done.
  - apply run_session_connections in E. cbn in E |- *. rewrite E, Hk. unfold u64. by zlia.
Qed.

Lemma accept_loop_ok fuel l shm shm' k :
  shm_ok k shm -> accept_loop fuel l shm = Some shm' ->
  shm_ok (k + Z.of_nat (served l)) shm'.
Proof.
  revert shm k. induction l as [|x l IH]; intros shm k Hs; cbn [accept_loop].
  { intros E. injection E as <-. by rewrite Z.add_0_r. }
  destruct (accept_step fuel x shm) as [shm1|] eqn:E; [|done]. cbn [mbind option_bind].
  intros E1. destruct x as [| |[c|] e]; cbn [accept_step] in E;
    try (injection E as <-; by eapply IH).
  pose proof (IH _ _ (child_ok _ _ _ _ _ _ Hs E) E1) as Hs1. cbn [served].
  by replace (k + Z.of_nat (S _)) with (k + 1 + Z.of_nat (served l)) by lia.
Qed.

(** Enough fuel for every connection of the list. *)
Definition enough `{!ChannelFin C} (fuel : nat) (x : incoming_t C) : Prop :=
  match x with child (Some c) _ => (pending c < fuel)%nat | _ => True end.

Lemma accept_loop_total `{!ChannelFin C} fuel l shm :
  Forall (enough fuel) l -> is_Some (accept_loop fuel l shm).
Proof.
  intros Hl. revert shm. induction Hl as [|x l Hx _ IH]; intros shm; [done|].
  cbn [accept_loop]. destruct x as [| |[c|] e]; try apply IH.
  cbn [accept_step run_child]. cbn in Hx.
  destruct (run_session_total fuel (World c e (ipc_stats_inc_conn shm.1) shm.2) Hx) as [w' ->].
  apply IH.
Qed.

(** The server over its life, whoever connects and whatever they send, as
    long as every connection ends: the loop gets through all of them, the
    store then only holds games that can be played on, so every resume meets
    one, and the connection counter that the monitor shows is the number of
    sessions served. *)
Theorem server_safe `{!ChannelFin C} fuel (l : list (incoming_t C)) :
  Forall (enough fuel) l ->
  exists stats store, server_main fuel l = Some (stats, store) /\
    ok_map (store_map store) /\ total_connections stats = u64 (Z.of_nat (served l)).
Proof.
  intros Hl. destruct (accept_loop_total fuel l (zero_stats, zero_store) Hl) as [[stats store] E].
  exists stats, store. split; [exact E|].
  apply (accept_loop_ok fuel l (zero_stats, zero_store) (stats, store) 0); [|exact E].
  split; [apply zero_store_ok|done].
Qed.
End ServerThms.

Definition demo_day : list (incoming_t Queue.chan) :=
  [accept_failed; child None TestLibc.env0;
   child (Some {| Queue.inbox := [(opcode OP_LOGIN_REQ, [])]; Queue.outbox := [] |}) TestLibc.env0].

Lemma server_safe_witness : exists stats store,
  server_main 2 demo_day = Some (stats, store) /\ ok_map (store_map store) /\
  total_connections stats = 1.
Proof.
  destruct (server_safe 2 demo_day) as (stats & store & E & Hok & Ht); [repeat constructor|].
  exists stats, store. split; [exact E|]. split; [exact Hok|exact Ht].
Defined.
