(* ===== verification/System.v ===== *)
(** * The server's workers, interleaved

    Server.v runs the children of [main] one after the other.  Here any number
    of workers share the statistics and the store and take turns in any order;
    a step is the acceptance of a connection or one iteration of a worker's
    loop, that is, its reaction to one packet.  (Race.v and StoreRace.v go
    below that granularity: calls on different sessions are as good as atomic,
    two logins at once are not.) *)

From stdpp Require Import relations.
From S2P Require Export Server.

(** ** The system *)

(** Where a worker is in [run_session]: in the first loop, in the second, or
    returned. *)
Inductive phase_t :=
  | handshaking (v : game)
  | playing (sid : Z) (v : game)
  | finished.

Section System.
Context `{Libc} {C : Type} `{Channel C}.

Record worker := { wk_conn : C; wk_env : env; wk_phase : phase_t }.
Record system := { sys_shm : shm_t; sys_workers : list worker }.

Definition wk_world (k : worker) (shm : shm_t) : world C :=
  World (wk_conn k) (wk_env k) shm.1 shm.2.

(** The worker and the segments that a computation leaves. *)
Definition wk_after (p : phase_t) (w : world C) : worker * shm_t :=
  ({| wk_conn := w_conn w; wk_env := w_env w; wk_phase := p |}, (w_stats w, w_store w)).

(** One iteration of the loop that the worker is in. *)
Definition worker_step (k : worker) (shm : shm_t) : worker * shm_t :=
  match wk_phase k with
  | handshaking v =>
      let '(r, w) := handshake_step v (wk_world k shm) in
      wk_after (match r with
        | inl v => handshaking v
        | inr (Some (my_sid, st, hand)) => playing my_sid (st, hand)
        | inr None => finished
        end) w
  | playing my_sid v =>
      let '(r, w) := main_step my_sid v (wk_world k shm) in
      match r with
      | inl v => wk_after (playing my_sid v) w
      | inr tt => wk_after finished (close_conn w).2
      end
  | finished => (k, shm)
  end.

(** The child of [main] up to the first loop of [run_session]. *)
Definition start_worker (c : C) (e : env) (shm : shm_t) : worker * shm_t :=
  wk_after (handshaking (zero_state, zero_hand))
    (seed_rand (World c e (ipc_stats_inc_conn shm.1) shm.2)).2.

Inductive sys_step (s : system) : system -> Prop :=
  | sys_accept c e k shm :
      start_worker c e (sys_shm s) = (k, shm) ->
      sys_step s {| sys_shm := shm; sys_workers := sys_workers s ++ [k] |}
  | sys_work i k k' shm :
      sys_workers s !! i = Some k ->
      worker_step k (sys_shm s) = (k', shm) ->
      sys_step s {| sys_shm := shm; sys_workers := <[i := k']> (sys_workers s) |}.

Definition sys_start : system :=
  {| sys_shm := (zero_stats, zero_store); sys_workers := [] |}.

(** The session that a worker plays. *)
Definition plays (k : worker) : option Z :=
  match wk_phase k with playing sid _ => Some sid | _ => None end.

(** No two workers play the same session. *)
Definition exclusive (s : system) : Prop :=
  forall i j ki kj sid, sys_workers s !! i = Some ki -> sys_workers s !! j = Some kj ->
    plays ki = Some sid -> plays kj = Some sid -> i = j.

(** A run of the server, and one in which no session is played twice at any
    time. *)
Definition sys_reach : system -> Prop := rtc sys_step sys_start.
Definition sys_reach_excl : system -> Prop :=
  rtc (fun s s' => sys_step s s' /\ exclusive s') sys_start.
End System.
Arguments worker {_} _.
Arguments system {_} _.

(** ** Invariants of the interleaved workers *)

Section SystemThms.
Context `{LibcOK} {C : Type} `{ChannelOK C}.

(** What holds of a worker whatever the others do: in the handshake its game is
    the initial one, and the game that it plays can be played on. *)
Definition worker_ok (k : worker C) : Prop :=
  match wk_phase k with
  | handshaking v => v = (zero_state, zero_hand)
  | playing _ v => ready v.1 v.2
  | finished => True
  end.

(** The store follows a worker that is alone on its session. *)
Definition worker_synced (sm : gmap Z game) (k : worker C) : Prop :=
  match wk_phase k with playing sid v => synced sid v sm | _ => True end.

Lemma worker_synced_other sid sm sm' k :
  same_but sid sm sm' -> plays k <> Some sid -> worker_synced sm k -> worker_synced sm' k.
Proof.
  unfold worker_synced, plays. destruct (wk_phase k) as [v|sid' v|]; [done| |done].
  intros Hsb Hne (st0 & Hl & Hv). exists st0. split; [|done]. rewrite Hsb; [done|congruence].
Qed.

(** A main-loop step from a game that the store need not hold: two workers may
    play the same session. *)
Lemma main_step_any sid v (w : world C) :
  ready v.1 v.2 -> ok_map (store_map (w_store w)) ->
  let '(r, w') := main_step sid v w in
  ok_map (store_map (w_store w')) /\ same_but sid (store_map (w_store w)) (store_map (w_store w')) /\
  (forall v', r = inl v' -> ready v'.1 v'.2).
Proof.
  intros Hr Hok. destruct v as [st hand].
  destruct (main_step_at _ _ sid st hand Hr w (proj1 (here_now w))) as (v1 & Hst & Hv).
  destruct (main_step sid (st, hand) w) as [r w']. cbn [fst snd] in *.
  destruct Hst as (out & sm' & [_ <-] & [Hr1 _] & _ & Hs). splits.
  - destruct Hs as [[_ ->]| ->]; [done|by apply ok_map_put].
  - destruct Hs as [[_ ->]| ->]; [by intros k|apply same_but_put].
  - intros v' E. by rewrite (Hv v' E).
Qed.

(** One step of a worker: it touches the session that it then plays, or
    played, and no other. *)
Lemma worker_step_ok k (shm shm' : shm_t) k' :
  worker_ok k -> ok_map (store_map shm.2) -> worker_step k shm = (k', shm') ->
  worker_ok k' /\ ok_map (store_map shm'.2) /\
  (exists sid, same_but sid (store_map shm.2) (store_map shm'.2) /\
     (store_map shm'.2 = store_map shm.2 \/ plays k = Some sid \/ plays k' = Some sid)) /\
  (worker_synced (store_map shm.2) k -> worker_synced (store_map shm'.2) k').
Proof.
  intros Hk Hok. unfold worker_step, worker_ok, worker_synced, plays in *.
  destruct k as [c e [v|sid v|]]; cbn [wk_phase] in *.
  - subst v. pose proof (handshake_step_at _ _ Hok _ (proj1 (here_now (wk_world
      {| wk_conn := c; wk_env := e; wk_phase := handshaking (zero_state, zero_hand) |} shm)))) as Hh.
    destruct (handshake_step _ _) as [r w]. cbn [fst snd] in Hh.
    destruct Hh as (out & sm' & [_ <-] & Hh). intros [= <- <-]. cbn [wk_phase snd].
    destruct r as [v|[[[sid st] hand]|]].
    + destruct Hh as [-> E]. cbn in E. splits; [done|by rewrite E| |done].
      exists 0. rewrite E. by split; [|left].
    + destruct Hh as (Hr & Hsy & Hsb & Hok'). splits; [done|done| |done]. eauto.
    + cbn in Hh. splits; [done|by rewrite Hh| |done]. exists 0. rewrite Hh. by split; [|left].
  - set (w0 := wk_world _ _).
    pose proof (main_step_any sid v w0 Hk Hok) as Hm.
    pose proof (main_step_at _ (store_map (w_store w0)) sid v.1 v.2 Hk w0 (proj1 (here_now w0))) as Hat.
    destruct v as [st hand]. cbn [fst snd] in Hat.
    destruct (main_step sid (st, hand) w0) as [r w]. cbn [fst snd] in Hat.
    destruct Hm as (Hok' & Hsb & Hr). destruct Hat as (v1 & Hst & Hv).
    assert (synced sid (st, hand) (store_map shm.2) -> main_inv sid (sent (w_conn w0)) (store_map shm.2) v1 w) as Hsy.
    { intros Hsy. by eapply synced_stepped. }
    destruct r as [v'|[]]; intros [= <- <-]; cbn [wk_phase snd w_store close_conn on_conn].
    + splits; [by apply Hr|done|eauto|]. rewrite (Hv v' eq_refl). intros Hs.
      by destruct (Hsy Hs) as (? & ? & [_ <-] & _ & ? & _).
    + splits; [done|done|eauto|done].
  - intros [= <- <-]. splits; [done..| |done]. exists 0. by split; [|left].
Qed.

(** *** Every reachable system *)

Record sys_ok (s : system C) : Prop := {
  so_map : ok_map (store_map (sys_shm s).2);
  so_workers : Forall worker_ok (sys_workers s);
  so_count : total_connections (sys_shm s).1 = u64 (Z.of_nat (length (sys_workers s)));
}.

Lemma start_worker_shm (c : C) e shm (k : worker C) shm' :
  start_worker c e shm = (k, shm') ->
  wk_phase k = handshaking (zero_state, zero_hand) /\ shm' = (ipc_stats_inc_conn shm.1, shm.2).
Proof.
  unfold start_worker, seed_rand, on_env. cbn [w_env]. case_match. by intros [= <- <-].
Qed.

Lemma worker_step_count (k k' : worker C) shm shm' :
  worker_step k shm = (k', shm') -> total_connections shm'.1 = total_connections shm.1.
Proof.
  unfold worker_step. destruct (wk_phase k) as [v|sid v|].
  - assert (frames same_connections (handshake_step v)) as Hf
      by (apply frames_handshake_step; apply _ || apply same_connections_calls).
    specialize (Hf (wk_world k shm)). destruct (handshake_step _ _) as [r w].
    intros [= _ <-]. exact Hf.
  - assert (frames same_connections (main_step sid v)) as Hf
      by (apply frames_main_step; apply _ || apply same_connections_calls).
    specialize (Hf (wk_world k shm)). destruct (main_step _ _ _) as [[v'|[]] w];
      intros [= _ <-]; exact Hf.
  - by intros [= _ <-].
Qed.

Lemma sys_step_ok s s' : sys_ok s -> sys_step s s' -> sys_ok s'.
Proof.
  intros [Hm Hw Hc] Hs. destruct Hs as [c e k shm Hk|i k k' shm Hi Hk].
  - apply start_worker_shm in Hk as [Hp ->]. split; cbn [sys_shm sys_workers fst snd].
    + done.
    + apply Forall_app. split; [done|]. apply Forall_singleton. unfold worker_ok. by rewrite Hp.
    + rewrite length_app. cbn [length ipc_stats_inc_conn total_connections]. rewrite Hc.
      unfold u64. zlia.
  - destruct (worker_step_ok k _ _ _ (Forall_lookup_1 _ _ _ _ Hw Hi) Hm Hk) as (Hk' & Hm' & _).
    split; cbn [sys_shm sys_workers].
    + done.
    + by apply Forall_insert.
    + by rewrite length_insert, (worker_step_count _ _ _ _ Hk).
Qed.

Lemma sys_reach_ok s : sys_reach s -> sys_ok s.
Proof.
  intros Hs. unfold sys_reach in Hs.
  enough (sys_ok (sys_start (C:=C))) as Hok0 by (by induction Hs; eauto using sys_step_ok).
  split; [apply zero_store_ok|constructor|done].
Qed.

(** Of a run in which no session is played twice. *)
Definition sys_synced (s : system C) : Prop :=
  Forall (worker_synced (store_map (sys_shm s).2)) (sys_workers s).

Lemma sys_step_synced s s' :
  sys_ok s -> exclusive s -> exclusive s' -> sys_synced s -> sys_step s s' -> sys_synced s'.
Proof.
  intros [Hm Hw _] Hex Hex' Hsy Hs. unfold sys_synced in *.
  destruct Hs as [c e k shm Hk|i k k' shm Hi Hk]; cbn [sys_shm sys_workers] in *.
  - apply start_worker_shm in Hk as [Hp ->]. apply Forall_app. split; [done|].
    apply Forall_singleton. unfold worker_synced. by rewrite Hp.
  - pose proof (lookup_lt_Some _ _ _ Hi) as Hlt.
    destruct (worker_step_ok k _ _ _ (Forall_lookup_1 _ _ _ _ Hw Hi) Hm Hk)
      as (_ & _ & (sid & Hsb & Hcase) & Hsy').
    apply Forall_lookup_2. intros j kj Hj. destruct (decide (i = j)) as [<-|Hne].
    { rewrite list_lookup_insert_eq in Hj by done. injection Hj as <-.
      apply Hsy'. exact (Forall_lookup_1 _ _ _ _ Hsy Hi). }
    pose proof Hj as Hj'. rewrite list_lookup_insert_ne in Hj by done.
    pose proof (Forall_lookup_1 _ _ _ _ Hsy Hj) as Hsj. destruct Hcase as [E|Hcase].
    { by rewrite E. }
    eapply worker_synced_other; [exact Hsb| |exact Hsj]. intros Hp. apply Hne.
    destruct Hcase as [Hpk|Hpk].
    + by eapply (Hex i j).
    + by apply (Hex' i j k' kj sid); cbn [sys_workers];
        [rewrite list_lookup_insert_eq|..].
Qed.

Lemma sys_reach_excl_ok s : sys_reach_excl s -> sys_ok s /\ exclusive s /\ sys_synced s.
Proof.
  intros Hs. unfold sys_reach_excl in Hs.
  assert (sys_ok sys_start /\ exclusive (C:=C) sys_start /\ sys_synced sys_start) as Hok0.
  { splits; [|by intros []|constructor]. split; [apply zero_store_ok|constructor|done]. }
  revert Hok0. revert Hs. generalize (sys_start (C:=C)). intros s0 Hs.
  induction Hs as [|s1 s2 s3 [Hst Hex] _ IH]; [done|]. intros (Hok & He & Hsy). apply IH.
  splits; [by eapply sys_step_ok|done|]. by eapply sys_step_synced.
Qed.

(** *** Two workers on one session *)

Lemma worker_step_playing (k k' : worker C) shm shm' sid v :
  wk_phase k = playing sid v -> ready v.1 v.2 -> worker_step k shm = (k', shm') ->
  store_map shm'.2 = store_map shm.2 \/ exists v', store_map shm'.2 = put sid v' (store_map shm.2).
Proof.
  intros Hp Hr. unfold worker_step. rewrite Hp. destruct v as [st hand].
  destruct (main_step_at _ _ sid st hand Hr (wk_world k shm) (proj1 (here_now _)))
    as (v1 & (out & sm' & [_ <-] & _ & _ & Hs) & _).
  destruct (main_step sid (st, hand) _) as [[v'|[]] w]; intros [= _ <-]; cbn [fst snd] in *;
    (destruct Hs as [[_ ->]| ->]; [by left|right; by exists v1]).
Qed.

Lemma worker_step_play_card (k : worker C) shm sid v b :
  wk_phase k = playing sid v -> waiting v -> game_over v.1 = 0 ->
  (ch_recv 1024 (wk_conn k)).1 = Some (opcode OP_PLAY_CARD, [b]) ->
  store_map (worker_step k shm).2.2 =
    put sid ((handle_play_card v.1 v.2 true (byte.unsigned b)).2, v.2) (store_map shm.2).
Proof.
  intros Hp Hw Ho Hr. unfold worker_step. rewrite Hp.
  destruct (main_recv sid v (wk_world k shm) _ _ _ _ Hw Hr (proj1 (here_now _)))
    as (w1 & Hat & ->). destruct v as [st hand]. cbn [fst snd].
  pose proof (on_play_card_at _ _ sid [b] st hand Hw Ho w1 Hat) as Hc.
  replace (dispatch sid OP_PLAY_CARD [b] st hand w1) with (on_play_card sid [b] st hand w1).
  2:{ unfold dispatch. destruct (ready_over _ (proj1 Hw)) as [Hov _]. cbn in Hov, Ho.
      by rewrite Hov, Ho. }
  change (Z.of_nat (length [b]) =? 1) with true in Hc. cbv zeta iota in Hc.
  replace (hand_idx (dec play_req_codec [b])) with (byte.unsigned b) in Hc
    by (symmetry; apply play_req_byte).
  destruct (on_play_card sid [b] st hand w1) as [v' w']. unfold wk_after. cbn [fst snd] in *.
  by destruct Hc as ([-> _] & _ & ->).
Qed.

(** *** A session is a run of its worker *)

Definition worker_runs (x y : worker C * shm_t) : Prop := worker_step x.1 x.2 = y.

Lemma worker_runs_handshaking v w :
  worker_runs (wk_after (handshaking v) w)
    (let '(r, w) := handshake_step v w in
     wk_after (match r with
       | inl v => handshaking v
       | inr (Some (my_sid, st, hand)) => playing my_sid (st, hand)
       | inr None => finished
       end) w).
Proof. by destruct w. Qed.

Lemma worker_runs_playing sid v w :
  worker_runs (wk_after (playing sid v) w)
    (let '(r, w) := main_step sid v w in
     match r with
     | inl v => wk_after (playing sid v) w
     | inr tt => wk_after finished (close_conn w).2
     end).
Proof. by destruct w. Qed.

Lemma session_runs fuel c e shm (w : world C) :
  run_session fuel (World c e (ipc_stats_inc_conn shm.1) shm.2) = Some (tt, w) ->
  exists k, rtc worker_runs (start_worker c e shm) (k, (w_stats w, w_store w)) /\
    wk_phase k = finished.
Proof.
  unfold run_session, start_worker. generalize (seed_rand (World c e (ipc_stats_inc_conn shm.1) shm.2)).2.
  intros w0. set (x0 := wk_after _ w0). unfold session_loops, mbind, StO_bind.
  destruct (loopM handshake_step _ _ _) as [[r w1]|] eqn:E1; [|done].
  apply (loopM_triple (fun v w => rtc worker_runs x0 (wk_after (handshaking v) w))
    (fun r w => rtc worker_runs x0 (wk_after (match r with
       | Some (sid, st, hand) => playing sid (st, hand) | None => finished end) w))) in E1.
  - destruct r as [[[sid st] hand]|].
    + destruct (loopM (main_step sid) _ _ _) as [[[] w2]|] eqn:E2; [|done].
      apply (loopM_triple (fun v w => rtc worker_runs x0 (wk_after (playing sid v) w))
        (fun _ w => rtc worker_runs x0 (wk_after finished (close_conn w).2))) in E2; [|..|done].
      * intros [= <-]. by eexists.
      * intros v w3 Hr. pose proof (worker_runs_playing sid v w3) as Hw.
        destruct (main_step sid v w3) as [[v'|[]] w4]; by eapply rtc_r.
    + intros [= <-]. by eexists.
  - intros v w2 Hr. pose proof (worker_runs_handshaking v w2) as Hw.
    destruct (handshake_step v w2) as [[v'|[[[sid st] hand]|]] w3]; by eapply rtc_r.
  - done.
Qed.

Lemma runs_lift i (x y : worker C * shm_t) s :
  rtc worker_runs x y -> sys_workers s !! i = Some x.1 -> sys_shm s = x.2 ->
  rtc sys_step s {| sys_shm := y.2; sys_workers := <[i := y.1]> (sys_workers s) |}.
Proof.
  intros Hr. revert s. induction Hr as [x|x y z Hxy _ IH]; intros [shm ks] Hi Hs; cbn in Hi, Hs.
  - subst shm. cbn [sys_workers]. by rewrite list_insert_id.
  - destruct y as [k' shm']. unfold worker_runs in Hxy.
    pose proof (lookup_lt_Some _ _ _ Hi) as Hlt. eapply rtc_l.
    + eapply (sys_work _ i x.1 k' shm'); [exact Hi|]. by cbn; rewrite Hs.
    + cbn [sys_workers]. rewrite <- (list_insert_insert_eq ks i z.1 k').
      apply (IH {| sys_shm := shm'; sys_workers := <[i := k']> ks |}); [|done].
      by apply list_lookup_insert_eq.
Qed.

Lemma accept_loop_runs fuel l shm shm' (s : system C) :
  accept_loop fuel l shm = Some shm' -> sys_shm s = shm ->
  Forall (fun k => wk_phase k = finished) (sys_workers s) ->
  exists s', rtc sys_step s s' /\ sys_shm s' = shm' /\
    Forall (fun k => wk_phase k = finished) (sys_workers s') /\
    length (sys_workers s') = (length (sys_workers s) + served l)%nat.
Proof.
  revert shm s. induction l as [|x l IH]; intros shm s E Hs Hf; cbn [accept_loop served] in *.
  { exists s. splits; [done|congruence|done|lia]. }
  destruct (accept_step fuel x shm) as [shm1|] eqn:E1; [|done]. cbn [mbind option_bind] in E.
  destruct x as [| |[c|] e]; cbn [accept_step run_child] in E1;
    try (injection E1 as <-; by eapply IH).
  destruct (run_session _ _) as [[[] w]|] eqn:Er; [|done]. injection E1 as <-.
  apply session_runs in Er as (k & Hr & Hk). destruct s as [shm0 ks]. cbn in Hs. subst shm0.
  destruct (start_worker c e shm) as [k0 shm0] eqn:E0.
  pose proof (runs_lift (length ks) (k0, shm0) _ {| sys_shm := shm0; sys_workers := ks ++ [k0] |}
    Hr) as Hl. cbn [sys_workers sys_shm fst snd] in Hl, Hf |- *.
  rewrite lookup_app_r, Nat.sub_diag in Hl by done. specialize (Hl eq_refl eq_refl).
  rewrite insert_app_r_alt, Nat.sub_diag in Hl by done. cbn [insert list_insert] in Hl.
  destruct (IH _ {| sys_shm := (w_stats w, w_store w); sys_workers := ks ++ [k] |} E eq_refl)
    as (s' & Hr' & Hs' & Hf' & Hn).
  { apply Forall_app. split; [done|]. by apply Forall_singleton. }
  exists s'. splits; [|done|done|].
  - eapply rtc_l; [by eapply (sys_accept _ c e k0 shm0)|]. cbn [sys_workers].
    etransitivity; [exact Hl|exact Hr'].
  - rewrite Hn. cbn [sys_workers]. rewrite length_app. cbn. lia.
Qed.

(** ** Theorems *)


(** Without that proviso the store still only holds games that can be played
    on, and so do the workers, however the clients resume each other's
    sessions. *)
Theorem workers_safe (s : system C) :
  sys_reach s ->
  ok_map (store_map (sys_shm s).2) /\
  total_connections (sys_shm s).1 = u64 (Z.of_nat (length (sys_workers s))) /\
  forall i k sid v, sys_workers s !! i = Some k -> wk_phase k = playing sid v -> ready v.1 v.2.
Proof.
  intros Hs. apply sys_reach_ok in Hs as [Hm Hw Hc]. splits; [done|done|].
  intros i k sid v Hi Hp. pose proof (Forall_lookup_1 _ _ _ _ Hw Hi) as Hk.
  unfold worker_ok in Hk. by rewrite Hp in Hk.
Qed.

(** C28. What goes wrong with it: a session that is resumed while an older
    connection still plays it is played by two workers with a game each, and
    the next card on the old connection replaces in the store whatever the new
    one has reached by the old connection's game. *)
Theorem takeover_rolls_back (ka kb : worker C) shm sid va vb b :
  wk_phase ka = playing sid va -> waiting va -> game_over va.1 = 0 ->
  (ch_recv 1024 (wk_conn ka)).1 = Some (opcode OP_PLAY_CARD, [b]) ->
  wk_phase kb = playing sid vb -> ready vb.1 vb.2 ->
  store_map (worker_step ka (worker_step kb shm).2).2.2 =
    put sid ((handle_play_card va.1 va.2 true (byte.unsigned b)).2, va.2) (store_map shm.2).
Proof.
  intros Hpa Hwa Hoa Hra Hpb Hrb.
  rewrite (worker_step_play_card ka _ sid va b Hpa Hwa Hoa Hra).
  destruct (worker_step kb shm) as [kb' shm1] eqn:Eb.
  destruct (worker_step_playing kb kb' shm shm1 sid vb Hpb Hrb Eb) as [E|[v' E]];
    cbn [snd]; rewrite E; [done|apply put_put].
Qed.

(** Running the children one after the other, as [server_main] does, is one
    of the interleavings: the same segments are reached by the system's steps,
    with one worker per session served, all of them ended. *)
Theorem serial_is_schedule fuel l shm :
  server_main fuel l = Some shm ->
  exists s : system C, sys_reach s /\ sys_shm s = shm /\
    Forall (fun k => wk_phase k = finished) (sys_workers s) /\
    length (sys_workers s) = served l.
Proof.
  intros E. destruct (accept_loop_runs fuel l _ shm sys_start E eq_refl) as (s & Hs); [constructor|].
  by exists s.
Qed.
End SystemThms.

(** ** Witnesses *)

(** A client that logs in. *)
Definition login_chan : Queue.chan :=
  {| Queue.inbox := [(opcode OP_LOGIN_REQ, [])]; Queue.outbox := [] |}.

Lemma exclusive_single (k : worker Queue.chan) shm :
  exclusive {| sys_shm := shm; sys_workers := [k] |}.
Proof. intros [|i] [|j] ki kj sid; cbn; try done; by rewrite ?lookup_nil. Qed.

Lemma login_system : exists (s : system Queue.chan) k sid v,
  sys_reach_excl s /\ sys_workers s !! 0%nat = Some k /\ wk_phase k = playing sid v.
Proof.
  destruct (start_worker login_chan TestLibc.env0 (zero_stats, zero_store)) as [k0 shm0] eqn:E0.
  pose proof (sys_accept sys_start login_chan TestLibc.env0 k0 shm0 E0) as Hs0.
  assert (exists e, wk_world k0 shm0 = World login_chan e
    (ipc_stats_inc_conn zero_stats) zero_store /\
    wk_phase k0 = handshaking (zero_state, zero_hand)) as (e & Hw & Hp).
  { unfold start_worker, seed_rand, on_env in E0. cbn [w_env] in E0. case_match.
    injection E0 as <- <-. by eexists. }
  set (w0 := World login_chan e (ipc_stats_inc_conn zero_stats) zero_store) in Hw.
  assert ((ch_recv 1024 (w_conn w0)).1 = Some (opcode OP_LOGIN_REQ, [])) as Hr by reflexivity.
  destruct (handshake_recv (zero_state, zero_hand) w0 (opcode OP_LOGIN_REQ) [] _ _ _ Hr (here_now w0))
    as (w1 & Hat & E & _). specialize (E eq_refl). cbn [fst snd] in E.
  pose proof (login_at _ _ _ w1 Hat) as Hl. change (free_slots (w_store w0)) with (free_slots zero_store) in Hl.
  destruct (worker_step k0 shm0) as [k1 shm1] eqn:E1. pose proof E1 as E1'.
  unfold worker_step in E1. rewrite Hp, Hw, E in E1.
  destruct (handshake_login zero_state zero_hand w1) as [r w']. cbn [fst snd] in Hl.
  replace (free_slots zero_store =? 0)%nat with false in Hl by (by vm_compute).
  destruct Hl as (sid & st & hand & sm' & (-> & _) & _).
  exists {| sys_shm := shm1; sys_workers := [k1] |}, k1, sid, (st, hand).
  splits; [|done|by injection E1 as <- <-].
  eapply rtc_l; [split; [exact Hs0|apply exclusive_single]|].
  apply rtc_once. split; [|apply exclusive_single].
  by apply (sys_work {| sys_shm := shm0; sys_workers := [k0] |} 0 k0 k1 shm1).
Qed.


Lemma workers_safe_witness : exists (s : system Queue.chan) k sid v,
  sys_workers s !! 0%nat = Some k /\ wk_phase k = playing sid v /\ ready v.1 v.2.
Proof.
  destruct login_system as (s & k & sid & v & Hs & Hk & Hp). exists s, k, sid, v.
  assert (sys_reach s) as Hs' by (eapply rtc_subrel; [|exact Hs]; by intros ?? []).
  destruct (workers_safe s Hs') as (_ & _ & Hi). splits; [done|done|].
  exact (Hi 0%nat k sid v Hk Hp).
Defined.

(** Two connections on session 42; the newer one ends its turn, the older one
    plays a card. *)
Definition on_session42 (p : Z * list byte) : worker Queue.chan :=
  {| wk_conn := {| Queue.inbox := [p]; Queue.outbox := [] |}; wk_env := TestLibc.env0;
     wk_phase := playing 42 SessionDemo.game0 |}.

Lemma takeover_rolls_back_witness :
  let old := on_session42 (opcode OP_PLAY_CARD, [Byte.x00]) in
  let new := on_session42 (opcode OP_END_TURN, []) in
  store_map (worker_step old (worker_step new (zero_stats, SessionDemo.store0)).2).2.2 =
    put 42 ((handle_play_card SessionDemo.game0.1 SessionDemo.game0.2 true 0).2,
            SessionDemo.game0.2) (store_map SessionDemo.store0).
Proof.
  destruct SessionDemo.game0_waiting as [Hw Ho].
  exact (takeover_rolls_back (on_session42 (opcode OP_PLAY_CARD, [Byte.x00]))
    (on_session42 (opcode OP_END_TURN, [])) (zero_stats, SessionDemo.store0) 42
    SessionDemo.game0 SessionDemo.game0 Byte.x00 eq_refl Hw Ho eq_refl eq_refl
    SessionDemo.game0_ready).
Defined.

Lemma serial_is_schedule_witness : exists (s : system Queue.chan),
  sys_reach s /\ length (sys_workers s) = 1%nat.
Proof.
  destruct (accept_loop_total 2 demo_day (zero_stats, zero_store)) as [shm E];
    [repeat constructor|].
  destruct (serial_is_schedule 2 demo_day shm E) as (s & Hs & _ & _ & Hn).
  exists s. split; [exact Hs|exact Hn].
Defined.
