(* ===== verification/Net.v ===== *)
(** * Connections

    src/common/net.c and net.h: reading and writing exactly [n] bytes over a
    TLS session or a plain descriptor.  OpenSSL and the system calls are
    parameters, the class [NetIO]; what the code relies on of them is stated
    as laws of a session, [ssl_reads] and [ssl_writes], and a concrete
    transport that obeys the laws is [TestNet]. *)

From S2P Require Export Prelude.

(** ** OpenSSL and the system calls *)

Class NetIO := {
  nio : Type;
  SSL_t : Type;
  SSL_CTX : Type;
  (** [SSL_read(ssl, p, num)]: the result and the bytes stored at [p]. *)
  SSL_read : SSL_t -> Z -> St nio (Z * list byte);
  (** [SSL_write(ssl, p, num)] of the [num] bytes at [p]. *)
  SSL_write : SSL_t -> list byte -> St nio Z;
  SSL_get_error : SSL_t -> Z -> nio -> Z;
  SSL_shutdown : SSL_t -> nio -> nio;
  SSL_free : SSL_t -> nio -> nio;
  read : Z -> Z -> St nio (Z * list byte);
  write : Z -> list byte -> St nio Z;
  errno : nio -> Z;
  close : Z -> nio -> nio;
}.

Definition SSL_ERROR_WANT_READ : Z := 2.
Definition SSL_ERROR_WANT_WRITE : Z := 3.
Definition EINTR : Z := 4.

Definition want (err : Z) : bool :=
  (err =? SSL_ERROR_WANT_READ) || (err =? SSL_ERROR_WANT_WRITE).

(** ** The code *)

Section Code.
Context `{NetIO}.

Record connection_t := {
  conn_fd : Z;
  conn_ssl : option SSL_t;
  conn_ctx : option SSL_CTX;
}.

Definition conn_init (fd : Z) (ssl : option SSL_t) : connection_t :=
  {| conn_fd := fd; conn_ssl := ssl; conn_ctx := None |}.

Definition conn_close (c : connection_t) (w : nio) : connection_t * nio :=
  let '(c, w) :=
    match conn_ssl c with
    | Some ssl => ({| conn_fd := conn_fd c; conn_ssl := None; conn_ctx := conn_ctx c |},
                   SSL_free ssl (SSL_shutdown ssl w))
    | None => (c, w)
    end in
  if 0 <=? conn_fd c then
    ({| conn_fd := -1; conn_ssl := conn_ssl c; conn_ctx := conn_ctx c |}, close (conn_fd c) w)
  else (c, w).

(** The variables of a reading loop: [left] (here [lft]), the bytes stored so far, and the
    world.  The result is the return value with the bytes stored. *)
Definition rvars : Type := Z * list byte * nio.
Definition rresult : Type := (Z * list byte) * nio.

(** [on_fail r] is what the function returns when [SSL_read] fails with [r]:
    -1 in [conn_readn], [r] itself in [ssl_readn]. *)
Definition ssl_read_step (on_fail : Z -> Z) (ssl : SSL_t) (n : Z) (v : rvars) : rvars + rresult :=
  let '(lft, buf, w) := v in
  if 0 <? lft then
    let '((r, bs), w) := SSL_read ssl (i32 lft) w in
    if r <=? 0 then
      let err := SSL_get_error ssl r w in
      if want err then inl (lft, buf, w) else inr ((on_fail r, buf), w)
    else inl (u64 (lft - r), buf ++ bs, w)
  else inr ((n, buf), w).

Definition read_step (fd : Z) (n : Z) (v : rvars) : rvars + rresult :=
  let '(lft, buf, w) := v in
  if 0 <? lft then
    let '((r, bs), w) := read fd lft w in
    if r =? 0 then inr ((n - lft, buf), w) else
    if r <? 0 then
      if errno w =? EINTR then inl (lft, buf, w) else inr ((-1, buf), w)
    else inl (u64 (lft - r), buf ++ bs, w)
  else inr ((n, buf), w).

Definition readn (fuel : nat) (fd : Z) (n : Z) : StO nio (Z * list byte) := fun w =>
  loop (read_step fd n) fuel (n, [], w).

Definition ssl_readn (fuel : nat) (ssl : SSL_t) (n : Z) : StO nio (Z * list byte) := fun w =>
  loop (ssl_read_step (fun r => r) ssl n) fuel (n, [], w).

Definition conn_readn (fuel : nat) (c : connection_t) (n : Z) : StO nio (Z * list byte) :=
  match conn_ssl c with
  | Some ssl => fun w => loop (ssl_read_step (fun _ => -1) ssl n) fuel (n, [], w)
  | None => readn fuel (conn_fd c) n
  end.

(** The variables of a writing loop: the bytes from [p] to the end of the
    buffer ([left] is their number) and the world. *)
Definition ssl_write_step (ssl : SSL_t) (n : Z) (v : list byte * nio) :
    list byte * nio + Z * nio :=
  let '(p, w) := v in
  if 0 <? Z.of_nat (length p) then
    let '(k, w) := SSL_write ssl p w in
    if k <=? 0 then
      let err := SSL_get_error ssl k w in
      if want err then inl (p, w) else inr (-1, w)
    else inl (drop (Z.to_nat k) p, w)
  else inr (n, w).

Definition write_step (fd : Z) (n : Z) (v : list byte * nio) : list byte * nio + Z * nio :=
  let '(p, w) := v in
  if 0 <? Z.of_nat (length p) then
    let '(k, w) := write fd p w in
    if k <? 0 then
      if errno w =? EINTR then inl (p, w) else inr (-1, w)
    else inl (drop (Z.to_nat k) p, w)
  else inr (n, w).

Definition writen (fuel : nat) (fd : Z) (buf : list byte) : StO nio Z := fun w =>
  loop (write_step fd (Z.of_nat (length buf))) fuel (buf, w).

Definition ssl_writen (fuel : nat) (ssl : SSL_t) (buf : list byte) : StO nio Z := fun w =>
  loop (ssl_write_step ssl (Z.of_nat (length buf))) fuel (buf, w).

Definition conn_writen (fuel : nat) (c : connection_t) (buf : list byte) : StO nio Z :=
  match conn_ssl c with
  | Some ssl => ssl_writen fuel ssl buf
  | None => writen fuel (conn_fd c) buf
  end.
End Code.

(** ** What OpenSSL promises of a session

    [incoming w] are the decrypted bytes that the session will still deliver,
    [outgoing w] those it has accepted for the peer, and [stalls w] bounds how
    often it will still ask for a retry before it makes progress. *)

Record ssl_reads `{NetIO} (ssl : SSL_t) (incoming outgoing : nio -> list byte)
    (stalls : nio -> nat) : Prop := {
  sr_data : forall n w r bs w', 0 < n -> SSL_read ssl n w = ((r, bs), w') -> 0 < r ->
    r <= n /\ Z.of_nat (length bs) = r /\ incoming w = bs ++ incoming w' /\
    outgoing w' = outgoing w;
  sr_none : forall n w r bs w', 0 < n -> SSL_read ssl n w = ((r, bs), w') -> r <= 0 ->
    incoming w' = incoming w /\ outgoing w' = outgoing w /\
    if want (SSL_get_error ssl r w') then (stalls w' < stalls w)%nat else incoming w = [];
}.

Record ssl_writes `{NetIO} (ssl : SSL_t) (incoming outgoing : nio -> list byte)
    (stalls : nio -> nat) : Prop := {
  sw_data : forall p w r w', p <> [] -> SSL_write ssl p w = (r, w') -> 0 < r ->
    r <= Z.of_nat (length p) /\ outgoing w' = outgoing w ++ take (Z.to_nat r) p /\
    incoming w' = incoming w;
  sw_none : forall p w r w', p <> [] -> SSL_write ssl p w = (r, w') -> r <= 0 ->
    incoming w' = incoming w /\ outgoing w' = outgoing w /\
    want (SSL_get_error ssl r w') = true /\ (stalls w' < stalls w)%nat;
}.

(** ** A concrete transport

    A script of what successive reads find: a TLS record, or nothing yet
    (receive timeout).  An exhausted script is a closed connection. *)

Module TestNet.
Inductive rx := Rec (bs : list byte) | Wait.
Record world := { inq : list rx; outq : list byte; err : Z }.

Definition test_read (n : Z) (w : world) : (Z * list byte) * world :=
  match inq w with
  | [] => ((0, []), {| inq := []; outq := outq w; err := 6 |})
  | Wait :: q => ((-1, []), {| inq := q; outq := outq w; err := 2 |})
  | Rec bs :: q =>
      let got := take (Z.to_nat n) bs in
      let rest := drop (Z.to_nat n) bs in
      let q := match rest with [] => q | _ => Rec rest :: q end in
      match got with
      | [] => ((-1, []), {| inq := q; outq := outq w; err := 2 |})
      | _ => ((Z.of_nat (length got), got), {| inq := q; outq := outq w; err := 0 |})
      end
  end.

Definition test_write (p : list byte) (w : world) : Z * world :=
  (Z.of_nat (length p), {| inq := inq w; outq := outq w ++ p; err := 0 |}).

#[global] Instance net : NetIO := {|
  nio := world;
  SSL_t := unit;
  SSL_CTX := unit;
  SSL_read _ := test_read;
  SSL_write _ := test_write;
  SSL_get_error _ r w := err w;
  SSL_shutdown _ w := w;
  SSL_free _ w := w;
  read _ := test_read;
  write _ := test_write;
  errno := err;
  close _ w := w;
|}.

Definition rx_bytes (x : rx) : list byte := match x with Rec bs => bs | Wait => [] end.
Definition incoming (w : world) : list byte := concat (rx_bytes <$> inq w).
Definition stalls (w : world) : nat := length (inq w).
End TestNet.
