(* ===== verification/NetThms.v ===== *)
(** * Exact reads and writes over a session

    The loops of Net.v against the laws of a TLS session: they end, and move
    exactly the bytes asked for; and the one way in which they do not end. *)

From S2P Require Export Net.

(** ** The loops *)

Section Reads.
Context `{NetIO} (ssl : SSL_t) (incoming outgoing : nio -> list byte) (stalls : nio -> nat).
Context (Hok : ssl_reads ssl incoming outgoing stalls).
Context (on_fail : Z -> Z) (n : Z) (w0 : nio).

(** Between two iterations the bytes stored and the bytes left add up to what
    the session had to deliver. *)
Definition reading (v : rvars) : Prop :=
  let '(lft, buf, w) := v in
  0 <= lft < 2147483648 /\ n = lft + Z.of_nat (length buf) /\
  incoming w0 = buf ++ incoming w /\ outgoing w = outgoing w0.

Lemma ssl_read_step_reading v v' :
  reading v -> ssl_read_step on_fail ssl n v = inl v' -> reading v'.
Proof.
  destruct v as [[lft buf] w]. intros (Hl & Hn & Hin & Hout) Hs.
  unfold ssl_read_step in Hs. destruct (Z.ltb_spec 0 lft) as [H0|]; [|done].
  rewrite i32_id in Hs by mach_lia.
  destruct (SSL_read ssl lft w) as [[r bs] w'] eqn:E.
  destruct (Z.leb_spec r 0) as [Hr|Hr].
  - destruct (sr_none _ _ _ _ Hok _ _ _ _ _ H0 E Hr) as (Hi & Ho & _).
    destruct (want _); simplify_eq. cbn. rewrite Hi, Ho. auto.
  - destruct (sr_data _ _ _ _ Hok _ _ _ _ _ H0 E Hr) as (Hle & Hbs & Hi & Ho).
    simplify_eq. cbn. rewrite u64_id by mach_lia. rewrite length_app, Hin, Hi, Ho.
    splits; [lia|lia|lia|by rewrite app_assoc|done].
Qed.

(** Progress: a byte is stored, or a retry is used up. *)
Lemma ssl_read_step_progress v v' :
  reading v -> ssl_read_step on_fail ssl n v = inl v' ->
  (Z.to_nat v'.1.1 < Z.to_nat v.1.1)%nat \/
  Z.to_nat v'.1.1 = Z.to_nat v.1.1 /\ (stalls v'.2 < stalls v.2)%nat.
Proof.
  destruct v as [[lft buf] w]. intros (Hl & Hn & Hin & Hout) Hs.
  unfold ssl_read_step in Hs. destruct (Z.ltb_spec 0 lft) as [Hpos|]; [|done].
  rewrite i32_id in Hs by mach_lia.
  destruct (SSL_read ssl lft w) as [[r bs] w'] eqn:E.
  destruct (Z.leb_spec r 0) as [Hr|Hr].
  - destruct (sr_none _ _ _ _ Hok _ _ _ _ _ Hpos E Hr) as (_ & _ & Hw).
    destruct (want _); simplify_eq. right. done.
  - destruct (sr_data _ _ _ _ Hok _ _ _ _ _ Hpos E Hr) as (Hle & _).
    simplify_eq. cbn. left. rewrite u64_id by mach_lia. lia.
Qed.

Lemma ssl_read_step_result v rv bs w :
  reading v -> ssl_read_step on_fail ssl n v = inr ((rv, bs), w) ->
  (rv = n /\ Z.of_nat (length bs) = n /\ incoming w0 = bs ++ incoming w /\
     outgoing w = outgoing w0) \/
  (Z.of_nat (length (incoming w0)) < n /\ outgoing w = outgoing w0 /\
     exists r, r <= 0 /\ rv = on_fail r).
Proof.
  destruct v as [[lft buf] wv]. intros (Hl & Hn & Hin & Hout) Hs.
  unfold ssl_read_step in Hs. destruct (Z.ltb_spec 0 lft) as [Hpos|].
  - rewrite i32_id in Hs by mach_lia.
    destruct (SSL_read ssl lft wv) as [[r bs'] w'] eqn:E.
    destruct (Z.leb_spec r 0) as [Hr|Hr]; [|done].
    destruct (sr_none _ _ _ _ Hok _ _ _ _ _ Hpos E Hr) as (Hi & Ho & Hw).
    destruct (want _); simplify_eq. right. splits; [|congruence|by exists r].
    rewrite Hin, Hw, app_nil_r. lia.
  - simplify_eq. left. splits; [done|lia|done|done].
Qed.
(** The loop ends; with a full buffer when the session delivers [n] bytes, and
    with [on_fail] otherwise. *)
Lemma ssl_read_loop :
  0 <= n < 2147483648 ->
  exists fuel rv bs w,
    loop (ssl_read_step on_fail ssl n) fuel (n, [], w0) = Some ((rv, bs), w) /\
    ((rv = n /\ Z.of_nat (length bs) = n /\ incoming w0 = bs ++ incoming w /\
        outgoing w = outgoing w0) \/
     (Z.of_nat (length (incoming w0)) < n /\ outgoing w = outgoing w0 /\
        exists r, r <= 0 /\ rv = on_fail r)).
Proof.
  intros Hn. assert (reading (n, [], w0)) as Hr by (cbn; splits; done || lia).
  destruct (loop_total_lex (ssl_read_step on_fail ssl n) reading
    (fun v => Z.to_nat v.1.1) (fun v => stalls v.2) (n, [], w0)) as (fuel & [[rv bs] w] & Hl).
  - intros v v' Hv Hs. split; [by eapply ssl_read_step_reading|].
    by apply ssl_read_step_progress.
  - done.
  - exists fuel, rv, bs, w. split; [done|].
    apply (loop_inv (ssl_read_step on_fail ssl n) reading (fun r =>
      (r.1.1 = n /\ Z.of_nat (length r.1.2) = n /\ incoming w0 = r.1.2 ++ incoming r.2 /\
        outgoing r.2 = outgoing w0) \/
      (Z.of_nat (length (incoming w0)) < n /\ outgoing r.2 = outgoing w0 /\
        exists r', r' <= 0 /\ r.1.1 = on_fail r'))
      fuel (n, [], w0) (rv, bs, w)); [| |done|done].
    + intros v v' Hv Hs. by eapply ssl_read_step_reading.
    + intros v [[rv' bs'] w'] Hv Hs. by eapply ssl_read_step_result.
Qed.
End Reads.

Section Writes.
Context `{NetIO} (ssl : SSL_t) (incoming outgoing : nio -> list byte) (stalls : nio -> nat).
Context (Hok : ssl_writes ssl incoming outgoing stalls).
Context (buf : list byte) (w0 : nio).

(** What is left to write and what was accepted make up the buffer. *)
Definition writing (v : list byte * nio) : Prop :=
  outgoing w0 ++ buf = outgoing v.2 ++ v.1 /\ incoming v.2 = incoming w0.

Lemma ssl_write_step_writing n v v' :
  writing v -> ssl_write_step ssl n v = inl v' ->
  writing v' /\ ((length v'.1 < length v.1)%nat \/
    length v'.1 = length v.1 /\ (stalls v'.2 < stalls v.2)%nat).
Proof.
  destruct v as [p w]. intros [Ho Hi] Hs. unfold ssl_write_step in Hs.
  destruct (Z.ltb_spec 0 (Z.of_nat (length p))) as [Hp|]; [|done].
  assert (p <> []) as Hne by (by intros ->).
  destruct (SSL_write ssl p w) as [k w'] eqn:E.
  destruct (Z.leb_spec k 0) as [Hk|Hk].
  - destruct (sw_none _ _ _ _ Hok _ _ _ _ Hne E Hk) as (Hi' & Ho' & Hw & Hst).
    rewrite Hw in Hs. simplify_eq. unfold writing in *. cbn in *.
    rewrite Ho', Hi'. auto.
  - destruct (sw_data _ _ _ _ Hok _ _ _ _ Hne E Hk) as (Hle & Ho' & Hi').
    simplify_eq. unfold writing in *. cbn in *. rewrite Ho', Hi', length_drop.
    split; [|left; lia]. by rewrite <- (assoc_L (++)), take_drop.
Qed.

Lemma ssl_write_step_result n v rv w :
  writing v -> ssl_write_step ssl n v = inr (rv, w) ->
  rv = n /\ outgoing w = outgoing w0 ++ buf /\ incoming w = incoming w0.
Proof.
  destruct v as [p wv]. intros [Ho Hi] Hs. unfold ssl_write_step in Hs.
  destruct (Z.ltb_spec 0 (Z.of_nat (length p))) as [Hp|Hp].
  - assert (p <> []) as Hne by (by intros ->).
    destruct (SSL_write ssl p wv) as [k w'] eqn:E.
    destruct (Z.leb_spec k 0) as [Hk|Hk]; [|done].
    destruct (sw_none _ _ _ _ Hok _ _ _ _ Hne E Hk) as (_ & _ & Hw & _).
    by rewrite Hw in Hs.
  - simplify_eq. cbn in *. destruct p; [|cbn in Hp; lia]. by rewrite Ho, app_nil_r.
Qed.

Lemma ssl_write_loop :
  exists fuel w, ssl_writen fuel ssl buf w0 = Some (Z.of_nat (length buf), w) /\
    outgoing w = outgoing w0 ++ buf /\ incoming w = incoming w0.
Proof.
  assert (writing (buf, w0)) as Hw by done.
  destruct (loop_total_lex (ssl_write_step ssl (Z.of_nat (length buf))) writing
    (fun v => length v.1) (fun v => stalls v.2) (buf, w0)) as (fuel & [rv w] & Hl).
  - intros v v' Hv Hs. by eapply ssl_write_step_writing.
  - done.
  - exists fuel, w. pose proof (loop_inv (ssl_write_step ssl (Z.of_nat (length buf)))
      writing (fun r => r.1 = Z.of_nat (length buf) /\
        outgoing r.2 = outgoing w0 ++ buf /\ incoming r.2 = incoming w0)
      fuel (buf, w0) (rv, w)) as Hi.
    destruct Hi as (Hrv & Ho & Hin); [| |done|done|].
    + intros v v' Hv Hs. by eapply ssl_write_step_writing.
    + intros v [rv' w'] Hv Hs. by eapply ssl_write_step_result.
    + cbn in *. unfold ssl_writen. rewrite Hl. by subst rv.
Qed.
End Writes.

(** ** The concrete transport obeys the laws *)

Module TestNetOk.
Import TestNet.

Lemma test_reads : ssl_reads (H := net) tt incoming outq stalls.
Proof.
  split.
  - intros n [q o e] r bs w' Hn H Hr. cbn in H. unfold test_read in H. cbn in H.
    destruct q as [|[b|] q]; simplify_eq; try lia.
    destruct (take (Z.to_nat n) b) as [|x l] eqn:E; simplify_eq; [lia|].
    rewrite <- E, length_take. cbn. splits; [lia|lia| |done].
    unfold incoming. cbn [inq fmap list_fmap concat rx_bytes].
    rewrite <- (take_drop (Z.to_nat n) b) at 1.
    destruct (drop (Z.to_nat n) b) as [|y l']; cbn [fmap list_fmap concat rx_bytes];
      by rewrite <- ?(assoc_L (++)).
  - intros n [q o e] r bs w' Hn H Hr. cbn in H. unfold test_read in H. cbn in H.
    destruct q as [|[b|] q]; simplify_eq; [done| |].
    + destruct (take (Z.to_nat n) b) as [|x l] eqn:E; simplify_eq; [|cbn in Hr; lia].
      assert (b = []) as ->.
      { destruct b; [done|]. destruct (Z.to_nat n) eqn:En; [lia|done]. }
      rewrite drop_nil. cbn. splits; [done..|]. unfold stalls. cbn. lia.
    + cbn. splits; [done..|]. unfold stalls. cbn. lia.
Qed.

Lemma test_writes : ssl_writes (H := net) tt incoming outq stalls.
Proof.
  split.
  - intros p [q o e] r w' Hp H Hr. cbn in H. unfold test_write in H. simplify_eq.
    rewrite Nat2Z.id, firstn_all. cbn. splits; [lia|done|done].
  - intros p [q o e] r w' Hp H Hr. cbn in H. unfold test_write in H. simplify_eq.
    destruct p; [done|cbn in Hr; lia].
Qed.

(** Ten bytes in three pieces, with a timeout in between. *)
Definition world0 : nio (NetIO := net) :=
  {| inq := [Rec (str "ab"); Wait; Rec (str "cdefg"); Rec (str "hij")];
     outq := []; err := 0 |}.
Definition conn0 : connection_t (H := net) := conn_init 5 (Some tt).
End TestNetOk.

(** ** Theorems *)

(** [conn_readn] over TLS reads exactly: however the session cuts the
    stream into records and however often it asks for a retry, the call
    returns, with the next [n] bytes of the stream and [n] if the peer sends
    that many, and -1 otherwise. *)
Theorem conn_readn_exact `{NetIO} ssl incoming outgoing stalls c n w0 :
  ssl_reads ssl incoming outgoing stalls -> conn_ssl c = Some ssl ->
  0 <= n < 2147483648 ->
  exists fuel rv bs w, (forall m, (fuel <= m)%nat ->
      conn_readn m c n w0 = Some ((rv, bs), w)) /\
    if n <=? Z.of_nat (length (incoming w0)) then
      rv = n /\ bs = take (Z.to_nat n) (incoming w0) /\
      incoming w = drop (Z.to_nat n) (incoming w0) /\ outgoing w = outgoing w0
    else rv = -1.
Proof.
  intros Hok Hc Hn.
  destruct (ssl_read_loop ssl incoming outgoing stalls Hok (fun _ => -1) n w0 Hn)
    as (fuel & rv & bs & w & Hl & Hr).
  exists fuel, rv, bs, w. split.
  - intros m Hm. unfold conn_readn. rewrite Hc. by eapply loop_mono.
  - destruct Hr as [(-> & Hbs & Hi & Ho)|(Hlt & _ & r & _ & ->)].
    + rewrite Hi, length_app. destruct (Z.leb_spec n (Z.of_nat (length bs + length (incoming w))));
        [|lia]. replace (Z.to_nat n) with (length bs) by lia.
      by rewrite take_app_length, drop_app_length.
    + by destruct (Z.leb_spec n (Z.of_nat (length (incoming w0)))); [lia|].
Qed.

Lemma conn_readn_exact_witness :
  exists fuel w, conn_readn fuel TestNetOk.conn0 4 TestNetOk.world0 =
    Some ((4, str "abcd"), w).
Proof.
  destruct (conn_readn_exact (H := TestNet.net) tt _ _ _ TestNetOk.conn0 4
    TestNetOk.world0 TestNetOk.test_reads)
    as (fuel & rv & bs & w & Hr & Hc); [reflexivity|lia|].
  vm_compute in Hc. destruct Hc as (-> & -> & _). exists fuel, w. by apply Hr.
Defined.

(** [conn_writen] over TLS returns, having handed over the whole buffer in
    order, and reports its length. *)
Theorem conn_writen_exact `{NetIO} ssl incoming outgoing stalls c buf w0 :
  ssl_writes ssl incoming outgoing stalls -> conn_ssl c = Some ssl ->
  exists fuel w, (forall m, (fuel <= m)%nat ->
      conn_writen m c buf w0 = Some (Z.of_nat (length buf), w)) /\
    outgoing w = outgoing w0 ++ buf /\ incoming w = incoming w0.
Proof.
  intros Hok Hc.
  destruct (ssl_write_loop ssl incoming outgoing stalls Hok buf w0) as (fuel & w & Hl & Ho).
  exists fuel, w. split; [|done]. intros m Hm.
  unfold conn_writen. rewrite Hc. by eapply loop_mono.
Qed.

Lemma conn_writen_exact_witness :
  exists fuel w, conn_writen fuel TestNetOk.conn0 (str "hello") TestNetOk.world0 = Some (5, w).
Proof.
  destruct (conn_writen_exact (H := TestNet.net) tt _ _ _ TestNetOk.conn0 (str "hello") TestNetOk.world0
    TestNetOk.test_writes) as (fuel & w & Hr & _); [reflexivity|].
  exists fuel, w. by apply Hr.
Defined.

(** C40. There is no receive timeout over TLS: when the socket's timeout
    expires OpenSSL reports [SSL_ERROR_WANT_READ] and [conn_readn] reads again;
    with a peer that stays silent the call never returns, for any fuel. *)
Theorem conn_readn_never_times_out `{NetIO} ssl c n w0 (silent : nio -> Prop) :
  conn_ssl c = Some ssl -> 0 < n ->
  silent w0 ->
  (forall k w, silent w -> exists w', SSL_read ssl k w = ((-1, []), w') /\
     SSL_get_error ssl (-1) w' = SSL_ERROR_WANT_READ /\ silent w') ->
  forall fuel, conn_readn fuel c n w0 = None.
Proof.
  intros Hc Hn Hw Hs fuel. unfold conn_readn. rewrite Hc.
  apply (loop_diverges _ (fun v => 0 < v.1.1 /\ silent v.2)); [|done].
  intros [[lft buf] w] [Hl Hsw]. cbn in Hl, Hsw.
  destruct (Hs (i32 lft) w Hsw) as (w' & Hrd & He & Hsw').
  exists (lft, buf, w'). split; [|done]. unfold ssl_read_step.
  destruct (Z.ltb_spec 0 lft); [|lia]. rewrite Hrd. cbn [Z.leb]. by rewrite He.
Qed.

(** A peer that accepts the connection and sends nothing, as [nc -l]. *)
Module Silent.
#[global] Instance net : NetIO := {|
  nio := unit; SSL_t := unit; SSL_CTX := unit;
  SSL_read _ _ w := ((-1, []), w);
  SSL_write _ p w := (Z.of_nat (length p), w);
  SSL_get_error _ _ _ := SSL_ERROR_WANT_READ;
  SSL_shutdown _ w := w; SSL_free _ w := w;
  read _ _ w := ((-1, []), w); write _ p w := (Z.of_nat (length p), w);
  errno _ := 11; close _ w := w;
|}.
Definition conn : connection_t (H := net) := conn_init 5 (Some tt).
End Silent.

Lemma conn_readn_never_times_out_witness :
  conn_readn (H := Silent.net) 1000 Silent.conn 8 tt = None.
Proof.
  apply (conn_readn_never_times_out (H := Silent.net) tt Silent.conn 8 tt
    (fun _ => True)); [reflexivity|lia|exact I|].
  intros k w _. by exists w.
Defined.
