(* ===== verification/Os.v ===== *)
(** * The operating system and OpenSSL, as the start-up code uses them

    The system calls and OpenSSL functions with which src/common/net.c,
    src/common/ipc.c and the [main] functions open sockets, TLS contexts and
    shared segments.  They act on the state [nio] of [NetIO]; what the code
    relies on is stated as laws about the resources a process holds and about
    the contents of the segments.  [TestOs] is a concrete system on which every
    call can be made to fail. *)

From S2P Require Export Net Packed.

(** ** Arguments of the calls *)

Record timeval := { tv_sec : Z; tv_usec : Z }.

(** The options that the program sets, all at level [SOL_SOCKET]. *)
Inductive sockopt :=
  | SO_REUSEADDR (yes : Z)
  | SO_RCVTIMEO (tv : timeval)
  | SO_SNDTIMEO (tv : timeval).

Record sockaddr_in := { sin_family : Z; sin_addr : Z; sin_port : Z }.

(** An element of the list of [getaddrinfo]; [ai_addrlen] is the length. *)
Record addrinfo := {
  ai_family : Z; ai_socktype : Z; ai_protocol : Z; ai_addr : list byte;
}.

Definition AF_UNSPEC : Z := 0.
Definition AF_INET : Z := 2.
Definition SOCK_STREAM : Z := 1.
Definition INADDR_ANY : Z := 0.
Definition SSL_FILETYPE_PEM : Z := 1.
Definition O_RDWR : Z := 2.
Definition O_CREAT : Z := 64.

Class Os `{NetIO} := {
  socket : Z -> Z -> Z -> St nio Z;
  setsockopt : Z -> sockopt -> St nio Z;
  bind : Z -> sockaddr_in -> St nio Z;
  listen : Z -> Z -> St nio Z;
  accept : Z -> St nio Z;
  connect : Z -> list byte -> St nio Z;
  getaddrinfo : string -> string -> addrinfo -> St nio (Z * list addrinfo);
  freeaddrinfo : list addrinfo -> nio -> nio;
  SSL_METHOD : Type;
  TLS_server_method : SSL_METHOD;
  TLS_client_method : SSL_METHOD;
  SSL_CTX_new : SSL_METHOD -> St nio (option SSL_CTX);
  SSL_CTX_use_certificate_file : SSL_CTX -> string -> Z -> St nio Z;
  SSL_CTX_use_PrivateKey_file : SSL_CTX -> string -> Z -> St nio Z;
  SSL_CTX_check_private_key : SSL_CTX -> St nio Z;
  SSL_CTX_free : SSL_CTX -> nio -> nio;
  SSL_new : SSL_CTX -> St nio SSL_t;
  SSL_set_fd : SSL_t -> Z -> nio -> nio;
  SSL_accept : SSL_t -> St nio Z;
  SSL_connect : SSL_t -> St nio Z;
  SSL_library_init : nio -> nio;
  SSL_load_error_strings : nio -> nio;
  OpenSSL_add_all_algorithms : nio -> nio;
  OpenSSL_add_ssl_algorithms : nio -> nio;
  ERR_print_errors_fp : nio -> nio;
  (** A mapped segment. *)
  shm_ptr : Type;
  shm_open : string -> Z -> Z -> St nio Z;
  ftruncate : Z -> Z -> St nio Z;
  (** [mmap] of the given length, shared, at offset 0; [None] is [MAP_FAILED]. *)
  mmap : Z -> Z -> St nio (option shm_ptr);
  (** Copying into and reading from a mapped segment. *)
  memcpy : shm_ptr -> list byte -> nio -> nio;
  mem : shm_ptr -> nio -> list byte;
  shm_unlink : string -> nio -> nio;
  fork : St nio Z;
  waitpid : St nio Z;
  (** The flag that the handler of SIGINT and SIGTERM sets. *)
  g_stop : St nio bool;
  (** Text on stderr, with the error of the last call, and on stdout. *)
  eprint : string -> nio -> nio;
  perror : string -> nio -> nio;
  print : string -> nio -> nio;
  (** The time of day, [%H:%M:%S]. *)
  hms : nio -> string;
  getpid : nio -> Z;
  sleep : Z -> nio -> nio;
}.

(** A call without a result that matters. *)
Definition call {W} (f : W -> W) : St W unit := fun w => (tt, f w).

(** A computation that needs no fuel among those that do. *)
Definition liftO {W A} (m : St W A) : StO W A := fun w => Some (m w).

(** *** [atoi] of the C library *)

Definition is_space (c : Ascii.ascii) : bool :=
  let n := Ascii.nat_of_ascii c in (n =? 32)%nat || ((9 <=? n)%nat && (n <=? 13)%nat).
Definition digit (c : Ascii.ascii) : option Z :=
  let n := Ascii.nat_of_ascii c in
  if (48 <=? n)%nat && (n <=? 57)%nat then Some (Z.of_nat n - 48) else None.

Fixpoint digits (s : string) (acc : Z) : Z :=
  match s with
  | String c s' => match digit c with Some d => digits s' (10 * acc + d) | None => acc end
  | EmptyString => acc
  end.

Fixpoint atoi (s : string) : Z :=
  match s with
  | EmptyString => 0
  | String c s' =>
      if is_space c then atoi s'
      else if (Ascii.nat_of_ascii c =? 45)%nat then i32 (- digits s' 0)
      else if (Ascii.nat_of_ascii c =? 43)%nat then i32 (digits s' 0)
      else i32 (digits s 0)
  end.

(** A line of text. *)
Definition nl : string := String (Ascii.ascii_of_nat 10) EmptyString.

(** ** Resources

    What a process holds: its descriptors, the lists of [getaddrinfo] that it
    has not freed, and its TLS contexts and sessions. *)

Record held := { h_fds : gset Z; h_infos : Z; h_ctxs : Z; h_ssls : Z }.

Definition add_fd (fd : Z) (h : held) : held :=
  {| h_fds := {[fd]} ∪ h_fds h; h_infos := h_infos h; h_ctxs := h_ctxs h; h_ssls := h_ssls h |}.
Definition del_fd (fd : Z) (h : held) : held :=
  {| h_fds := h_fds h ∖ {[fd]}; h_infos := h_infos h; h_ctxs := h_ctxs h; h_ssls := h_ssls h |}.
Definition add_infos (n : Z) (h : held) : held :=
  {| h_fds := h_fds h; h_infos := h_infos h + n; h_ctxs := h_ctxs h; h_ssls := h_ssls h |}.
Definition add_ctxs (n : Z) (h : held) : held :=
  {| h_fds := h_fds h; h_infos := h_infos h; h_ctxs := h_ctxs h + n; h_ssls := h_ssls h |}.
Definition add_ssls (n : Z) (h : held) : held :=
  {| h_fds := h_fds h; h_infos := h_infos h; h_ctxs := h_ctxs h; h_ssls := h_ssls h + n |}.

Lemma del_add_fd fd h : (fd ∉ h_fds h) -> del_fd fd (add_fd fd h) = h.
Proof. destruct h as [f i c s]. intros Hf. unfold del_fd, add_fd. cbn in *. f_equal. set_solver. Qed.
(** Two descriptors, of which the first is closed. *)
Lemma del_add_fd_first fd fd' h :
  (fd ∉ h_fds h) -> fd <> fd' -> del_fd fd (add_fd fd' (add_fd fd h)) = add_fd fd' h.
Proof.
  destruct h as [f i c s]. intros Hf Hne. unfold del_fd, add_fd. cbn in *. f_equal. set_solver.
Qed.
Lemma add_infos_back n h : add_infos (- n) (add_infos n h) = h.
Proof. destruct h. unfold add_infos. cbn. f_equal. lia. Qed.
Lemma add_ctxs_back n h : add_ctxs (- n) (add_ctxs n h) = h.
Proof. destruct h. unfold add_ctxs. cbn. f_equal. lia. Qed.
Lemma add_ssls_back n h : add_ssls (- n) (add_ssls n h) = h.
Proof. destruct h. unfold add_ssls. cbn. f_equal. lia. Qed.
Lemma add_infos_fd n fd h : add_infos n (add_fd fd h) = add_fd fd (add_infos n h).
Proof. done. Qed.

(** What a call that may give a descriptor does to the resources. *)
Definition opens (fd : Z) (h h' : held) : Prop :=
  if 0 <=? fd then (fd ∉ h_fds h) /\ h' = add_fd fd h else h' = h.

(** What the code relies on about resources. *)
Record os_holds `{Os} (holds : nio -> held) : Prop := {
  oh_socket : forall d t p w, opens (socket d t p w).1 (holds w) (holds (socket d t p w).2);
  oh_accept : forall l w, opens (accept l w).1 (holds w) (holds (accept l w).2);
  oh_shm_open : forall n f m w, opens (shm_open n f m w).1 (holds w) (holds (shm_open n f m w).2);
  oh_close : forall fd w, holds (close fd w) = del_fd fd (holds w);
  oh_setsockopt : forall fd o w, holds (setsockopt fd o w).2 = holds w;
  oh_bind : forall fd a w, holds (bind fd a w).2 = holds w;
  oh_listen : forall fd n w, holds (listen fd n w).2 = holds w;
  oh_connect : forall fd a w, holds (connect fd a w).2 = holds w;
  oh_getaddrinfo : forall h p hi w,
    holds (getaddrinfo h p hi w).2 =
      if (getaddrinfo h p hi w).1.1 =? 0 then add_infos 1 (holds w) else holds w;
  oh_freeaddrinfo : forall l w, holds (freeaddrinfo l w) = add_infos (-1) (holds w);
  oh_ctx_new : forall m w, holds (SSL_CTX_new m w).2 =
    match (SSL_CTX_new m w).1 with Some _ => add_ctxs 1 (holds w) | None => holds w end;
  oh_cert : forall c f t w, holds (SSL_CTX_use_certificate_file c f t w).2 = holds w;
  oh_key : forall c f t w, holds (SSL_CTX_use_PrivateKey_file c f t w).2 = holds w;
  oh_check : forall c w, holds (SSL_CTX_check_private_key c w).2 = holds w;
  oh_ctx_free : forall c w, holds (SSL_CTX_free c w) = add_ctxs (-1) (holds w);
  oh_ssl_new : forall c w, holds (SSL_new c w).2 = add_ssls 1 (holds w);
  oh_set_fd : forall s fd w, holds (SSL_set_fd s fd w) = holds w;
  oh_ssl_accept : forall s w, holds (SSL_accept s w).2 = holds w;
  oh_ssl_connect : forall s w, holds (SSL_connect s w).2 = holds w;
  oh_ssl_read : forall s n w, holds (SSL_read s n w).2 = holds w;
  oh_ssl_write : forall s bs w, holds (SSL_write s bs w).2 = holds w;
  oh_read : forall fd n w, holds (read fd n w).2 = holds w;
  oh_write : forall fd bs w, holds (write fd bs w).2 = holds w;
  oh_print : forall s w, holds (print s w) = holds w;
  oh_sleep : forall n w, holds (sleep n w) = holds w;
  oh_ssl_shutdown : forall s w, holds (SSL_shutdown s w) = holds w;
  oh_ssl_free : forall s w, holds (SSL_free s w) = add_ssls (-1) (holds w);
  oh_library : forall w, holds (SSL_library_init w) = holds w;
  oh_strings : forall w, holds (SSL_load_error_strings w) = holds w;
  oh_all_algs : forall w, holds (OpenSSL_add_all_algorithms w) = holds w;
  oh_ssl_algs : forall w, holds (OpenSSL_add_ssl_algorithms w) = holds w;
  oh_errors : forall w, holds (ERR_print_errors_fp w) = holds w;
  oh_ftruncate : forall fd n w, holds (ftruncate fd n w).2 = holds w;
  oh_mmap : forall n fd w, holds (mmap n fd w).2 = holds w;
  oh_memcpy : forall p bs w, holds (memcpy p bs w) = holds w;
  oh_shm_unlink : forall n w, holds (shm_unlink n w) = holds w;
  oh_fork : forall w, holds (fork w).2 = holds w;
  oh_g_stop : forall w, holds (g_stop w).2 = holds w;
  oh_eprint : forall s w, holds (eprint s w) = holds w;
  oh_perror : forall s w, holds (perror s w) = holds w;
}.

(** ** Shared segments

    [objects w] are the named objects with their contents.  A segment is the
    object of a name; [ptr_obj p] is the name that [p] is mapped from. *)

Definition resize_bytes (n : Z) (bs : list byte) : list byte :=
  take (Z.to_nat n) bs ++ replicate (Z.to_nat n - length bs) Byte.x00.

Record os_shm `{Os} (objects : nio -> gmap string (list byte)) (fd_obj : nio -> Z -> option string)
    (ptr_obj : shm_ptr -> string) : Prop := {
  os_open : forall n f m w fd w', shm_open n f m w = (fd, w') -> 0 <= fd ->
    fd_obj w' fd = Some n /\
    objects w' = match objects w !! n with
                 | Some _ => objects w | None => <[n := []]> (objects w)
                 end /\
    (Z.land f O_CREAT = 0 -> is_Some (objects w !! n));
  os_open_fail : forall n f m w fd w', shm_open n f m w = (fd, w') -> fd < 0 ->
    objects w' = objects w;
  os_ftruncate : forall fd n k w w', fd_obj w fd = Some n -> ftruncate fd k w = (0, w') ->
    objects w' = alter (resize_bytes k) n (objects w) /\ fd_obj w' fd = Some n;
  os_ftruncate_fail : forall fd n k w r w', fd_obj w fd = Some n -> ftruncate fd k w = (r, w') ->
    r <> 0 -> objects w' = objects w;
  os_mmap : forall fd n k w r w', fd_obj w fd = Some n -> mmap k fd w = (r, w') ->
    objects w' = objects w /\ (forall p, r = Some p -> ptr_obj p = n);
  os_close : forall fd w, objects (close fd w) = objects w;
  os_memcpy : forall p bs old w, objects w !! ptr_obj p = Some old ->
    objects (memcpy p bs w) = <[ptr_obj p := bs ++ drop (length bs) old]> (objects w);
  os_mem : forall p w, mem p w = default [] (objects w !! ptr_obj p);
}.
