(* ===== verification/TestOs.v ===== *)
(** * A concrete operating system

    An instance of Os.v in which a script decides, call by call, how the calls
    turn out, so that every path of the start-up code can be run.  It obeys the
    laws of Os.v. *)

From S2P Require Export Os.

Module TestOs.
Record world := {
  (** What the next calls return; an exhausted script is success. *)
  script : list Z;
  hold : held;
  objs : gmap string (list byte);
  fd_objs : gmap Z string;
  err_out : list string;
  std_out : list string;
}.

Definition set_script l w :=
  {| script := l; hold := hold w; objs := objs w; fd_objs := fd_objs w;
     err_out := err_out w; std_out := std_out w |}.
Definition upd_hold f w :=
  {| script := script w; hold := f (hold w); objs := objs w; fd_objs := fd_objs w;
     err_out := err_out w; std_out := std_out w |}.
Definition upd_objs f w :=
  {| script := script w; hold := hold w; objs := f (objs w); fd_objs := fd_objs w;
     err_out := err_out w; std_out := std_out w |}.
Definition upd_fd_objs f w :=
  {| script := script w; hold := hold w; objs := objs w; fd_objs := f (fd_objs w);
     err_out := err_out w; std_out := std_out w |}.
Definition add_err s w :=
  {| script := script w; hold := hold w; objs := objs w; fd_objs := fd_objs w;
     err_out := err_out w ++ [s]; std_out := std_out w |}.
Definition add_out s w :=
  {| script := script w; hold := hold w; objs := objs w; fd_objs := fd_objs w;
     err_out := err_out w; std_out := std_out w ++ [s] |}.

Definition pop (w : world) : Z := default 0 (head (script w)).
Definition popped (w : world) : world := set_script (tail (script w)) w.

(** A call whose result is scripted, and which does nothing else. *)
Definition scripted (f : Z -> Z) (w : world) : Z * world := (f (pop w), popped w).

Definition new_fd (X : gset Z) : Z := foldr Z.max 2 (elements X) + 1.

Definition open_fd (w : world) : Z * world :=
  if pop w <? 0 then (-1, popped w)
  else (new_fd (h_fds (hold w)), upd_hold (add_fd (new_fd (h_fds (hold w)))) (popped w)).

Definition open_shm (n : string) (f : Z) (w : world) : Z * world :=
  if (pop w <? 0) || ((Z.land f O_CREAT =? 0) && bool_decide (objs w !! n = None))
  then (-1, popped w)
  else
    let fd := new_fd (h_fds (hold w)) in
    (fd, upd_fd_objs (<[fd := n]>) (upd_objs
      (fun m => match m !! n with Some _ => m | None => <[n := []]> m end)
      (upd_hold (add_fd fd) (popped w)))).

Definition trunc (fd n : Z) (w : world) : Z * world :=
  if pop w =? 0 then
    (0, match fd_objs w !! fd with
        | Some name => upd_objs (alter (resize_bytes n) name) (popped w)
        | None => popped w
        end)
  else (pop w, popped w).

Definition map_obj (fd : Z) (w : world) : option string * world :=
  (if pop w <? 0 then None else fd_objs w !! fd, popped w).

Definition copy_in (p : string) (bs : list byte) (w : world) : world :=
  upd_objs (alter (fun old => bs ++ drop (length bs) old) p) w.

#[global] Instance net : NetIO := {|
  nio := world; SSL_t := unit; SSL_CTX := unit;
  SSL_read _ _ w := ((0, []), w);
  SSL_write _ p w := (Z.of_nat (length p), w);
  SSL_get_error _ _ _ := 6;
  SSL_shutdown _ w := w;
  SSL_free _ := upd_hold (add_ssls (-1));
  read _ _ w := ((0, []), w);
  write _ p w := (Z.of_nat (length p), w);
  errno _ := 0;
  close fd := upd_hold (del_fd fd);
|}.

(** An address that every host has. *)
Definition any_addr : addrinfo :=
  {| ai_family := AF_INET; ai_socktype := SOCK_STREAM; ai_protocol := 6; ai_addr := [] |}.

#[global] Instance os : Os := {|
  socket _ _ _ := open_fd;
  setsockopt _ _ := scripted (fun r => r);
  bind _ _ := scripted (fun r => r);
  listen _ _ := scripted (fun r => r);
  accept _ := open_fd;
  connect _ _ := scripted (fun r => r);
  getaddrinfo _ _ _ w :=
    if pop w =? 0 then ((0, [any_addr; any_addr]), upd_hold (add_infos 1) (popped w))
    else ((pop w, []), popped w);
  freeaddrinfo _ := upd_hold (add_infos (-1));
  SSL_METHOD := unit; TLS_server_method := tt; TLS_client_method := tt;
  SSL_CTX_new _ w :=
    if pop w <? 0 then (None, popped w) else (Some tt, upd_hold (add_ctxs 1) (popped w));
  SSL_CTX_use_certificate_file _ _ _ := scripted (Z.add 1);
  SSL_CTX_use_PrivateKey_file _ _ _ := scripted (Z.add 1);
  SSL_CTX_check_private_key _ := scripted (Z.add 1);
  SSL_CTX_free _ := upd_hold (add_ctxs (-1));
  SSL_new _ w := (tt, upd_hold (add_ssls 1) w);
  SSL_set_fd _ _ w := w;
  SSL_accept _ := scripted (Z.add 1);
  SSL_connect _ := scripted (Z.add 1);
  SSL_library_init w := w;
  SSL_load_error_strings w := w;
  OpenSSL_add_all_algorithms w := w;
  OpenSSL_add_ssl_algorithms w := w;
  ERR_print_errors_fp w := w;
  shm_ptr := string;
  shm_open n f _ := open_shm n f;
  ftruncate := trunc;
  mmap _ := map_obj;
  memcpy := copy_in;
  mem p w := default [] (objs w !! p);
  shm_unlink n := upd_objs (delete n);
  fork := scripted (fun r => r);
  waitpid w := if 0 <? pop w then (pop w, popped w) else (0, w);
  g_stop w := (negb (pop w =? 0), popped w);
  eprint := add_err;
  perror := add_err;
  print := add_out;
  hms _ := "12:00:00";
  getpid _ := 7;
  sleep _ w := w;
|}.

Lemma new_fd_pos X : 0 <= new_fd X.
Proof. unfold new_fd. induction (elements X); cbn; lia. Qed.

Lemma new_fd_fresh X : new_fd X ∉ X.
Proof.
  rewrite <- elem_of_elements. intros Hin. unfold new_fd in Hin.
  enough (forall l x, x ∈ l -> x <= foldr Z.max 2 l) as Hle by (specialize (Hle _ _ Hin); lia).
  clear. induction l as [|y l IH]; intros x; [by rewrite elem_of_nil|].
  rewrite elem_of_cons. cbn. intros [->|Hx]; [lia|]. specialize (IH x Hx). lia.
Qed.

Lemma open_fd_opens w : opens (open_fd w).1 (hold w) (hold (open_fd w).2).
Proof.
  unfold open_fd, opens. destruct (pop w <? 0); [done|]. cbn [fst snd].
  destruct (Z.leb_spec 0 (new_fd (h_fds (hold w)))); [|pose proof (new_fd_pos (h_fds (hold w))); lia].
  split; [apply new_fd_fresh|done].
Qed.

Lemma open_shm_opens n f w : opens (open_shm n f w).1 (hold w) (hold (open_shm n f w).2).
Proof.
  unfold open_shm, opens. destruct (_ || _); [done|]. cbn [fst snd].
  destruct (Z.leb_spec 0 (new_fd (h_fds (hold w)))); [|pose proof (new_fd_pos (h_fds (hold w))); lia].
  split; [apply new_fd_fresh|done].
Qed.

Lemma test_holds : os_holds hold.
Proof.
  split; try done; intros; try apply open_fd_opens; try apply open_shm_opens; cbn.
  - unfold scripted. by destruct (pop w =? 0) eqn:E; cbn; rewrite ?E.
  - by destruct (pop w <? 0).
  - unfold trunc. destruct (pop w =? 0); [|done]. by destruct (fd_objs w !! fd).
Qed.

Lemma test_shm : os_shm objs (fun w fd => fd_objs w !! fd) (fun p => p).
Proof.
  split; cbn; unfold open_shm, trunc, map_obj, copy_in.
  - intros n f _ w fd w' E Hfd. destruct ((pop w <? 0) || _) eqn:Eb; simplify_eq; [lia|].
    cbn. rewrite lookup_insert_eq. splits; [done|by destruct (objs w !! n)|].
    intros Hf. rewrite Hf in Eb. apply orb_false_iff in Eb as [_ Eb]. cbn in Eb.
    apply bool_decide_eq_false in Eb. by apply not_eq_None_Some.
  - intros n f _ w fd w' E Hfd. destruct (_ || _); simplify_eq; [done|].
    pose proof (new_fd_pos (h_fds (hold w))). lia.
  - intros fd n k w w' Hn. rewrite Hn. destruct (Z.eqb_spec (pop w) 0); [|congruence].
    intros E. by simplify_eq.
  - intros fd n k w r w' Hn. destruct (Z.eqb_spec (pop w) 0); intros E Hr; by simplify_eq.
  - intros fd n k w r w' Hn E. simplify_eq. split; [done|].
    intros p. destruct (pop w <? 0); [done|]. rewrite Hn. congruence.
  - done.
  - intros p bs old w Hold. cbn. apply map_eq. intros k.
    destruct (decide (k = p)) as [->|Hne].
    + by rewrite lookup_alter_eq, lookup_insert_eq, Hold.
    + by rewrite lookup_alter_ne, lookup_insert_ne by done.
  - done.
Qed.

(** A process that holds the three standard streams. *)
Definition world0 (l : list Z) : world :=
  {| script := l; hold := {| h_fds := {[0; 1; 2]}; h_infos := 0; h_ctxs := 0; h_ssls := 0 |};
     objs := ∅; fd_objs := ∅; err_out := []; std_out := [] |}.
End TestOs.
