(* ===== verification/Sockets.v ===== *)
(** * Sockets and TLS contexts

    src/common/net.c: [net_set_timeout], [tcp_listen], [tcp_connect] and the
    functions that create TLS contexts, as sequences of calls of Os.v; and that
    on every path, however the calls fail, they hold on to nothing but what
    they return. *)

From S2P Require Export TestOs.

Section Code.
Context `{Os}.

(** ** Timeouts

    net.c defines [net_set_timeout] twice, at line 112 (with a test of its
    arguments) and at line 233. *)

Definition set_timeouts (fd seconds : Z) : St nio Z :=
  let tv := {| tv_sec := seconds; tv_usec := 0 |} in
  r ← setsockopt fd (SO_RCVTIMEO tv);
  if r <? 0 then mret (-1) else
  r ← setsockopt fd (SO_SNDTIMEO tv);
  if r <? 0 then mret (-1) else mret 0.

Definition net_set_timeout_checked (fd seconds : Z) : St nio Z :=
  if (fd <? 0) || (seconds <? 0) then mret (-1) else set_timeouts fd seconds.

Definition net_set_timeout (fd seconds : Z) : St nio Z := set_timeouts fd seconds.

(** ** Sockets *)

Definition tcp_listen (port : Z) : St nio Z :=
  fd ← socket AF_INET SOCK_STREAM 0;
  if fd <? 0 then mret (-1) else
  _ ← setsockopt fd (SO_REUSEADDR 1);
  let addr := {| sin_family := AF_INET; sin_addr := htonl INADDR_ANY; sin_port := htons port |} in
  r ← bind fd addr;
  if r <? 0 then _ ← call (close fd); mret (-1) else
  r ← listen fd 1024;
  if r <? 0 then _ ← call (close fd); mret (-1) else
  mret fd.

(** The [for] loop over the addresses; [fd] is the variable of that name. *)
Fixpoint connect_any (p : list addrinfo) (fd : Z) : St nio Z :=
  match p with
  | [] => mret fd
  | a :: next =>
      fd ← socket (ai_family a) (ai_socktype a) (ai_protocol a);
      if fd <? 0 then connect_any next fd else
      r ← connect fd (ai_addr a);
      if r =? 0 then mret fd else
      _ ← call (close fd);
      connect_any next (-1)
  end.

Definition tcp_connect (host : string) (port : Z) : St nio Z :=
  let hints := {| ai_family := AF_UNSPEC; ai_socktype := SOCK_STREAM;
                  ai_protocol := 0; ai_addr := [] |} in
  let portstr := pretty port in
  '(rc, res) ← getaddrinfo host portstr hints;
  if negb (rc =? 0) then mret (-1) else
  fd ← connect_any res (-1);
  _ ← call (freeaddrinfo res);
  mret fd.

(** ** TLS contexts *)

Definition ERR_print_errors : St nio unit := call ERR_print_errors_fp.

Definition ssl_msg_init : St nio unit :=
  _ ← call SSL_library_init;
  _ ← call OpenSSL_add_all_algorithms;
  call SSL_load_error_strings.

Definition net_init_ssl : St nio unit :=
  _ ← call SSL_load_error_strings;
  call OpenSSL_add_ssl_algorithms.

Definition net_create_context (is_server : bool) : St nio (option SSL_CTX) :=
  let method := if is_server then TLS_server_method else TLS_client_method in
  ctx ← SSL_CTX_new method;
  match ctx with
  | None =>
      _ ← call (perror "Unable to create SSL context");
      _ ← ERR_print_errors;
      mret None
  | Some ctx => mret (Some ctx)
  end.

(** [Some code] is a call of [exit]. *)
Definition net_configure_context (ctx : SSL_CTX) (cert_file key_file : string) :
    St nio (option Z) :=
  r ← SSL_CTX_use_certificate_file ctx cert_file SSL_FILETYPE_PEM;
  if r <=? 0 then _ ← ERR_print_errors; mret (Some 1) else
  r ← SSL_CTX_use_PrivateKey_file ctx key_file SSL_FILETYPE_PEM;
  if r <=? 0 then _ ← ERR_print_errors; mret (Some 1) else
  mret None.

Definition ssl_init_client_ctx : St nio (option SSL_CTX) :=
  ctx ← SSL_CTX_new TLS_client_method;
  match ctx with
  | None => _ ← ERR_print_errors; mret None
  | Some ctx => mret (Some ctx)
  end.

Definition ssl_init_server_ctx (cert_path key_path : string) : St nio (option SSL_CTX) :=
  ctx ← SSL_CTX_new TLS_server_method;
  match ctx with
  | None => _ ← ERR_print_errors; mret None
  | Some ctx =>
      r ← SSL_CTX_use_certificate_file ctx cert_path SSL_FILETYPE_PEM;
      if r <=? 0 then
        _ ← ERR_print_errors; _ ← call (SSL_CTX_free ctx); mret None
      else
      r ← SSL_CTX_use_PrivateKey_file ctx key_path SSL_FILETYPE_PEM;
      if r <=? 0 then
        _ ← ERR_print_errors; _ ← call (SSL_CTX_free ctx); mret None
      else
      ok ← SSL_CTX_check_private_key ctx;
      if ok =? 0 then
        _ ← call (eprint ("Private key does not match the certificate public key" +:+ nl));
        _ ← call (SSL_CTX_free ctx); mret None
      else mret (Some ctx)
  end.
End Code.

(** ** What the functions hold

    [at_held h] is the assertion that the process holds exactly [h]. *)

Create HintDb held.

(** The next call of a sequence. *)
Ltac held_step := eapply triple_bind; [solve [eauto with held nocore]|intros ?; cbv beta].
Ltac held_done := apply triple_ret; intros w Hw.

Section Held.
Context `{Os} (holds : nio -> held) (Hoh : os_holds holds).

Definition at_held (h : held) (w : nio) : Prop := holds w = h.

Lemma held_keep {A} (m : St nio A) h :
  (forall w, holds (m w).2 = holds w) -> triple (at_held h) m (fun _ => at_held h).
Proof. intros Hm w Hw. unfold at_held in *. by rewrite Hm. Qed.

Lemma held_call f (g : held -> held) h :
  (forall w, holds (f w) = g (holds w)) -> triple (at_held h) (call f) (fun _ => at_held (g h)).
Proof. intros Hf w Hw. unfold at_held in *. cbn. by rewrite Hf, Hw. Qed.

Lemma held_opens (m : St nio Z) h :
  (forall w, opens (m w).1 (holds w) (holds (m w).2)) ->
  triple (at_held h) m (fun fd w => opens fd h (holds w)).
Proof. intros Hm w Hw. specialize (Hm w). unfold at_held in Hw. by rewrite Hw in Hm. Qed.

(** The outcome of a function that returns a descriptor or -1. *)
Definition gives_fd (h : held) (fd : Z) (w : nio) : Prop :=
  0 <= fd /\ (fd ∉ h_fds h) /\ at_held (add_fd fd h) w \/ fd < 0 /\ at_held h w.

Lemma opens_gives fd h w : opens fd h (holds w) -> gives_fd h fd w.
Proof.
  unfold opens, gives_fd, at_held. destruct (Z.leb_spec 0 fd); [left|right]; intuition.
Qed.

(** A fresh descriptor that is closed again. *)
Lemma held_close_fresh fd h :
  (fd ∉ h_fds h) -> triple (at_held (add_fd fd h)) (call (close fd)) (fun _ => at_held h).
Proof.
  intros Hf w Hw. unfold at_held in *. cbn. rewrite (oh_close _ Hoh), Hw. by apply del_add_fd.
Qed.

Lemma held_setsockopt fd o h : triple (at_held h) (setsockopt fd o) (fun _ => at_held h).
Proof. apply held_keep, Hoh. Qed.
Lemma held_bind fd a h : triple (at_held h) (bind fd a) (fun _ => at_held h).
Proof. apply held_keep, Hoh. Qed.
Lemma held_listen fd n h : triple (at_held h) (listen fd n) (fun _ => at_held h).
Proof. apply held_keep, Hoh. Qed.
Lemma held_connect fd a h : triple (at_held h) (connect fd a) (fun _ => at_held h).
Proof. apply held_keep, Hoh. Qed.
Lemma held_cert c f t h : triple (at_held h) (SSL_CTX_use_certificate_file c f t) (fun _ => at_held h).
Proof. apply held_keep, Hoh. Qed.
Lemma held_key c f t h : triple (at_held h) (SSL_CTX_use_PrivateKey_file c f t) (fun _ => at_held h).
Proof. apply held_keep, Hoh. Qed.
Lemma held_check c h : triple (at_held h) (SSL_CTX_check_private_key c) (fun _ => at_held h).
Proof. apply held_keep, Hoh. Qed.
Lemma held_eprint s h : triple (at_held h) (call (eprint s)) (fun _ => at_held h).
Proof. apply (held_call _ (fun h => h)), Hoh. Qed.
Lemma held_perror s h : triple (at_held h) (call (perror s)) (fun _ => at_held h).
Proof. apply (held_call _ (fun h => h)), Hoh. Qed.
Lemma held_errors h : triple (at_held h) ERR_print_errors (fun _ => at_held h).
Proof. apply (held_call _ (fun h => h)), Hoh. Qed.
Lemma held_ctx_free c h : triple (at_held (add_ctxs 1 h)) (call (SSL_CTX_free c)) (fun _ => at_held h).
Proof.
  intros w Hw. unfold at_held in *. cbn. rewrite (oh_ctx_free _ Hoh), Hw. apply add_ctxs_back.
Qed.
Lemma held_ctx_new m h :
  triple (at_held h) (SSL_CTX_new m) (fun c =>
    at_held (match c with Some _ => add_ctxs 1 h | None => h end)).
Proof.
  intros w Hw. unfold at_held in *. rewrite (oh_ctx_new _ Hoh), Hw.
  by destruct (SSL_CTX_new m w).1.
Qed.
#[local] Hint Resolve held_setsockopt held_bind held_listen held_connect held_cert held_key
  held_check held_eprint held_perror held_errors held_ctx_free held_ctx_new held_close_fresh : held.

Lemma timeout_held fd seconds h :
  triple (at_held h) (net_set_timeout fd seconds) (fun r w => (r = 0 \/ r = -1) /\ at_held h w).
Proof.
  unfold net_set_timeout, set_timeouts. cbv zeta. held_step.
  case_match; [by held_done; auto|]. held_step. case_match; held_done; auto.
Qed.

Lemma tcp_listen_held port h : triple (at_held h) (tcp_listen port) (gives_fd h).
Proof.
  unfold tcp_listen. eapply triple_bind; [apply held_opens, Hoh|intros fd].
  eapply triple_conseq with (P' := gives_fd h fd) (Q' := gives_fd h);
    [|intros w; apply opens_gives|done].
  destruct (Z.ltb_spec fd 0) as [Hfd|Hfd].
  { apply triple_ret. intros w [[]|[]]; [lia|right; by split]. }
  eapply triple_conseq with (P' := fun w => (fd ∉ h_fds h) /\ at_held (add_fd fd h) w)
    (Q' := gives_fd h); [|intros w [(? & ? & ?)|[]]; [done|lia]|done].
  apply triple_pure. intros Hf. held_step. cbv zeta. held_step.
  case_match; [held_step; held_done; right; by split|].
  held_step. case_match; [held_step; held_done; right; by split|].
  held_done. left. by splits.
Qed.

Lemma connect_any_held p fd h : fd < 0 -> triple (at_held h) (connect_any p fd) (gives_fd h).
Proof.
  revert fd. induction p as [|a p IH]; intros fd0 Hfd0; cbn [connect_any].
  { held_done. right. by split. }
  eapply triple_bind; [apply held_opens, Hoh|intros fd].
  eapply triple_conseq with (P' := gives_fd h fd) (Q' := gives_fd h);
    [|intros w; apply opens_gives|done].
  destruct (Z.ltb_spec fd 0) as [Hfd|Hfd].
  { eapply triple_conseq; [by apply IH|intros w [[]|[]]; [lia|done]|done]. }
  eapply triple_conseq with (P' := fun w => (fd ∉ h_fds h) /\ at_held (add_fd fd h) w)
    (Q' := gives_fd h); [|intros w [(? & ? & ?)|[]]; [done|lia]|done].
  apply triple_pure. intros Hf. held_step.
  case_match; [held_done; left; by splits|]. held_step. by apply IH.
Qed.

Lemma tcp_connect_held host port h : triple (at_held h) (tcp_connect host port) (gives_fd h).
Proof.
  unfold tcp_connect. cbv zeta.
  eapply (triple_bind _ _ _ (fun r => at_held (if r.1 =? 0 then add_infos 1 h else h))).
  { intros w Hw. unfold at_held in *. by rewrite (oh_getaddrinfo _ Hoh), Hw. }
  intros [rc res]. cbn [fst]. destruct (rc =? 0); cbn [negb]; [|held_done; right; by split].
  eapply triple_bind; [by apply connect_any_held|intros fd].
  eapply (triple_bind _ _ _ (fun _ => gives_fd h fd)); [|intros ?; by apply triple_ret].
  intros w Hw. unfold gives_fd, at_held in *. cbn. rewrite (oh_freeaddrinfo _ Hoh).
  destruct Hw as [(? & Hf & ->)|[? ->]]; [left|right]; splits; try done;
    rewrite ?add_infos_fd; f_equal; apply add_infos_back.
Qed.

(** The outcome of a function that returns a context or NULL. *)
Definition gives_ctx (h : held) (c : option SSL_CTX) (w : nio) : Prop :=
  at_held (match c with Some _ => add_ctxs 1 h | None => h end) w.

Lemma client_ctx_held h : triple (at_held h) ssl_init_client_ctx (gives_ctx h).
Proof.
  unfold ssl_init_client_ctx. eapply triple_bind; [apply held_ctx_new|intros [c|]; cbv beta].
  - by held_done.
  - held_step. by held_done.
Qed.

Lemma create_context_held b h : triple (at_held h) (net_create_context b) (gives_ctx h).
Proof.
  unfold net_create_context. cbv zeta.
  eapply triple_bind; [apply held_ctx_new|intros [c|]; cbv beta]; [by held_done|].
  held_step. held_step. by held_done.
Qed.

Lemma server_ctx_held cert key h : triple (at_held h) (ssl_init_server_ctx cert key) (gives_ctx h).
Proof.
  unfold ssl_init_server_ctx. eapply triple_bind; [apply held_ctx_new|intros [c|]; cbv beta].
  2:{ held_step. by held_done. }
  do 2 (held_step; case_match; [do 2 held_step; by held_done|]).
  held_step. case_match; [do 2 held_step; by held_done|]. by held_done.
Qed.
End Held.

#[export] Hint Resolve held_setsockopt held_bind held_listen held_connect held_cert held_key
  held_check held_eprint held_perror held_errors held_ctx_free held_ctx_new held_close_fresh
  timeout_held : held.

(** ** Theorems *)

(** C33. Nothing leaks while a connection is set up: whichever calls fail, a
    function of net.c that returns a descriptor leaves the process holding that
    descriptor in addition and nothing else, one that returns a TLS context
    that context, and one that fails exactly what it held before: sockets that
    could not be bound, listened on or connected are closed, address lists and
    half-configured contexts freed. *)
Theorem net_no_leak `{Os} holds (h : held) w :
  os_holds holds -> holds w = h ->
  (forall port, let '(fd, w') := tcp_listen port w in gives_fd holds h fd w') /\
  (forall host port, let '(fd, w') := tcp_connect host port w in gives_fd holds h fd w') /\
  (forall fd seconds, let '(r, w') := net_set_timeout fd seconds w in
     (r = 0 \/ r = -1) /\ holds w' = h) /\
  (forall cert key, let '(ctx, w') := ssl_init_server_ctx cert key w in gives_ctx holds h ctx w') /\
  (let '(ctx, w') := ssl_init_client_ctx w in gives_ctx holds h ctx w') /\
  (forall is_server, let '(ctx, w') := net_create_context is_server w in gives_ctx holds h ctx w').
Proof.
  intros Hoh Hw. splits.
  - intros port. pose proof (tcp_listen_held holds Hoh port h w Hw) as Hr. by destruct (tcp_listen port w).
  - intros host port. pose proof (tcp_connect_held holds Hoh host port h w Hw) as Hr.
    by destruct (tcp_connect host port w).
  - intros fd seconds. pose proof (timeout_held holds Hoh fd seconds h w Hw) as Hr.
    by destruct (net_set_timeout fd seconds w).
  - intros cert key. pose proof (server_ctx_held holds Hoh cert key h w Hw) as Hr.
    by destruct (ssl_init_server_ctx cert key w).
  - pose proof (client_ctx_held holds Hoh h w Hw) as Hr. by destruct (ssl_init_client_ctx w).
  - intros b. pose proof (create_context_held holds Hoh b h w Hw) as Hr.
    by destruct (net_create_context b w).
Qed.

(** The first of two addresses refuses the connection. *)
Lemma net_no_leak_witness :
  let '(fd, w') := tcp_connect (H0 := TestOs.os) "localhost" 9000 (TestOs.world0 [0; 0; -1; 0; 0]) in
  fd = 3 /\ TestOs.hold w' = add_fd 3 (TestOs.hold (TestOs.world0 [])).
Proof.
  destruct (net_no_leak (H0 := TestOs.os) TestOs.hold _ (TestOs.world0 [0; 0; -1; 0; 0])
    TestOs.test_holds eq_refl) as (_ & Hc & _).
  specialize (Hc "localhost"%string 9000).
  destruct (tcp_connect _ _ _) as [fd w'] eqn:E.
  assert (fd = 3) as -> by (apply (f_equal fst) in E; cbn [fst] in E; rewrite <- E; vm_compute; reflexivity).
  destruct Hc as [(_ & _ & Hh)|[? _]]; [|lia]. split; [done|exact Hh].
Defined.

(** The two definitions of [net_set_timeout] agree on the arguments that the
    program passes. *)
Lemma net_set_timeout_agree `{Os} fd seconds :
  0 <= fd -> 0 <= seconds -> net_set_timeout_checked fd seconds = net_set_timeout fd seconds.
Proof.
  intros Hf Hs. unfold net_set_timeout_checked.
  by destruct (Z.ltb_spec fd 0); [lia|]; destruct (Z.ltb_spec seconds 0); [lia|].
Qed.
