(* ===== verification/Segments.v ===== *)
(** * Mapping the shared segments

    src/common/ipc.c, [ipc_stats_init] and [ipc_store_init], on the calls of
    Os.v, and what the bytes of a fresh segment mean as the structures of
    Ipc.v. *)

From S2P Require Export Ipc Sockets.

(** ** Layout

    gcc's layout of the two structs on x86-64: [shm_stats_t] is two 64-bit
    integers; a [session_entry_t] is [session_id], [last_seen], the packed
    [st] and [hand], padding to a multiple of 4, and [valid], padded to a
    multiple of 8. *)

Definition stats_bytes : codec (Z * Z) := pair_codec (uint_codec 8) (uint_codec 8).
Definition sizeof_stats : Z := 16.

Definition off_hand : nat := 16 + csize state_codec.
Definition off_valid : nat := (off_hand + csize hand_codec + 3) / 4 * 4.
Definition sizeof_entry : nat := (off_valid + 4 + 7) / 8 * 8.
Definition sizeof_store : Z := Z.of_nat (MAX_SESSIONS * sizeof_entry).

(** The bytes from [off] on, [n] of them. *)
Definition slice (off n : nat) (bs : list byte) : list byte := take n (drop off bs).

Definition read_stats (bs : list byte) : shm_stats_t :=
  let '(c, p) := dec stats_bytes (slice 0 16 bs) in
  {| total_connections := c; total_packets := p |}.

Definition read_entry (bs : list byte) : session_entry_t :=
  {| session_id := le_combine (slice 0 8 bs);
     last_seen := (le_combine (slice 8 8 bs) + 2 ^ 63) mod 2 ^ 64 - 2 ^ 63;
     ent_st := dec state_codec (slice 16 (csize state_codec) bs);
     ent_hand := dec hand_codec (slice off_hand (csize hand_codec) bs);
     valid := i32 (le_combine (slice off_valid 4 bs)) |}.

Definition read_store (bs : list byte) : shm_store_t :=
  {| sessions := (fun i => read_entry (slice (i * sizeof_entry) sizeof_entry bs))
                 <$> seq 0 MAX_SESSIONS |}.

(** ** The code *)

(** Mode 0600. *)
Definition S_IRUSR_IWUSR : Z := 384.

Definition PROTO_MAGIC_SHM : string := "/tcgmini_shm_v1".
Definition STORE_MAGIC_SHM : string := "/tcg_store_v1".

Section Code.
Context `{Os}.

(** [ipc_stats_init] and [ipc_store_init] are the same sequence of calls on
    different names and sizes. *)
Definition shm_init (name : string) (size : Z) (create : bool) : St nio (option shm_ptr) :=
  let oflags := if create then Z.lor O_RDWR O_CREAT else O_RDWR in
  fd ← shm_open name oflags S_IRUSR_IWUSR;
  if fd <? 0 then mret None else
  r ← (if create then ftruncate fd size else mret 0);
  if negb (r =? 0) then _ ← call (close fd); mret None else
  p ← mmap size fd;
  _ ← call (close fd);
  match p with
  | None => mret None
  | Some p =>
      _ ← (if create then call (memcpy p (replicate (Z.to_nat size) Byte.x00)) else mret tt);
      mret (Some p)
  end.

Definition ipc_stats_init : bool -> St nio (option shm_ptr) := shm_init PROTO_MAGIC_SHM sizeof_stats.
Definition ipc_store_init : bool -> St nio (option shm_ptr) := shm_init STORE_MAGIC_SHM sizeof_store.
End Code.

(** ** What the bytes of a fresh segment mean *)

Lemma read_stats_zero : read_stats (replicate (Z.to_nat sizeof_stats) Byte.x00) = zero_stats.
Proof. reflexivity. Qed.

Lemma slice_zero off n k :
  (off + n <= k)%nat -> slice off n (replicate k Byte.x00) = replicate n Byte.x00.
Proof. intros Hk. unfold slice. rewrite drop_replicate, take_replicate. f_equal. lia. Qed.

Lemma read_entry_zero : read_entry (replicate sizeof_entry Byte.x00) = zero_entry.
Proof. vm_compute. reflexivity. Qed.

Lemma read_store_zero : read_store (replicate (Z.to_nat sizeof_store) Byte.x00) = zero_store.
Proof.
  unfold read_store, zero_store, sizeof_store. rewrite Nat2Z.id.
  apply (f_equal Build_shm_store_t).
  apply list_eq. intros i. rewrite list_lookup_fmap. destruct (decide (i < MAX_SESSIONS)%nat) as [Hi|Hi].
  - rewrite lookup_replicate_2, lookup_seq_lt by done. cbn [fmap option_fmap option_map].
    rewrite slice_zero, read_entry_zero; [done|]. nia.
  - rewrite lookup_seq_ge by lia. symmetry. apply lookup_replicate_None. lia.
Qed.

(** ** Mapping *)

Section Init.
Context `{Os} (holds : nio -> held) (objects : nio -> gmap string (list byte))
  (fd_obj : nio -> Z -> option string) (ptr_obj : shm_ptr -> string).
Context (Hoh : os_holds holds) (Hsh : os_shm objects fd_obj ptr_obj).

Lemma length_resize n bs : length (resize_bytes n bs) = Z.to_nat n.
Proof. unfold resize_bytes. rewrite length_app, length_take, length_replicate. lia. Qed.

(** The size of the object, once it has been opened. *)
Lemma truncate_run (create : bool) fd name size w r w' :
  fd_obj w fd = Some name -> is_Some (objects w !! name) ->
  (if create then ftruncate fd size else mret 0) w = (r, w') ->
  holds w' = holds w /\
  (r = 0 -> fd_obj w' fd = Some name /\
     if create then exists bs, length bs = Z.to_nat size /\
       objects w' = <[name := bs]> (objects w)
     else w' = w).
Proof.
  intros Hfd [old Hold] E. destruct create.
  - pose proof (oh_ftruncate _ Hoh fd size w) as Hh. rewrite E in Hh. split; [exact Hh|].
    intros ->. destruct (os_ftruncate _ _ _ Hsh _ _ _ _ _ Hfd E) as [Ho Hfd'].
    split; [done|]. exists (resize_bytes size old). split; [apply length_resize|].
    rewrite Ho. apply map_eq. intros k. destruct (decide (k = name)) as [->|Hne].
    + by rewrite lookup_alter_eq, lookup_insert_eq, Hold.
    + by rewrite lookup_alter_ne, lookup_insert_ne by done.
  - injection E as <- <-. by split.
Qed.

Lemma shm_init_run name size create w :
  let '(r, w') := shm_init name size create w in
  holds w' = holds w /\
  forall p, r = Some p -> ptr_obj p = name /\
    if create then objects w' = <[name := replicate (Z.to_nat size) Byte.x00]> (objects w)
    else objects w' = objects w /\ is_Some (objects w !! name).
Proof.
  unfold shm_init. set (oflags := if create then _ else _). unfold mbind, St_bind, mret, St_ret, call.
  pose proof (oh_shm_open _ Hoh name oflags S_IRUSR_IWUSR w) as Hop.
  destruct (shm_open name oflags S_IRUSR_IWUSR w) as [fd w1] eqn:Eo. unfold opens in Hop. cbn [fst snd] in Hop.
  destruct (Z.ltb_spec fd 0) as [Hfd|Hfd].
  { destruct (Z.leb_spec 0 fd); [lia|]. by split. }
  destruct (Z.leb_spec 0 fd); [|lia]. destruct Hop as [Hfresh Hh1].
  destruct (os_open _ _ _ Hsh _ _ _ _ _ _ Eo Hfd) as (Hobj & Ho1 & Hex).
  assert (is_Some (objects w1 !! name)) as Hs1.
  { rewrite Ho1. destruct (objects w !! name) eqn:E; [by rewrite E|by rewrite lookup_insert_eq]. }
  destruct ((if create then ftruncate fd size else _) w1) as [r w2] eqn:Et.
  destruct (truncate_run create fd name size w1 r w2 Hobj Hs1 Et) as [Hh2 Hr].
  assert (forall w3, holds w3 = holds w2 -> holds (close fd w3) = holds w) as Hclose.
  { intros w3 E3. rewrite (oh_close _ Hoh), E3, Hh2, Hh1. by apply del_add_fd. }
  destruct (Z.eqb_spec r 0) as [->|]; cbn [negb]; [|by split; [apply Hclose|]].
  destruct (Hr eq_refl) as [Hobj2 Hc].
  destruct (mmap size fd w2) as [q w3] eqn:Em.
  destruct (os_mmap _ _ _ Hsh _ _ _ _ _ _ Hobj2 Em) as [Ho3 Hq].
  pose proof (oh_mmap _ Hoh size fd w2) as Hh3. rewrite Em in Hh3. cbn [snd] in Hh3.
  destruct q as [p|]; [|by split; [apply Hclose|]]. specialize (Hq p eq_refl).
  pose proof (os_close _ _ _ Hsh fd w3) as Hoc. destruct create.
  - split; [rewrite (oh_memcpy _ Hoh); by apply Hclose|]. intros ? [= <-]. split; [done|].
    destruct Hc as (bs & Hl & Ho2).
    rewrite (os_memcpy _ _ _ Hsh p _ bs) by (by rewrite Hoc, Ho3, Ho2, Hq, lookup_insert_eq).
    rewrite length_replicate, drop_ge, app_nil_r by lia.
    rewrite Hq, Hoc, Ho3, Ho2, insert_insert_eq, Ho1.
    destruct (objects w !! name); [done|]. by rewrite insert_insert_eq.
  - split; [by apply Hclose|]. intros ? [= <-]. subst w2. split; [done|].
    assert (is_Some (objects w !! name)) as Hs by (by apply Hex).
    split; [|done]. rewrite Hoc, Ho3, Ho1. by destruct Hs as [? ->].
Qed.
End Init.

(** C31. Creating the two segments, as the server does when it starts: a failure
    at any call leaves no descriptor behind and returns NULL; otherwise the
    segment is mapped and reads as the empty statistics and the empty store,
    whatever an earlier server left in it.  Attaching to them without creating
    them changes nothing, and needs that they exist. *)
Theorem segments_ready `{Os} holds objects fd_obj ptr_obj create w :
  os_holds holds -> os_shm objects fd_obj ptr_obj ->
  (let '(r, w') := ipc_stats_init create w in
   holds w' = holds w /\ forall p, r = Some p ->
     if create then read_stats (mem p w') = zero_stats
     else mem p w' = mem p w /\ objects w' = objects w /\ is_Some (objects w !! PROTO_MAGIC_SHM)) /\
  (let '(r, w') := ipc_store_init create w in
   holds w' = holds w /\ forall p, r = Some p ->
     if create then read_store (mem p w') = zero_store
     else mem p w' = mem p w /\ objects w' = objects w /\ is_Some (objects w !! STORE_MAGIC_SHM)).
Proof.
  intros Hoh Hsh. split.
  - pose proof (shm_init_run holds objects fd_obj ptr_obj Hoh Hsh PROTO_MAGIC_SHM sizeof_stats create w) as Hr.
    unfold ipc_stats_init. destruct (shm_init _ _ _ w) as [r w']. destruct Hr as [Hh Hp].
    split; [done|]. intros p E. destruct (Hp p E) as [Hn Ho]. rewrite !(os_mem _ _ _ Hsh), Hn.
    destruct create; [rewrite Ho, lookup_insert_eq; apply read_stats_zero|].
    destruct Ho as [-> Hs]. done.
  - pose proof (shm_init_run holds objects fd_obj ptr_obj Hoh Hsh STORE_MAGIC_SHM sizeof_store create w) as Hr.
    unfold ipc_store_init. destruct (shm_init _ _ _ w) as [r w']. destruct Hr as [Hh Hp].
    split; [done|]. intros p E. destruct (Hp p E) as [Hn Ho]. rewrite !(os_mem _ _ _ Hsh), Hn.
    destruct create; [rewrite Ho, lookup_insert_eq; apply read_store_zero|].
    destruct Ho as [-> Hs]. done.
Qed.

(** The segment of a server that was killed, two bytes of it. *)
Definition stale : TestOs.world :=
  TestOs.upd_objs (<[PROTO_MAGIC_SHM := [Byte.x05; Byte.x07]]>) (TestOs.world0 []).

Lemma segments_ready_witness :
  let '(r, w') := ipc_stats_init (H0 := TestOs.os) true stale in
  TestOs.hold w' = TestOs.hold stale /\
  forall p, r = Some p -> read_stats (mem p w') = zero_stats.
Proof.
  destruct (segments_ready (H0 := TestOs.os) _ _ _ _ true stale TestOs.test_holds TestOs.test_shm)
    as [Hr _].
  destruct (ipc_stats_init (H0 := TestOs.os) true stale) as [r w']. exact Hr.
Defined.
