(* ===== verification/ServerMain.v ===== *)
(** * The server process

    src/server.c: [main] as a whole, with the parent's start-up, accept loop
    and shutdown and the child up to [run_session], and the signal handlers, on
    the calls of Os.v.  Server.v and System.v take over where a child has its
    session. *)

From S2P Require Export Segments.

Section Code.
Context `{Os}.

Definition log_info (msg : string) : St nio unit :=
  call (fun w => eprint ("[" +:+ hms w +:+ "] [INFO] " +:+ msg) w).

(** [on_sigchld]: [while (waitpid(-1, NULL, WNOHANG) > 0) {}]. *)
Definition reap_step (_ : unit) : St nio (unit + unit) :=
  r ← waitpid;
  mret (if 0 <? r then inl tt else inr tt).
Definition on_sigchld (fuel : nat) : StO nio unit := loopM reap_step fuel tt.

(** How a process ends: by [return] from [main] or [_exit], or, for a child, by
    going on with its session. *)
Inductive outcome :=
  | exited (code : Z)
  | in_session (c : connection_t) (stats store : shm_ptr).

(** The child.  Its test [stats && store] holds, since [main] has returned when
    a segment is missing. *)
Definition child_process (ctx : SSL_CTX) (lfd cfd : Z) (stats store : shm_ptr) : St nio outcome :=
  _ ← call (close lfd);
  _ ← net_set_timeout cfd 5;
  ssl ← SSL_new ctx;
  _ ← call (SSL_set_fd ssl cfd);
  r ← SSL_accept ssl;
  if r <=? 0 then
    _ ← ERR_print_errors;
    _ ← call (SSL_free ssl);
    _ ← call (close cfd);
    mret (exited 1)
  else mret (in_session (conn_init cfd (Some ssl)) stats store).

(** One iteration of [while (!g_stop)].  [fork] returns 0 in the child, which
    never comes back to the loop. *)
Definition accept_iter (ctx : SSL_CTX) (lfd : Z) (stats store : shm_ptr) (_ : unit) :
    St nio (unit + option outcome) :=
  stop ← g_stop;
  if stop : bool then mret (inr None) else
  cfd ← accept lfd;
  if cfd <? 0 then mret (inl tt) else
  pid ← fork;
  if pid =? 0 then
    o ← child_process ctx lfd cfd stats store;
    mret (inr (Some o))
  else if 0 <? pid then _ ← call (close cfd); mret (inl tt)
  else _ ← call (close cfd); mret (inl tt).

(** [main] up to the listening socket. *)
Definition startup (port : Z) : St nio (Z + SSL_CTX * shm_ptr * shm_ptr * Z) :=
  _ ← ssl_msg_init;
  ctx ← ssl_init_server_ctx "server.crt" "server.key";
  match ctx with
  | None => _ ← call (eprint ("Failed to init SSL context. Check certs." +:+ nl)); mret (inl 1)
  | Some ctx =>
  stats ← ipc_stats_init true;
  match stats with
  | None => _ ← call (perror "ipc_stats_init"); mret (inl 1)
  | Some stats =>
  store ← ipc_store_init true;
  match store with
  | None => _ ← call (perror "ipc_store_init"); mret (inl 1)
  | Some store =>
  lfd ← tcp_listen port;
  if lfd <? 0 then _ ← call (perror "tcp_listen"); mret (inl 1)
  else mret (inr (ctx, stats, store, lfd))
  end end end.

(** [main] after the accept loop. *)
Definition shutdown (ctx : SSL_CTX) (lfd : Z) : St nio outcome :=
  _ ← call (close lfd);
  _ ← call (SSL_CTX_free ctx);
  _ ← log_info ("[server] shutdown initiated" +:+ nl);
  _ ← call (shm_unlink PROTO_MAGIC_SHM);
  _ ← call (shm_unlink STORE_MAGIC_SHM);
  _ ← log_info ("Shared memory unlinked" +:+ nl);
  mret (exited 0).

Definition server_port (argv : list string) : Z :=
  match argv with
  | _ :: a :: _ => u16 (atoi a)
  | _ => 9000
  end.

Definition server_process (fuel : nat) (argv : list string) : StO nio outcome :=
  let port := server_port argv in
  r ← liftO (startup port);
  match r with
  | inl code => mret (exited code)
  | inr (ctx, stats, store, lfd) =>
      _ ← liftO (log_info ("[server] listen on " +:+ pretty port +:+ " (SSL)" +:+ nl));
      r ← loopM (accept_iter ctx lfd stats store) fuel tt;
      match r with
      | Some o => mret o
      | None =>
          liftO (shutdown ctx lfd)
      end
  end.
End Code.

(** ** Reaping *)

(** What the code relies on of [waitpid]: it reaps one child that has ended, if
    there is one. *)
Definition reaps `{Os} (zombies : nio -> nat) : Prop := forall w,
  let '(r, w') := waitpid w in
  if 0 <? r then zombies w = Datatypes.S (zombies w') else zombies w = O /\ zombies w' = O.

(** ** What the process holds *)

Section Holds.
Context `{Os} (holds : nio -> held) (Hoh : os_holds holds).

Lemma held_accept lfd h : triple (at_held holds h) (accept lfd) (gives_fd holds h).
Proof.
  eapply triple_conseq; [apply (held_opens holds), Hoh|done|]. intros fd w. apply opens_gives.
Qed.
Lemma held_fork h : triple (at_held holds h) fork (fun _ => at_held holds h).
Proof. apply held_keep, Hoh. Qed.
Lemma held_g_stop h : triple (at_held holds h) g_stop (fun _ => at_held holds h).
Proof. apply held_keep, Hoh. Qed.
Lemma held_ssl_accept s h : triple (at_held holds h) (SSL_accept s) (fun _ => at_held holds h).
Proof. apply held_keep, Hoh. Qed.
Lemma held_set_fd s fd h : triple (at_held holds h) (call (SSL_set_fd s fd)) (fun _ => at_held holds h).
Proof. apply (held_call holds _ (fun h => h)), Hoh. Qed.
Lemma held_ssl_new c h : triple (at_held holds h) (SSL_new c) (fun _ => at_held holds (add_ssls 1 h)).
Proof. intros w Hw. unfold at_held in *. by rewrite (oh_ssl_new _ Hoh), Hw. Qed.
Lemma held_ssl_free s h :
  triple (at_held holds (add_ssls 1 h)) (call (SSL_free s)) (fun _ => at_held holds h).
Proof.
  intros w Hw. unfold at_held in *. cbn. rewrite (oh_ssl_free _ Hoh), Hw. apply add_ssls_back.
Qed.
Lemma held_unlink n h : triple (at_held holds h) (call (shm_unlink n)) (fun _ => at_held holds h).
Proof. apply (held_call holds _ (fun h => h)), Hoh. Qed.
Lemma held_log msg h : triple (at_held holds h) (log_info msg) (fun _ => at_held holds h).
Proof. apply (held_call holds _ (fun h => h)). intros w. apply Hoh. Qed.
Lemma held_msg_init h : triple (at_held holds h) ssl_msg_init (fun _ => at_held holds h).
Proof.
  unfold ssl_msg_init. repeat (eapply triple_bind;
    [apply (held_call holds _ (fun h => h)), Hoh|intros ?; cbv beta]).
  apply (held_call holds _ (fun h => h)), Hoh.
Qed.
#[local] Hint Resolve held_accept held_fork held_g_stop held_ssl_accept held_set_fd held_ssl_new
  held_ssl_free held_unlink held_log held_msg_init : held.

(** The child gives up the listening socket, and its own if there is no session. *)
Definition child_holds (h : held) (cfd : Z) (o : outcome) (w : nio) : Prop :=
  match o with
  | exited code => code = 1 /\ at_held holds h w
  | in_session c _ _ => conn_fd c = cfd /\ at_held holds (add_ssls 1 (add_fd cfd h)) w
  end.

Lemma child_process_held ctx lfd cfd stats store h :
  (lfd ∉ h_fds h) -> (cfd ∉ h_fds (add_fd lfd h)) ->
  triple (at_held holds (add_fd cfd (add_fd lfd h))) (child_process ctx lfd cfd stats store)
    (child_holds h cfd).
Proof.
  intros Hl Hc. unfold child_process.
  eapply (triple_bind _ _ _ (fun _ => at_held holds (add_fd cfd h))).
  { intros w Hw. unfold at_held in *. cbn. rewrite (oh_close _ Hoh), Hw.
    apply del_add_fd_first; [done|]. intros ->. apply Hc. cbn. set_solver. }
  intros ?; cbv beta. eapply triple_bind; [apply (timeout_held holds Hoh)|intros r].
  apply triple_pure. intros _. held_step. held_step. held_step.
  case_match; [|by held_done]. held_step. held_step.
  eapply triple_bind; [apply (held_close_fresh holds Hoh)|intros ?; cbv beta; by held_done].
  cbn in Hc. set_solver.
Qed.

(** The parent comes back to the head of the loop with what it had there. *)
Lemma accept_iter_held ctx lfd stats store h :
  (lfd ∉ h_fds h) ->
  triple (at_held holds (add_fd lfd h)) (accept_iter ctx lfd stats store tt) (fun r w =>
    match r with
    | inl _ | inr None => at_held holds (add_fd lfd h) w
    | inr (Some o) => exists cfd, 0 <= cfd /\ (cfd ∉ h_fds h) /\ child_holds h cfd o w
    end).
Proof.
  intros Hl. unfold accept_iter. held_step. case_match; [by held_done|].
  eapply triple_bind; [apply held_accept|intros cfd; cbv beta].
  destruct (Z.ltb_spec cfd 0) as [Hc|Hc].
  { apply triple_ret. intros w [[]|[]]; [lia|done]. }
  eapply triple_conseq with (P' := fun w => (cfd ∉ h_fds (add_fd lfd h)) /\
    at_held holds (add_fd cfd (add_fd lfd h)) w); [|intros w [(? & ? & ?)|[]]; [done|lia]|by intros r w Hq; exact Hq].
  apply triple_pure. intros Hf. held_step. case_match.
  - eapply triple_bind; [by apply child_process_held|]. intros o. apply triple_ret.
    intros w Hw. exists cfd. split; [done|]. split; [cbn in Hf; set_solver|done].
  - case_match; (eapply triple_bind; [by apply (held_close_fresh holds Hoh)|intros ?; cbv beta; by held_done]).
Qed.
End Holds.

(** ** The whole process *)

Section Process.
Context `{Os} (holds : nio -> held) (objects : nio -> gmap string (list byte))
  (fd_obj : nio -> Z -> option string) (ptr_obj : shm_ptr -> string).
Context (Hoh : os_holds holds) (Hsh : os_shm objects fd_obj ptr_obj).

Lemma held_segment name size create h :
  triple (at_held holds h) (shm_init name size create) (fun _ => at_held holds h).
Proof.
  intros w Hw. pose proof (shm_init_run holds objects fd_obj ptr_obj Hoh Hsh name size create w) as Hr.
  destruct (shm_init name size create w) as [r w']. destruct Hr as [Hr _]. unfold at_held in *.
  cbn. congruence.
Qed.

Definition started (h : held) (r : Z + SSL_CTX * shm_ptr * shm_ptr * Z) (w : nio) : Prop :=
  match r with
  | inl code => code = 1 /\ h_fds (holds w) = h_fds h
  | inr (_, _, _, lfd) => (lfd ∉ h_fds h) /\ at_held holds (add_fd lfd (add_ctxs 1 h)) w
  end.

Lemma startup_held port h : triple (at_held holds h) (startup port) (started h).
Proof.
  assert (forall h' w, h_fds h' = h_fds h -> at_held holds h' w -> started h (inl 1) w) as Hf.
  { intros h' w E Hw. split; [done|]. unfold at_held in Hw. congruence. }
  unfold startup. eapply triple_bind; [by apply held_msg_init|intros ?; cbv beta].
  eapply triple_bind; [by apply server_ctx_held|intros [ctx|]; unfold gives_ctx; cbv beta].
  2:{ held_step. apply triple_ret. intros w. by apply Hf. }
  eapply triple_bind; [apply held_segment|intros [stats|]; cbv beta].
  2:{ held_step. apply triple_ret. intros w. by apply Hf. }
  eapply triple_bind; [apply held_segment|intros [store|]; cbv beta].
  2:{ held_step. apply triple_ret. intros w. by apply Hf. }
  eapply triple_bind; [by apply tcp_listen_held|intros lfd].
  destruct (Z.ltb_spec lfd 0) as [Hl|Hl].
  - eapply triple_conseq with (P' := at_held holds (add_ctxs 1 h)) (Q' := started h);
      [|intros w [[]|[]]; [lia|done]|done].
    held_step. apply triple_ret. intros w. by apply Hf.
  - apply triple_ret. intros w [(_ & Hn & Hw)|[]]; [|lia]. by split.
Qed.

Lemma shutdown_held lfd ctx h :
  (lfd ∉ h_fds h) ->
  triple (at_held holds (add_fd lfd (add_ctxs 1 h))) (shutdown ctx lfd)
    (fun o w => o = exited 0 /\ at_held holds h w).
Proof.
  intros Hl. unfold shutdown. eapply triple_bind; [by apply (held_close_fresh holds Hoh)|intros ?; cbv beta].
  held_step. eapply triple_bind; [by apply held_log|intros ?; cbv beta].
  do 2 (eapply triple_bind; [by apply held_unlink|intros ?; cbv beta]).
  eapply triple_bind; [by apply held_log|intros ?; cbv beta]. by apply triple_ret.
Qed.

(** What a process of the server holds when it is done with [main]. *)
Definition done_holds (h : held) (o : outcome) (w : nio) : Prop :=
  match o with
  | exited code => (code = 0 \/ code = 1) /\ h_fds (holds w) = h_fds h /\ (code = 0 -> holds w = h)
  | in_session c _ _ => 0 <= conn_fd c /\ (conn_fd c ∉ h_fds h) /\
      holds w = add_ssls 1 (add_fd (conn_fd c) (add_ctxs 1 h))
  end.

Lemma server_process_run fuel argv h w o w' :
  at_held holds h w -> server_process fuel argv w = Some (o, w') -> done_holds h o w'.
Proof.
  intros Hw. unfold server_process, liftO, mbind, StO_bind.
  pose proof (startup_held (server_port argv) h w Hw) as Hs.
  destruct (startup _ w) as [[code|[[[ctx stats] store] lfd]] w1]; cbn [fst snd] in Hs.
  { destruct Hs as [-> Hfd]. intros [= <- <-]. split; [by right|]. by split. }
  destruct Hs as [Hl Hw1].
  pose proof (held_log holds Hoh ("[server] listen on " +:+ pretty (server_port argv) +:+ " (SSL)" +:+ nl)
    _ w1 Hw1) as Hw2. destruct (log_info _ w1) as [[] w2]. cbn [fst snd] in Hw2.
  destruct (loopM _ fuel tt w2) as [[r w3]|] eqn:E; [|done].
  apply (loopM_triple (fun _ => at_held holds (add_fd lfd (add_ctxs 1 h))) (fun r w => match r with
      | None => at_held holds (add_fd lfd (add_ctxs 1 h)) w
      | Some o => exists cfd, 0 <= cfd /\ (cfd ∉ h_fds h) /\
          child_holds holds (add_ctxs 1 h) cfd o w
      end)) in E; [|intros []; eapply triple_conseq;
        [exact (accept_iter_held holds Hoh ctx lfd stats store (add_ctxs 1 h) Hl)|done|
         by intros [?|[o1|]] w4]|exact Hw2].
  destruct r as [o1|].
  - intros E'. injection E' as -> ->. destruct E as (cfd & Hpos & Hn & Ho).
    destruct o as [code|c p q]; destruct Ho as [Hc Ho]; unfold at_held in Ho.
    + subst code. split; [by right|]. split; [by rewrite Ho|done].
    + subst cfd. by split.
  - pose proof (shutdown_held lfd ctx h Hl w3 E) as Hd. destruct (shutdown ctx lfd w3) as [o1 w4].
    destruct Hd as [Ho Hd]. cbn in Ho. subst o1. intros [= <- <-]. unfold at_held in Hd. cbn [snd] in Hd.
    split; [by left|]. split; [by rewrite Hd|done].
Qed.
End Process.

(** ** Segments of a server that cannot listen *)

(** The calls of [tcp_listen] have nothing to do with shared segments. *)
Record os_quiet `{Os} (objects : nio -> gmap string (list byte)) : Prop := {
  oq_socket : forall d t p w, objects (socket d t p w).2 = objects w;
  oq_setsockopt : forall fd o w, objects (setsockopt fd o w).2 = objects w;
  oq_bind : forall fd a w, objects (bind fd a w).2 = objects w;
  oq_listen : forall fd n w, objects (listen fd n w).2 = objects w;
  oq_perror : forall s w, objects (perror s w) = objects w;
}.

Lemma tcp_listen_quiet `{Os} objects fd_obj ptr_obj port w :
  os_shm objects fd_obj ptr_obj -> os_quiet objects ->
  objects (tcp_listen port w).2 = objects w.
Proof.
  intros Hsh Hq. set (I := fun w' => objects w' = objects w).
  enough (triple I (tcp_listen port) (fun _ => I)) as Ht by exact (Ht w eq_refl).
  assert (forall fd, triple I (call (close fd)) (fun _ => I)) as Hcl.
  { intros fd w1 Hw. unfold I in *. cbn. by rewrite (os_close _ _ _ Hsh). }
  unfold tcp_listen. eapply (triple_bind _ _ _ (fun _ => I)); [|intros fd; case_match].
  { intros w1 Hw. unfold I in *. by rewrite (oq_socket _ Hq). }
  { by apply triple_ret. }
  eapply (triple_bind _ _ _ (fun _ => I)); [|intros ?; cbv zeta].
  { intros w1 Hw. unfold I in *. by rewrite (oq_setsockopt _ Hq). }
  eapply (triple_bind _ _ _ (fun _ => I)); [|intros ?; case_match].
  { intros w1 Hw. unfold I in *. by rewrite (oq_bind _ Hq). }
  { eapply (triple_bind _ _ _ (fun _ => I)); [apply Hcl|intros ?; by apply triple_ret]. }
  eapply (triple_bind _ _ _ (fun _ => I)); [|intros ?; case_match].
  { intros w1 Hw. unfold I in *. by rewrite (oq_listen _ Hq). }
  { eapply (triple_bind _ _ _ (fun _ => I)); [apply Hcl|intros ?; by apply triple_ret]. }
  by apply triple_ret.
Qed.

(** ** Theorems *)


(** A server that accepts two connections and is then stopped: the script lists
    what the calls return, from [SSL_CTX_new] on. *)
Definition two_connections : list Z :=
  [0; 0; 0; 0; 0; 0; 0; 0; 0; 0; 0; 0; 0; 0; 0; 0; 41; 0; 0; 42; 1].



Lemma test_quiet : os_quiet (H0 := TestOs.os) TestOs.objs.
Proof.
  split; try done. intros d t p w. cbn. unfold TestOs.open_fd.
  by destruct (TestOs.pop w <? 0).
Qed.

(** The script fails [bind], the ninth scripted call of the start-up. *)
Definition port_taken : list Z := [0; 0; 0; 0; 0; 0; 0; 0; 0; 0; 0; 0; -1].

Lemma pair_fst {A B} (p : A * B) a : p.1 = a -> p = (a, p.2).
Proof. intros <-. by destruct p. Qed.


(** The handler of SIGCHLD ends, and leaves no zombie, however many children
    have ended since the last signal. *)
Theorem sigchld_reaps `{Os} zombies fuel w :
  reaps zombies -> (zombies w < fuel)%nat ->
  exists w', on_sigchld fuel w = Some (tt, w') /\ zombies w' = O.
Proof.
  intros Hz. unfold on_sigchld, loopM. revert w. induction fuel as [|fuel IH]; intros w Hf; [lia|].
  specialize (Hz w) as Hw. cbn [loop fst snd]. unfold reap_step, mbind, St_bind, mret, St_ret.
  destruct (waitpid w) as [r w1]. destruct (Z.ltb_spec 0 r).
  - apply IH. lia.
  - exists w1. by destruct Hw.
Qed.

(** The children that the script reports. *)
Fixpoint leading (l : list Z) : nat :=
  match l with r :: l' => if 0 <? r then Datatypes.S (leading l') else O | [] => O end.

Lemma test_reaps : reaps (H0 := TestOs.os) (fun w => leading (TestOs.script w)).
Proof.
  intros [[|r l] h o f e s]; [done|]. cbn -[Z.ltb]. unfold TestOs.pop. cbn -[Z.ltb].
  destruct (0 <? r) eqn:E; cbn -[Z.ltb]; rewrite ?E; cbn -[Z.ltb]; rewrite ?E; done.
Qed.

Lemma sigchld_reaps_witness : exists w',
  on_sigchld (H0 := TestOs.os) 4 (TestOs.world0 [70; 71; 72]) = Some (tt, w') /\
  leading (TestOs.script w') = O.
Proof.
  refine (sigchld_reaps (H0 := TestOs.os) _ 4 (TestOs.world0 [70; 71; 72]) test_reaps _).
  cbn. lia.
Defined.
