(* ===== verification/Monitor.v ===== *)
(** * The monitor

    src/monitor.c: attaching to the statistics of the server and printing them
    once a second. *)

From S2P Require Export ServerMain.

Section Code.
Context `{Os}.

(** A [printf] of a text that may depend on what is in memory. *)
Definition printf (f : nio -> string) : St nio unit := call (fun w => print (f w +:+ nl) w).

(** [\033[2J\033[H] *)
Definition clear_screen : string :=
  let esc := String (Ascii.ascii_of_nat 27) EmptyString in esc +:+ "[2J" +:+ esc +:+ "[H".

(** One iteration of [while (1)]. *)
Definition monitor_step (stats : shm_ptr) (_ : unit) : St nio (unit + Z) :=
  _ ← call (print clear_screen);
  time_buf ← (fun w => (hms w, w)) : St nio string;
  _ ← printf (fun _ => "========================================");
  _ ← printf (fun w => "   TCG SERVER MONITOR (PID: " +:+ pretty (getpid w) +:+ ")   ");
  _ ← printf (fun _ => "========================================");
  _ ← printf (fun _ => " System Time        : " +:+ time_buf);
  _ ← printf (fun _ => "----------------------------------------");
  _ ← printf (fun w => " Active Connections : " +:+ pretty (total_connections (read_stats (mem stats w))));
  _ ← printf (fun w => " Total Packets Recv : " +:+ pretty (total_packets (read_stats (mem stats w))));
  _ ← printf (fun _ => "========================================");
  _ ← printf (fun _ => " [Press Ctrl+C to exit monitor]");
  _ ← call (sleep 1);
  mret (inl tt).

Definition monitor (fuel : nat) : StO nio Z :=
  stats ← liftO (ipc_stats_init false);
  match stats with
  | None =>
      _ ← liftO (call (eprint ("Error: Server is not running (Cannot attach to SHM)." +:+ nl)));
      mret 1
  | Some stats => loopM (monitor_step stats) fuel tt
  end.
End Code.

(** ** What a frame shows *)

(** The screen of a process for the given time of day and counters. *)
Definition frame (pid : Z) (time : string) (s : shm_stats_t) : list string :=
  clear_screen :: map (fun line => line +:+ nl) [
   "========================================";
   "   TCG SERVER MONITOR (PID: " +:+ pretty pid +:+ ")   ";
   "========================================";
   " System Time        : " +:+ time;
   "----------------------------------------";
   " Active Connections : " +:+ pretty (total_connections s);
   " Total Packets Recv : " +:+ pretty (total_packets s);
   "========================================";
   " [Press Ctrl+C to exit monitor]"].

(** What the monitor relies on: [print] writes to stdout and does nothing else,
    and while it sleeps the others may change the counters, but nobody prints. *)
Record os_prints `{Os} (objects : nio -> gmap string (list byte)) (out : nio -> list string) : Prop := {
  op_print : forall s w, out (print s w) = out w ++ [s];
  op_objects : forall s w, objects (print s w) = objects w;
  op_pid : forall s w, getpid (print s w) = getpid w;
  op_sleep : forall n w, out (sleep n w) = out w;
}.

Section Monitor.
Context `{Os} (objects : nio -> gmap string (list byte)) (fd_obj : nio -> Z -> option string)
  (ptr_obj : shm_ptr -> string) (out : nio -> list string).
Context (Hsh : os_shm objects fd_obj ptr_obj) (Hpr : os_prints objects out).

Lemma monitor_step_prints p w :
  (monitor_step p tt w).1 = inl tt /\
  out (monitor_step p tt w).2 =
    out w ++ frame (getpid w) (hms (print clear_screen w)) (read_stats (mem p w)).
Proof.
  unfold monitor_step, mbind, St_bind, printf, call, mret, St_ret. cbn [fst snd]. split; [done|].
  rewrite (op_sleep _ _ Hpr), !(op_print _ _ Hpr).
  rewrite !(os_mem _ _ _ Hsh), !(op_objects _ _ Hpr), !(op_pid _ _ Hpr).
  by rewrite <- !(assoc_L (++)).
Qed.

Lemma monitor_runs p fuel w : loopM (monitor_step p) fuel tt w = None.
Proof.
  unfold loopM. apply (loop_diverges _ (fun _ => True)); [|done].
  intros [[] w1] _. cbn [fst snd]. destruct (monitor_step_prints p w1) as [E _].
  destruct (monitor_step p tt w1) as [r w2]. cbn in E. subst r. by eexists.
Qed.
End Monitor.

(** ** Theorems *)

(** The monitor: without a server it says so and exits with 1; with one it
    never stops, and each of its frames shows the counters that are in the
    segment when the frame is drawn; it writes to its terminal and not to the
    segment. *)
Theorem monitor_shows `{Os} objects fd_obj ptr_obj out :
  os_shm objects fd_obj ptr_obj -> os_prints objects out ->
  (forall fuel w w', ipc_stats_init false w = (None, w') ->
     exists w'', monitor fuel w = Some (1, w'')) /\
  (forall fuel p w w', ipc_stats_init false w = (Some p, w') -> monitor fuel w = None) /\
  (forall p w, (monitor_step p tt w).1 = inl tt /\
     out (monitor_step p tt w).2 =
       out w ++ frame (getpid w) (hms (print clear_screen w)) (read_stats (mem p w))).
Proof.
  intros Hsh Hpr. splits.
  - intros fuel w w' E. unfold monitor, liftO, mbind, StO_bind. rewrite E. by eexists.
  - intros fuel p w w' E. unfold monitor, liftO, mbind, StO_bind. rewrite E.
    by apply (monitor_runs objects fd_obj ptr_obj out Hsh Hpr).
  - by apply (monitor_step_prints objects fd_obj ptr_obj out Hsh Hpr).
Qed.

Lemma test_prints : os_prints (H0 := TestOs.os) TestOs.objs TestOs.std_out.
Proof. by split. Qed.

(** A server with 3 sessions and 260 packets. *)
Definition busy : TestOs.world :=
  TestOs.upd_objs (<[PROTO_MAGIC_SHM := le_split 8 3 ++ le_split 8 260]>) (TestOs.world0 []).

Lemma monitor_shows_witness :
  TestOs.std_out (monitor_step (H0 := TestOs.os) PROTO_MAGIC_SHM tt busy).2 =
    frame 7 "12:00:00" {| total_connections := 3; total_packets := 260 |} /\
  exists w', monitor (H0 := TestOs.os) 5 (TestOs.world0 []) = Some (1, w').
Proof.
  destruct (monitor_shows (H0 := TestOs.os) _ _ _ _ TestOs.test_shm test_prints) as (Hn & _ & Hf).
  split.
  - destruct (Hf PROTO_MAGIC_SHM busy) as [_ E]. rewrite E. reflexivity.
  - apply (Hn 5%nat _ (ipc_stats_init (H0 := TestOs.os) false (TestOs.world0 [])).2).
    apply pair_fst. reflexivity.
Defined.
