(* ===== verification/Proto.v ===== *)
(** * The packet layer

    src/common/proto.c: the checksum, building and sending a packet, receiving
    and checking one. *)

From S2P Require Export Packed NetThms.

(** ** The checksum *)

(** The first loop: a 32-bit sum of the bytes. *)
Definition sum_bytes (bs : list byte) : Z :=
  foldl (fun sum b => u32 (sum + byte.unsigned b)) 0 bs.

(** One iteration of [while (sum >> 16)]. *)
Definition fold_step (sum : Z) : Z + Z :=
  if negb (Z.shiftr sum 16 =? 0)
  then inl (u32 (Z.land sum 0xFFFF + Z.shiftr sum 16))
  else inr sum.

(** Two iterations fold any 32-bit sum; the third sees that. *)
Definition fold_fuel : nat := 3.

Definition proto_checksum16 (bs : list byte) : Z :=
  match loop fold_step fold_fuel (sum_bytes bs) with
  | Some sum => u16 (Z.lnot sum)
  | None => 0
  end.

(** ** Packets *)

Definition HDR : Z := 8.
Definition STACKBUF : Z := 4096.

(** The bytes of a header, as [memcpy] takes them from the struct. *)
Definition hdr_bytes (len op ck : Z) : list byte :=
  enc pkt_hdr_codec {| hdr_len := htonl len; hdr_opcode := htons op; hdr_cksum := htons ck |}.

(** The buffer that [proto_send] builds, or [None] when it returns -1 before
    writing.  [payload_len] is the length of [payload]; [NULL, 0] is []. *)
Definition proto_frame (op : Z) (payload : list byte) : option (list byte) :=
  let total_len := u32 (HDR + Z.of_nat (length payload)) in
  if STACKBUF <? total_len then None
  else
    let buf := hdr_bytes total_len op 0 ++ payload in
    let cks := proto_checksum16 buf in
    Some (hdr_bytes total_len op cks ++ payload).

Section Proto.
Context `{NetIO}.

Definition proto_send (fuel : nat) (c : connection_t) (op : Z) (payload : list byte) :
    StO nio Z :=
  match proto_frame op payload with
  | None => mret (-1)
  | Some buf =>
      r ← conn_writen fuel c buf;
      mret (if r =? Z.of_nat (length buf) then 0 else -1)
  end.

(** [proto_recv] with a payload buffer of [cap] bytes: the opcode and the
    payload, or [None] when it returns -1. *)
Definition proto_recv (fuel : nat) (c : connection_t) (cap : Z) :
    StO nio (option (Z * list byte)) :=
  '(r, hb) ← conn_readn fuel c HDR;
  if negb (r =? HDR) then mret None else
  let h := dec pkt_hdr_codec hb in
  let total_len := ntohl (hdr_len h) in
  let op := ntohs (hdr_opcode h) in
  let got_ck := ntohs (hdr_cksum h) in
  if (total_len <? HDR) || (HDR + cap <? total_len) then mret None else
  let payload_len := total_len - HDR in
  '(r, payload) ← (if negb (payload_len =? 0) then conn_readn fuel c payload_len
                   else mret (0, []));
  if negb (r =? payload_len) then mret None else
  if STACKBUF <? total_len then mret None else
  let h2 := {| hdr_len := hdr_len h; hdr_opcode := hdr_opcode h; hdr_cksum := htons 0 |} in
  let calc := proto_checksum16 (enc pkt_hdr_codec h2 ++ payload) in
  if negb (calc =? got_ck) then mret None else
  mret (Some (op, payload)).
End Proto.

(** ** Reference definitions *)

(** The plain sum of the bytes, and its representative in 1..65535 modulo
    65535 (0 for an empty sum): ones' complement addition. *)
Definition byte_sum (bs : list byte) : Z := foldr (fun b s => byte.unsigned b + s) 0 bs.
Definition ones_sum (s : Z) : Z := if s =? 0 then 0 else (s - 1) mod 65535 + 1.
