(* ===== verification/ProtoThms.v ===== *)
(** * The packet layer: checksum, framing, round trip

    The checksum against its arithmetic definition, receiving a packet against
    [unframe], a function on the byte stream, and what the receiver accepts. *)

From S2P Require Export Proto.

(** ** The checksum *)

Lemma byte_sum_range bs : 0 <= byte_sum bs <= 255 * Z.of_nat (length bs).
Proof.
  induction bs as [|b bs IH]; simpl; [lia|].
  pose proof (byte_unsigned_range b). lia.
Qed.

Lemma byte_sum_app bs1 bs2 : byte_sum (bs1 ++ bs2) = byte_sum bs1 + byte_sum bs2.
Proof. induction bs1 as [|b bs1 IH]; simpl; lia. Qed.

(** Buffers short enough for the 32-bit sum not to wrap. *)
Definition short (bs : list byte) : Prop := Z.of_nat (length bs) <= 16843009.

Lemma sum_bytes_spec bs : short bs -> sum_bytes bs = byte_sum bs.
Proof.
  intros Hs. unfold sum_bytes.
  assert (forall a, 0 <= a -> a + 255 * Z.of_nat (length bs) < 4294967296 ->
    foldl (fun s b => u32 (s + byte.unsigned b)) a bs = a + byte_sum bs) as Hf.
  { clear Hs. induction bs as [|b bs IH]; intros a Ha Hb; simpl in *; [lia|].
    pose proof (byte_unsigned_range b).
    rewrite u32_id by mach_lia. rewrite IH by lia. lia. }
  unfold short in Hs. rewrite Hf by lia. lia.
Qed.

Lemma shiftr16 s : Z.shiftr s 16 = s / 65536.
Proof. by rewrite Z.shiftr_div_pow2. Qed.
Lemma land16 s : Z.land s 0xFFFF = s mod 65536.
Proof. change 0xFFFF with (Z.ones 16). by rewrite Z.land_ones. Qed.

Lemma fold_step_eq s :
  0 <= s < 4294967296 ->
  fold_step s = if s <? 65536 then inr s else inl (s mod 65536 + s / 65536).
Proof.
  intros Hs. unfold fold_step. rewrite shiftr16, land16.
  destruct (Z.ltb_spec s 65536).
  - rewrite Z.div_small by lia. done.
  - destruct (Z.eqb_spec (s / 65536) 0); [zlia|]. cbn [negb].
    rewrite u32_id; [done|]. unfold is_u32. zlia.
Qed.

(** Folding keeps the sum modulo 65535, and keeps it positive. *)
Lemma ones_sum_fold s : 65536 <= s -> ones_sum (s mod 65536 + s / 65536) = ones_sum s.
Proof.
  intros Hs. unfold ones_sum.
  destruct (Z.eqb_spec s 0); [lia|]. destruct (Z.eqb_spec (s mod 65536 + s / 65536) 0); [zlia|].
  f_equal. replace (s - 1) with (s mod 65536 + s / 65536 - 1 + s / 65536 * 65535) by zlia.
  by rewrite Z_mod_plus_full.
Qed.

Lemma ones_sum_small s : 0 <= s < 65536 -> ones_sum s = s.
Proof. intros Hs. unfold ones_sum. destruct (Z.eqb_spec s 0); [lia|zlia]. Qed.

Lemma fold_loop s :
  0 <= s < 4294967296 -> loop fold_step fold_fuel s = Some (ones_sum s).
Proof.
  intros Hs. unfold fold_fuel. cbn [loop]. rewrite fold_step_eq by done.
  destruct (Z.ltb_spec s 65536); [by rewrite ones_sum_small by lia|].
  set (t := s mod 65536 + s / 65536).
  assert (0 <= t <= 131070) as Ht by (unfold t; zlia).
  rewrite <- (ones_sum_fold s) by done. fold t. rewrite fold_step_eq by lia.
  destruct (Z.ltb_spec t 65536); [by rewrite ones_sum_small by lia|].
  set (q := t mod 65536 + t / 65536). assert (0 <= q < 65536) as Hq by (unfold q; zlia).
  rewrite <- (ones_sum_fold t) by done. fold q. rewrite fold_step_eq by lia.
  destruct (Z.ltb_spec q 65536); [|lia]. by rewrite ones_sum_small by lia.
Qed.

Lemma ones_sum_range s : 0 <= s -> 0 <= ones_sum s < 65536.
Proof. intros Hs. unfold ones_sum. zcase; zlia. Qed.

Lemma checksum_spec bs :
  short bs -> proto_checksum16 bs = 65535 - ones_sum (byte_sum bs).
Proof.
  intros Hs. unfold proto_checksum16. rewrite sum_bytes_spec by done.
  pose proof (byte_sum_range bs). unfold short in Hs. rewrite fold_loop by lia.
  pose proof (ones_sum_range (byte_sum bs)). unfold u16, Z.lnot. zlia.
Qed.

Lemma checksum_u16 bs : is_u16 (proto_checksum16 bs).
Proof. unfold proto_checksum16. case_match; [apply u16_range|done]. Qed.
#[export] Hint Resolve checksum_u16 : mach.

(** Sums that differ by less than 65535 have different checksums. *)
Lemma ones_sum_inj s t :
  0 <= s -> 0 <= t -> s <> t -> Z.abs (s - t) < 65535 -> ones_sum s <> ones_sum t.
Proof.
  intros Hs Ht Hne Hd. unfold ones_sum. repeat zcase; zlia.
Qed.

(** ** Headers *)

Lemma hdr_wf len op ck :
  cwf pkt_hdr_codec {| hdr_len := htonl len; hdr_opcode := htons op; hdr_cksum := htons ck |}.
Proof.
  cbn. pose proof (htonl_range len). pose proof (htons_range op). pose proof (htons_range ck).
  splits; mach_lia.
Qed.

Lemma hdr_bytes_length len op ck : length (hdr_bytes len op ck) = 8%nat.
Proof. apply (enc_length pkt_hdr_codec), hdr_wf. Qed.

Lemma frame_length op payload buf :
  proto_frame op payload = Some buf -> length buf = (8 + length payload)%nat.
Proof.
  unfold proto_frame. case_match; [done|]. generalize (proto_checksum16).
  intros ck Hb. apply (f_equal (fun o => length (default [] o))) in Hb.
  cbn [default from_option id] in Hb. rewrite <- Hb.
  by rewrite length_app, hdr_bytes_length.
Qed.

Lemma frame_Some op payload :
  Z.of_nat (length payload) <= STACKBUF - HDR ->
  proto_frame op payload = Some (
    hdr_bytes (HDR + Z.of_nat (length payload)) op
      (proto_checksum16 (hdr_bytes (HDR + Z.of_nat (length payload)) op 0 ++ payload))
    ++ payload).
Proof.
  unfold proto_frame, STACKBUF, HDR. intros Hl. rewrite u32_id by mach_lia.
  destruct (Z.ltb_spec 4096 (8 + Z.of_nat (length payload))); [lia|done].
Qed.

(** ** The stream of packets, abstractly

    [unframe cap bs] is what receiving one packet from the stream [bs] means:
    the opcode, the payload and the rest of the stream, or [None]. *)

Definition unframe (cap : Z) (bs : list byte) : option (Z * list byte * list byte) :=
  if Z.of_nat (length bs) <? HDR then None else
  let h := dec pkt_hdr_codec (take 8 bs) in
  let total := ntohl (hdr_len h) in
  if (total <? HDR) || (HDR + cap <? total) || (STACKBUF <? total) then None else
  let plen := Z.to_nat (total - HDR) in
  let rest := drop 8 bs in
  if Z.of_nat (length rest) <? total - HDR then None else
  let payload := take plen rest in
  let h2 := {| hdr_len := hdr_len h; hdr_opcode := hdr_opcode h; hdr_cksum := htons 0 |} in
  if proto_checksum16 (enc pkt_hdr_codec h2 ++ payload) =? ntohs (hdr_cksum h)
  then Some (ntohs (hdr_opcode h), payload, drop plen rest)
  else None.

Lemma dec_hdr_bytes len op ck :
  dec pkt_hdr_codec (hdr_bytes len op ck) =
    {| hdr_len := htonl len; hdr_opcode := htons op; hdr_cksum := htons ck |}.
Proof. apply dec_enc, hdr_wf. Qed.

(** Receiving a header-and-payload buffer: accepted exactly when the checksum
    field is right. *)
Lemma unframe_buffer cap op ck payload rest :
  is_u16 op -> is_u16 ck -> Z.of_nat (length payload) <= STACKBUF - HDR ->
  Z.of_nat (length payload) <= cap ->
  unframe cap ((hdr_bytes (HDR + Z.of_nat (length payload)) op ck ++ payload) ++ rest) =
    if proto_checksum16 (hdr_bytes (HDR + Z.of_nat (length payload)) op 0 ++ payload) =? ck
    then Some (op, payload, rest) else None.
Proof.
  intros Hop Hck Hmax Hcap. unfold unframe, STACKBUF in *. rewrite <- (assoc_L (++)).
  rewrite length_app, hdr_bytes_length, take_app_length', drop_app_length'
    by (by rewrite hdr_bytes_length).
  destruct (Z.ltb_spec (Z.of_nat (8 + length (payload ++ rest))) HDR);
    [unfold HDR in *; lia|].
  rewrite dec_hdr_bytes. cbn [hdr_len hdr_opcode hdr_cksum].
  rewrite ntohl_htonl by (unfold is_u32, HDR in *; lia).
  rewrite !ntohs_htons by done.
  destruct (Z.ltb_spec (HDR + Z.of_nat (length payload)) HDR); [lia|].
  destruct (Z.ltb_spec (HDR + cap) (HDR + Z.of_nat (length payload))); [lia|].
  destruct (Z.ltb_spec 4096 (HDR + Z.of_nat (length payload))); [lia|]. cbn [orb].
  replace (HDR + Z.of_nat (length payload) - HDR) with (Z.of_nat (length payload)) by lia.
  rewrite Nat2Z.id, length_app.
  destruct (Z.ltb_spec (Z.of_nat (length payload + length rest)) (Z.of_nat (length payload)));
    [lia|]. by rewrite take_app_length, drop_app_length.
Qed.

Lemma unframe_frame cap op payload buf rest :
  is_u16 op -> proto_frame op payload = Some buf ->
  Z.of_nat (length payload) <= STACKBUF - HDR -> Z.of_nat (length payload) <= cap ->
  unframe cap (buf ++ rest) = Some (op, payload, rest).
Proof.
  intros Hop Hf Hmax Hcap. rewrite frame_Some in Hf by done.
  assert (buf = default [] (Some buf)) as -> by done. rewrite <- Hf.
  cbn [default from_option id].
  rewrite unframe_buffer by auto with mach. by rewrite Z.eqb_refl.
Qed.

(** ** Receiving over a session *)

Section Receive.
Context `{NetIO} (ssl : SSL_t) (incoming outgoing : nio -> list byte) (stalls : nio -> nat).
Context (Hok : ssl_reads ssl incoming outgoing stalls).
Context (c : connection_t) (Hc : conn_ssl c = Some ssl).

(** [conn_readn] as a lemma: what it returns with enough fuel. *)
Lemma conn_readn_run n w0 :
  0 <= n < 2147483648 ->
  exists fuel rv bs w, (forall m, (fuel <= m)%nat ->
      conn_readn m c n w0 = Some ((rv, bs), w)) /\
    ((rv = n /\ Z.of_nat (length bs) = n /\ incoming w0 = bs ++ incoming w /\
        outgoing w = outgoing w0) \/
     (Z.of_nat (length (incoming w0)) < n /\ rv = -1 /\ outgoing w = outgoing w0)).
Proof.
  intros Hn. destruct (ssl_read_loop ssl incoming outgoing stalls Hok (fun _ => -1) n w0 Hn)
    as (fuel & rv & bs & w & Hl & Hr).
  exists fuel, rv, bs, w. split.
  - intros m Hm. unfold conn_readn. rewrite Hc. by eapply loop_mono.
  - destruct Hr as [?|(? & ? & r & _ & ->)]; auto.
Qed.
(** The read of the payload, skipped when it is empty. *)
Lemma payload_read_run n w0 :
  0 <= n < 2147483648 ->
  exists fuel rv bs w, (forall m, (fuel <= m)%nat ->
      (if negb (n =? 0) then conn_readn m c n else mret (0, [])) w0 = Some ((rv, bs), w)) /\
    ((rv = n /\ Z.of_nat (length bs) = n /\ incoming w0 = bs ++ incoming w /\
        outgoing w = outgoing w0) \/
     (Z.of_nat (length (incoming w0)) < n /\ rv <> n /\ outgoing w = outgoing w0)).
Proof.
  intros Hn. destruct (Z.eqb_spec n 0) as [->|Hne]; cbn [negb].
  - exists 0%nat, 0, [], w0. split; [done|]. by left.
  - destruct (conn_readn_run n w0 Hn) as (fuel & rv & bs & w & Hr & Hres).
    exists fuel, rv, bs, w. split; [done|]. destruct Hres as [|(? & -> & ?)]; [by left|right; splits; [done|lia|done]].
Qed.

(** [proto_recv] with enough fuel is [unframe]. *)
Lemma proto_recv_run cap w0 :
  0 <= cap < 1073741824 ->
  exists fuel r w, (forall m, (fuel <= m)%nat -> proto_recv m c cap w0 = Some (r, w)) /\
    match unframe cap (incoming w0) with
    | Some (op, payload, rest) =>
        r = Some (op, payload) /\ incoming w = rest /\ outgoing w = outgoing w0
    | None => r = None /\ outgoing w = outgoing w0
    end.
Proof.
  intros Hcap. unfold proto_recv, unframe.
  destruct (conn_readn_run HDR w0) as (f1 & rv & hb & w1 & H1 & Hr1); [unfold HDR; lia|].
  destruct Hr1 as [(-> & Hhb & Hin & Hout)|(Hlt & -> & Hout)]; swap 1 2.
  { exists f1, None, w1. split.
    - intros m Hm. by rewrite (StO_bind_Some _ _ _ _ _ (H1 m Hm)).
    - by destruct (Z.ltb_spec (Z.of_nat (length (incoming w0))) HDR); [|lia]. }
  rewrite Hin, take_app_length', drop_app_length' by (unfold HDR in *; lia).
  rewrite length_app.
  destruct (Z.ltb_spec (Z.of_nat (length hb + length (incoming w1))) HDR); [lia|].
  set (h := dec pkt_hdr_codec hb). set (total := ntohl (hdr_len h)).
  destruct ((total <? HDR) || (HDR + cap <? total)) eqn:Eb.
  { exists f1, None, w1. split; [|done].
    intros m Hm. rewrite (StO_bind_Some _ _ _ _ _ (H1 m Hm)). cbn [negb].
    rewrite Z.eqb_refl. cbn [negb]. fold h total. by rewrite Eb. }
  apply orb_false_iff in Eb as Hb. destruct Hb as [Hlo Hhi].
  apply Z.ltb_ge in Hlo, Hhi.
  destruct (payload_read_run (total - HDR) w1) as (f2 & rv & p & w2 & H2 & Hr2);
    [unfold HDR in *; lia|].
  set (r := if negb (rv =? total - HDR) then None else
    if STACKBUF <? total then None else
    if negb (proto_checksum16 (enc pkt_hdr_codec {| hdr_len := hdr_len h;
         hdr_opcode := hdr_opcode h; hdr_cksum := htons 0 |} ++ p) =? ntohs (hdr_cksum h))
    then None else Some (ntohs (hdr_opcode h), p)).
  assert (outgoing w2 = outgoing w0) as Ho2.
  { destruct Hr2 as [(_ & _ & _ & E)|(_ & _ & E)]; congruence. }
  exists (f1 `max` f2)%nat, r, w2. split.
  - intros m Hm. rewrite (StO_bind_Some _ _ _ _ _ (H1 m ltac:(lia))).
    rewrite Z.eqb_refl. cbn [negb]. cbv zeta. fold h total. rewrite Eb.
    rewrite (StO_bind_Some _ _ _ _ _ (H2 m ltac:(lia))). unfold r.
    by repeat (case_match; try done).
  - unfold r. cbn [orb].
    destruct (STACKBUF <? total); [split; [by destruct (rv =? total - HDR)|done]|].
    destruct Hr2 as [(-> & Hp & Hi2 & _)|(Hlt & Hne & _)].
    + rewrite Z.eqb_refl, Hi2. cbn [negb].
      rewrite length_app. destruct (Z.ltb_spec (Z.of_nat (length p + length (incoming w2)))
        (total - HDR)); [lia|].
      replace (Z.to_nat (total - HDR)) with (length p) by lia.
      rewrite take_app_length, drop_app_length.
      by destruct (_ =? ntohs (hdr_cksum h)).
    + destruct (Z.eqb_spec rv (total - HDR)); [done|]. cbn [negb].
      by destruct (Z.ltb_spec (Z.of_nat (length (incoming w1))) (total - HDR)); [|lia].
Qed.
End Receive.

(** ** Sending over a session *)

Lemma proto_send_run `{NetIO} ssl incoming outgoing stalls c op payload buf w0 :
  ssl_writes ssl incoming outgoing stalls -> conn_ssl c = Some ssl ->
  proto_frame op payload = Some buf ->
  exists fuel w, (forall m, (fuel <= m)%nat -> proto_send m c op payload w0 = Some (0, w)) /\
    outgoing w = outgoing w0 ++ buf /\ incoming w = incoming w0.
Proof.
  intros Hok Hc Hf.
  destruct (ssl_write_loop ssl incoming outgoing stalls Hok buf w0) as (fuel & w & Hl & Ho).
  exists fuel, w. split; [|done]. intros m Hm. unfold proto_send. rewrite Hf.
  assert (conn_writen m c buf w0 = Some (Z.of_nat (length buf), w)) as Hw.
  { unfold conn_writen. rewrite Hc. by eapply loop_mono. }
  rewrite (StO_bind_Some _ _ _ _ _ Hw). by rewrite Z.eqb_refl.
Qed.

(** ** Sums of changed payloads *)

Lemma byte_sum_insert l i b b' :
  l !! i = Some b ->
  byte_sum (<[i := b']> l) = byte_sum l - byte.unsigned b + byte.unsigned b'.
Proof.
  revert i. induction l as [|a l IH]; intros i Hi; [done|]. destruct i as [|i].
  - injection Hi as ->. change (<[0%nat := b']> (b :: l)) with (b' :: l).
    unfold byte_sum. simpl. lia.
  - specialize (IH i Hi). change (<[S i := b']> (a :: l)) with (a :: <[i := b']> l).
    unfold byte_sum in *. simpl. lia.
Qed.

Lemma byte_sum_perm l l' : l ≡ₚ l' -> byte_sum l = byte_sum l'.
Proof. induction 1; simpl; lia. Qed.

Lemma frame_short len op ck payload :
  Z.of_nat (length payload) <= STACKBUF - HDR -> short (hdr_bytes len op ck ++ payload).
Proof.
  unfold short, STACKBUF, HDR. intros Hl. rewrite length_app, hdr_bytes_length. lia.
Qed.

(** ** Theorems *)

(** C26. The checksum is the ones' complement of the ones' complement sum of
    the bytes, for every buffer short enough for the 32-bit sum: the folding
    loop terminates within [fold_fuel] iterations and computes the
    representative of the sum modulo 65535. *)
Theorem checksum_reference bs :
  Z.of_nat (length bs) <= 16843009 ->
  loop fold_step fold_fuel (sum_bytes bs) = Some (ones_sum (byte_sum bs)) /\
  proto_checksum16 bs = 65535 - ones_sum (byte_sum bs).
Proof.
  intros Hs. split; [|by apply checksum_spec].
  rewrite sum_bytes_spec by done. pose proof (byte_sum_range bs). apply fold_loop. lia.
Qed.

Lemma checksum_reference_witness : proto_checksum16 (str "Mini TCG") = 64884.
Proof.
  destruct (checksum_reference (str "Mini TCG")) as [_ ->]; [cbn; lia|]. reflexivity.
Defined.


Definition demo_frame : list byte := default [] (proto_frame OP_PLAY_CARD [Byte.x02]).
Definition demo_rx : nio (NetIO := TestNet.net) :=
  {| TestNet.inq := [TestNet.Rec (take 3 demo_frame); TestNet.Wait;
                     TestNet.Rec (drop 3 demo_frame ++ str "next")];
     TestNet.outq := []; TestNet.err := 0 |}.


(** Corruption: a packet whose payload was changed in one byte, or whose
    checksum field was changed at all, is rejected by the receiver. *)
Theorem corrupt_packet_rejected op payload cap rest i b b' ck :
  is_u16 op -> Z.of_nat (length payload) <= STACKBUF - HDR ->
  Z.of_nat (length payload) <= cap ->
  let len := HDR + Z.of_nat (length payload) in
  let good := proto_checksum16 (hdr_bytes len op 0 ++ payload) in
  proto_frame op payload = Some (hdr_bytes len op good ++ payload) /\
  (payload !! i = Some b -> b' <> b ->
     unframe cap ((hdr_bytes len op good ++ <[i := b']> payload) ++ rest) = None) /\
  (is_u16 ck -> ck <> good -> unframe cap ((hdr_bytes len op ck ++ payload) ++ rest) = None).
Proof.
  intros Hop Hmax Hcap len good. subst len good. splits.
  - by apply frame_Some.
  - intros Hi Hne. pose proof (length_insert payload i b') as Hlen.
    replace (length payload) with (length (<[i := b']> payload)) at 1 2 by done.
    rewrite unframe_buffer by (rewrite ?Hlen; auto with mach).
    rewrite Hlen. case_match eqn:E; [|done]. apply Z.eqb_eq in E.
    rewrite !checksum_spec in E by (apply frame_short; rewrite ?Hlen; done).
    rewrite !byte_sum_app, (byte_sum_insert _ _ _ _ Hi) in E.
    set (hs := byte_sum (hdr_bytes _ _ _)) in E.
    pose proof (byte_sum_range (hdr_bytes (HDR + Z.of_nat (length payload)) op 0)).
    pose proof (byte_sum_range payload) as Hp.
    pose proof (byte_sum_range (<[i := b']> payload)) as Hp'.
    rewrite (byte_sum_insert _ _ _ _ Hi) in Hp'.
    pose proof (byte_unsigned_range b). pose proof (byte_unsigned_range b').
    assert (byte.unsigned b <> byte.unsigned b') by (intros ?%byte.unsigned_inj; congruence).
    exfalso. eapply (ones_sum_inj (hs + (byte_sum payload - byte.unsigned b + byte.unsigned b'))
      (hs + byte_sum payload)); unfold hs in *; lia.
  - intros Hck Hne. rewrite unframe_buffer by done.
    destruct (Z.eqb_spec (proto_checksum16
      (hdr_bytes (HDR + Z.of_nat (length payload)) op 0 ++ payload)) ck); [congruence|done].
Qed.

Lemma corrupt_packet_rejected_witness :
  unframe 1024 ((hdr_bytes 9 OP_PLAY_CARD
    (proto_checksum16 (hdr_bytes 9 OP_PLAY_CARD 0 ++ [Byte.x02])) ++ [Byte.x01]) ++ []) = None.
Proof.
  apply (corrupt_packet_rejected OP_PLAY_CARD [Byte.x02] 1024 [] 0 Byte.x02 Byte.x01 0);
    try done; by_decide.
Defined.

(** The checksum's limit: it depends on the sum only, so a payload whose
    bytes arrive in another order is accepted under the original header. *)
Theorem reordered_packet_accepted op payload payload' cap rest buf :
  is_u16 op -> Z.of_nat (length payload) <= STACKBUF - HDR ->
  Z.of_nat (length payload) <= cap -> proto_frame op payload = Some buf ->
  payload ≡ₚ payload' ->
  unframe cap (take 8 buf ++ payload' ++ rest) = Some (op, payload', rest).
Proof.
  intros Hop Hmax Hcap Hf Hp. pose proof (Permutation_length Hp) as Hlen.
  rewrite frame_Some in Hf by done.
  replace buf with (default [] (Some buf)) by done. rewrite <- Hf.
  cbn [default from_option id]. rewrite take_app_length' by (by rewrite hdr_bytes_length).
  rewrite (assoc_L (++)), Hlen.
  rewrite unframe_buffer by (rewrite <- ?Hlen; auto with mach).
  rewrite !checksum_spec by (apply frame_short; by rewrite <- ?Hlen).
  rewrite !byte_sum_app, (byte_sum_perm _ _ Hp). by rewrite Z.eqb_refl.
Qed.

Lemma reordered_packet_accepted_witness :
  exists buf, proto_frame OP_RESUME_REQ (str "abcdefgh") = Some buf /\
    unframe 1024 (take 8 buf ++ str "badcfehg" ++ []) =
      Some (opcode OP_RESUME_REQ, str "badcfehg", []).
Proof.
  eexists. split; [reflexivity|].
  apply (reordered_packet_accepted OP_RESUME_REQ (str "abcdefgh")); try done.
  by_decide.
Defined.


