(* ===== verification/Wire.v ===== *)
(** * Packets on a TLS connection implement the queue of packets

    The sessions and the clients are verified over the interface [Channel].
    Here the packet layer of Proto.v over a connection of Net.v is shown to
    simulate the queue of packets of Session.v, which is an instance of that
    interface: the bytes still to be received are the frames of the inbox, the
    bytes handed to the transport are the frames of the outbox. *)

From S2P Require Export ProtoThms Session.

(** A packet that fits one frame. *)
Definition packet_fits (p : Z * list byte) : Prop :=
  is_u16 p.1 /\ Z.of_nat (length p.2) <= STACKBUF - HDR.

(** The bytes of a sequence of packets. *)
Definition wire (ps : list (Z * list byte)) : list byte :=
  concat ((fun p => default [] (proto_frame p.1 p.2)) <$> ps).

Lemma wire_app ps qs : wire (ps ++ qs) = wire ps ++ wire qs.
Proof. unfold wire. by rewrite fmap_app, concat_app. Qed.

Lemma wire_cons op payload ps :
  wire ((op, payload) :: ps) = default [] (proto_frame op payload) ++ wire ps.
Proof. done. Qed.

Lemma unframe_nil cap : unframe cap [] = None.
Proof. done. Qed.

(** The receiver's buffer is too small for the packet. *)
Lemma unframe_too_long cap op payload rest :
  packet_fits (op, payload) -> cap < Z.of_nat (length payload) ->
  unframe cap (default [] (proto_frame op payload) ++ rest) = None.
Proof.
  intros [Hop Hl] Hcap. cbn [fst snd] in *. rewrite frame_Some by done. cbn [default from_option id].
  rewrite <- (assoc_L (++)). unfold unframe, STACKBUF in *.
  rewrite length_app, hdr_bytes_length, take_app_length' by (by rewrite hdr_bytes_length).
  destruct (Z.ltb_spec (Z.of_nat (8 + length (payload ++ rest))) HDR); [done|].
  rewrite dec_hdr_bytes. cbn [hdr_len]. rewrite ntohl_htonl by (unfold is_u32, HDR in *; lia).
  destruct (Z.ltb_spec (HDR + Z.of_nat (length payload)) HDR); [done|].
  by destruct (Z.ltb_spec (HDR + cap) (HDR + Z.of_nat (length payload))); [|lia].
Qed.

Section Wire.
Context `{NetIO} (ssl : SSL_t) (incoming outgoing : nio -> list byte) (stalls : nio -> nat).
Context (Hrd : ssl_reads ssl incoming outgoing stalls).
Context (Hwr : ssl_writes ssl incoming outgoing stalls).
Context (c : connection_t) (Hc : conn_ssl c = Some ssl).

(** The connection in transport state [w] carries the queue [q]. *)
Record carries (q : Queue.chan) (w : nio) : Prop := {
  ca_fits : Forall packet_fits (Queue.inbox q);
  ca_in : incoming w = wire (Queue.inbox q);
  ca_out : outgoing w = wire (Queue.outbox q);
}.

Lemma carries_send q w op payload :
  carries q w -> packet_fits (op, payload) ->
  exists fuel w', (forall m, (fuel <= m)%nat ->
      proto_send m c op payload w = Some ((ch_send op payload q).1, w')) /\
    carries (ch_send op payload q).2 w'.
Proof.
  intros [Hf Hi Ho] [Hop Hl]. cbn [fst snd] in *.
  destruct (proto_send_run ssl incoming outgoing stalls c op payload _ w Hwr Hc
    (frame_Some op payload Hl)) as (fuel & w' & Hs & Hout & Hin).
  exists fuel, w'. unfold ch_send, Queue.channel.
  destruct (Nat.ltb_spec 4088 (length payload)); [unfold STACKBUF, HDR in Hl; lia|].
  split; [exact Hs|]. cbn [snd]. split; cbn [Queue.inbox Queue.outbox]; [done|congruence|].
  rewrite Hout, wire_app, Ho, wire_cons, frame_Some by done.
  change (wire []) with (@nil byte). rewrite app_nil_r. reflexivity.
Qed.

Lemma carries_recv q w cap :
  carries q w -> 0 <= cap < 1073741824 ->
  exists fuel w', (forall m, (fuel <= m)%nat ->
      proto_recv m c cap w = Some ((ch_recv cap q).1, w')) /\
    outgoing w' = wire (Queue.outbox q) /\
    (is_Some (ch_recv cap q).1 -> carries (ch_recv cap q).2 w').
Proof.
  intros [Hf Hi Ho] Hcap. destruct q as [inb outb]. cbn [Queue.inbox Queue.outbox] in *.
  destruct (proto_recv_run ssl incoming outgoing stalls Hrd c Hc cap w Hcap)
    as (fuel & r & w' & Hr & Hu).
  exists fuel, w'. rewrite Hi in Hu. destruct Hf as [|[op payload] q [Hop Hl] Hf].
  - change (wire []) with (@nil byte) in Hu. rewrite unframe_nil in Hu. destruct Hu as [-> Hu].
    splits; [exact Hr|congruence|]. by intros [? ?].
  - rewrite wire_cons in Hu. cbn [fst snd] in Hop, Hl. unfold ch_recv, Queue.channel.
    cbn [Queue.inbox Queue.outbox].
    destruct (Z.ltb_spec cap (Z.of_nat (length payload))) as [Hc'|Hc']; cbn [fst snd].
    + rewrite unframe_too_long in Hu by done. destruct Hu as [-> Hu].
      splits; [exact Hr|congruence|]. by intros [? ?].
    + rewrite (unframe_frame cap op payload _ _ Hop) in Hu;
        [|by rewrite frame_Some|done|done].
      destruct Hu as (-> & Hin & Hout). splits; [exact Hr|congruence|]. intros _.
      split; cbn [Queue.inbox Queue.outbox]; [done|done|congruence].
Qed.
End Wire.

(** ** Theorems *)

(** The packet layer over TLS implements the packet queue that sessions and
    clients are verified with: from a connection that carries a queue, sending
    and receiving return what the queue's operations return, also when the
    packet is too long for the buffer or nothing more comes, and leave a
    connection that carries the resulting queue; a failed receive writes
    nothing. *)
Theorem wire_refines_queue `{NetIO} ssl incoming outgoing stalls c q w :
  ssl_reads ssl incoming outgoing stalls -> ssl_writes ssl incoming outgoing stalls ->
  conn_ssl c = Some ssl -> carries incoming outgoing q w ->
  (forall op payload, packet_fits (op, payload) ->
     exists fuel w', (forall m, (fuel <= m)%nat ->
         proto_send m c op payload w = Some ((ch_send op payload q).1, w')) /\
       carries incoming outgoing (ch_send op payload q).2 w') /\
  (forall cap, 0 <= cap < 1073741824 ->
     exists fuel w', (forall m, (fuel <= m)%nat ->
         proto_recv m c cap w = Some ((ch_recv cap q).1, w')) /\
       outgoing w' = wire (Queue.outbox q) /\
       (is_Some (ch_recv cap q).1 -> carries incoming outgoing (ch_recv cap q).2 w')).
Proof.
  intros Hrd Hwr Hc Hq. split.
  - intros op payload. by apply (carries_send ssl incoming outgoing stalls).
  - intros cap. by apply (carries_recv ssl incoming outgoing stalls).
Qed.

Definition demo_queue : Queue.chan :=
  {| Queue.inbox := [(opcode OP_PLAY_CARD, [Byte.x02])]; Queue.outbox := [] |}.

Lemma wire_refines_queue_witness :
  exists f w, proto_recv f TestNetOk.conn0 1024
    {| TestNet.inq := [TestNet.Rec (take 3 demo_frame); TestNet.Wait;
                       TestNet.Rec (drop 3 demo_frame)];
       TestNet.outq := []; TestNet.err := 0 |} =
    Some (Some (opcode OP_PLAY_CARD, [Byte.x02]), w).
Proof.
  set (w0 := {| TestNet.inq := _; TestNet.outq := _; TestNet.err := _ |}).
  assert (carries (H := TestNet.net) TestNet.incoming TestNet.outq demo_queue w0) as Hq.
  { split; [|reflexivity..]. apply Forall_singleton. split; [by_decide|done]. }
  destruct (wire_refines_queue (H := TestNet.net) tt _ _ _ TestNetOk.conn0 demo_queue w0
    TestNetOk.test_reads TestNetOk.test_writes eq_refl Hq) as [_ Hr].
  destruct (Hr 1024) as (f & w & Hf & _ & _); [done|]. exists f, w. by apply Hf.
Defined.
