(* ===== verification/SessionSim.v ===== *)
(** * A session over two connections

    The session of Session.v uses its connection through the class [Channel]
    only.  So when one connection simulates another, a session over the first
    does what the session over the second does, call by call.  The first
    connection may need fuel: it is a family of channels, of which every one
    from some amount on has to agree. *)

From S2P Require Export SessionThms.

Section Sim.
Context `{Libc} {C1 C2 : Type} (ch : nat -> Channel C1) `{Channel C2}.

(** [live]: both connections can be used; [dead]: nothing more can be
    received; [gone]: closed.  [ok] holds as long as the second connection was
    used in the way that the first can follow. *)
Context (live dead gone : C1 -> C2 -> Prop) (ok : C2 -> Prop).

Hypothesis live_dead : forall c1 c2, live c1 c2 -> dead c1 c2.
Hypothesis ok_send : forall op payload c2, ok (ch_send op payload c2).2 -> ok c2.
Hypothesis ok_recv : forall cap c2, ok (ch_recv cap c2).2 -> ok c2.
Hypothesis ok_close : forall c2, ok (ch_close c2) -> ok c2.
Hypothesis sim_ch_send : forall op payload c1 c2,
  live c1 c2 -> ok (ch_send op payload c2).2 ->
  exists fuel c1', (forall m, (fuel <= m)%nat ->
      ch_send (Channel := ch m) op payload c1 = ((ch_send op payload c2).1, c1')) /\
    live c1' (ch_send op payload c2).2.
Hypothesis sim_ch_recv : forall c1 c2,
  live c1 c2 -> ok (ch_recv 1024 c2).2 ->
  exists fuel c1', (forall m, (fuel <= m)%nat ->
      ch_recv (Channel := ch m) 1024 c1 = ((ch_recv 1024 c2).1, c1')) /\
    match (ch_recv 1024 c2).1 with
    | Some _ => live c1' (ch_recv 1024 c2).2
    | None => dead c1' (ch_recv 1024 c2).2
    end.
Hypothesis sim_ch_close : forall c1 c2,
  dead c1 c2 -> exists c1', (forall m, ch_close (Channel := ch m) c1 = c1') /\
    gone c1' (ch_close c2).

(** Two workers that differ in their connections only. *)
Definition alike (P : C1 -> C2 -> Prop) (w1 : world C1) (w2 : world C2) : Prop :=
  P (w_conn w1) (w_conn w2) /\
  w1 = World (w_conn w1) (w_env w2) (w_stats w2) (w_store w2).

(** From alike workers, the first computation eventually returns what the
    second returns, and leaves alike workers. *)
Definition follows {A} (P : C1 -> C2 -> Prop) (k : nat -> St (world C1) A) (q : St (world C2) A)
    (Q : A -> C1 -> C2 -> Prop) : Prop :=
  (forall w2, ok (w_conn (q w2).2) -> ok (w_conn w2)) /\
  (forall w1 w2, alike P w1 w2 -> ok (w_conn (q w2).2) ->
     exists fuel w1', (forall m, (fuel <= m)%nat -> k m w1 = ((q w2).1, w1')) /\
       alike (Q (q w2).1) w1' (q w2).2).

(** *** The rules *)

Lemma follows_ret {A} (a : A) P (Q : A -> C1 -> C2 -> Prop) :
  (forall c1 c2, P c1 c2 -> Q a c1 c2) -> follows P (fun _ => mret a) (mret a) Q.
Proof.
  intros HQ. split; [done|]. intros w1 w2 [HP Hw] _. exists 0%nat, w1.
  split; [done|]. split; [by apply HQ|done].
Qed.

Lemma follows_bind {A B} P (k : nat -> St (world C1) A) (q : St (world C2) A)
    (R : A -> C1 -> C2 -> Prop) (k' : nat -> A -> St (world C1) B) (q' : A -> St (world C2) B) Q :
  follows P k q R -> (forall a, follows (R a) (fun m => k' m a) (q' a) Q) ->
  follows P (fun m => k m ≫= k' m) (q ≫= q') Q.
Proof.
  intros [Ho Hs] Hk. unfold mbind, St_bind. split.
  - intros w2. specialize (Ho w2). destruct (q w2) as [a w2']. intros Hok.
    apply Ho, (proj1 (Hk a)), Hok.
  - intros w1 w2 Hw. specialize (Hs w1 w2 Hw). destruct (q w2) as [a w2'].
    intros Hok. cbn [fst snd] in Hs.
    destruct Hs as (f & w1' & Hf & Hw'); [by apply (proj1 (Hk a))|].
    destruct (proj2 (Hk a) w1' w2' Hw' Hok) as (f' & w1'' & Hf' & Hw'').
    exists (f `max` f')%nat, w1''. split; [|done]. intros m Hm.
    rewrite Hf by lia. by apply Hf'; lia.
Qed.

(** A call that keeps the connections alike is one that does not end the
    session. *)
Lemma follows_conn {A} P (k : nat -> St C1 A) (q : St C2 A) (Q : A -> C1 -> C2 -> Prop) :
  (forall c2, ok (q c2).2 -> ok c2) ->
  (forall c1 c2, P c1 c2 -> ok (q c2).2 ->
     exists fuel c1', (forall m, (fuel <= m)%nat -> k m c1 = ((q c2).1, c1')) /\
       Q (q c2).1 c1' (q c2).2) ->
  follows P (fun m => on_conn (k m)) (on_conn q) Q.
Proof.
  intros Ho Hs. unfold on_conn. split.
  - intros w2. specialize (Ho (w_conn w2)). by destruct (q (w_conn w2)).
  - intros w1 w2 [HP ->]. specialize (Hs (w_conn w1) (w_conn w2) HP).
    destruct (q (w_conn w2)) as [a c2]. cbn [fst snd w_conn w_env w_stats w_store] in *.
    intros Hok. destruct (Hs Hok) as (f & c1 & Hf & HQ).
    eexists f, _. split; [intros m Hm; by rewrite Hf|]. by split.
Qed.

Lemma follows_env {A} P (m : St env A) : follows P (fun _ => on_env m) (on_env m) (fun _ => P).
Proof.
  unfold on_env. split.
  - intros w2. by destruct (m (w_env w2)).
  - intros w1 w2 [HP ->] _. cbn [w_env w_conn w_stats w_store].
    destruct (m (w_env w2)) as [a e]. eexists 0%nat, _. by split; [done|].
Qed.

Lemma follows_store {A} P (m : shm_store_t -> St env (A * shm_store_t)) :
  follows P (fun _ => on_store m) (on_store m) (fun _ => P).
Proof.
  unfold on_store. split.
  - intros w2. by destruct (m (w_store w2) (w_env w2)) as [[? ?] ?].
  - intros w1 w2 [HP ->] _. cbn [w_env w_conn w_stats w_store].
    destruct (m (w_store w2) (w_env w2)) as [[a s] e]. eexists 0%nat, _. by split; [done|].
Qed.

Lemma follows_stats P f : follows P (fun _ => on_stats f) (on_stats f) (fun _ => P).
Proof.
  split; [done|]. intros w1 w2 [HP ->] _. eexists 0%nat, _. by split; [done|].
Qed.

(** *** The calls and the handlers *)

Lemma follows_send op payload :
  follows live (fun m => send (H0 := ch m) op payload) (send op payload) (fun _ => live).
Proof.
  apply follows_conn; [intros c2; apply ok_send|]. intros c1 c2. apply sim_ch_send.
Qed.

Lemma follows_recv :
  follows live (fun m => recv (H0 := ch m)) recv
    (fun p => match p with Some _ => live | None => dead end).
Proof.
  apply follows_conn; [intros c2; apply ok_recv|]. intros c1 c2 Hl Hok.
  destruct (sim_ch_recv c1 c2 Hl Hok) as (f & c1' & Hf & HQ). exists f, c1'.
  split; [done|]. by destruct (ch_recv 1024 c2).1.
Qed.

Lemma follows_close :
  follows dead (fun m => close_conn (H0 := ch m)) close_conn (fun _ => gone).
Proof.
  apply follows_conn; [exact ok_close|]. intros c1 c2 Hd _.
  destruct (sim_ch_close c1 c2 Hd) as (c1' & Hf & HQ). exists 0%nat, c1'.
  split; [|done]. intros m _. by rewrite Hf.
Qed.

Lemma follows_weaken {A} (P P' : C1 -> C2 -> Prop) (k : nat -> St (world C1) A) q Q :
  (forall c1 c2, P c1 c2 -> P' c1 c2) -> follows P' k q Q -> follows P k q Q.
Proof.
  intros HP [Ho Hs]. split; [done|]. intros w1 w2 [Hp E]. apply Hs. by split; [apply HP|].
Qed.

Lemma follows_close_live :
  follows live (fun m => close_conn (H0 := ch m)) close_conn (fun _ => gone).
Proof. eapply follows_weaken; [exact live_dead|apply follows_close]. Qed.

Create HintDb follows.
#[local] Hint Resolve follows_send follows_close follows_close_live follows_env follows_store
  follows_stats : follows.

(** Follow a computation along its code. *)
Ltac follow :=
  repeat (cbv beta zeta; match goal with
    | |- follows _ (fun m => mbind _ _) _ _ =>
        eapply follows_bind; [solve [eauto with follows nocore]|intros ?]
    | |- follows _ (fun m => mret _) _ _ => apply follows_ret; solve [auto]
    | |- follows _ (fun m => if ?b then _ else _) _ _ => destruct b
    | |- follows _ (fun m => let '(_, _) := ?x in _) _ _ => destruct x
    | |- follows _ _ _ _ => solve [eauto with follows nocore]
    end).

Lemma follows_err_send code msg :
  follows live (fun m => err_send (H0 := ch m) code msg) (err_send code msg) (fun _ => live).
Proof. apply follows_send. Qed.
#[local] Hint Resolve follows_err_send : follows.

Lemma follows_send_game st hand :
  follows live (fun m => send_game (H0 := ch m) st hand) (send_game st hand) (fun _ => live).
Proof. unfold send_game. follow. Qed.
#[local] Hint Resolve follows_send_game : follows.

(** What an iteration of the handshake leaves. *)
Definition hs_conn {A B} (r : A + option B) : C1 -> C2 -> Prop :=
  match r with inr None => gone | _ => live end.

Lemma follows_login st hand :
  follows live (fun m => handshake_login (H0 := ch m) st hand) (handshake_login st hand) hs_conn.
Proof. unfold handshake_login, alloc, save. follow. Qed.

Lemma follows_resume payload st hand :
  follows live (fun m => handshake_resume (H0 := ch m) payload st hand)
    (handshake_resume payload st hand) hs_conn.
Proof. unfold handshake_resume, load. follow. Qed.

Lemma follows_ai sid st hand :
  follows live (fun _ => ai_if_due sid st hand) (ai_if_due sid st hand) (fun _ => live).
Proof. unfold ai_if_due, save. follow. Qed.
#[local] Hint Resolve follows_login follows_resume follows_ai : follows.

Lemma follows_play sid payload st hand :
  follows live (fun m => on_play_card (H0 := ch m) sid payload st hand)
    (on_play_card sid payload st hand) (fun _ => live).
Proof.
  unfold on_play_card, save. follow.
  eapply (follows_bind _ _ _ (fun _ => live)); [|intros ?; follow].
  follow.
Qed.

Lemma follows_end_turn sid st hand :
  follows live (fun m => on_end_turn (H0 := ch m) sid st hand)
    (on_end_turn sid st hand) (fun _ => live).
Proof. unfold on_end_turn, save. follow. Qed.
#[local] Hint Resolve follows_play follows_end_turn : follows.

Lemma follows_dispatch sid op payload st hand :
  follows live (fun m => dispatch (H0 := ch m) sid op payload st hand)
    (dispatch sid op payload st hand) (fun _ => live).
Proof. unfold dispatch. follow. Qed.
#[local] Hint Resolve follows_dispatch : follows.

Lemma follows_handshake v :
  follows live (fun m => handshake_step (H0 := ch m) v) (handshake_step v) hs_conn.
Proof.
  destruct v as [st hand]. unfold handshake_step.
  eapply follows_bind; [apply follows_recv|]. intros [[op payload]|]; follow.
Qed.

Lemma follows_main sid v :
  follows live (fun m => main_step (H0 := ch m) sid v) (main_step sid v)
    (fun r => match r with inl _ => live | inr _ => dead end).
Proof.
  destruct v as [st hand]. unfold main_step.
  eapply follows_bind; [apply follows_ai|]. intros [st1 hand1].
  eapply follows_bind; [apply follows_recv|]. intros [[op payload]|]; unfold touch; follow.
Qed.

(** *** The loops *)

Lemma ok_loop {S R} (body : S -> St (world C2) (S + R)) fuel s w2 r w2' :
  (forall s w, ok (w_conn (body s w).2) -> ok (w_conn w)) ->
  loopM body fuel s w2 = Some (r, w2') -> ok (w_conn w2') -> ok (w_conn w2).
Proof.
  intros Hb E. refine (loopM_triple (fun _ w => ok (w_conn w) -> ok (w_conn w2))
    (fun _ w => ok (w_conn w) -> ok (w_conn w2)) body fuel s w2 r w2' _ (fun Ho => Ho) E).
  intros s1 w1 Hw. specialize (Hb s1 w1). destruct (body s1 w1) as [[?|?] w3]; cbn in *; auto.
Qed.

Lemma follows_loop {S R} P (Q : R -> C1 -> C2 -> Prop)
    (body1 : nat -> S -> St (world C1) (S + R)) (body2 : S -> St (world C2) (S + R)) fuel :
  (forall s, follows P (fun m => body1 m s) (body2 s)
     (fun x => match x with inl _ => P | inr r => Q r end)) ->
  forall s w1 w2 r w2', alike P w1 w2 -> loopM body2 fuel s w2 = Some (r, w2') ->
    ok (w_conn w2') ->
    exists f w1', (forall m, (f <= m)%nat -> loopM (body1 m) fuel s w1 = Some (r, w1')) /\
      alike (Q r) w1' w2'.
Proof.
  intros Hb. induction fuel as [|fuel IH]; intros s w1 w2 r w2' Hw E Hok; [done|].
  unfold loopM in *. cbn [loop fst snd] in *.
  destruct (Hb s) as [_ Hs]. specialize (Hs w1 w2 Hw).
  destruct (body2 s w2) as [[s'|r'] w3] eqn:Eb; cbn [fst snd] in *.
  - destruct Hs as (f & w1' & Hf & Hw').
    { apply (ok_loop body2 fuel s' w3 r w2'); [|exact E|done]. intros s1 w. apply (Hb s1). }
    destruct (IH _ _ _ _ _ Hw' E Hok) as (f' & w1'' & Hf' & Hw'').
    exists (f `max` f')%nat, w1''. split; [|done].
    intros m Hm. rewrite Hf by lia. apply Hf'. lia.
  - injection E as -> ->. destruct (Hs Hok) as (f & w1' & Hf & Hw').
    exists f, w1'. split; [|done]. intros m Hm. by rewrite Hf.
Qed.

(** The session over the first connection eventually is the session over the
    second. *)
Lemma follows_session fuel w1 w2 w2' :
  alike live w1 w2 -> run_session fuel w2 = Some (tt, w2') -> ok (w_conn w2') ->
  exists f w1', (forall m, (f <= m)%nat ->
      run_session (H0 := ch m) fuel w1 = Some (tt, w1')) /\ alike gone w1' w2'.
Proof.
  intros Hw E Hok. unfold run_session in *.
  assert (alike live (seed_rand w1).2 (seed_rand w2).2) as Hw0.
  { destruct Hw as [HP ->]. unfold seed_rand, on_env. cbn [w_env w_conn w_stats w_store].
    case_match. by split. }
  revert Hw0 E. generalize (seed_rand w1).2, (seed_rand w2).2. clear Hw w1 w2.
  intros w1 w2 Hw E. unfold session_loops, mbind, StO_bind in *.
  destruct (loopM handshake_step fuel _ w2) as [[r w3]|] eqn:E1; [|done].
  destruct r as [[[sid st] hand]|].
  - destruct (loopM (main_step sid) fuel _ w3) as [[[] w4]|] eqn:E2; [|done].
    injection E as E. assert (ok (w_conn w4)) as Hok4.
    { apply ok_close. by rewrite <- E in Hok. }
    assert (ok (w_conn w3)) as Hok3.
    { eapply ok_loop; [|exact E2|exact Hok4]. intros s w. apply (follows_main sid s). }
    destruct (follows_loop live (fun r => hs_conn (@inr unit _ r)) _ _ fuel follows_handshake
      _ _ _ _ _ Hw E1 Hok3) as (f1 & w1' & Hf1 & Hw1).
    destruct (follows_loop live (fun _ => dead) _ _ fuel (follows_main sid)
      _ _ _ _ _ Hw1 E2 Hok4) as (f2 & w1'' & Hf2 & Hw2).
    destruct (proj2 follows_close w1'' w4 Hw2) as (f3 & w1''' & Hf3 & Hw3).
    { by rewrite <- E in Hok. }
    exists (f1 `max` (f2 `max` f3))%nat, w1'''. split; [|by rewrite <- E].
    intros m Hm. rewrite Hf1, Hf2 by lia. unfold close_session. by rewrite Hf3 by lia.
  - injection E as <-.
    destruct (follows_loop live (fun r => hs_conn (@inr unit _ r)) _ _ fuel follows_handshake
      _ _ _ _ _ Hw E1 Hok) as (f1 & w1' & Hf1 & Hw1).
    exists f1, w1'. split; [|done]. intros m Hm. by rewrite Hf1.
Qed.
End Sim.
