(* ===== verification/WireSession.v ===== *)
(** * A session on a TLS connection

    The session of Session.v over the packet layer of Proto.v and the
    connection of Net.v, down to the bytes.  Whatever bytes the peer sends, the
    worker does what it does over the queue of the packets that those bytes
    spell, and the bytes it writes are the frames of the packets it sends. *)

From S2P Require Export Wire SessionSim SessionProps.

(** ** The packets in a stream of bytes *)

(** What a receiver with a buffer of 1024 bytes reads from a stream, up to the
    first packet that [proto_recv] rejects. *)
Fixpoint deframe (fuel : nat) (bs : list byte) : list (Z * list byte) :=
  match fuel with
  | O => []
  | Datatypes.S fuel' =>
      match unframe 1024 bs with
      | Some (op, payload, rest) => (op, payload) :: deframe fuel' rest
      | None => []
      end
  end.

Definition packets (bs : list byte) : list (Z * list byte) := deframe (length bs) bs.

(** A packet takes a header's bytes at least, and its payload fits. *)
Lemma unframe_shorter cap bs op payload rest :
  unframe cap bs = Some (op, payload, rest) ->
  (length rest < length bs)%nat /\ Z.of_nat (length payload) <= cap.
Proof.
  unfold unframe. destruct (Z.ltb_spec (Z.of_nat (length bs)) HDR) as [|Hb]; [done|]. cbv zeta.
  set (h := dec pkt_hdr_codec (take 8 bs)). clearbody h.
  set (total := ntohl (hdr_len h)). clearbody total.
  set (op' := ntohs (hdr_opcode h)). clearbody op'.
  destruct (Z.ltb_spec total HDR); [done|].
  destruct (Z.ltb_spec (HDR + cap) total); [done|].
  destruct (STACKBUF <? total); [done|]. cbn [orb].
  destruct (_ <? _); [done|]. destruct (_ =? _); [|done]. intros [= _ <- <-].
  rewrite !length_drop, length_take. unfold HDR in *. lia.
Qed.

Lemma deframe_enough n m bs :
  (length bs <= n)%nat -> (length bs <= m)%nat -> deframe n bs = deframe m bs.
Proof.
  revert m bs. induction n as [|n IH]; intros [|m] bs Hn Hm; [done|..];
    try (destruct bs; [by rewrite ?unframe_nil|cbn in *; lia]).
  cbn [deframe]. destruct (unframe 1024 bs) as [[[op payload] rest]|] eqn:E; [|done].
  apply unframe_shorter in E as [? _]. f_equal. apply IH; lia.
Qed.

Lemma packets_unframe bs :
  packets bs = match unframe 1024 bs with
               | Some (op, payload, rest) => (op, payload) :: packets rest
               | None => []
               end.
Proof.
  unfold packets. destruct (unframe 1024 bs) as [[[op payload] rest]|] eqn:E.
  - pose proof (unframe_shorter _ _ _ _ _ E) as [? _].
    destruct (length bs) as [|n] eqn:En; [lia|]. cbn [deframe]. rewrite E.
    f_equal. apply deframe_enough; lia.
  - destruct (length bs); [done|]. cbn [deframe]. by rewrite E.
Qed.

(** The frames of packets that fit are read back. *)
Lemma packets_wire ps rest :
  Forall (fun p => is_u16 p.1 /\ Z.of_nat (length p.2) <= 1024) ps ->
  packets (wire ps ++ rest) = ps ++ packets rest.
Proof.
  induction 1 as [|[op payload] ps [Hop Hl] _ IH]; [done|]. cbn [fst snd] in *.
  rewrite wire_cons, packets_unframe, <- (assoc_L (++)).
  assert (Z.of_nat (length payload) <= STACKBUF - HDR) by (unfold STACKBUF, HDR; lia).
  rewrite (unframe_frame 1024 op payload _ _ Hop); [|by rewrite frame_Some|done|done].
  cbn [app]. by rewrite IH.
Qed.

(** ** The connection as a channel

    [proto_recv], [proto_send] and [conn_close] on a connection and the state
    of the transport.  Their loops have fuel; [None] is a worker that is still
    inside one of them. *)

Definition bchan `{NetIO} : Type := option (connection_t * nio).

Definition byte_channel `{NetIO} (m : nat) : Channel bchan := {|
  ch_recv cap s :=
    match s with
    | Some (c, w) =>
        match proto_recv m c cap w with
        | Some (r, w') => (r, Some (c, w'))
        | None => (None, None)
        end
    | None => (None, None)
    end;
  ch_send op payload s :=
    match s with
    | Some (c, w) =>
        match proto_send m c op payload w with
        | Some (r, w') => (r, Some (c, w'))
        | None => (-1, None)
        end
    | None => (-1, None)
    end;
  ch_close s :=
    match s with
    | Some (c, w) => Some (conn_close c w)
    | None => None
    end;
|}.

(** Ending a session writes no application data. *)
Record ssl_ends `{NetIO} (ssl : SSL_t) (outgoing : nio -> list byte) : Prop := {
  se_shutdown : forall w, outgoing (SSL_shutdown ssl w) = outgoing w;
  se_free : forall w, outgoing (SSL_free ssl w) = outgoing w;
  se_close : forall fd w, outgoing (close fd w) = outgoing w;
}.

(** ** A queue that remembers whether every packet fitted

    Its history starts with a mark that cannot be sent, and is forgotten when a
    packet too long for a frame is sent.  No session takes back what it sent
    ([run_session_safe]), so the mark is still there when it ends: it has sent
    no such packet. *)

Module Marked.
Record chan := { queue : Queue.chan; history : list (Z * list byte) }.

Definition mark : Z * list byte := (0, replicate 4089 Byte.x00).
Definition marked (c : chan) : Prop := head (history c) = Some mark.

#[global] Instance channel : Channel chan := {|
  ch_recv cap c := ((ch_recv cap (queue c)).1,
    {| queue := (ch_recv cap (queue c)).2; history := history c |});
  ch_send op payload c := ((ch_send op payload (queue c)).1,
    {| queue := (ch_send op payload (queue c)).2;
       history := if (4088 <? length payload)%nat then []
                  else history c ++ [(op, payload)] |});
  ch_close c := {| queue := ch_close (queue c); history := history c |};
|}.

Lemma recv_eq cap (c : chan) :
  ch_recv cap c = ((ch_recv cap (queue c)).1,
    {| queue := (ch_recv cap (queue c)).2; history := history c |}).
Proof. reflexivity. Qed.

Lemma send_eq op payload (c : chan) :
  ch_send op payload c = ((ch_send op payload (queue c)).1,
    {| queue := (ch_send op payload (queue c)).2;
       history := if (4088 <? length payload)%nat then []
                  else history c ++ [(op, payload)] |}).
Proof. reflexivity. Qed.

#[global] Program Instance channel_ok : ChannelOK chan := {| sent := history |}.
Next Obligation.
  intros op payload c Hl. rewrite send_eq. cbn [snd history].
  by destruct (Nat.ltb_spec 4088 (length payload)); [lia|].
Qed.
Next Obligation. intros cap c. by rewrite recv_eq. Qed.
Next Obligation. done. Qed.

#[global] Program Instance channel_fin : ChannelFin chan := {| pending c := pending (queue c) |}.
Next Obligation. intros c p. rewrite recv_eq. apply pending_recv. Qed.
Next Obligation. intros c. rewrite recv_eq. apply pending_fail. Qed.
Next Obligation. intros op payload c. rewrite send_eq. apply pending_send. Qed.
Next Obligation. intros c. apply pending_close. Qed.

Lemma marked_send op payload c : marked (ch_send op payload c).2 ->
  marked c /\ (length payload <= 4088)%nat.
Proof.
  destruct c as [q h]. rewrite send_eq. unfold marked. cbn [snd queue history].
  destruct (Nat.ltb_spec 4088 (length payload)) as [|Hl]; [done|]. intros Hm. split; [|done].
  destruct h as [|p h]; [|done].
  apply (f_equal (fun o => length (default mark o).2)) in Hm.
  change (length payload = length (replicate 4089 Byte.x00)) in Hm.
  rewrite length_replicate in Hm. lia.
Qed.

Lemma marked_recv cap c : marked (ch_recv cap c).2 -> marked c.
Proof. by rewrite recv_eq. Qed.
End Marked.

(** The queue and the marked queue. *)
Section Unmark.
Context `{Libc}.

Lemma unmark_session fuel (w2 w2' : world Marked.chan) :
  run_session fuel w2 = Some (tt, w2') ->
  run_session fuel (World (Marked.queue (w_conn w2)) (w_env w2) (w_stats w2) (w_store w2)) =
    Some (tt, World (Marked.queue (w_conn w2')) (w_env w2') (w_stats w2') (w_store w2')).
Proof.
  intros E. pose (same c1 c2 := c1 = Marked.queue c2).
  destruct (follows_session (fun _ => Queue.channel) same same same (fun _ => True))
    with (fuel := fuel) (w1 := World (Marked.queue (w_conn w2)) (w_env w2) (w_stats w2) (w_store w2))
      (w2 := w2) (w2' := w2') as (f & w1' & Hf & Hw); try done; unfold same.
  - intros op payload c1 c2 -> _. exists 0%nat. rewrite Marked.send_eq.
    destruct (ch_send op payload (Marked.queue c2)) as [r q]. by exists q.
  - intros c1 c2 -> _. exists 0%nat. rewrite Marked.recv_eq.
    destruct (ch_recv 1024 (Marked.queue c2)) as [[?|] q]; by exists q.
  - intros c1 c2 ->. by eexists.
  - destruct Hw as [Hq Hw]. cbn in Hq. rewrite (Hf f (le_n f)), Hw. by rewrite Hq.
Qed.
End Unmark.

(** ** The bytes and the queue *)

Section Bytes.
Context `{LibcOK} `{NetIO} (ssl : SSL_t) (incoming outgoing : nio -> list byte)
  (stalls : nio -> nat).
Context (Hrd : ssl_reads ssl incoming outgoing stalls).
Context (Hwr : ssl_writes ssl incoming outgoing stalls).
Context (Hend : ssl_ends ssl outgoing).
Context (c0 : connection_t) (Hc0 : conn_ssl c0 = Some ssl) (out0 : list byte).

(** [out0] was written before the session. *)
Definition wrote (w : nio) (q : Marked.chan) : Prop :=
  outgoing w = out0 ++ wire (Queue.outbox (Marked.queue q)).

Definition conn_live (s : bchan) (q : Marked.chan) : Prop :=
  exists w, s = Some (c0, w) /\ wrote w q /\
    Queue.inbox (Marked.queue q) = packets (incoming w).
Definition conn_dead (s : bchan) (q : Marked.chan) : Prop :=
  exists w, s = Some (c0, w) /\ wrote w q.
Definition conn_gone (s : bchan) (q : Marked.chan) : Prop :=
  exists c w, s = Some (c, w) /\ conn_ssl c = None /\ conn_fd c < 0 /\ wrote w q.

Lemma queue_send op payload inb outb :
  (length payload <= 4088)%nat ->
  ch_send op payload {| Queue.inbox := inb; Queue.outbox := outb |} =
    (0, {| Queue.inbox := inb; Queue.outbox := outb ++ [(op, payload)] |}).
Proof.
  intros Hl. unfold ch_send, Queue.channel.
  by destruct (Nat.ltb_spec 4088 (length payload)); [lia|].
Qed.

Lemma queue_recv inb outb op payload :
  Z.of_nat (length payload) <= 1024 ->
  ch_recv 1024 {| Queue.inbox := (op, payload) :: inb; Queue.outbox := outb |} =
    (Some (op, payload), {| Queue.inbox := inb; Queue.outbox := outb |}).
Proof.
  intros Hl. unfold ch_recv, Queue.channel. cbn [Queue.inbox Queue.outbox].
  by destruct (Z.ltb_spec 1024 (Z.of_nat (length payload))); [lia|].
Qed.

Lemma queue_eof outb :
  ch_recv 1024 {| Queue.inbox := []; Queue.outbox := outb |} =
    (None, {| Queue.inbox := []; Queue.outbox := outb |}).
Proof. reflexivity. Qed.

Lemma conn_live_dead s q : conn_live s q -> conn_dead s q.
Proof. intros (w & ? & ? & _). by exists w. Qed.

Lemma conn_live_send op payload s q :
  conn_live s q -> Marked.marked (ch_send op payload q).2 ->
  exists fuel s', (forall m, (fuel <= m)%nat ->
      ch_send (Channel := byte_channel m) op payload s = ((ch_send op payload q).1, s')) /\
    conn_live s' (ch_send op payload q).2.
Proof.
  intros (w & -> & Hw & Hin) Hm. apply Marked.marked_send in Hm as [_ Hl].
  assert (Z.of_nat (length payload) <= STACKBUF - HDR) as Hz by (unfold STACKBUF, HDR; lia).
  destruct (proto_send_run ssl incoming outgoing stalls c0 op payload _ w Hwr Hc0
    (frame_Some op payload Hz)) as (f & w' & Hs & Hout & Hi).
  exists f, (Some (c0, w')). destruct q as [[inb outb] h]. unfold wrote in *.
  rewrite Marked.send_eq. cbn [Marked.queue Queue.inbox Queue.outbox] in *.
  rewrite queue_send by done. cbn [fst snd].
  split; [intros m Hm; cbn; by rewrite Hs|]. exists w'. unfold wrote. split; [done|].
  cbn [Marked.queue Queue.inbox Queue.outbox]. split; [|congruence].
  rewrite Hout, Hw, wire_app, wire_cons, <- (assoc_L (++)), frame_Some by done.
  change (wire []) with (@nil byte). by rewrite app_nil_r.
Qed.

Lemma conn_live_recv s q :
  conn_live s q -> exists fuel s', (forall m, (fuel <= m)%nat ->
      ch_recv (Channel := byte_channel m) 1024 s = ((ch_recv 1024 q).1, s')) /\
    match (ch_recv 1024 q).1 with
    | Some _ => conn_live s' (ch_recv 1024 q).2
    | None => conn_dead s' (ch_recv 1024 q).2
    end.
Proof.
  intros (w & -> & Hw & Hin).
  destruct (proto_recv_run ssl incoming outgoing stalls Hrd c0 Hc0 1024 w)
    as (f & r & w' & Hr & Hu); [lia|].
  exists f, (Some (c0, w')). destruct q as [[inb outb] h]. unfold wrote in *.
  rewrite Marked.recv_eq. cbn [Marked.queue Queue.inbox Queue.outbox] in *. rewrite packets_unframe in Hin.
  destruct (unframe 1024 (incoming w)) as [[[op payload] rest]|] eqn:E.
  - destruct Hu as (-> & Hi & Ho). apply unframe_shorter in E as [_ Hl]. subst inb.
    rewrite queue_recv by done. cbn [fst snd].
    split; [intros m Hm; cbn; by rewrite Hr|]. exists w'. unfold wrote.
    cbn [Marked.queue Queue.inbox Queue.outbox]. splits; congruence.
  - destruct Hu as [-> Ho]. subst inb. rewrite queue_eof. cbn [fst snd].
    split; [intros m Hm; cbn; by rewrite Hr|]. exists w'. unfold wrote.
    cbn [Marked.queue Queue.inbox Queue.outbox]. split; congruence.
Qed.

Lemma conn_dead_close s q :
  conn_dead s q ->
  exists s', (forall m, ch_close (Channel := byte_channel m) s = s') /\
    conn_gone s' (ch_close q).
Proof.
  intros (w & -> & Hw). exists (Some (conn_close c0 w)). split; [done|].
  set (w1 := SSL_free ssl (SSL_shutdown ssl w)).
  assert (outgoing w1 = outgoing w) as Hw1
    by (unfold w1; by rewrite (se_free _ _ Hend), (se_shutdown _ _ Hend)).
  unfold conn_close. rewrite Hc0. fold w1. cbn [conn_fd conn_ssl].
  destruct (Z.leb_spec 0 (conn_fd c0)); eexists _, _; (split; [reflexivity|]);
    cbn [conn_fd conn_ssl]; (split; [reflexivity|]); (split; [lia|]); unfold wrote in *;
    rewrite ?(se_close _ _ Hend), Hw1; exact Hw.
Qed.
End Bytes.

(** ** Theorems *)


Lemma test_ends : ssl_ends (H := TestNet.net) tt TestNet.outq.
Proof. by split. Qed.

(** A login, cut into two records with a timeout in between. *)
Definition login_stream : TestNet.world :=
  let frame := default [] (proto_frame OP_LOGIN_REQ []) in
  {| TestNet.inq := [TestNet.Rec (take 3 frame); TestNet.Wait; TestNet.Rec (drop 3 frame)];
     TestNet.outq := []; TestNet.err := 0 |}.

