(* ===== verification/ConnHeld.v ===== *)
(** * What a connection holds

    Sending and receiving packets takes and gives up no resources, and
    [conn_close] gives up the session and the descriptor of a connection; so a
    process that closes its connection is left with what it had before. *)

From S2P Require Export ServerMain WireSession.

Section ConnHeld.
Context `{Os} (holds : nio -> held) (Hoh : os_holds holds).

(** A computation that may run out of fuel and holds on to nothing. *)
Definition neutral {A} (m : StO nio A) : Prop :=
  forall w a w', m w = Some (a, w') -> holds w' = holds w.

Lemma neutral_ret {A} (a : A) : neutral (mret a).
Proof. by intros w a' w' [= _ <-]. Qed.

Lemma neutral_bind {A B} (m : StO nio A) (k : A -> StO nio B) :
  neutral m -> (forall a, neutral (k a)) -> neutral (m ≫= k).
Proof.
  intros Hm Hk w b w'. unfold mbind, StO_bind. destruct (m w) as [[a w1]|] eqn:E; [|done].
  intros E'. by rewrite (Hk a _ _ _ E'), (Hm _ _ _ E).
Qed.

(** A loop whose variables end in the state. *)
Lemma neutral_loop {S R} (step : S * nio -> S * nio + R * nio) fuel s w r w' :
  (forall s w, match step (s, w) with
     | inl (_, w') | inr (_, w') => holds w' = holds w end) ->
  loop step fuel (s, w) = Some (r, w') -> holds w' = holds w.
Proof.
  intros Hs E. refine (loop_inv step (fun v => holds v.2 = holds w) (fun v => holds v.2 = holds w)
    fuel (s, w) (r, w') _ _ eq_refl E).
  - intros [s1 w1] [s2 w2] Hw E1. specialize (Hs s1 w1). rewrite E1 in Hs. cbn in *. congruence.
  - intros [s1 w1] [r2 w2] Hw E1. specialize (Hs s1 w1). rewrite E1 in Hs. cbn in *. congruence.
Qed.

Lemma conn_readn_neutral m c n : neutral (conn_readn m c n).
Proof.
  intros w r w' E. unfold conn_readn, readn in E. destruct (conn_ssl c) as [ssl|];
    refine (neutral_loop _ _ _ _ _ _ _ E); intros [lft buf] w1.
  - unfold ssl_read_step. destruct (0 <? lft); [|done].
    pose proof (oh_ssl_read _ Hoh ssl (i32 lft) w1) as Hh.
    destruct (SSL_read ssl (i32 lft) w1) as [[k bs] w2]. cbn in Hh.
    by repeat match goal with |- context [if ?b then _ else _] => destruct b end.
  - unfold read_step. destruct (0 <? lft); [|done].
    pose proof (oh_read _ Hoh (conn_fd c) lft w1) as Hh.
    destruct (read (conn_fd c) lft w1) as [[k bs] w2]. cbn in Hh.
    by repeat match goal with |- context [if ?b then _ else _] => destruct b end.
Qed.

Lemma conn_writen_neutral m c bs : neutral (conn_writen m c bs).
Proof.
  intros w r w' E. unfold conn_writen, ssl_writen, writen in E. destruct (conn_ssl c) as [ssl|];
    refine (neutral_loop _ _ _ _ _ _ _ E); intros p w1.
  - unfold ssl_write_step. destruct (0 <? _); [|done].
    pose proof (oh_ssl_write _ Hoh ssl p w1) as Hh.
    destruct (SSL_write ssl p w1) as [k w2]. cbn in Hh.
    by repeat match goal with |- context [if ?b then _ else _] => destruct b end.
  - unfold write_step. destruct (0 <? _); [|done].
    pose proof (oh_write _ Hoh (conn_fd c) p w1) as Hh.
    destruct (write (conn_fd c) p w1) as [k w2]. cbn in Hh.
    by repeat match goal with |- context [if ?b then _ else _] => destruct b end.
Qed.

Lemma proto_send_neutral m c op payload : neutral (proto_send m c op payload).
Proof.
  unfold proto_send. case_match; [|apply neutral_ret].
  apply neutral_bind; [apply conn_writen_neutral|]. intros r. apply neutral_ret.
Qed.

Lemma proto_recv_neutral m c cap : neutral (proto_recv m c cap).
Proof.
  unfold proto_recv. apply neutral_bind; [apply conn_readn_neutral|]. intros [r hb].
  case_match; [apply neutral_ret|]. cbv zeta. case_match; [apply neutral_ret|].
  apply neutral_bind; [case_match; [apply conn_readn_neutral|apply neutral_ret]|].
  intros [r2 payload]. by repeat (case_match; [apply neutral_ret|]); apply neutral_ret.
Qed.

(** *** On the channel of WireSession.v

    A connection on which the process holds [h]; out of fuel, nothing is
    claimed. *)
Definition chan_holds (c : connection_t) (h : held) (s : bchan) : Prop :=
  match s with Some (c', w) => c' = c /\ holds w = h | None => True end.

Lemma chan_recv_holds m c h cap s :
  chan_holds c h s -> chan_holds c h (ch_recv (Channel := byte_channel m) cap s).2.
Proof.
  destruct s as [[c' w]|]; [|done]. intros [-> Hw]. cbn.
  destruct (proto_recv m c cap w) as [[r w']|] eqn:E; [|done].
  split; [done|]. by rewrite (proto_recv_neutral _ _ _ _ _ _ E).
Qed.

Lemma chan_send_holds m c h op payload s :
  chan_holds c h s -> chan_holds c h (ch_send (Channel := byte_channel m) op payload s).2.
Proof.
  destruct s as [[c' w]|]; [|done]. intros [-> Hw]. cbn.
  destruct (proto_send m c op payload w) as [[r w']|] eqn:E; [|done].
  split; [done|]. by rewrite (proto_send_neutral _ _ _ _ _ _ _ E).
Qed.

(** What is left when an open connection is closed. *)
Definition chan_closed (h : held) (s : bchan) : Prop :=
  match s with
  | Some (c, w) => conn_ssl c = None /\ conn_fd c = -1 /\ holds w = h
  | None => True
  end.

Lemma chan_close_holds m c ssl h s :
  conn_ssl c = Some ssl -> 0 <= conn_fd c -> (conn_fd c ∉ h_fds h) ->
  chan_holds c (add_ssls 1 (add_fd (conn_fd c) h)) s ->
  chan_closed h (ch_close (Channel := byte_channel m) s).
Proof.
  intros Hs Hfd Hn. destruct s as [[c' w]|]; [|done]. intros [-> Hw].
  cbn. unfold conn_close. rewrite Hs. cbn [conn_fd conn_ssl].
  destruct (Z.leb_spec 0 (conn_fd c)); [|lia]. cbn [conn_fd conn_ssl]. splits; [done|done|].
  rewrite (oh_close _ Hoh), (oh_ssl_free _ Hoh), (oh_ssl_shutdown _ Hoh), Hw.
  change (-1) with (- (1)). rewrite add_ssls_back. by apply del_add_fd.
Qed.

(** *** A whole session *)

Lemma session_closes `{Libc} m c ssl h fuel (w1 w2 : world bchan) :
  conn_ssl c = Some ssl -> 0 <= conn_fd c -> (conn_fd c ∉ h_fds h) ->
  chan_holds c (add_ssls 1 (add_fd (conn_fd c) h)) (w_conn w1) ->
  run_session (H0 := byte_channel m) fuel w1 = Some (tt, w2) -> chan_closed h (w_conn w2).
Proof.
  intros Hs Hfd Hn Hw E. set (hc := add_ssls 1 (add_fd (conn_fd c) h)) in *.
  destruct (follows_session (H0 := byte_channel m) (fun _ => byte_channel m)
    (fun s1 s2 => s1 = s2 /\ chan_holds c hc s1) (fun s1 s2 => s1 = s2 /\ chan_holds c hc s1)
    (fun s1 s2 => s1 = s2 /\ chan_closed h s1) (fun _ => True))
    with (fuel := fuel) (w1 := w1) (w2 := w1) (w2' := w2) as (f & w1' & _ & Hg); try done.
  - intros op payload s1 s2 [-> Hh] _. exists 0%nat. eexists. split.
    + intros _ _. apply surjective_pairing.
    + split; [done|]. by apply chan_send_holds.
  - intros s1 s2 [-> Hh] _. exists 0%nat. eexists. split.
    + intros _ _. apply surjective_pairing.
    + pose proof (chan_recv_holds m c hc 1024 s2 Hh). by destruct (ch_recv (Channel := byte_channel m) 1024 s2).1.
  - intros s1 s2 [-> Hh]. eexists. split; [done|]. split; [done|]. by eapply chan_close_holds.
  - destruct w1. by split.
  - destruct Hg as [[E1 Hg] _]. by rewrite <- E1.
Qed.
End ConnHeld.

(** ** Theorems *)


