(* ===== verification/ClientApp.v ===== *)
(** * The terminal client

    src/client_app.c: [recv_until], [draw_ui] and [run_app_mode] from the login
    on; what comes before is in AppMain.v.  ncurses is the class [Curses]; the connection is used
    through [Channel], as by the server. *)

From S2P Require Export SessionProps.

(** ** What arrives on a connection *)

(** [arriving c] are the packets that will still be received. *)
Class ChannelIn (C : Type) `{Channel C} := {
  arriving : C -> list (Z * list byte);
  arriving_next : forall cap c op payload q, arriving c = (op, payload) :: q ->
    Z.of_nat (length payload) <= cap ->
    (ch_recv cap c).1 = Some (op, payload) /\ arriving (ch_recv cap c).2 = q;
  arriving_end : forall cap c, arriving c = [] ->
    (ch_recv cap c).1 = None /\ arriving (ch_recv cap c).2 = [];
}.

(** A connection whose other end does not answer by itself. *)
Class ChannelApart (C : Type) `{ChannelIn C} := {
  arriving_send : forall op payload c, arriving (ch_send op payload c).2 = arriving c;
}.

#[global] Program Instance queue_in : ChannelIn Queue.chan := {| arriving := Queue.inbox |}.
Next Obligation.
  intros cap [inb outb] op payload q E Hc. cbn in E |- *. subst inb. cbn.
  destruct (Z.ltb_spec cap (Z.of_nat (length payload))); [lia|done].
Qed.
Next Obligation. intros cap [inb outb] E. cbn in E |- *. by subst inb. Qed.

#[global] Instance queue_apart : ChannelApart Queue.chan.
Proof. split. intros op payload c. unfold ch_send, Queue.channel. by case_match. Qed.

(** ** ncurses *)

Class Curses := {
  scr : Type;
  (** [initscr], [cbreak], [noecho], [keypad] and [timeout(200)]; [endwin] *)
  initscr : scr -> scr;
  endwin : scr -> scr;
  getch : St scr Z;
  erase : scr -> scr;
  mvprintw : Z -> Z -> string -> scr -> scr;
  refresh : scr -> scr;
}.

(** A terminal with scripted keys that remembers the last screen drawn. *)
Module TestTerm.
Record term := { keys : list Z; drawing : list (Z * Z * string);
                 shown : list (Z * Z * string) }.

#[global] Instance curses : Curses := {|
  scr := term;
  initscr t := t;
  endwin t := t;
  getch t := match keys t with
             | [] => (113, t)
             | k :: ks => (k, {| keys := ks; drawing := drawing t; shown := shown t |})
             end;
  erase t := {| keys := keys t; drawing := []; shown := shown t |};
  mvprintw y x s t := {| keys := keys t; drawing := drawing t ++ [(y, x, s)]; shown := shown t |};
  refresh t := {| keys := keys t; drawing := drawing t; shown := drawing t |};
|}.
End TestTerm.

(** ** The code *)


Section App.
Context {C : Type} `{Channel C} `{Curses}.

(** The variables of [recv_until]: [got_state], [got_hand], [*st], [*hand]. *)
Definition until_vars : Type := bool * bool * state_t * hand_t.

Definition recv_until_step (v : until_vars) : St C (until_vars + Z * state_t * hand_t) :=
  let '(got_state, got_hand, st, hand) := v in
  if negb (got_state && got_hand) then
    p ← ch_recv 2048;
    match p with
    | None => mret (inr (-1, st, hand))
    | Some (op, payload) =>
        let plen := Z.of_nat (length payload) in
        if (op =? OP_STATE) && (plen =? Z.of_nat (csize state_codec)) then
          mret (inl (true, got_hand, dec state_codec payload, hand))
        else if (op =? OP_HAND) && (plen =? Z.of_nat (csize hand_codec)) then
          mret (inl (got_state, true, st, dec hand_codec payload))
        else if (op =? OP_LOGIN_RESP) || (op =? OP_RESUME_RESP) then mret (inl v)
        else mret (inl v)
    end
  else mret (inr (0, st, hand)).

(** The return value and the two out-parameters. *)
Definition recv_until (fuel : nat) (st : state_t) (hand : hand_t) :
    StO C (Z * state_t * hand_t) :=
  loopM recv_until_step fuel (false, false, st, hand).

(** The line of the hand's slot [i]. *)
Definition hand_line (hand : hand_t) (i : nat) : Z * Z * string :=
  let cid := card_at hand (Z.of_nat i) in
  (11 + Z.of_nat i, 4,
   match get_card_def cid with
   | Some def => pretty (Z.of_nat i + 1) +:+ ") " +:+ card_name def +:+ " (Cost "
       +:+ pretty (card_cost def) +:+ ", Val " +:+ pretty (card_value def) +:+ ")"
   | None => pretty (Z.of_nat i + 1) +:+ ") Unknown Card " +:+ pretty cid
   end).

(** The [mvprintw] calls of [draw_ui], between [erase] and [refresh]. *)
Definition ui_lines (st : state_t) (hand : hand_t) : list (Z * Z * string) :=
  [(1, 2, "Mini TCG (Client App)  |  Keys: 1/2/3=Play  E=End Turn  Q=Quit");
   (3, 2, "Player HP: " +:+ pretty (p_hp st));
   (4, 2, "AI     HP: " +:+ pretty (ai_hp st));
   (6, 2, "Turn: " +:+ if turn st =? 0 then "PLAYER" else "AI");
   (7, 2, "Game Over: " +:+ if truthy (game_over st) then "YES" else "NO")] ++
  (if truthy (game_over st) then
     let w := if winner st =? 1 then "PLAYER" else if winner st =? 2 then "AI" else "NONE" in
     [(8, 2, "Winner: " +:+ w)]
   else []) ++
  [(10, 2, "Hand:")] ++
  (let n := if 8 <? hand_n hand then 8 else hand_n hand in
   hand_line hand <$> seq 0 (Z.to_nat n)) ++
  [(20, 2, "Action: ")].

Definition draw_ui (st : state_t) (hand : hand_t) (t : scr) : scr :=
  refresh (foldl (fun t '(y, x, s) => mvprintw y x s t) (erase t) (ui_lines st hand)).

(** *** The application *)

Record app_world := { a_conn : C; a_term : scr }.

Definition app_conn {A} (m : StO C A) : StO app_world A := fun w =>
  match m (a_conn w) with
  | Some (a, c) => Some (a, {| a_conn := c; a_term := a_term w |})
  | None => None
  end.
Definition app_term {A} (m : St scr A) : StO app_world A := fun w =>
  let '(a, t) := m (a_term w) in Some (a, {| a_conn := a_conn w; a_term := t |}).
Definition app_send (op : Z) (payload : list byte) : StO app_world Z :=
  app_conn (fun c => Some (ch_send op payload c)).

(** A C loop whose body may itself run out of fuel. *)
Fixpoint loopO {W S R} (body : S -> StO W (S + R)) (fuel : nat) (s : S) : StO W R :=
  match fuel with
  | O => fun _ => None
  | Datatypes.S fuel' =>
      r ← body s;
      match r with
      | inl s' => loopO body fuel' s'
      | inr r => mret r
      end
  end.

(** Sending a request and waiting for the state and the hand that answer it:
    [break] when either fails. *)
Definition app_request (fuel : nat) (op : Z) (payload : list byte) (st : state_t)
    (hand : hand_t) : StO app_world (state_t * hand_t + unit) :=
  r ← app_send op payload;
  if negb (r =? 0) then mret (inr tt) else
  '(rc, st, hand) ← app_conn (recv_until fuel st hand);
  if negb (rc =? 0) then mret (inr tt) else mret (inl (st, hand)).

(** One iteration of the key loop.  Keys are ASCII codes. *)
Definition app_step (fuel : nat) (v : state_t * hand_t) :
    StO app_world (state_t * hand_t + unit) :=
  let '(st, hand) := v in
  _ ← app_term (fun t => (tt, draw_ui st hand t));
  ch ← app_term getch;
  if (ch =? 113) || (ch =? 81) then mret (inr tt)
  else if truthy (game_over st) then mret (inl (st, hand))
  else if (ch =? 101) || (ch =? 69) then app_request fuel OP_END_TURN [] st hand
  else if (ch =? 49) || (ch =? 50) || (ch =? 51) then
    let idx := ch - 49 in
    if (idx <? 0) || (hand_n hand <=? idx) then mret (inl (st, hand))
    else app_request fuel OP_PLAY_CARD (enc play_req_codec {| hand_idx := u8 idx |}) st hand
  else mret (inl (st, hand)).

Definition app_close : StO app_world unit := app_conn (fun c => Some (tt, ch_close c)).

(** [run_app_mode] from the login on; the result is its exit status. *)
Definition app_session (fuel : nat) : StO app_world Z :=
  r ← app_send OP_LOGIN_REQ [];
  if negb (r =? 0) then _ ← app_close; mret 1 else
  '(rc, st, hand) ← app_conn (recv_until fuel zero_state zero_hand);
  if negb (rc =? 0) then _ ← app_close; mret 1 else
  _ ← app_term (fun t => (tt, initscr t));
  _ ← loopO (app_step fuel) fuel (st, hand);
  _ ← app_term (fun t => (tt, endwin t));
  _ ← app_close;
  mret 0.
End App.

(** ** What [recv_until] makes of a reply *)

Section Until.
Context {C : Type} `{ChannelIn C}.

(** Packets that [recv_until] passes over: none is a state or a hand, and each
    fits its buffer. *)
Definition passed_over (p : Z * list byte) : Prop :=
  p.1 <> opcode OP_STATE /\ p.1 <> opcode OP_HAND /\ (length p.2 <= 2048)%nat.

Lemma until_skip p q (v : until_vars) c :
  passed_over p -> v.1.1.1 && v.1.1.2 = false -> arriving c = p :: q ->
  exists c', recv_until_step v c = (inl v, c') /\ arriving c' = q.
Proof.
  intros (Hs & Hh & Hl) Hv Ha. destruct v as [[[gs gh] st] hand], p as [op payload].
  cbn [fst snd] in *.
  destruct (arriving_next 2048 c op payload q Ha) as [Hr Hq]; [lia|].
  unfold recv_until_step, mbind, St_bind. rewrite Hv. cbn [negb].
  destruct (ch_recv 2048 c) as [r c']. cbn [fst snd] in *. subst r.
  rewrite (proj2 (Z.eqb_neq _ _) Hs), (proj2 (Z.eqb_neq _ _) Hh). cbn [andb].
  exists c'. destruct (_ || _); by split.
Qed.

Lemma until_state st' q gh st hand c :
  state_wf st' -> arriving c = (opcode OP_STATE, enc state_codec st') :: q ->
  exists c', recv_until_step (false, gh, st, hand) c = (inl (true, gh, st', hand), c') /\
    arriving c' = q.
Proof.
  intros Hw Ha. apply state_codec_wf in Hw. pose proof (enc_length _ _ Hw) as Hlen.
  destruct (arriving_next 2048 c _ _ q Ha) as [Hr Hq]; [rewrite Hlen; cbn; lia|].
  unfold recv_until_step, mbind, St_bind. cbn [andb negb].
  destruct (ch_recv 2048 c) as [r c']. cbn [fst snd] in *. subst r.
  rewrite Hlen, !Z.eqb_refl, dec_enc by done. cbn [andb]. by exists c'.
Qed.

Lemma until_hand hand' q st hand c :
  hand_wf hand' -> arriving c = (opcode OP_HAND, enc hand_codec hand') :: q ->
  exists c', recv_until_step (true, false, st, hand) c = (inl (true, true, st, hand'), c') /\
    arriving c' = q.
Proof.
  intros Hw Ha. apply hand_codec_wf in Hw. pose proof (enc_length _ _ Hw) as Hlen.
  destruct (arriving_next 2048 c _ _ q Ha) as [Hr Hq]; [rewrite Hlen; cbn; lia|].
  unfold recv_until_step, mbind, St_bind. cbn [andb negb].
  destruct (ch_recv 2048 c) as [r c']. cbn [fst snd] in *. subst r.
  change (opcode OP_HAND =? opcode OP_STATE) with false. cbn [andb].
  rewrite Hlen, !Z.eqb_refl, dec_enc by done. cbn [andb]. by exists c'.
Qed.

(** The reply to a request is read as the game it carries, and what follows it
    stays on the connection. *)
Lemma recv_until_game pre st hand q st0 hand0 fuel c :
  Forall passed_over pre -> state_wf st -> hand_wf hand ->
  arriving c = pre ++ game_packets st hand ++ q -> (length pre + 3 <= fuel)%nat ->
  exists c', recv_until fuel st0 hand0 c = Some ((0, st, hand), c') /\ arriving c' = q.
Proof.
  intros Hpre Hs Hh. unfold recv_until. revert fuel c.
  induction Hpre as [|p pre Hp _ IH]; intros [|fuel] c Ha Hf; cbn [length] in Hf; try lia.
  - destruct fuel as [|[|fuel]]; [lia..|]. cbn [app game_packets] in Ha.
    destruct (until_state st _ false st0 hand0 c Hs Ha) as (c1 & E1 & Ha1).
    destruct (until_hand hand _ st hand0 c1 Hh Ha1) as (c2 & E2 & Ha2).
    rewrite (loopM_step _ _ _ _ _ _ E1), (loopM_step _ _ _ _ _ _ E2). by exists c2.
  - destruct (until_skip p _ (false, false, st0, hand0) c Hp eq_refl Ha) as (c1 & E & Ha1).
    rewrite (loopM_step _ _ _ _ _ _ E). apply IH; [done|lia].
Qed.

(** What every successful reception keeps, a successful [recv_until] keeps. *)
Lemma recv_until_keeps (P : C -> Prop) fuel st hand c st' hand' c' :
  (forall c p, (ch_recv 2048 c).1 = Some p -> P c -> P (ch_recv 2048 c).2) ->
  recv_until fuel st hand c = Some ((0, st', hand'), c') -> P c -> P c'.
Proof.
  intros HP E Hc. unfold recv_until in E.
  refine (loopM_triple (fun _ c => P c) (fun r c => r.1.1 = 0 -> P c)
    recv_until_step fuel (false, false, st, hand) c (0, st', hand') c' _ Hc E eq_refl).
  intros [[[gs gh] s] h] w Hw. cbv beta in Hw.
  unfold recv_until_step, mbind, St_bind, mret, St_ret.
  destruct (negb _); [|by cbn]. pose proof (HP w) as Hr.
  destruct (ch_recv 2048 w) as [[[op payload]|] c1]; cbn [fst snd] in *; [|done].
  specialize (Hr _ eq_refl Hw). destruct (_ && _); [done|]. destruct (_ && _); [done|].
  by destruct (_ || _).
Qed.

(** What every reception keeps, [recv_until] keeps. *)
Lemma recv_until_frame (P : C -> Prop) fuel st hand c r c' :
  (forall c, P c -> P (ch_recv 2048 c).2) ->
  recv_until fuel st hand c = Some (r, c') -> P c -> P c'.
Proof.
  intros HP E Hc. unfold recv_until in E.
  refine (loopM_triple (fun _ c => P c) (fun _ c => P c)
    recv_until_step fuel (false, false, st, hand) c r c' _ Hc E).
  intros [[[gs gh] s] h] w Hw. cbv beta in Hw.
  unfold recv_until_step, mbind, St_bind, mret, St_ret.
  destruct (negb _); [|done]. specialize (HP w Hw).
  destruct (ch_recv 2048 w) as [[[op payload]|] c1]; cbn [fst snd] in *; [|done].
  destruct (_ && _); [done|]. destruct (_ && _); [done|]. by destruct (_ || _).
Qed.

(** At the end of the connection [recv_until] fails. *)
Lemma recv_until_end st hand c fuel :
  arriving c = [] ->
  exists c', recv_until (Datatypes.S fuel) st hand c = Some ((-1, st, hand), c').
Proof.
  intros Ha. destruct (arriving_end 2048 c Ha) as [Hr _]. unfold recv_until, loopM.
  cbn [loop fst snd]. unfold recv_until_step, mbind, St_bind. cbn [andb negb].
  destruct (ch_recv 2048 c) as [r c']. cbn [fst] in Hr. subst r. by exists c'.
Qed.
(** A connection that ends before the game has come. *)
Lemma recv_until_cut pre st hand c fuel :
  Forall passed_over pre -> arriving c = pre -> (length pre < fuel)%nat ->
  exists c', recv_until fuel st hand c = Some ((-1, st, hand), c').
Proof.
  intros Hpre. revert fuel c.
  induction Hpre as [|p pre Hp _ IH]; intros [|fuel] c Ha Hf; cbn [length] in Hf; try lia.
  - by apply recv_until_end.
  - destruct (until_skip p _ (false, false, st, hand) c Hp eq_refl Ha) as (c1 & E & Ha1).
    destruct (IH fuel c1 Ha1) as (c' & E'); [lia|]. exists c'. rewrite <- E'.
    by apply loopM_step.
Qed.
End Until.

(** ** Requests *)

Section Requests.
Context {C : Type} `{ChannelOK C} `{Curses}.

Lemma recv_until_sent fuel st hand c r c' :
  recv_until fuel st hand c = Some (r, c') -> sent c' = sent c.
Proof.
  intros E. unfold recv_until in E.
  refine (loopM_triple (fun _ c' => sent c' = sent c) (fun _ c' => sent c' = sent c)
    recv_until_step fuel (false, false, st, hand) c r c' _ eq_refl E).
  intros [[[gs gh] s] h] w Hw. unfold recv_until_step, mbind, St_bind, mret, St_ret.
  destruct (negb _); [|exact Hw]. pose proof (sent_recv 2048 w) as Hr.
  destruct (ch_recv 2048 w) as [[[op payload]|] c1]; cbn [fst snd] in *; [|congruence].
  destruct (_ && _); [cbn; congruence|]. destruct (_ && _); [cbn; congruence|].
  destruct (_ || _); cbn; congruence.
Qed.

Lemma app_request_sent fuel op payload st hand (w : app_world (C:=C)) r w' :
  (length payload <= 4088)%nat ->
  app_request fuel op payload st hand w = Some (r, w') ->
  sent (a_conn w') = sent (a_conn w) ++ [(op, payload)].
Proof.
  intros Hp. unfold app_request, app_send, app_conn, mbind, StO_bind.
  pose proof (sent_send op payload (a_conn w) Hp) as Hs.
  destruct (ch_send op payload (a_conn w)) as [k c]. cbn [fst snd] in *.
  destruct (negb (k =? 0)); [intros E; by injection E as <- <-|].
  cbn [a_conn]. destruct (recv_until fuel st hand c) as [[[[rc st1] hand1] c1]|] eqn:Eu; [|done].
  pose proof (recv_until_sent _ _ _ _ _ _ Eu) as Hu.
  destruct (negb (rc =? 0)); intros E; injection E as <- <-; cbn [a_conn]; congruence.
Qed.
End Requests.

(** What the client may ask for: nothing, the end of the turn, or a card that
    its hand has. *)
Definition legal_request (st : state_t) (hand : hand_t) (out : list (Z * list byte)) : Prop :=
  out = [] \/
  game_over st = 0 /\
    (out = [(opcode OP_END_TURN, [])] \/
     exists b, out = [(opcode OP_PLAY_CARD, [b])] /\ byte.unsigned b < hand_n hand).

Lemma play_req_length r : length (enc play_req_codec r) = 1%nat.
Proof. reflexivity. Qed.

Lemma err_packet_passed code msg : is_i32 code -> passed_over (err_packet code msg).
Proof.
  intros Hc. split; [done|]. split; [done|]. unfold err_packet. cbn [snd].
  rewrite err_payload_length by done. lia.
Qed.

Lemma play_errors_passed rc : Forall passed_over (play_errors rc) /\ (length (play_errors rc) <= 1)%nat.
Proof.
  unfold play_errors. repeat case_match; (split; [|cbn [length]; lia]);
    [by apply Forall_nil|apply Forall_singleton, err_packet_passed; mach_lia..].
Qed.

(** ** Theorems *)

(** What the client shows is what the server holds: however the game was
    before, the packets with which the server answers a card or the end of a
    turn are read by [recv_until] as exactly the server's new state and hand,
    and nothing that follows them is lost. *)
Theorem client_sees_game `{LibcOK} {C1} `{ChannelOK C1} {C2} `{ChannelIn C2}
    sid op payload st hand (w : world C1) (c : C2) q st0 hand0 out fuel :
  waiting (st, hand) -> game_over st = 0 ->
  op = opcode OP_END_TURN \/ op = opcode OP_PLAY_CARD /\ length payload = 1%nat ->
  let '(v, w') := dispatch sid op payload st hand w in
  sent (w_conn w') = sent (w_conn w) ++ out -> arriving c = out ++ q -> (4 <= fuel)%nat ->
  exists c', recv_until fuel st0 hand0 c = Some ((0, v.1, v.2), c') /\ arriving c' = q.
Proof.
  intros Hw Ho Hop.
  enough (triple (at_ (sent (w_conn w)) (store_map (w_store w)))
    (dispatch sid op payload st hand) (fun v w' => exists pre,
      Forall passed_over pre /\ (length pre <= 1)%nat /\ ready v.1 v.2 /\
      sent (w_conn w') = sent (w_conn w) ++ pre ++ game_packets v.1 v.2)) as Ht.
  { specialize (Ht w (proj1 (here_now w))). destruct (dispatch _ _ _ _ _ w) as [v w'].
    destruct Ht as (pre & Hpre & Hl & [Hi Hh _] & Hs). cbn [snd fst] in *. intros Hs' Ha Hf.
    rewrite Hs in Hs'. apply (inj (app _)) in Hs'. subst out. rewrite <- (assoc_L (++)) in Ha.
    eapply recv_until_game; [exact Hpre|apply (gi_wf _ Hi)|apply Hh|exact Ha|lia]. }
  unfold dispatch. destruct (ready_over (st, hand) (proj1 Hw)) as [Hov _].
  cbn in Hov. rewrite Hov, Ho. cbn [negb Z.eqb].
  destruct Hop as [->|[-> Hl]].
  - eapply triple_conseq; [by apply on_end_turn_at|done|]. intros v w' [Hv [Hs _]].
    exists []. cbn. split; [constructor|]. split; [lia|]. split; [apply Hv|done].
  - eapply triple_conseq; [by apply on_play_card_at|done|]. intros v w'.
    rewrite Hl. cbn [Z.of_nat Z.eqb Pos.of_succ_nat Pos.eqb]. intros [[-> Hv] [Hs _]].
    eexists. split; [apply play_errors_passed|]. split; [apply play_errors_passed|].
    split; [apply Hv|exact Hs].
Qed.

Lemma client_sees_game_witness :
  let '(v, w') := dispatch 42 OP_END_TURN [] SessionDemo.game0.1 SessionDemo.game0.2
    (SessionDemo.world0 []) in
  exists c', recv_until 4 zero_state zero_hand
    {| Queue.inbox := sent (w_conn w'); Queue.outbox := [] |} = Some ((0, v.1, v.2), c').
Proof.
  destruct SessionDemo.game0_waiting as [Hw Ho].
  assert (waiting (SessionDemo.game0.1, SessionDemo.game0.2)) as Hw'
    by (by destruct SessionDemo.game0).
  destruct (dispatch 42 OP_END_TURN [] _ _ (SessionDemo.world0 [])) as [v w'] eqn:E.
  pose proof (client_sees_game 42 OP_END_TURN [] _ _ (SessionDemo.world0 [])
    {| Queue.inbox := sent (w_conn w'); Queue.outbox := [] |} [] zero_state zero_hand
    (sent (w_conn w')) 4 Hw' Ho (or_introl eq_refl)) as Hc.
  rewrite E in Hc. destruct Hc as (c' & Hc & _); [done|by rewrite app_nil_r|lia|].
  by exists c'.
Defined.

(** The client only asks for what its view allows: one key press sends at
    most one packet, after the end of the game none, and a card is asked for by
    an index below the size of the hand. *)
Theorem app_requests_legal {C} `{ChannelOK C} `{Curses} fuel st hand (w : app_world) r w' :
  app_step fuel (st, hand) w = Some (r, w') ->
  exists out, sent (a_conn w') = sent (a_conn w) ++ out /\ legal_request st hand out.
Proof.
  unfold app_step, app_term, mbind at 1 2, StO_bind at 1 2.
  cbn [a_conn a_term]. destruct (getch _) as [ch t].
  assert (forall w1 : app_world, Some (r, w1) = Some (r, w') -> a_conn w1 = a_conn w ->
    exists out, sent (a_conn w') = sent (a_conn w) ++ out /\ legal_request st hand out) as Hnone.
  { intros w1 E Ew. injection E as <-. exists []. rewrite app_nil_r, Ew. split; [done|by left]. }
  destruct (_ || _); [intros E; injection E as <- <-; by eapply Hnone|].
  destruct (truthy (game_over st)) eqn:Ho; [intros E; injection E as <- <-; by eapply Hnone|].
  apply negb_false_iff, Z.eqb_eq in Ho.
  destruct (_ || _).
  { intros E%app_request_sent; [|cbn; lia]. eexists. split; [exact E|]. right. auto. }
  destruct ((ch =? 49) || (ch =? 50) || (ch =? 51)) eqn:Ek;
    [|intros E; injection E as <- <-; by eapply Hnone].
  destruct ((ch - 49 <? 0) || (hand_n hand <=? ch - 49)) eqn:Ei;
    [intros E; injection E as <- <-; by eapply Hnone|].
  intros E%app_request_sent; [|rewrite play_req_length; lia].
  eexists. split; [exact E|]. right. split; [done|].
  right. apply orb_false_iff in Ei as [_ Ei]. apply Z.leb_gt in Ei.
  assert (ch = 49 \/ ch = 50 \/ ch = 51) as [-> | [-> | ->]]
    by (repeat zcase; try lia; discriminate Ek).
  - by exists Byte.x00.
  - by exists Byte.x01.
  - by exists Byte.x02.
Qed.

Definition demo_hand : hand_t := {| hand_n := 3; card_ids := replicate 8 101 |}.

Lemma app_requests_legal_witness :
  let w := {| a_conn := {| Queue.inbox := game_packets zero_state zero_hand; Queue.outbox := [] |};
              a_term := {| TestTerm.keys := [50]; TestTerm.drawing := []; TestTerm.shown := [] |} |} in
  exists r w', app_step 4 (zero_state, demo_hand) w = Some (r, w') /\
    exists out, sent (a_conn w') = sent (a_conn w) ++ out /\ legal_request zero_state demo_hand out.
Proof.
  intros w. destruct (app_step 4 (zero_state, demo_hand) w) as [[r w']|] eqn:E;
    [|vm_compute in E; discriminate E].
  exists r, w'. split; [done|].
  apply (app_requests_legal 4 _ _ w r w' E).
Defined.
