(* ===== verification/Gui.v ===== *)
(** * The graphical client

    src/client_gui.c: the card descriptions, the network thread (connecting,
    resuming, the packets, the commands of the main thread) and the mouse
    clicks of the main loop, with raylib's hit test as an argument.  GuiNet.v
    has the loop around one connection, GuiDraw.v the drawing. *)

From S2P Require Export ClientApp.

(** ** Card texts *)

(** The texture of a card type, by the name of the field of [ui_assets_t]. *)
Inductive texture := tex_atk | tex_heal | tex_shield | tex_buff | tex_poison.

Definition tex_for_card (type : Z) : texture :=
  match card_type_of type with
  | Some CT_ATK => tex_atk
  | Some CT_HEAL => tex_heal
  | Some CT_SHIELD => tex_shield
  | Some CT_BUFF => tex_buff
  | Some CT_POISON => tex_poison
  | None => tex_atk
  end.

(** The text that [snprintf(buf, len, ...)] formats, before it is cut. *)
Definition card_desc_text (def : option card_def_t) : string :=
  match def with
  | None => "Unknown Effect"
  | Some def =>
      let v := pretty (card_value def) in
      match card_type_of (card_type def) with
      | Some CT_ATK => "Deal " +:+ v +:+ " damage."
      | Some CT_HEAL => "Restore " +:+ v +:+ " HP."
      | Some CT_SHIELD => "Gain " +:+ v +:+ " Block."
      | Some CT_BUFF => "Next Attack +" +:+ v +:+ "."
      | Some CT_POISON => "Apply Poison (" +:+ v +:+ ")."
      | None => "Effect: " +:+ v
      end
  end.

(** The C string that is left in a buffer of [len] bytes. *)
Definition get_card_desc (def : option card_def_t) (len : nat) : list byte :=
  take (len - 1) (str (card_desc_text def)).

Definition winner_name (w : Z) : string :=
  if w =? 1 then "PLAYER" else if w =? 2 then "AI" else "NONE".

(** ** The state of the network thread *)

Record shared_t := {
  sh_st : state_t;
  sh_hand : hand_t;
  has_state : Z;
  has_hand : Z;
  connected : Z;
  sh_game_over : Z;
}.

(** [float_text_t] without its clock, [t] and [dur]. *)
Record float_text_t := { fl_active : Z; fl_pos : Z * Z; fl_text : list byte }.

(** The globals [g_sh], [g_session_id] and [g_float]. *)
Record gui_t := { g_sh : shared_t; g_session_id : Z; g_float : float_text_t }.

Definition zero_gui : gui_t := {|
  g_sh := {| sh_st := zero_state; sh_hand := zero_hand; has_state := 0; has_hand := 0;
             connected := 0; sh_game_over := 0 |};
  g_session_id := 0;
  g_float := {| fl_active := 0; fl_pos := (0, 0); fl_text := [] |};
|}.

Definition set_connected (v : Z) (g : gui_t) : gui_t :=
  let sh := g_sh g in
  {| g_sh := {| sh_st := sh_st sh; sh_hand := sh_hand sh; has_state := has_state sh;
                has_hand := has_hand sh; connected := v; sh_game_over := sh_game_over sh |};
     g_session_id := g_session_id g; g_float := g_float g |}.
Definition set_session (v : Z) (g : gui_t) : gui_t :=
  {| g_sh := g_sh g; g_session_id := v; g_float := g_float g |}.
Definition set_float (v : float_text_t) (g : gui_t) : gui_t :=
  {| g_sh := g_sh g; g_session_id := g_session_id g; g_float := v |}.
Definition set_shared (v : shared_t) (g : gui_t) : gui_t :=
  {| g_sh := v; g_session_id := g_session_id g; g_float := g_float g |}.

(** ** Packets *)

(** [snprintf(g_float.text, sizeof(g_float.text), "-%d", dmg)] at a position. *)
Definition damage_text (pos : Z * Z) (dmg : Z) : float_text_t :=
  {| fl_active := 1; fl_pos := pos; fl_text := take 31 (str ("-" +:+ pretty dmg)) |}.

Definition on_state (st : state_t) (g : gui_t) : gui_t :=
  let prev := sh_st (g_sh g) in
  let g := set_shared {| sh_st := st; sh_hand := sh_hand (g_sh g); has_state := 1;
                         has_hand := has_hand (g_sh g); connected := 1;
                         sh_game_over := game_over st |} g in
  if negb (max_mana prev =? 0) then
    let dmg_to_ai := ai_hp prev - ai_hp st in
    let dmg_to_p := p_hp prev - p_hp st in
    if 0 <? dmg_to_ai then set_float (damage_text (690, 120) dmg_to_ai) g
    else if 0 <? dmg_to_p then set_float (damage_text (120, 120) dmg_to_p) g
    else g
  else g.

Definition on_hand (hand : hand_t) (g : gui_t) : gui_t :=
  set_shared {| sh_st := sh_st (g_sh g); sh_hand := hand; has_state := has_state (g_sh g);
                has_hand := 1; connected := connected (g_sh g);
                sh_game_over := sh_game_over (g_sh g) |} g.

(** What the loop does with a packet: [inl] goes on, [inr] leaves the loop. *)
Definition on_packet (op : Z) (payload : list byte) (g : gui_t) : gui_t + gui_t :=
  let plen := Z.of_nat (length payload) in
  if op =? OP_PONG then inl g
  else if op =? OP_RESUME_RESP then
    if Z.of_nat (csize resume_resp_codec) <=? plen then
      let rr := dec resume_resp_codec (take (csize resume_resp_codec) payload) in
      if truthy (resp_ok rr) then inl (set_session (resp_session_id rr) g)
      else inr (set_session 0 g)
    else inl g
  else if op =? OP_LOGIN_RESP then inl g
  else if (op =? OP_STATE) && (plen =? Z.of_nat (csize state_codec)) then
    inl (on_state (dec state_codec payload) g)
  else if (op =? OP_HAND) && (plen =? Z.of_nat (csize hand_codec)) then
    inl (on_hand (dec hand_codec payload) g)
  else inl g.

(** The request that opens a connection. *)
Definition hello (g : gui_t) : Z * list byte :=
  if negb (g_session_id g =? 0) then
    (opcode OP_RESUME_REQ, enc resume_req_codec {| req_session_id := g_session_id g |})
  else (opcode OP_LOGIN_REQ, []).

(** ** The network thread *)

Record net_cmd_t := { cmd_op : Z; play_payload : play_req_t }.

(** The calls of the thread on the operating system. *)
Class NetOS := {
  os : Type;
  os_time : St os Z;
  (** [select] on the connection and the pipe with one second's timeout: its
      result and whether the pipe and the connection are readable. *)
  os_select : St os (Z * bool * bool);
  (** [read] of a whole command, [None] when it is short. *)
  os_pipe : St os (option net_cmd_t);
  os_sleep : Z -> os -> os;
}.

Section Thread.
Context {C : Type} `{Channel C} `{NetOS}.

Record gui_world := { n_conn : C; n_os : os; n_gui : gui_t }.

Definition n_chan {A} (m : St C A) : St gui_world A := fun w =>
  let '(a, c) := m (n_conn w) in (a, {| n_conn := c; n_os := n_os w; n_gui := n_gui w |}).
Definition n_sys {A} (m : St os A) : St gui_world A := fun w =>
  let '(a, o) := m (n_os w) in (a, {| n_conn := n_conn w; n_os := o; n_gui := n_gui w |}).
Definition n_get : St gui_world gui_t := fun w => (n_gui w, w).
Definition n_put (g : gui_t) : St gui_world unit := fun w =>
  (tt, {| n_conn := n_conn w; n_os := n_os w; n_gui := g |}).

(** The commands of the main thread; the result of the send is ignored. *)
Definition on_cmd (cmd : net_cmd_t) : St gui_world unit :=
  if cmd_op cmd =? OP_PLAY_CARD then
    _ ← n_chan (ch_send OP_PLAY_CARD (enc play_req_codec (play_payload cmd))); mret tt
  else if cmd_op cmd =? OP_END_TURN then
    _ ← n_chan (ch_send OP_END_TURN []); mret tt
  else mret tt.

(** [FD_ISSET(fd, &rfd)]: receive one packet. *)
Definition on_readable (last_ping : Z) : St gui_world (Z + unit) :=
  p ← n_chan (ch_recv 4096);
  match p with
  | None => mret (inr tt)
  | Some (op, payload) =>
      g ← n_get;
      match on_packet op payload g with
      | inl g => _ ← n_put g; mret (inl last_ping)
      | inr g => _ ← n_put g; mret (inr tt)
      end
  end.

(** One iteration of the receive loop; its variable is [last_ping]. *)
Definition net_step (last_ping : Z) : St gui_world (Z + unit) :=
  now ← n_sys os_time;
  r ← (if 2 <=? now - last_ping then n_chan (ch_send OP_PING []) else mret 0);
  if negb (r =? 0) then mret (inr tt) else
  let last_ping := if 2 <=? now - last_ping then now else last_ping in
  '(sret, pipe_set, fd_set) ← n_sys os_select;
  if sret <? 0 then mret (inr tt) else
  if sret =? 0 then mret (inl last_ping) else
  _ ← (if pipe_set : bool then
         cmd ← n_sys os_pipe;
         match cmd with Some cmd => on_cmd cmd | None => mret tt end
       else mret tt);
  if fd_set : bool then on_readable last_ping else mret (inl last_ping).

(** One connection, from its request to its loss. *)
Definition net_connection (fuel : nat) : StO gui_world unit := fun w =>
  let '(g, w) := n_get w in
  let '(r, w) := n_chan (ch_send (hello g).1 (hello g).2) w in
  if negb (r =? 0) then Some (n_chan (fun c => (tt, ch_close c)) w) else
  let '(last_ping, w) := n_sys os_time w in
  match loopM net_step fuel last_ping w with
  | None => None
  | Some (_, w) =>
      let '(_, w) := n_chan (fun c => (tt, ch_close c)) w in
      let '(g, w) := n_get w in
      let '(_, w) := n_put (set_connected 0 g) w in
      Some (n_sys (fun o => (tt, os_sleep 1 o)) w)
  end.
End Thread.

(** ** Clicks *)

(** The rectangles that the hit test is asked about. *)
Inductive rect := endBtn | cardRect (i : nat).

(** The number of cards shown. *)
Definition shown_cards (sh : shared_t) : Z :=
  if truthy (has_hand sh) then (if 3 <? hand_n (sh_hand sh) then 3 else hand_n (sh_hand sh))
  else 0.

(** The [for] loop: the first of [n] rectangles from the [i]th on that is hit. *)
Fixpoint clicked_card (hit : rect -> bool) (n i : nat) : Z :=
  match n with
  | O => -1
  | S n' => if hit (cardRect i) then Z.of_nat i else clicked_card hit n' (S i)
  end.

(** A press of the left button: the new selection and the command that is
    written to the pipe. *)
Definition on_click (hit : rect -> bool) (sh : shared_t) (selected_idx : Z) :
    Z * option net_cmd_t :=
  if truthy (connected sh) && truthy (has_state sh) && truthy (has_hand sh) &&
     negb (truthy (game_over (sh_st sh))) && (turn (sh_st sh) =? 0) then
    if hit endBtn then
      (-1, Some {| cmd_op := opcode OP_END_TURN; play_payload := {| hand_idx := 0 |} |})
    else
      let clicked_card_idx := clicked_card hit (Z.to_nat (shown_cards sh)) 0 in
      if 0 <=? clicked_card_idx then
        if clicked_card_idx =? selected_idx then
          (-1, Some {| cmd_op := opcode OP_PLAY_CARD;
                       play_payload := {| hand_idx := u8 clicked_card_idx |} |})
        else (clicked_card_idx, None)
      else (-1, None)
  else (selected_idx, None).

(** ** What the thread makes of a reply *)

(** The packets of a reply, one after the other. *)
Fixpoint feed (ps : list (Z * list byte)) (g : gui_t) : gui_t + gui_t :=
  match ps with
  | [] => inl g
  | (op, payload) :: ps' =>
      match on_packet op payload g with
      | inl g => feed ps' g
      | inr g => inr g
      end
  end.

Lemma on_resume_resp ok sid g :
  is_u64 sid -> ok = 0 \/ ok = 1 ->
  on_packet OP_RESUME_RESP (resume_packet ok sid).2 g =
    if ok =? 0 then inr (set_session 0 g) else inl (set_session sid g).
Proof.
  intros Hs Hok. unfold on_packet. cbn [Z.eqb opcode Pos.eqb].
  rewrite resume_packet_length. cbn [Z.of_nat Pos.of_succ_nat Pos.succ].
  assert (cwf resume_resp_codec {| resp_ok := ok; resp_session_id := sid |}) as Hw.
  { cbn. unfold is_i32, is_u64 in *. lia. }
  rewrite take_ge by (rewrite resume_packet_length; done).
  unfold resume_packet. cbn [snd]. rewrite dec_enc by done. cbn [resp_ok resp_session_id].
  by destruct Hok as [-> | ->].
Qed.

(** The last two packets of a reply. *)
Lemma feed_game st hand g :
  state_wf st -> hand_wf hand ->
  exists g', feed (game_packets st hand) g = inl g' /\ sh_st (g_sh g') = st /\
    sh_hand (g_sh g') = hand /\ g_session_id g' = g_session_id g /\
    connected (g_sh g') = 1 /\ has_state (g_sh g') = 1 /\ has_hand (g_sh g') = 1.
Proof.
  intros Hs Hh. apply state_codec_wf in Hs. apply hand_codec_wf in Hh.
  unfold game_packets. cbn [feed]. unfold on_packet.
  cbn [Z.eqb opcode Pos.eqb andb].
  rewrite !(enc_length _ _ Hs), !(enc_length _ _ Hh), !Z.eqb_refl. cbn [andb].
  rewrite !dec_enc by done. eexists. split; [reflexivity|].
  unfold on_hand, on_state, set_shared, set_float. repeat case_match; done.
Qed.

Lemma clicked_card_spec hit n i :
  let c := clicked_card hit n i in
  c = -1 /\ (forall j, (i <= j < i + n)%nat -> hit (cardRect j) = false) \/
  exists j, c = Z.of_nat j /\ (i <= j < i + n)%nat /\ hit (cardRect j) = true.
Proof.
  revert i. induction n as [|n IH]; intros i c; subst c; cbn; [left; split; [done|lia]|].
  destruct (hit (cardRect i)) eqn:E; [right; exists i; split; [done|split; [lia|done]]|].
  destruct (IH (S i)) as [[-> Hn]|(j & -> & Hj & Hh)].
  - left. split; [done|]. intros j Hj. destruct (decide (j = i)) as [->|]; [done|].
    apply Hn. lia.
  - right. exists j. split; [done|]. split; [lia|done].
Qed.

(** No description of a card of the table is cut by the 64 bytes that the card
    preview gives it. *)
Lemma card_desc_fits id c :
  get_card_def id = Some c -> get_card_desc (Some c) 64 = str (card_desc_text (Some c)).
Proof.
  intros Hc. apply get_card_def_spec in Hc as [Hin _].
  assert (Forall (fun c => get_card_desc (Some c) 64 = str (card_desc_text (Some c))) g_cards)
    as Hall by (repeat constructor).
  rewrite Forall_forall in Hall. by apply Hall.
Qed.

(** When the thread has lost a connection that it had opened, the client shows
    itself as disconnected, and remembers its session for the next request. *)
Lemma net_connection_lost {C} `{Channel C} `{NetOS} fuel (w w' : gui_world) :
  (ch_send (hello (n_gui w)).1 (hello (n_gui w)).2 (n_conn w)).1 = 0 ->
  net_connection fuel w = Some (tt, w') -> connected (g_sh (n_gui w')) = 0.
Proof.
  unfold net_connection, n_get, n_chan, n_sys, n_put.
  destruct (ch_send _ _ _) as [r c]. cbn [fst]. intros ->. cbn [Z.eqb negb n_conn n_os n_gui].
  destruct (os_time _) as [t o]. destruct (loopM _ _ _ _) as [[u w1]|]; [|done].
  cbn [n_gui n_conn n_os]. intros E. injection E as <-. done.
Qed.

(** ** Theorems *)

(** Resuming from the graphical client: when the server knows the session
    that the client remembers, the client ends up showing exactly the stored
    game under the same session id; when it does not, the client leaves the
    connection having forgotten the id, so its next request is a login. *)
Theorem gui_reconnect `{LibcOK} {C} `{ChannelOK C} (w : world C) v g :
  let sm := store_map (w_store w) in
  ok_map sm -> g_session_id g <> 0 -> is_u64 (g_session_id g) ->
  (ch_recv 1024 (w_conn w)).1 = Some (hello g) ->
  let '(r, w') := handshake_step v w in
  exists out, sent (w_conn w') = sent (w_conn w) ++ out /\
  match sm !! g_session_id g with
  | Some (st, hand) => exists g', feed out g = inl g' /\
      sh_st (g_sh g') = st /\ sh_hand (g_sh g') = hand /\
      g_session_id g' = g_session_id g /\ connected (g_sh g') = 1
  | None => exists g', feed out g = inr g' /\ hello g' = (opcode OP_LOGIN_REQ, [])
  end.
Proof.
  intros sm Hok Hne Hu Hr. unfold hello in Hr. rewrite (proj2 (Z.eqb_neq _ _) Hne) in Hr.
  cbn [negb] in Hr. set (sid := g_session_id g) in *.
  destruct (handshake_recv v w _ _ _ _ _ Hr (here_now w)) as (w1 & [Hat _] & _ & E).
  rewrite E by done. clear E Hr.
  pose proof (resume_at _ _ (enc resume_req_codec {| req_session_id := sid |}) v Hok w1 Hat) as Hl.
  assert (cwf resume_req_codec {| req_session_id := sid |}) as Hw by (cbn; mach_lia).
  pose proof (enc_length _ _ Hw) as Hlen. unfold requested in Hl.
  rewrite take_ge, dec_enc, Hlen in Hl by (done || by rewrite Hlen).
  change (Z.of_nat (csize resume_req_codec) <? 8) with false in Hl. cbn [req_session_id] in Hl.
  fold sm in Hl. unfold game in *. destruct (handshake_resume _ _ _ w1) as [r w']. cbn [fst snd] in Hl.
  destruct (sm !! sid) as [[st hand]|] eqn:El; destruct Hl as [_ [Hs _]].
  - eexists. split; [exact Hs|]. destruct (Hok _ _ El) as [Hi Hh _]. cbn [fst snd] in Hi, Hh.
    cbn [feed]. change (resume_packet 1 sid) with (opcode OP_RESUME_RESP, (resume_packet 1 sid).2).
    cbn [feed]. rewrite on_resume_resp by auto. cbn [Z.eqb].
    destruct (feed_game st hand (set_session sid g)) as (g' & Hf & ? & ? & ? & ? & _);
      [apply (gi_wf _ Hi)|apply Hh|]. by exists g'.
  - eexists. split; [exact Hs|].
    change (resume_packet 0 0) with (opcode OP_RESUME_RESP, (resume_packet 0 0).2).
    cbn [feed]. rewrite on_resume_resp by (unfold is_u64; lia). cbn [Z.eqb]. by eexists.
Qed.

Lemma gui_reconnect_witness :
  let g := set_session 42 zero_gui in
  let '(r, w') := handshake_step (zero_state, zero_hand) (SessionDemo.world0 [hello g]) in
  exists g', feed (sent (w_conn w')) g = inl g' /\ sh_st (g_sh g') = SessionDemo.game0.1.
Proof.
  intros g. pose proof (gui_reconnect (SessionDemo.world0 [hello g]) (zero_state, zero_hand) g
    SessionDemo.store0_ok ltac:(done) ltac:(by_decide) eq_refl) as Hg.
  destruct (handshake_step _ _) as [r w']. destruct Hg as (out & -> & Hg).
  change (store_map (w_store _)) with (store_map SessionDemo.store0) in Hg.
  change (g_session_id g) with 42 in Hg.
  rewrite SessionDemo.store0_map, lookup_singleton_eq in Hg.
  destruct SessionDemo.game0 as [st hand]. destruct Hg as (g' & ? & ? & _). by exists g'.
Defined.

(** Logging in from the graphical client: it ends up showing the dealt game
    and remembering the session id under which the server stored it, unless
    the server is full. *)
Theorem gui_login `{LibcOK} {C} `{ChannelOK C} (w : world C) g :
  g_session_id g = 0 -> (ch_recv 1024 (w_conn w)).1 = Some (hello g) ->
  (0 < free_slots (w_store w))%nat ->
  let '(r, w') := handshake_step (zero_state, zero_hand) w in
  exists out g', sent (w_conn w') = sent (w_conn w) ++ out /\ feed out g = inl g' /\
    g_session_id g' <> 0 /\ connected (g_sh g') = 1 /\
    r = inr (Some (g_session_id g', sh_st (g_sh g'), sh_hand (g_sh g'))) /\
    store_map (w_store w') !! g_session_id g' = Some (sh_st (g_sh g'), sh_hand (g_sh g')).
Proof.
  intros Hz Hr Hfree. unfold hello in Hr. rewrite Hz in Hr. cbn [negb Z.eqb] in Hr.
  destruct (handshake_recv (zero_state, zero_hand) w _ _ _ _ _ Hr (here_now w))
    as (w1 & Hat & E & _). rewrite E by done. clear E Hr. cbn [fst snd].
  pose proof (login_at _ _ _ w1 Hat) as Hl.
  destruct (handshake_login _ _ w1) as [r w']. cbn [fst snd] in Hl.
  destruct (Nat.eqb_spec (free_slots (w_store w)) 0) as [|_]; [lia|].
  destruct Hl as (sid & st & hand & sm' & (-> & [Hne Hu] & Hm) & [Hlk _] & [Hs <-]).
  apply main_phase_ready in Hm as [Hi Hh _].
  destruct (feed_game st hand (set_session sid g)) as (g' & Hf & <- & <- & Hid & Hc & _);
    [apply (gi_wf _ Hi)|apply Hh|]. cbn in Hid.
  eexists _, g'. split; [exact Hs|]. rewrite Hid. splits; [|done..].
  change ([login_packet; resume_packet 1 sid] ++ game_packets (sh_st (g_sh g')) (sh_hand (g_sh g')))
    with (login_packet :: (opcode OP_RESUME_RESP, (resume_packet 1 sid).2) ::
      game_packets (sh_st (g_sh g')) (sh_hand (g_sh g'))).
  cbn [feed login_packet]. change (on_packet OP_LOGIN_RESP _ g) with (@inl gui_t gui_t g).
  cbn iota. rewrite on_resume_resp by auto. exact Hf.
Qed.

Lemma gui_login_witness :
  let '(r, w') := handshake_step (zero_state, zero_hand) (Queue.world0 [hello zero_gui]) in
  exists g', feed (sent (w_conn w')) zero_gui = inl g' /\ g_session_id g' <> 0.
Proof.
  assert (0 < free_slots zero_store)%nat as Hf by (apply Nat.ltb_lt; vm_compute; reflexivity).
  pose proof (gui_login (Queue.world0 [hello zero_gui]) zero_gui eq_refl eq_refl Hf) as Hg.
  destruct (handshake_step _ _) as [r w'].
  destruct Hg as (out & g' & -> & ? & ? & _). by exists g'.
Defined.

(** A click sends a command only when the shown game is connected,
    undecided and the player's to move: the end of the turn from its button,
    or a shown card of the hand that was already selected, which a click
    elsewhere never plays; and a click on a card that is not selected selects
    it, so that a second click there plays it. *)
Theorem click_plays_confirmed hit sh selected_idx :
  let '(sel, cmd) := on_click hit sh selected_idx in
  match cmd with
  | Some cmd =>
      game_over (sh_st sh) = 0 /\ turn (sh_st sh) = 0 /\ connected sh <> 0 /\ sel = -1 /\
      (cmd_op cmd = opcode OP_END_TURN /\ hit endBtn = true \/
       cmd_op cmd = opcode OP_PLAY_CARD /\ exists i, hit (cardRect i) = true /\
         selected_idx = Z.of_nat i /\ hand_idx (play_payload cmd) = Z.of_nat i /\
         Z.of_nat i < hand_n (sh_hand sh) /\ (i < 3)%nat)
  | None => 0 <= sel -> sel <> selected_idx ->
      (on_click hit sh sel).2 =
        Some {| cmd_op := opcode OP_PLAY_CARD; play_payload := {| hand_idx := sel |} |}
  end.
Proof.
  unfold on_click. set (cond := truthy (connected sh) && _ && _ && _ && _).
  destruct cond eqn:Ec; subst cond; [|intros; lia].
  apply andb_prop in Ec as [Ec Ht]. apply andb_prop in Ec as [Ec Ho].
  apply andb_prop in Ec as [Ec Hh]. apply andb_prop in Ec as [Ec _].
  apply Z.eqb_eq in Ht. apply negb_true_iff, negb_false_iff, Z.eqb_eq in Ho.
  apply negb_true_iff, Z.eqb_neq in Ec.
  destruct (hit endBtn); [splits; auto|].
  assert (0 <= shown_cards sh <= 3 /\ shown_cards sh <= hand_n (sh_hand sh) \/ shown_cards sh < 0)
    as Hn by (unfold shown_cards; rewrite Hh; repeat zcase; lia).
  destruct (clicked_card_spec hit (Z.to_nat (shown_cards sh)) 0)
    as [[-> _]|(i & -> & Hi & Hhit)]; [cbn; lia|].
  destruct (Z.leb_spec 0 (Z.of_nat i)); [|lia].
  rewrite u8_id by (unfold is_u8; lia).
  destruct (Z.eqb_spec (Z.of_nat i) selected_idx) as [E|E].
  - splits; [done..|]. right. split; [done|]. exists i. cbn. splits; [done|done|done|lia|lia].
  - intros _ _. by rewrite Z.eqb_refl.
Qed.
