(* ===== verification/Float.v ===== *)
(** * Floating-point numbers

    Binary formats with any precision and largest exponent, on the executable
    specification of the Standard Library (rounding to nearest even), and bounds
    by integers that survive rounding: what lies between two integers that the
    format holds is rounded to a number between them. *)

From Stdlib Require Import Floats.SpecFloat.
From S2P Require Export Prelude.

Definition float : Type := spec_float.

(** ** Shifting *)

Lemma iter_pos_nat {A} (f : A -> A) p x : SpecFloat.iter_pos f p x = Nat.iter (Pos.to_nat p) f x.
Proof.
  revert x. induction p as [p IH|p IH|]; intros x; cbn [SpecFloat.iter_pos]; [| |done].
  - rewrite !IH, Pos2Nat.inj_xI, <- Nat.iter_succ_r, <- Nat.iter_add. f_equal. lia.
  - rewrite !IH, Pos2Nat.inj_xO, <- Nat.iter_add. f_equal. lia.
Qed.

(** Nothing was lost. *)
Definition exact (mrs : shr_record) : Prop := shr_r mrs = false /\ shr_s mrs = false.

Lemma shr_1_spec mrs : 0 <= shr_m mrs ->
  shr_m (shr_1 mrs) = shr_m mrs / 2 /\
  (exact (shr_1 mrs) <-> exact mrs /\ shr_m mrs mod 2 = 0).
Proof.
  destruct mrs as [m r s]. unfold exact. cbn. intros Hm.
  destruct m as [|[p|p|]|p]; [..|lia]; cbn [shr_m shr_r shr_s shr_1].
  - split; [done|]. destruct r, s; naive_solver.
  - split; [zlia|]. split; [naive_solver|]. intros [_ ?]. zlia.
  - split; [zlia|]. assert (Zpos p~0 mod 2 = 0) by zlia. destruct r, s; naive_solver.
  - split; [done|]. split; naive_solver.
Qed.

Lemma shr_n_spec n mrs : 0 <= shr_m mrs ->
  let mrs' := Nat.iter n shr_1 mrs in
  shr_m mrs' = shr_m mrs / 2 ^ Z.of_nat n /\
  (exact mrs' <-> exact mrs /\ shr_m mrs mod 2 ^ Z.of_nat n = 0).
Proof.
  intros Hm. cbv zeta. induction n as [|n [Hd He]].
  - change (Nat.iter 0 shr_1 mrs) with mrs. rewrite Z.pow_0_r, Z.div_1_r, Z.mod_1_r. naive_solver.
  - destruct (shr_1_spec (Nat.iter n shr_1 mrs)) as [Hd' He'].
    { rewrite Hd. apply Z.div_pos; lia. }
    rewrite Nat.iter_succ, Nat2Z.inj_succ, Z.pow_succ_r, (Z.mul_comm 2), Hd', Hd, Z.div_div by lia.
    split; [done|]. rewrite He', He, Hd, Z.rem_mul_r by lia.
    pose proof (Z.mod_pos_bound (shr_m mrs) (2 ^ Z.of_nat n)).
    pose proof (Z.mod_pos_bound (shr_m mrs / 2 ^ Z.of_nat n) 2).
    split; [intros [[? ->] ->]; by rewrite Z.mul_0_r|].
    intros [? E]. assert (2 ^ Z.of_nat n * ((shr_m mrs / 2 ^ Z.of_nat n) mod 2) = 0) as E' by nia.
    apply Z.mul_eq_0 in E' as [E'|E']; [lia|]. rewrite E' in E. naive_solver lia.
Qed.

Lemma record_of_loc m l : shr_m (shr_record_of_loc m l) = m /\
  (exact (shr_record_of_loc m l) <-> l = loc_Exact).
Proof. destruct l as [|[]]; (split; [done|]); unfold exact; cbn; naive_solver. Qed.

Lemma loc_exact mrs : loc_of_shr_record mrs = loc_Exact <-> exact mrs.
Proof. destruct mrs as [m [] []]; unfold exact; cbn; naive_solver. Qed.

(** Rounding adds one at most, and nothing to an exact value. *)
Lemma nearest_even_spec m l :
  round_nearest_even m l = m \/ l <> loc_Exact /\ round_nearest_even m l = m + 1.
Proof. destruct l as [|[]]; cbn; [by left|case_match; auto..|by left|by right]. Qed.

Lemma digits2_pos_log2 p : Zpos (digits2_pos p) = Z.log2 (Zpos p) + 1.
Proof.
  induction p as [p IH|p IH|]; [| |done]; cbn [digits2_pos]; rewrite Pos2Z.inj_succ, IH.
  - rewrite Pos2Z.inj_xI, Z.log2_succ_double; lia.
  - rewrite Pos2Z.inj_xO, Z.log2_double; lia.
Qed.

Lemma Zdigits2_bounds m : 0 < m ->
  2 ^ (Zdigits2 m - 1) <= m < 2 ^ Zdigits2 m /\ 0 < Zdigits2 m.
Proof.
  destruct m as [|p|p]; [lia| |lia]. intros Hp. cbn [Zdigits2]. rewrite digits2_pos_log2.
  pose proof (Z.log2_spec (Zpos p) Hp). pose proof (Z.log2_nonneg (Zpos p)).
  rewrite Z.add_simpl_r. rewrite Z.add_1_r. lia.
Qed.

Section Format.
Context (prec emax : Z).

Definition fl_int (z : Z) : float := binary_normalize prec emax z 0 false.
Definition fl_add : float -> float -> float := SFadd prec emax.
Definition fl_sub : float -> float -> float := SFsub prec emax.
Definition fl_mul : float -> float -> float := SFmul prec emax.
Definition fl_div : float -> float -> float := SFdiv prec emax.

(** There are bits for a mantissa, and exponents for the integers with so many
    bits. *)
Hypothesis prec_pos : 0 < prec.
Hypothesis prec_emax : 3 <= emax - prec.

(** ** Rounding *)

(** One [shr_fexp]: the mantissa fits and the bounds hold at the new exponent. *)
Lemma shr_fexp_spec m e l K N : 0 <= m -> e <= 0 -> N < 2 ^ prec ->
  K * 2 ^ (- e) <= m <= N * 2 ^ (- e) -> (l <> loc_Exact -> m + 1 <= N * 2 ^ (- e)) ->
  let '(mrs, e') := shr_fexp prec emax m e l in
  3 - emax - prec <= e' <= 0 /\ 0 <= shr_m mrs < 2 ^ prec /\
  K * 2 ^ (- e') <= shr_m mrs <= N * 2 ^ (- e') /\
  (loc_of_shr_record mrs <> loc_Exact -> shr_m mrs + 1 <= N * 2 ^ (- e')).
Proof.
  intros Hm He HN HK Hl. unfold shr_fexp.
  destruct (record_of_loc m l) as [Em Hx].
  assert (Zdigits2 m + e <= prec /\ 0 <= Zdigits2 m /\ m < 2 ^ Zdigits2 m) as (Hd & Hd0 & Hmd).
  { destruct (Z.eq_dec m 0) as [->|Hm0]; [cbn; lia|].
    destruct (Zdigits2_bounds m) as [[Hd1 Hd2] Hd3]; [lia|].
    assert (2 ^ (Zdigits2 m - 1) < 2 ^ (prec - e)) as Hlt.
    { apply (Z.le_lt_trans _ m); [done|]. unfold Z.sub at 1. rewrite Z.pow_add_r by lia.
      pose proof (Z.pow_pos_nonneg 2 (- e)). nia. }
    apply Z.pow_lt_mono_r_iff in Hlt; lia. }
  set (d := Zdigits2 m) in *. set (n := fexp prec emax (d + e) - e).
  assert (fexp prec emax (d + e) = Z.max (d + e - prec) (3 - emax - prec)) as Hf by done.
  destruct (Z.leb_spec n 0) as [Hn|Hn].
  - assert (shr (shr_record_of_loc m l) e n = (shr_record_of_loc m l, e)) as ->
      by (destruct n; [done|lia|done]).
    assert (2 ^ d <= 2 ^ prec) by (apply Z.pow_le_mono_r; lia).
    rewrite Em. split; [lia|]. split; [lia|]. split; [done|].
    intros Hi. apply Hl. intros E. apply Hi, loc_exact. tauto.
  - destruct n as [|p|p] eqn:Ep; [lia| |lia]. cbn [shr].
    rewrite iter_pos_nat.
    destruct (shr_n_spec (Pos.to_nat p) (shr_record_of_loc m l)) as [Hq Hqx]; [by rewrite Em|].
    set (mrs := Nat.iter _ _ _) in *. rewrite positive_nat_Z, Em in *.
    assert (2 ^ (- e) = 2 ^ (- (e + Zpos p)) * 2 ^ Zpos p) as Ee
      by (rewrite <- Z.pow_add_r by lia; f_equal; lia).
    assert (2 ^ d <= 2 ^ (prec + Zpos p)) as Hdp by (apply Z.pow_le_mono_r; lia).
    rewrite Z.pow_add_r in Hdp by lia.
    rewrite Ee, !Z.mul_assoc in *. set (a := 2 ^ (- (e + Zpos p))) in *.
    assert (0 < 2 ^ Zpos p) as Hpp by (apply Z.pow_pos_nonneg; lia).
    set (b := 2 ^ Zpos p) in *. rewrite Hq.
    split; [lia|]. split; [split; [apply Z.div_pos; lia|apply Z.div_lt_upper_bound; lia]|].
    split; [split; [apply Z.div_le_lower_bound; lia|apply Z.div_le_upper_bound; lia]|].
    intros Hi. rewrite Z.add_1_r. apply Z.le_succ_l, Z.div_lt_upper_bound; [done|].
    rewrite (Z.mul_comm b).
    assert (l = loc_Exact \/ l <> loc_Exact) as [->|Hle] by (destruct l; auto); [|specialize (Hl Hle); lia].
    destruct (Z.eq_dec m (N * a * b)) as [Eq|Hne]; [|lia].
    destruct Hi. apply loc_exact, Hqx. split; [tauto|]. rewrite Eq. by apply Z.mod_mul, Z.neq_sym, Z.lt_neq.
Qed.

(** ** Bounds *)

(** A magnitude between the integers [K] and [N], in the canonical form. *)
Definition fl_mag (x : float) (K N : Z) : Prop :=
  match x with
  | S754_zero _ => K <= 0 <= N
  | S754_finite _ m e =>
      3 - emax - prec <= e <= 0 /\ Zpos m < 2 ^ prec /\ K * 2 ^ (- e) <= Zpos m <= N * 2 ^ (- e)
  | S754_infinity _ | S754_nan => False
  end.

Definition f_sign (x : float) : bool :=
  match x with
  | S754_zero s | S754_finite s _ _ | S754_infinity s => s
  | S754_nan => false
  end.

(** Not below zero; a zero may carry either sign. *)
Definition nonneg (x : float) : Prop :=
  match x with
  | S754_zero _ => True
  | S754_finite s _ _ | S754_infinity s => s = false
  | S754_nan => False
  end.

Lemma fl_sign_nonneg x K N : fl_mag x K N -> f_sign x = false -> nonneg x.
Proof. by destruct x. Qed.

Lemma fl_mag_weaken x K N K' N' : fl_mag x K N -> K' <= K -> N <= N' -> fl_mag x K' N'.
Proof.
  destruct x as [s|s| |s m e]; cbn; [lia|done..|]. intros (? & ? & ?) ? ?.
  pose proof (Z.pow_pos_nonneg 2 (- e)). nia.
Qed.

Lemma round_mag s m e l K N : 0 <= m -> e <= 0 -> N < 2 ^ prec ->
  K * 2 ^ (- e) <= m <= N * 2 ^ (- e) -> (l <> loc_Exact -> m + 1 <= N * 2 ^ (- e)) ->
  fl_mag (binary_round_aux prec emax s m e l) K N /\ f_sign (binary_round_aux prec emax s m e l) = s.
Proof.
  intros Hm He HN HK Hl. unfold binary_round_aux.
  pose proof (shr_fexp_spec m e l K N Hm He HN HK Hl) as H1.
  destruct (shr_fexp prec emax m e l) as [mrs1 e1]. destruct H1 as (He1 & Hm1 & HK1 & Hl1).
  set (q := round_nearest_even _ _).
  assert (0 <= q /\ K * 2 ^ (- e1) <= q <= N * 2 ^ (- e1)) as [Hq HqK].
  { unfold q. destruct (nearest_even_spec (shr_m mrs1) (loc_of_shr_record mrs1)) as [->|[Hi ->]];
      [lia|]. specialize (Hl1 Hi). lia. }
  pose proof (shr_fexp_spec q e1 loc_Exact K N Hq) as H2.
  destruct (shr_fexp prec emax q e1 loc_Exact) as [mrs2 e2].
  destruct H2 as (He2 & Hm2 & HK2 & _); [lia|done|done|done|].
  destruct (shr_m mrs2) as [|m2|m2]; [| |lia].
  - cbn. pose proof (Z.pow_pos_nonneg 2 (- e2)). split; [nia|done].
  - destruct (Z.leb_spec e2 (emax - prec)); [|lia]. cbn. split; [|done]. lia.
Qed.

Lemma iter_xO m d : Zpos (Pos.iter xO m d) = Zpos m * 2 ^ Zpos d.
Proof.
  induction d as [|d IH] using Pos.peano_ind; [cbn; lia|].
  rewrite Pos.iter_succ, Pos2Z.inj_xO, IH, Pos2Z.inj_succ, Z.pow_succ_r; lia.
Qed.

Lemma binary_round_mag s m e K N : e <= 0 -> N < 2 ^ prec ->
  K * 2 ^ (- e) <= Zpos m <= N * 2 ^ (- e) ->
  fl_mag (binary_round prec emax s m e) K N /\ f_sign (binary_round prec emax s m e) = s.
Proof.
  intros He HN HK. unfold binary_round, shl_align.
  set (e' := fexp prec emax _). destruct (e' - e) as [|d|d] eqn:Ed;
    try (apply round_mag; done || lia).
  apply round_mag; [lia|lia|done| |done].
  rewrite iter_xO. replace (- e') with (- e + Zpos d) by lia.
  rewrite Z.pow_add_r by lia. pose proof (Z.pow_pos_nonneg 2 (Zpos d)). nia.
Qed.

Lemma normalize_mag z e K N : e <= 0 -> N < 2 ^ prec ->
  K * 2 ^ (- e) <= Z.abs z <= N * 2 ^ (- e) ->
  fl_mag (binary_normalize prec emax z e false) K N /\
  f_sign (binary_normalize prec emax z e false) = (z <? 0).
Proof.
  intros He HN HK. destruct z as [|m|m]; cbn [binary_normalize].
  - cbn in *. pose proof (Z.pow_pos_nonneg 2 (- e)). split; [nia|done].
  - by apply binary_round_mag.
  - by apply binary_round_mag.
Qed.

Lemma fl_int_mag z : Z.abs z < 2 ^ prec ->
  fl_mag (fl_int z) (Z.abs z) (Z.abs z) /\ f_sign (fl_int z) = (z <? 0).
Proof. intros Hz. apply normalize_mag; [lia|done|]. change (2 ^ (- 0)) with 1. lia. Qed.

Lemma fl_mul_mag x y K N K' N' : fl_mag x K N -> fl_mag y K' N' -> 0 <= K -> 0 <= K' ->
  N * N' < 2 ^ prec ->
  fl_mag (fl_mul x y) (K * K') (N * N') /\ (nonneg x -> nonneg y -> nonneg (fl_mul x y)).
Proof.
  intros Hx Hy HK HK' HN. unfold fl_mul, SFmul.
  assert (0 <= N' /\ 0 <= N) as [HN1 HN2].
  { destruct x, y; cbn in Hx, Hy; try lia; try done;
      repeat match goal with |- context [2 ^ ?a] => pose proof (Z.pow_pos_nonneg 2 a) end; 
      split; nia. }
  destruct x as [s|s| |s m e], y as [s'|s'| |s' m' e']; try done; cbn [f_sign]; 
    cbn in Hx, Hy; try (cbn; split; [nia|done]).
  enough (fl_mag (binary_round_aux prec emax (xorb s s') (Zpos (m * m')) (e + e') loc_Exact) (K * K') (N * N') /\
    f_sign (binary_round_aux prec emax (xorb s s') (Zpos (m * m')) (e + e') loc_Exact) = xorb s s')
    as [Hr Hs] by (split; [done|]; cbn [nonneg]; intros -> ->; by eapply fl_sign_nonneg).
  apply round_mag; [lia|lia|done| |done].
  replace (- (e + e')) with (- e + - e') by lia. rewrite Z.pow_add_r, Pos2Z.inj_mul by lia.
  pose proof (Z.pow_pos_nonneg 2 (- e)). pose proof (Z.pow_pos_nonneg 2 (- e')).
  destruct Hx as (? & ? & ?), Hy as (? & ? & ?).
  rewrite !(Z.mul_shuffle1 _ _ (2 ^ _)).
  split; apply Z.mul_le_mono_nonneg; nia.
Qed.

Lemma new_location_exact n : new_location n 0 = loc_Exact.
Proof. unfold new_location. by destruct (Z.even n). Qed.

(** A quotient below [2 ^ prec] has few bits before the point. *)
Lemma quotient_bits m e m' e' N' : e <= 0 -> e' <= 0 -> N' < 2 ^ prec ->
  Zpos m * 2 ^ (- e') <= N' * Zpos m' * 2 ^ (- e) ->
  Zdigits2 (Zpos m) + e - (Zdigits2 (Zpos m') + e') <= prec.
Proof.
  intros He He' HN Hq.
  destruct (Zdigits2_bounds (Zpos m)) as [[Hd1 _] Hd2]; [lia|].
  destruct (Zdigits2_bounds (Zpos m')) as [[_ Hd3] Hd4]; [lia|].
  set (d := Zdigits2 (Zpos m)) in *. set (d' := Zdigits2 (Zpos m')) in *.
  assert (0 < 2 ^ (- e)) as Hp by (apply Z.pow_pos_nonneg; lia).
  assert (0 < 2 ^ (- e')) as Hp' by (apply Z.pow_pos_nonneg; lia).
  assert (2 ^ (d - 1 + - e') < 2 ^ (prec + d' + - e)) as Hlt.
  { rewrite !Z.pow_add_r by lia.
    apply (Z.le_lt_trans _ (N' * Zpos m' * 2 ^ (- e))); [nia|].
    apply Z.mul_lt_mono_pos_r; nia. }
  apply Z.pow_lt_mono_r_iff in Hlt; lia.
Qed.

(** The bounds of a quotient [m / m'], at another scale. *)
Lemma scale_le K' m' K a b m t p : 0 < a -> 0 < b -> 0 < p ->
  K' * m' <= K * a -> K * b <= m -> t * b = a * p -> K' * p * m' <= m * t.
Proof.
  intros Ha Hb Hp H1 H2 Et. apply (Z.mul_le_mono_pos_r _ _ b Hb).
  rewrite <- (Z.mul_assoc m), Et.
  assert (0 < p * b /\ 0 < a * p) as [Hpb Hap] by nia.
  apply (Z.mul_le_mono_nonneg_r _ _ (p * b)) in H1; [|lia].
  apply (Z.mul_le_mono_nonneg_r _ _ (a * p)) in H2; [|lia]. lia.
Qed.
Lemma scale_ge N' m' N a b m t p : 0 < a -> 0 < b -> 0 < p ->
  N * a <= N' * m' -> m <= N * b -> t * b = a * p -> m * t <= N' * p * m'.
Proof.
  intros Ha Hb Hp H1 H2 Et.
  enough (- N' * p * m' <= - m * t) by lia.
  apply (scale_le (- N') m' (- N) a b); lia.
Qed.

(** The quotient, with the bounds as products. *)
Lemma fl_div_mag x s' m' e' K N K' N' : fl_mag x K N -> e' <= 0 -> N' < 2 ^ prec ->
  K' * Zpos m' <= K * 2 ^ (- e') -> N * 2 ^ (- e') <= N' * Zpos m' ->
  fl_mag (fl_div x (S754_finite s' m' e')) K' N' /\
  f_sign (fl_div x (S754_finite s' m' e')) = xorb (f_sign x) s'.
Proof.
  intros Hx He' HN HK1 HN1. unfold fl_div, SFdiv.
  assert (0 < 2 ^ (- e')) as Hp' by (apply Z.pow_pos_nonneg; lia).
  destruct x as [s|s| |s m e]; cbn in Hx; [cbn; split; [nia|done]|done|done|].
  destruct Hx as (He & Hm & HKx). unfold SFdiv_core_binary.
  assert (0 < 2 ^ (- e)) as Hp by (apply Z.pow_pos_nonneg; lia).
  pose proof (quotient_bits m e m' e' N' ltac:(lia) He' HN ltac:(nia)) as Hbits.
  set (d := Zdigits2 (Zpos m)) in *. set (d' := Zdigits2 (Zpos m')) in *.
  set (ez := Z.min (fexp prec emax (d + e - (d' + e'))) (e - e')).
  assert (ez <= 0 /\ 0 <= e - e' - ez) as [Hez Hs] by (unfold ez, fexp, emin; lia).
  assert (match e - e' - ez with 0 => Zpos m | Zpos _ => Z.shiftl (Zpos m) (e - e' - ez) | Zneg _ => 0 end
    = Zpos m * 2 ^ (e - e' - ez)) as ->.
  { destruct (e - e' - ez) eqn:E; [by rewrite Z.mul_1_r|by rewrite Z.shiftl_mul_pow2|lia]. }
  set (t := 2 ^ (e - e' - ez)). assert (0 < t) as Ht by (apply Z.pow_pos_nonneg; lia).
  assert (t * 2 ^ (- e) = 2 ^ (- e') * 2 ^ (- ez)) as Et
    by (unfold t; rewrite <- !Z.pow_add_r by lia; f_equal; lia).
  set (p := 2 ^ (- ez)) in *. assert (0 < p) as Hpz by (apply Z.pow_pos_nonneg; lia).
  assert (K' * p * Zpos m' <= Zpos m * t <= N' * p * Zpos m') as [Hlo Hhi]
    by (split; [apply (scale_le K' (Zpos m') K (2 ^ (- e')) (2 ^ (- e)))
      | apply (scale_ge N' (Zpos m') N (2 ^ (- e')) (2 ^ (- e)))]; lia).
  pose proof (Z_div_mod (Zpos m * t) (Zpos m')) as Hq.
  destruct (Z.div_eucl _ _) as [q r]. destruct Hq as [Hq Hr]; [lia|].
  apply round_mag; [nia|done|done|nia|].
  intros Hl. destruct (Z.eq_dec r 0) as [->|Hr0]; [by destruct Hl; apply new_location_exact|]. nia.
Qed.

Lemma shl_align_spec m e e' : e' <= e -> Zpos (shl_align m e e').1 = Zpos m * 2 ^ (e - e').
Proof.
  intros He. unfold shl_align. destruct (e' - e) as [|d|d] eqn:E; [|lia|].
  - replace (e - e') with 0 by lia. cbn. lia.
  - replace (e - e') with (Zpos d) by lia. apply iter_xO.
Qed.

(** Sums and differences. *)
Lemma aligned_mag s m e s' m' e' A B ez : ez <= e <= 0 -> ez <= e' <= 0 ->
  Zpos m <= A * 2 ^ (- e) -> Zpos m' <= B * 2 ^ (- e') ->
  Z.abs (cond_Zopp s (Zpos (shl_align m e ez).1)) <= A * 2 ^ (- ez) /\
  Z.abs (cond_Zopp s' (Zpos (shl_align m' e' ez).1)) <= B * 2 ^ (- ez).
Proof.
  intros He He' HA HB. rewrite !shl_align_spec by lia.
  assert (2 ^ (- ez) = 2 ^ (- e) * 2 ^ (e - ez)) as E1 by (rewrite <- Z.pow_add_r by lia; f_equal; lia).
  assert (2 ^ (- ez) = 2 ^ (- e') * 2 ^ (e' - ez)) as E2 by (rewrite <- Z.pow_add_r by lia; f_equal; lia).
  pose proof (Z.pow_pos_nonneg 2 (e - ez)). pose proof (Z.pow_pos_nonneg 2 (e' - ez)).
  split; [rewrite E1|rewrite E2]; unfold cond_Zopp; case_match; nia.
Qed.

Lemma fl_add_mag x y A B : fl_mag x 0 A -> fl_mag y 0 B -> A + B < 2 ^ prec ->
  fl_mag (fl_add x y) 0 (A + B) /\ (nonneg x -> nonneg y -> nonneg (fl_add x y)).
Proof.
  intros Hx Hy HN.
  destruct x as [s|s| |s m e], y as [s'|s'| |s' m' e']; try done; unfold fl_add, SFadd.
  - cbn in *. destruct s, s'; cbn; split; auto; lia.
  - cbn in Hx. split; [apply (fl_mag_weaken _ 0 B); [exact Hy|lia..]|done].
  - cbn in Hy. split; [apply (fl_mag_weaken _ 0 A); [exact Hx|lia..]|done].
  - destruct Hx as (He & _ & _ & HA), Hy as (He' & _ & _ & HB).
    set (ez := Z.min e e').
    destruct (aligned_mag s m e s' m' e' A B ez) as [H1 H2]; [lia|lia|done|done|].
    pose proof (normalize_mag (cond_Zopp s (Zpos (shl_align m e ez).1) +
      cond_Zopp s' (Zpos (shl_align m' e' ez).1)) ez 0 (A + B)) as [Hm Hs]; [lia|lia|lia|].
    split; [done|]. cbn [nonneg]. intros -> ->. by eapply fl_sign_nonneg; [|rewrite Hs].
Qed.

Lemma fl_sub_mag x y A B : fl_mag x 0 A -> fl_mag y 0 B -> A + B < 2 ^ prec -> fl_mag (fl_sub x y) 0 (A + B).
Proof.
  intros Hx Hy HN.
  destruct x as [s|s| |s m e], y as [s'|s'| |s' m' e']; try done; unfold fl_sub, SFsub.
  - cbn in *. destruct s, s'; cbn; lia.
  - cbn in Hx. apply (fl_mag_weaken (S754_finite s' m' e') 0 B); [exact Hy|lia..].
  - cbn in Hy. apply (fl_mag_weaken _ 0 A); [exact Hx|lia..].
  - destruct Hx as (He & _ & _ & HA), Hy as (He' & _ & _ & HB).
    set (ez := Z.min e e').
    destruct (aligned_mag s m e s' m' e' A B ez) as [H1 H2]; [lia|lia|done|done|].
    apply normalize_mag; lia.
Qed.
End Format.
