(* ===== verification/Float32.v ===== *)
(** * Single-precision numbers

    C's [float] as IEEE binary32 (precision 24, largest exponent 128), with the
    conversions from and to [int], and the bounds of Float.v in this format,
    which are what a drawing with pixels needs. *)

From Stdlib Require Import Floats.SpecFloat.
From S2P Require Export Float.

Definition f_int : Z -> float := fl_int 24 128.
Definition f_add : float -> float -> float := fl_add 24 128.
Definition f_sub : float -> float -> float := fl_sub 24 128.
Definition f_mul : float -> float -> float := fl_mul 24 128.
Definition f_div : float -> float -> float := fl_div 24 128.
Definition f_lt : float -> float -> bool := SFltb.
Definition f_le : float -> float -> bool := SFleb.

(** The literal [n / d], correctly rounded (both are exact). *)
Definition f_lit (n d : Z) : float := f_div (f_int n) (f_int d).

Definition f_zero : float := S754_zero false.
Definition f_one : float := f_int 1.

(** [(int)x]: the fraction is dropped; C leaves a value outside of [int]
    undefined. *)
Definition f_trunc (x : float) : option Z :=
  match x with
  | S754_zero _ => Some 0
  | S754_finite s m e =>
      let v := if 0 <=? e then Zpos m * 2 ^ e else Zpos m / 2 ^ (- e) in
      let z := if s then - v else v in
      if (- 2147483648 <=? z) && (z <? 2147483648) then Some z else None
  | S754_infinity _ | S754_nan => None
  end.

(** ** Bounds *)

(** Those of Float.v, in this format. *)
Abbreviation mag := (fl_mag 24 128).

Lemma mag_weaken x K N K' N' : mag x K N -> K' <= K -> N <= N' -> mag x K' N'.
Proof. by apply fl_mag_weaken. Qed.

Lemma sign_nonneg x K N : mag x K N -> f_sign x = false -> nonneg x.
Proof. apply fl_sign_nonneg. Qed.

Lemma f_int_mag z : Z.abs z < 2 ^ 24 ->
  mag (f_int z) (Z.abs z) (Z.abs z) /\ f_sign (f_int z) = (z <? 0).
Proof. by apply fl_int_mag. Qed.

Lemma f_mul_mag x y K N K' N' : mag x K N -> mag y K' N' -> 0 <= K -> 0 <= K' -> N * N' < 2 ^ 24 ->
  mag (f_mul x y) (K * K') (N * N') /\ (nonneg x -> nonneg y -> nonneg (f_mul x y)).
Proof. by apply fl_mul_mag. Qed.

Lemma f_div_mag x s' m' e' K N K' N' : mag x K N -> e' <= 0 -> N' < 2 ^ 24 ->
  K' * Zpos m' <= K * 2 ^ (- e') -> N * 2 ^ (- e') <= N' * Zpos m' ->
  mag (f_div x (S754_finite s' m' e')) K' N' /\
  f_sign (f_div x (S754_finite s' m' e')) = xorb (f_sign x) s'.
Proof. by apply fl_div_mag. Qed.

Lemma f_add_mag x y A B : mag x 0 A -> mag y 0 B -> A + B < 2 ^ 24 ->
  mag (f_add x y) 0 (A + B) /\ (nonneg x -> nonneg y -> nonneg (f_add x y)).
Proof. by apply fl_add_mag. Qed.

Lemma f_sub_mag x y A B : mag x 0 A -> mag y 0 B -> A + B < 2 ^ 24 -> mag (f_sub x y) 0 (A + B).
Proof. by apply fl_sub_mag. Qed.

(** The conversion to [int] is defined and keeps the bounds. *)
Lemma f_trunc_mag x K N : mag x K N -> N < 2 ^ 24 -> 0 <= K ->
  exists z, f_trunc x = Some z /\ K <= Z.abs z <= N /\ (nonneg x -> 0 <= z).
Proof.
  intros Hx HN HK. destruct x as [s|s| |s m e]; try done; cbn in Hx; [by exists 0|].
  destruct Hx as (He & Hm & HKN). cbn [f_trunc].
  assert ((if 0 <=? e then Zpos m * 2 ^ e else Zpos m / 2 ^ (- e)) = Zpos m / 2 ^ (- e)) as ->.
  { destruct (Z.leb_spec 0 e); [|done]. replace e with 0 by lia. by rewrite Z.mul_1_r, Z.div_1_r. }
  assert (0 < 2 ^ (- e)) as Hp by (apply Z.pow_pos_nonneg; lia).
  set (v := Zpos m / 2 ^ (- e)).
  assert (K <= v <= N) as Hv
    by (split; [apply Z.div_le_lower_bound; lia|apply Z.div_le_upper_bound; lia]).
  set (z := if s then - v else v). assert (Z.abs z = v) as Ez by (unfold z; case_match; lia).
  destruct (Z.leb_spec (-2147483648) z); [|lia]. destruct (Z.ltb_spec z 2147483648); [|lia].
  exists z. split; [done|]. split; [lia|]. cbn. intros ->. lia.
Qed.

(** ** Clipping to the unit interval *)

(** [if (x < 0) x = 0; if (x > 1) x = 1;] *)
Definition clip (x : float) : float :=
  let x := if f_lt x f_zero then f_zero else x in
  if f_lt f_one x then f_one else x.

Lemma f_one_eq : f_one = S754_finite false 8388608 (-23).
Proof. reflexivity. Qed.

(** What is not above one is at most one. *)
Lemma not_above_one m e : Zpos m < 2 ^ 24 -> e <= 0 ->
  f_lt f_one (S754_finite false m e) = false -> Zpos m <= 2 ^ (- e).
Proof.
  intros Hm He. rewrite f_one_eq. unfold f_lt, SFltb. cbn [SFcompare].
  destruct (Z.compare_spec (-23) e) as [E|E|E]; [|done|].
  - subst e. change (Pos.compare_cont Eq 8388608 m) with (Pos.compare 8388608 m).
    destruct (Pos.compare_spec 8388608 m) as [Hc|Hc|Hc].
    + intros _.
      apply Z.eq_le_incl.
      symmetry. exact (f_equal Zpos Hc).
    + intros Hf.
      discriminate Hf.
    + intros _. apply Z.lt_le_incl. exact Hc.
  - intros _. assert (2 ^ 24 <= 2 ^ (- e)) by (apply Z.pow_le_mono_r; lia). lia.
Qed.

Lemma clip_mag x K N : mag x K N -> 0 <= K <= 1 ->
  nonneg (clip x) /\ mag (clip x) 0 1 /\ (nonneg x -> mag (clip x) K 1) /\
  (~ nonneg x -> mag (clip x) 0 0).
Proof.
  intros Hx HK. destruct x as [s|s| |[] m e]; try done; unfold clip.
  - cbn in Hx. assert (K = 0) as -> by lia. by destruct s.
  - replace (f_lt (S754_finite false m e) f_zero) with false by done. cbv zeta.
    destruct Hx as (He & Hm & HKN).
    destruct (f_lt f_one _) eqn:E; [rewrite f_one_eq|].
    + cbn. split; [done|]. split; [lia|]. split; [lia|by intros Hn; destruct Hn].
    + apply not_above_one in E; [|lia..]. cbn. pose proof (Z.pow_pos_nonneg 2 (- e)).
      split; [done|]. split; [lia|]. split; [lia|by intros Hn; destruct Hn].
Qed.
