(* ===== verification/GuiDraw.v ===== *)
(** * The graphical client's window

    src/client_gui.c: the drawing functions and the main loop's frame.  A frame
    is the list of the calls of raylib's drawing functions that it makes, in
    order; what the code asks raylib for (textures, the width of a text, the
    hit test) is the class [Raylib].  A computation is undefined where the C
    code converts a [float] outside of the range of [int]. *)

From S2P Require Export Gui Float32.

(** ** raylib *)

(** A colour by its components, or a named one of raylib.h. *)
Inductive color :=
  | rgba (r g b a : Z)
  | WHITE | RAYWHITE | BLACK | GRAY | LIGHTGRAY | RED | GREEN | YELLOW | GOLD | SKYBLUE.

Record Vector2 := { vec_x : float; vec_y : float }.
Record Rectangle := { rec_x : float; rec_y : float; rec_width : float; rec_height : float }.
Record Texture2D := { tex_id : Z; tex_width : Z; tex_height : Z }.

(** The calls that draw.  The font is always [g_ui.font]. *)
Inductive draw :=
  | ClearBackground (c : color)
  | DrawRectangle (posX posY width height : Z) (c : color)
  | DrawRectangleRec (rec : Rectangle) (c : color)
  | DrawRectangleLinesEx (rec : Rectangle) (lineThick : float) (c : color)
  | DrawTextEx (text : list byte) (position : Vector2) (fontSize spacing : float) (c : color)
  | DrawTexturePro (texture : Texture2D) (source dest : Rectangle) (c : color).

Class Raylib := {
  loaded : texture -> Texture2D;
  CheckCollisionPointRec : Vector2 -> Rectangle -> bool;
  MeasureText : string -> Z -> Z;
}.

(** ** Computations that draw *)

Abbreviation Dr := (StO (list draw)).

Definition emit (d : draw) : Dr unit := fun l => Some (tt, l ++ [d]).
Definition to_int (x : float) : Dr Z := fun l =>
  match f_trunc x with Some z => Some (z, l) | None => None end.

(** [for (int i = 0; i < n; i++) body] over the elements of a list. *)
Fixpoint draw_all {A} (body : A -> Dr unit) (l : list A) : Dr unit :=
  match l with
  | [] => mret tt
  | a :: l' => _ ← body a; draw_all body l'
  end.

Definition vec (x y : Z) : Vector2 := {| vec_x := f_int x; vec_y := f_int y |}.
Definition rec_of (x y w h : Z) : Rectangle :=
  {| rec_x := f_int x; rec_y := f_int y; rec_width := f_int w; rec_height := f_int h |}.

Definition text (s : list byte) (pos : Vector2) (size spacing : Z) (c : color) : Dr unit :=
  emit (DrawTextEx s pos (f_int size) (f_int spacing) c).
Definition lines (r : Rectangle) (thick : Z) (c : color) : Dr unit :=
  emit (DrawRectangleLinesEx r (f_int thick) c).

(** What [snprintf(buf, n, ...)] leaves of a text in a buffer of [n] bytes. *)
Definition snprintf (n : nat) (s : string) : list byte := take (n - 1) (str s).

(** ** Drawing functions *)

Definition v2_lerp (a b : Vector2) (t : float) : Vector2 := {|
  vec_x := f_add (vec_x a) (f_mul (f_sub (vec_x b) (vec_x a)) t);
  vec_y := f_add (vec_y a) (f_mul (f_sub (vec_y b) (vec_y a)) t);
|}.

Definition DrawHPBar (x y w h hp maxhp shield : Z) : Dr unit :=
  _ ← emit (DrawRectangle x y w h (rgba 30 30 30 255));
  _ ← emit (DrawRectangle (x + 2) (y + 2) (w - 4) (h - 4) (rgba 10 10 10 255));
  let maxhp := if maxhp <=? 0 then 1 else maxhp in
  let ratio := clip (f_div (f_int hp) (f_int maxhp)) in
  fillw ← to_int (f_mul (f_int (w - 4)) ratio);
  _ ← emit (DrawRectangle (x + 2) (y + 2) fillw (h - 4) (rgba 80 220 120 255));
  if 0 <? shield then
    let sw := if maxhp <? shield then maxhp else shield in
    let sratio := f_div (f_int sw) (f_int maxhp) in
    shw ← to_int (f_mul (f_int (w - 4)) sratio);
    emit (DrawRectangle (x + 2) (y + 2) shw 4 (rgba 120 180 255 255))
  else mret tt.

Definition DrawPanel (x y w h : Z) : Dr unit :=
  _ ← emit (DrawRectangle (x + 4) (y + 4) w h (rgba 0 0 0 80));
  _ ← emit (DrawRectangle x y w h (rgba 30 30 30 180));
  lines (rec_of x y w h) 1 (rgba 60 60 60 150).

Definition SrcCropToFit (tex : Texture2D) (targetW targetH : float) : Rectangle :=
  let srcW := f_int (tex_width tex) in
  let srcH := f_int (tex_height tex) in
  if f_le srcW f_zero || f_le srcH f_zero then rec_of 0 0 1 1 else
  let srcAspect := f_div srcW srcH in
  let dstAspect := f_div targetW targetH in
  if f_lt dstAspect srcAspect then
    let newW := f_mul srcH dstAspect in
    {| rec_x := f_mul (f_sub srcW newW) (f_lit 1 2); rec_y := f_zero;
       rec_width := newW; rec_height := srcH |}
  else
    let newH := f_div srcW dstAspect in
    {| rec_x := f_zero; rec_y := f_zero; rec_width := srcW; rec_height := newH |}.

Definition DrawCardVertical (art : Texture2D) (cardRect : Rectangle) (def : option card_def_t)
    (disabled hovered selected : bool) : Dr unit :=
  let bg := if disabled then rgba 25 25 25 200 else rgba 20 20 20 240 in
  x ← to_int (f_add (rec_x cardRect) (f_int 6));
  y ← to_int (f_add (rec_y cardRect) (f_int 6));
  w ← to_int (rec_width cardRect);
  h ← to_int (rec_height cardRect);
  _ ← emit (DrawRectangle x y w h (rgba 0 0 0 100));
  _ ← emit (DrawRectangleRec cardRect bg);
  _ ← lines cardRect (if selected then 3 else 2) (if hovered then SKYBLUE else rgba 80 80 80 255);
  _ ← (if selected then lines cardRect 3 GOLD else mret tt);
  let artDst := {|
    rec_x := f_add (rec_x cardRect) (f_int 8);
    rec_y := f_add (rec_y cardRect) (f_int 8);
    rec_width := f_sub (rec_width cardRect) (f_int 16);
    rec_height := f_mul (rec_height cardRect) (f_lit 55 100) |} in
  _ ← (if negb (tex_id art =? 0) then
         let src := SrcCropToFit art (rec_width artDst) (rec_height artDst) in
         emit (DrawTexturePro art src artDst WHITE)
       else mret tt);
  _ ← lines artDst 1 BLACK;
  _ ← match def with
      | Some def =>
          let tx := f_add (rec_x cardRect) (f_int 12) in
          let ty := f_add (f_add (rec_y artDst) (rec_height artDst)) (f_int 12) in
          let at_y dy := {| vec_x := tx; vec_y := f_add ty (f_int dy) |} in
          _ ← text (str (card_name def)) {| vec_x := tx; vec_y := ty |} 22 1 RAYWHITE;
          _ ← text (snprintf 64 ("Val: " +:+ pretty (card_value def))) (at_y 28) 18 1 (rgba 180 180 180 255);
          text (snprintf 64 ("Cost: " +:+ pretty (card_cost def))) (at_y 50) 18 1 YELLOW
      | None => mret tt
      end;
  if disabled then emit (DrawRectangleRec cardRect (rgba 0 0 0 150)) else mret tt.

(** ** The window *)

Definition P_X : Z := 40.
Definition AI_X : Z := 540.
Definition HP_Y : Z := 80.
Definition BAR_W : Z := 320.
Definition SZ_HUD : Z := 20.
Definition SZ_LOG : Z := 16.

(** The rectangles that Gui.v names. *)
Definition rec_of_rect (r : rect) : Rectangle :=
  match r with
  | endBtn => rec_of (900 - 140) 20 120 40
  | cardRect i => rec_of (180 + 190 * Z.of_nat i) 360 160 220
  end.

Section Window.
Context `{Raylib}.

Definition draw_player (st : state_t) : Dr unit :=
  _ ← DrawPanel (P_X - 10) (HP_Y - 10) (BAR_W + 20) 100;
  _ ← text (str "PLAYER") (vec P_X HP_Y) SZ_HUD 1 WHITE;
  _ ← DrawHPBar P_X (HP_Y + 25) BAR_W 20 (p_hp st) 30 (p_shield st);
  _ ← text (snprintf 256 ("HP " +:+ pretty (p_hp st) +:+ "/" +:+ pretty 30 +:+ "  SHD " +:+
        pretty (p_shield st) +:+ "  Mana " +:+ pretty (mana st) +:+ "/" +:+ pretty (max_mana st)))
      (vec P_X (HP_Y + 50)) SZ_HUD 1 GREEN;
  if (0 <? p_buff st) || (0 <? p_poison st) then
    text (snprintf 256 ("Buff " +:+ pretty (p_buff st) +:+ "  Psn " +:+ pretty (p_poison st)))
      (vec P_X (HP_Y + 74)) SZ_LOG 1 LIGHTGRAY
  else mret tt.

Definition draw_opponent (st : state_t) : Dr unit :=
  _ ← DrawPanel (AI_X - 10) (HP_Y - 10) (BAR_W + 20) 100;
  _ ← text (str "OPPONENT") (vec AI_X HP_Y) SZ_HUD 1 WHITE;
  _ ← DrawHPBar AI_X (HP_Y + 25) BAR_W 20 (ai_hp st) 30 (ai_shield st);
  _ ← text (snprintf 256 ("HP " +:+ pretty (ai_hp st) +:+ "/" +:+ pretty 30 +:+ "  SHD " +:+
        pretty (ai_shield st) +:+ "  PSN " +:+ pretty (ai_poison st)))
      (vec AI_X (HP_Y + 50)) SZ_HUD 1 RED;
  if 0 <? ai_buff st then
    text (snprintf 256 ("Buff " +:+ pretty (ai_buff st))) (vec AI_X (HP_Y + 74)) SZ_LOG 1 LIGHTGRAY
  else mret tt.

(** One line of the log: an empty one is shown as a dash. *)
Definition log_text (line : list byte) : list byte :=
  match cstr line with [] => str "-" | s => s end.

Definition draw_log (st : state_t) : Dr unit :=
  _ ← DrawPanel (AI_X - 10) 210 350 150;
  _ ← text (str "Battle Log:") (vec AI_X 215) SZ_LOG 1 GRAY;
  draw_all (fun '(i, line) => text (log_text line) (vec AI_X (235 + 18 * i)) SZ_LOG 1 LIGHTGRAY)
    (zip (seqZ 0 LOG_LINES) (shown_log st)).

Definition draw_button (st : state_t) : Dr unit :=
  let r := rec_of_rect endBtn in
  let btnColor := if turn st =? 0 then SKYBLUE else GRAY in
  x ← to_int (rec_x r); y ← to_int (rec_y r); w ← to_int (rec_width r); h ← to_int (rec_height r);
  _ ← DrawPanel x y w h;
  _ ← emit (DrawRectangleRec r btnColor);
  _ ← lines r 2 WHITE;
  text (str "End Turn") {| vec_x := f_add (rec_x r) (f_int 15); vec_y := f_add (rec_y r) (f_int 10) |}
    SZ_HUD 1 BLACK.

(** *** Cards *)

(** The slot under the mouse. *)
Definition hover_idx (sh : shared_t) (mouse_p : Vector2) : Z :=
  if (turn (sh_st sh) =? 0) && negb (truthy (game_over (sh_st sh))) then
    clicked_card (fun r => CheckCollisionPointRec mouse_p (rec_of_rect r)) (Z.to_nat (shown_cards sh)) 0
  else -1.

(** What the slots are drawn as. *)
Inductive slot_draw := empty_slot (i : Z) | plain (i : Z) | hovered (i : Z) | chosen (i : Z).

(** The order of drawing: the cards at rest, then the one under the mouse, and
    the selected one on top. *)
Definition card_plan (n hover selected_idx : Z) : list slot_draw :=
  omap (fun i =>
    if n <=? i then Some (empty_slot i)
    else if (i =? selected_idx) || (i =? hover) then None
    else Some (plain i)) (seqZ 0 3) ++
  (if (0 <=? hover) && negb (hover =? selected_idx) then [hovered hover] else []) ++
  (if (0 <=? selected_idx) && (selected_idx <? n) then [chosen selected_idx] else []).

(** A card's rectangle, enlarged by [num / 100] and lifted. *)
Definition enlarged (base : Rectangle) (num lift : Z) : Rectangle :=
  let scale := f_lit num 100 in
  let nw := f_mul (rec_width base) scale in
  let nh := f_mul (rec_height base) scale in
  {| rec_x := f_sub (rec_x base) (f_mul (f_sub nw (rec_width base)) (f_lit 1 2));
     rec_y := f_sub (rec_y base) (f_int lift); rec_width := nw; rec_height := nh |}.

Definition no_texture : Texture2D := {| tex_id := 0; tex_width := 0; tex_height := 0 |}.
Definition card_texture (def : option card_def_t) : Texture2D :=
  match def with Some def => loaded (tex_for_card (card_type def)) | None => no_texture end.

(** The large view of the selected card. *)
Definition draw_preview (def : card_def_t) (tex : Texture2D) : Dr unit :=
  let px := AI_X + 25 in
  let py := 75 in
  let pRect := rec_of px py 220 300 in
  _ ← emit (DrawRectangle (px + 10) (py + 10) 220 300 (rgba 0 0 0 120));
  _ ← emit (DrawRectangleRec pRect (rgba 30 30 35 255));
  _ ← lines pRect 3 GOLD;
  let artDst := rec_of (px + 10) (py + 10) 200 160 in
  let src := SrcCropToFit tex (rec_width artDst) (rec_height artDst) in
  _ ← emit (DrawTexturePro tex src artDst WHITE);
  _ ← lines artDst 1 BLACK;
  _ ← text (str (card_name def)) (vec (px + 15) (py + 180)) 24 1 GOLD;
  _ ← text (get_card_desc (Some def) 64) (vec (px + 15) (py + 215)) 18 1 WHITE;
  _ ← text (snprintf 256 ("Cost: " +:+ pretty (card_cost def) +:+ "   Val: " +:+ pretty (card_value def)))
      (vec (px + 15) (py + 260)) 18 1 LIGHTGRAY;
  text (str "[PREVIEW]") (vec (px + 15) (py + 282)) 14 1 GRAY.

Definition draw_slot (sh : shared_t) (d : slot_draw) : Dr unit :=
  let rect_at i := rec_of_rect (cardRect (Z.to_nat i)) in
  let def_at i := get_card_def (card_at (sh_hand sh) i) in
  match d with
  | empty_slot i =>
      let r := rect_at i in
      x ← to_int (rec_x r); y ← to_int (rec_y r); w ← to_int (rec_width r); h ← to_int (rec_height r);
      DrawPanel x y w h
  | plain i =>
      DrawCardVertical (card_texture (def_at i)) (rect_at i) (def_at i) (negb (turn (sh_st sh) =? 0)) false false
  | hovered i =>
      DrawCardVertical (card_texture (def_at i)) (enlarged (rect_at i) 115 40) (def_at i) false true false
  | chosen i =>
      let r := enlarged (rect_at i) 130 80 in
      _ ← DrawCardVertical (card_texture (def_at i)) r (def_at i) false false true;
      x ← to_int (rec_x r); y ← to_int (f_sub (rec_y r) (f_int 40)); w ← to_int (rec_width r);
      _ ← emit (DrawRectangle x y w 30 (rgba 0 0 0 200));
      _ ← text (str "CLICK TO CONFIRM")
          {| vec_x := f_add (rec_x r) (f_int 10); vec_y := f_sub (rec_y r) (f_int 35) |} 16 1 GREEN;
      match def_at i with
      | Some def => draw_preview def (card_texture (Some def))
      | None => mret tt
      end
  end.

Definition draw_banner (st : state_t) : Dr unit :=
  _ ← (if negb (turn st =? 0) && negb (truthy (game_over st)) then
         let w := MeasureText "AI TURN" 40 in
         _ ← emit (DrawRectangle 0 (600 / 2 - 40) 900 80 (rgba 0 0 0 200));
         text (str "AI TURN") (vec (Z.quot (900 - w) 2) (600 / 2 - 20)) 40 2 RED
       else mret tt);
  if truthy (game_over st) then
    _ ← emit (DrawRectangle 0 0 900 600 (rgba 0 0 0 240));
    text (snprintf 256 ("GAME OVER - WINNER: " +:+ winner_name (winner st))) (vec 250 270) 32 2 GOLD
  else mret tt.

(** [if (sh.has_state)]. *)
Definition draw_game (sh : shared_t) (mouse_p : Vector2) (selected_idx : Z) : Dr unit :=
  let st := sh_st sh in
  _ ← draw_player st;
  _ ← draw_opponent st;
  _ ← draw_log st;
  _ ← draw_button st;
  _ ← draw_all (draw_slot sh) (card_plan (shown_cards sh) (hover_idx sh mouse_p) selected_idx);
  draw_banner st.

(** *** Animation *)

Record anim_t := {
  an_active : Z;
  an_t : float;
  an_dur : float;
  an_from : Vector2;
  an_to : Vector2;
  an_text : list byte;
}.

Definition anim_target : Vector2 := vec (AI_X + 50) (HP_Y + 10).

Definition draw_anim (dt : float) (a : anim_t) : Dr anim_t :=
  if truthy (an_active a) then
    let t := f_add (an_t a) (f_div dt (an_dur a)) in
    let done := f_le f_one t in
    let a := {| an_active := if done then 0 else an_active a; an_t := if done then f_one else t;
                an_dur := an_dur a; an_from := an_from a; an_to := anim_target; an_text := an_text a |} in
    let pos := v2_lerp (an_from a) (an_to a) (an_t a) in
    px ← to_int (vec_x pos); py ← to_int (vec_y pos);
    _ ← DrawPanel (px - 30) (py - 20) 60 40;
    x ← to_int (f_sub (vec_x pos) (f_int 28)); y ← to_int (f_sub (vec_y pos) (f_int 18));
    _ ← emit (DrawRectangle x y 56 36 (rgba 250 240 200 255));
    _ ← text (an_text a)
        {| vec_x := f_sub (vec_x pos) (f_int 22); vec_y := f_sub (vec_y pos) (f_int 10) |} 16 1 BLACK;
    mret a
  else mret a.

(** The animation that a confirmed card starts. *)
Definition start_anim (sh : shared_t) (i : Z) : anim_t :=
  let r := rec_of_rect (cardRect (Z.to_nat i)) in
  let name := match get_card_def (card_at (sh_hand sh) i) with
              | Some def => card_name def | None => "PLAY" end in
  {| an_active := 1; an_t := f_zero; an_dur := f_lit 1 2;
     an_from := {| vec_x := f_add (rec_x r) (f_int 110); vec_y := f_add (rec_y r) (f_int 70) |};
     an_to := anim_target; an_text := snprintf 32 name |}.

(** *** One iteration of the main loop *)

Definition gui_frame (dt : float) (mouse : Vector2) (pressed : bool) (sh : shared_t)
    (anim : anim_t) (selected_idx : Z) : Dr (anim_t * Z * option net_cmd_t) :=
  _ ← emit (ClearBackground (rgba 20 20 20 255));
  _ ← text (str "Mini TCG (raylib SSL)") (vec 30 20) 32 2 WHITE;
  if negb (truthy (connected sh)) && negb (truthy (has_state sh)) then
    _ ← text (str "Connecting (SSL)...") (vec 30 80) 24 2 RED;
    mret (anim, selected_idx, None)
  else
    _ ← (if truthy (has_state sh) then draw_game sh mouse selected_idx else mret tt);
    anim ← draw_anim dt anim;
    if pressed then
      let '(selected_idx, cmd) :=
        on_click (fun r => CheckCollisionPointRec mouse (rec_of_rect r)) sh selected_idx in
      let anim := match cmd with
        | Some c => if cmd_op c =? OP_PLAY_CARD then start_anim sh (hand_idx (play_payload c)) else anim
        | None => anim
        end in
      mret (anim, selected_idx, cmd)
    else mret (anim, selected_idx, None).
End Window.
