(* ===== verification/GuiDrawThms.v ===== *)
(** * What the window shows

    Theorems on GuiDraw.v: the bars, the order of the cards, the animation, and
    a whole frame for any state that the server may have sent.  The hit test,
    the textures and the text widths are whatever raylib says. *)

From stdpp Require Import sorting.
From S2P Require Export GuiDraw.

(** ** What a computation draws *)

(** [m] is defined, and its value and its calls satisfy [Q]. *)
Definition draws {A} (m : Dr A) (Q : A -> list draw -> Prop) : Prop :=
  forall l, exists a cs, m l = Some (a, l ++ cs) /\ Q a cs.
Definition defined {A} (m : Dr A) : Prop := draws m (fun _ _ => True).

Create HintDb gui.

Section Draws.
Context {A B : Type}.

Lemma draws_ret (a : A) Q : Q a [] -> draws (mret a) Q.
Proof. intros HQ l. exists a, []. by rewrite app_nil_r. Qed.

Lemma draws_bind (m : Dr A) (k : A -> Dr B) R Q : draws m R ->
  (forall a cs, R a cs -> draws (k a) (fun b cs' => Q b (cs ++ cs'))) -> draws (m ≫= k) Q.
Proof.
  intros Hm Hk l. destruct (Hm l) as (a & cs & E & HR).
  destruct (Hk a cs HR (l ++ cs)) as (b & cs' & E' & HQ).
  exists b, (cs ++ cs'). split; [|done].
  rewrite (StO_bind_Some _ _ _ _ _ E), E'. by rewrite app_assoc.
Qed.

Lemma draws_weaken (m : Dr A) (R Q : A -> list draw -> Prop) :
  draws m R -> (forall a cs, R a cs -> Q a cs) -> draws m Q.
Proof. intros Hm HRQ l. destruct (Hm l) as (a & cs & E & HR). eauto. Qed.

Lemma draws_emit d (Q : unit -> list draw -> Prop) : Q tt [d] -> draws (emit d) Q.
Proof. intros HQ l. by exists tt, [d]. Qed.

Lemma draws_to_int x z (Q : Z -> list draw -> Prop) : f_trunc x = Some z -> Q z [] -> draws (to_int x) Q.
Proof. intros Hx HQ l. exists z, []. unfold to_int. by rewrite Hx, app_nil_r. Qed.

Lemma draws_then (m : Dr A) (k : A -> Dr B) Q : defined m ->
  (forall a cs, draws (k a) (fun b cs' => Q b (cs ++ cs'))) -> draws (m ≫= k) Q.
Proof. intros Hm Hk. eapply draws_bind; [exact Hm|]. intros a cs _. apply Hk. Qed.

Lemma defined_bind (m : Dr A) (k : A -> Dr B) : defined m -> (forall a, defined (k a)) -> defined (m ≫= k).
Proof. intros Hm Hk. eapply draws_bind; [exact Hm|]. intros a cs _. apply Hk. Qed.

Lemma defined_ret (a : A) : defined (mret a).
Proof. by apply draws_ret. Qed.
End Draws.

Lemma defined_emit d : defined (emit d).
Proof. by apply draws_emit. Qed.
Lemma defined_int x : is_Some (f_trunc x) -> defined (to_int x).
Proof. intros [z Hz]. by eapply draws_to_int. Qed.
Lemma defined_all {A} (body : A -> Dr unit) l : (forall a, a ∈ l -> defined (body a)) -> defined (draw_all body l).
Proof.
  induction l as [|a l IH]; intros Hb; cbn [draw_all]; [apply defined_ret|].
  apply defined_bind; [apply Hb; by left|]. intros _. apply IH. intros b Hin. apply Hb. by right.
Qed.
#[export] Hint Resolve defined_ret defined_emit defined_all : gui.
#[export] Hint Extern 2 (defined (_ ≫= _)) => apply defined_bind; [|intros ?] : gui.
#[export] Hint Extern 3 (defined (if ?b then _ else _)) => destruct b : gui.
#[export] Hint Extern 3 (defined (match ?b with Some _ => _ | None => _ end)) => destruct b : gui.
#[export] Hint Extern 4 (defined (text _ _ _ _ _)) => apply defined_emit : gui.
#[export] Hint Extern 4 (defined (lines _ _ _)) => apply defined_emit : gui.
#[export] Hint Resolve defined_int : gui.

Lemma defined_panel x y w h : defined (DrawPanel x y w h).
Proof. unfold DrawPanel. auto with gui. Qed.
#[export] Hint Resolve defined_panel : gui.

(** ** Bars *)

(** The pixels of a share of the bar. *)
Lemma share_pixels w x K : 4 <= w < 2 ^ 23 -> nonneg x -> mag x K 1 -> 0 <= K ->
  exists z, f_trunc (f_mul (f_int (w - 4)) x) = Some z /\ (w - 4) * K <= z <= w - 4.
Proof.
  intros Hw Hx Hm HK. destruct (f_int_mag (w - 4)) as [Hi Hs]; [lia|].
  rewrite Z.abs_eq in Hi by lia.
  destruct (f_mul_mag (f_int (w - 4)) x (w - 4) (w - 4) K 1) as [Hp Hn]; [done|done|lia|lia|lia|].
  destruct (f_trunc_mag _ _ _ Hp) as (z & Hz & Hb & Hz0); [lia|nia|].
  exists z. split; [done|]. assert (0 <= z); [|lia].
  apply Hz0, Hn; [|done]. eapply sign_nonneg; [done|]. rewrite Hs. lia.
Qed.

(** The quotient of two integers. *)
Lemma int_ratio a b K N : 0 < b < 2 ^ 24 -> Z.abs a < 2 ^ 24 -> N < 2 ^ 24 ->
  K * b <= Z.abs a <= N * b ->
  mag (f_div (f_int a) (f_int b)) K N /\ f_sign (f_div (f_int a) (f_int b)) = (a <? 0).
Proof.
  intros Hb Ha HN HK. destruct (f_int_mag a) as [Hma Hsa]; [done|].
  destruct (f_int_mag b) as [Hmb Hsb]; [lia|]. rewrite Z.abs_eq in Hmb by lia.
  destruct (f_int b) as [s|s| |s m e]; [cbn in Hmb; lia|done|done|].
  destruct Hmb as (He & _ & HB). cbn in Hsb. subst s.
  pose proof (Z.pow_pos_nonneg 2 (- e)).
  destruct (f_div_mag (f_int a) (b <? 0) m e (Z.abs a) (Z.abs a) K N) as [Hm Hs]; [done|lia|done|nia|nia|].
  split; [done|]. rewrite Hs, Hsa. destruct (Z.ltb_spec b 0); [lia|]. apply xorb_false_r.
Qed.

(** The bar of hit points. *)
Lemma hp_pixels w hp maxhp : 4 <= w < 2 ^ 23 -> Z.abs hp < 2 ^ 24 -> 0 < maxhp < 2 ^ 24 ->
  exists z, f_trunc (f_mul (f_int (w - 4)) (clip (f_div (f_int hp) (f_int maxhp)))) = Some z /\
    0 <= z <= w - 4 /\ (hp <= 0 -> z = 0) /\ (maxhp <= hp -> z = w - 4).
Proof.
  intros Hw Hhp Hmax.
  destruct (int_ratio hp maxhp (if maxhp <=? hp then 1 else 0) (Z.abs hp)) as [Hm Hs];
    [done|done|done|case_match; nia|].
  set (r := f_div _ _) in *.
  destruct (clip_mag r _ _ Hm) as (Hn & Hc & Hpos & Hneg); [case_match; lia|].
  assert (exists z, f_trunc (f_mul (f_int (w - 4)) (clip r)) = Some z /\ 0 <= z <= w - 4 /\
    (maxhp <= hp -> z = w - 4)) as (z & Ez & Hz & Hfull).
  { destruct (Z.leb_spec maxhp hp).
    - destruct (share_pixels w (clip r) 1) as (z & ? & ?); [done|done| |lia|].
      { apply Hpos. eapply sign_nonneg; [done|]. rewrite Hs. lia. }
      exists z. split; [done|]. lia.
    - destruct (share_pixels w (clip r) 0) as (z & ? & ?); [done|done|done|lia|].
      exists z. split; [done|]. lia. }
  exists z. split; [done|]. split; [done|]. split; [|done]. intros H0.
  assert (mag (clip r) 0 0) as Hc0.
  { destruct r as [s|s| |[] m e]; try done. cbn in Hs. destruct (Z.ltb_spec hp 0); [done|]. destruct Hm as (_ & _ & Hm). lia. }
  destruct (f_int_mag (w - 4)) as [Hi _]; [lia|].
  destruct (f_mul_mag _ _ _ _ _ _ Hi Hc0) as [Hp _]; [lia..|].
  destruct (f_trunc_mag _ _ _ Hp) as (z' & Hz' & Hb & _); [lia|lia|].
  rewrite Ez in Hz'. injection Hz' as <-. lia.
Qed.

(** In the bar of the game the division is exact to the pixel. *)
Definition bar_pixel (hp : Z) : option Z :=
  f_trunc (f_mul (f_int (320 - 4)) (clip (f_div (f_int hp) (f_int 30)))).

Lemma game_pixels hp : 0 <= hp <= 30 -> bar_pixel hp = Some (316 * hp / 30).
Proof.
  intros Hhp.
  assert ((bar_pixel <$> seqZ 0 31) = (fun hp => Some (316 * hp / 30)) <$> seqZ 0 31) as E
    by reflexivity.
  apply (f_equal (fun l => l !! Z.to_nat hp)) in E. rewrite !list_lookup_fmap in E.
  rewrite (proj2 (lookup_seqZ 0 31 (Z.to_nat hp) hp)) in E by lia. by injection E.
Qed.

(** What the bar draws. *)
Lemma hp_bar_run x y w h hp maxhp shield :
  4 <= w < 2 ^ 23 -> Z.abs hp < 2 ^ 24 -> 0 < maxhp < 2 ^ 24 -> shield < 2 ^ 24 ->
  exists fillw shw,
    f_trunc (f_mul (f_int (w - 4)) (clip (f_div (f_int hp) (f_int maxhp)))) = Some fillw /\
    0 <= fillw <= w - 4 /\ (hp <= 0 -> fillw = 0) /\ (maxhp <= hp -> fillw = w - 4) /\
    (0 < shield -> 0 <= shw <= w - 4 /\ (maxhp <= shield -> shw = w - 4)) /\
    forall l, DrawHPBar x y w h hp maxhp shield l = Some (tt, l ++
      [DrawRectangle x y w h (rgba 30 30 30 255);
       DrawRectangle (x + 2) (y + 2) (w - 4) (h - 4) (rgba 10 10 10 255);
       DrawRectangle (x + 2) (y + 2) fillw (h - 4) (rgba 80 220 120 255)] ++
      if 0 <? shield then [DrawRectangle (x + 2) (y + 2) shw 4 (rgba 120 180 255 255)] else []).
Proof.
  intros Hw Hhp Hmax Hsh.
  destruct (hp_pixels w hp maxhp Hw Hhp Hmax) as (fillw & Ef & Hf & Hf0 & Hff).
  assert (exists shw, 0 < shield ->
    f_trunc (f_mul (f_int (w - 4)) (f_div (f_int (if maxhp <? shield then maxhp else shield)) (f_int maxhp))) = Some shw /\
    0 <= shw <= w - 4 /\ (maxhp <= shield -> shw = w - 4)) as (shw & Hs).
  { destruct (Z.ltb_spec 0 shield); [|exists 0; intros ?; lia].
    set (sw := if maxhp <? shield then maxhp else shield).
    assert (0 < sw <= maxhp /\ (maxhp <= shield -> sw = maxhp)) as [Hsw Hfull]
      by (unfold sw; zcase; lia).
    destruct (int_ratio sw maxhp (if maxhp <=? shield then 1 else 0) 1) as [Hm Hsg];
      [done|lia|done|zcase; lia|].
    destruct (share_pixels w _ _ Hw (sign_nonneg _ _ _ Hm ltac:(rewrite Hsg; lia)) Hm) as (z & Ez & Hz);
      [zcase; lia|].
    exists z. intros _. split; [done|]. revert Hz. destruct (Z.leb_spec maxhp shield); lia. }
  exists fillw, shw. split; [exact Ef|]. split; [exact Hf|]. split; [exact Hf0|]. split; [exact Hff|].
  split; [apply Hs|]. intros l. unfold DrawHPBar, to_int, emit, mbind, StO_bind. cbv beta iota zeta.
  destruct (Z.leb_spec maxhp 0); [lia|]. rewrite Ef.
  destruct (Z.ltb_spec 0 shield) as [Hpos|]; [|by rewrite <- !app_assoc].
  destruct (Hs Hpos) as [-> _]. by rewrite <- !app_assoc.
Qed.

(** A maximum that is not positive counts as one. *)
Lemma bar_maxhp x y w h hp maxhp shield :
  DrawHPBar x y w h hp maxhp shield = DrawHPBar x y w h hp (Z.max 1 maxhp) shield.
Proof.
  unfold DrawHPBar. destruct (Z.leb_spec maxhp 0).
  - by replace (Z.max 1 maxhp) with 1 by lia.
  - by replace (Z.max 1 maxhp) with maxhp by lia; destruct (Z.leb_spec maxhp 0); [lia|].
Qed.

Lemma defined_hp_bar x y h hp shield : is_i16 hp -> is_i16 shield ->
  defined (DrawHPBar x y BAR_W h hp 30 shield).
Proof.
  intros Hhp Hsh l.
  destruct (hp_bar_run x y BAR_W h hp 30 shield) as (f & s & _ & _ & _ & _ & _ & Hr);
    [unfold BAR_W, is_i16 in *; lia..|]. rewrite Hr. eauto.
Qed.
#[export] Hint Resolve defined_hp_bar : gui.

(** ** The cards *)

Definition slot_of (d : slot_draw) : Z :=
  match d with empty_slot i | plain i | hovered i | chosen i => i end.

#[export] Instance slot_draw_eq_dec : EqDecision slot_draw.
Proof. solve_decision. Defined.

(** A selection that is no slot is none. *)
Lemma card_plan_out n hover selected_idx : n <= 3 -> hover < 3 ->
  ~ 0 <= selected_idx < 3 -> card_plan n hover selected_idx = card_plan n hover (-1).
Proof.
  intros Hn Hh Hs. unfold card_plan. f_equal; [|f_equal].
  - assert (forall i, 0 <= i < 3 -> (i =? selected_idx) = (i =? -1)) as Hi by lia.
    change (seqZ 0 3) with [0; 1; 2]. cbn [omap list_omap]. by rewrite !Hi by lia.
  - destruct (Z.leb_spec 0 hover); [|done].
    by replace (hover =? selected_idx) with (hover =? -1) by lia.
  - by replace ((0 <=? selected_idx) && (selected_idx <? n)) with false by lia.
Qed.

Definition plan_ok (n hover s : Z) : Prop :=
  merge_sort Z.le (slot_of <$> card_plan n hover s) = [0; 1; 2] /\
  Forall (fun i => empty_slot i ∈ card_plan n hover s <-> n <= i) [0; 1; 2] /\
  (0 <= s < n -> last (card_plan n hover s) = Some (chosen s)).
#[export] Instance plan_ok_dec n hover s : Decision (plan_ok n hover s).
Proof. unfold plan_ok. apply _. Defined.

(** Every slot is drawn once, and the selected card on top of the others. *)
Lemma card_plan_spec n hover selected_idx :
  0 <= n <= 3 -> hover = -1 \/ 0 <= hover < n ->
  let plan := card_plan n hover selected_idx in
  (slot_of <$> plan) ≡ₚ [0; 1; 2] /\
  (forall i, 0 <= i < 3 -> empty_slot i ∈ plan <-> n <= i) /\
  (0 <= selected_idx < n -> last plan = Some (chosen selected_idx)).
Proof.
  intros Hn Hh. cbv zeta.
  assert (exists s', card_plan n hover selected_idx = card_plan n hover s' /\ s' ∈ [-1; 0; 1; 2] /\
    (0 <= selected_idx < n -> s' = selected_idx)) as (s' & -> & Hs & Es).
  { destruct (decide (0 <= selected_idx < 3)).
    - exists selected_idx. split; [done|]. split; [|done]. rewrite !elem_of_cons. lia.
    - exists (-1). split; [apply card_plan_out; lia|]. split; [by left|]. lia. }
  assert (n ∈ [0; 1; 2; 3] /\ hover ∈ [-1; 0; 1; 2]) as [Hn4 Hh4] by (rewrite !elem_of_cons; lia).
  assert (plan_ok n hover s') as (Hp & He & Hl); [|splits].
  { assert (Forall (fun n => Forall (fun hover => Forall (fun s' =>
      hover = -1 \/ 0 <= hover < n -> plan_ok n hover s')
      [-1; 0; 1; 2]) [-1; 0; 1; 2]) [0; 1; 2; 3]) as Hall by by_decide.
    rewrite Forall_forall in Hall. specialize (Hall n Hn4).
    rewrite Forall_forall in Hall. specialize (Hall hover Hh4).
    rewrite Forall_forall in Hall. exact (Hall s' Hs Hh). }
  - rewrite <- Hp. symmetry. apply (merge_sort_Permutation Z.le).
  - intros i Hi. rewrite Forall_forall in He. apply He. rewrite !elem_of_cons. lia.
  - intros Hsel. pose proof (Es Hsel) as ->. by apply Hl.
Qed.

(** ** A frame *)

Definition texts : list draw -> list (list byte) :=
  omap (fun d => match d with DrawTextEx t _ _ _ _ => Some t | _ => None end).

Lemma texts_app a b : texts (a ++ b) = texts a ++ texts b.
Proof. apply omap_app. Qed.

Lemma last_after {A} (l l' : list A) x : last l' = Some x -> last (l ++ l') = Some x.
Proof. intros H. by rewrite last_app, H. Qed.

Lemma shown_cards_range sh : hand_wf (sh_hand sh) -> 0 <= shown_cards sh <= 3.
Proof.
  intros Hh. pose proof (wf_hand_n _ Hh). unfold shown_cards, is_u8 in *. repeat case_match; lia.
Qed.

Section Frame.
Context `{Raylib}.

Lemma hover_range sh mouse : hand_wf (sh_hand sh) ->
  hover_idx sh mouse = -1 \/ 0 <= hover_idx sh mouse < shown_cards sh.
Proof.
  intros Hh. unfold hover_idx. case_match; [|by left].
  pose proof (shown_cards_range sh Hh).
  destruct (clicked_card_spec (fun r => CheckCollisionPointRec mouse (rec_of_rect r))
    (Z.to_nat (shown_cards sh)) 0) as [[-> _]|(i & -> & Hi & _)]; [by left|right; lia].
Qed.

(** The conversions that drawing at a rectangle makes. *)
Definition rect_ok (r : Rectangle) : Prop :=
  Forall is_Some (f_trunc <$> [rec_x r; rec_y r; rec_width r; rec_height r;
    f_add (rec_x r) (f_int 6); f_add (rec_y r) (f_int 6); f_sub (rec_y r) (f_int 40)]).
#[local] Instance rect_ok_dec r : Decision (rect_ok r).
Proof. unfold rect_ok. apply _. Defined.

Lemma rect_ok_defined r x : rect_ok r ->
  x ∈ [rec_x r; rec_y r; rec_width r; rec_height r;
    f_add (rec_x r) (f_int 6); f_add (rec_y r) (f_int 6); f_sub (rec_y r) (f_int 40)] ->
  defined (to_int x).
Proof.
  intros Hr Hx. apply defined_int. unfold rect_ok in Hr. rewrite Forall_fmap, Forall_forall in Hr.
  by apply Hr.
Qed.

(** The rectangles of the slots, at rest and enlarged, and the button's. *)
Lemma slot_rects_ok i : 0 <= i < 3 ->
  let r := rec_of_rect (cardRect (Z.to_nat i)) in
  rect_ok r /\ rect_ok (enlarged r 115 40) /\ rect_ok (enlarged r 130 80).
Proof.
  intros Hi. assert (i = 0 \/ i = 1 \/ i = 2) as [->|[->| ->]] by lia; cbv zeta; splits; by_decide.
Qed.

Lemma defined_card art r def d h s : rect_ok r -> defined (DrawCardVertical art r def d h s).
Proof.
  intros Hr. unfold DrawCardVertical. cbv zeta.
  do 4 (apply defined_bind; [eapply rect_ok_defined; [done|rewrite !elem_of_cons; tauto]|intros ?]).
  auto 20 with gui.
Qed.

Lemma defined_slot sh d : 0 <= slot_of d < 3 -> defined (draw_slot sh d).
Proof.
  intros Hi. destruct (slot_rects_ok (slot_of d) Hi) as (H1 & H2 & H3).
  destruct d as [i|i|i|i]; cbn [slot_of] in *; unfold draw_slot; cbv zeta.
  - do 4 (apply defined_bind; [eapply rect_ok_defined; [exact H1|rewrite !elem_of_cons; tauto]|intros ?]).
    apply defined_panel.
  - by apply defined_card.
  - by apply defined_card.
  - apply defined_bind; [by apply defined_card|intros _].
    do 3 (apply defined_bind; [eapply rect_ok_defined; [exact H3|rewrite !elem_of_cons; tauto]|intros ?]).
    unfold draw_preview. cbv zeta. auto 20 with gui.
Qed.

Lemma defined_button st : defined (draw_button st).
Proof.
  assert (rect_ok (rec_of_rect endBtn)) as Hr by by_decide. unfold draw_button. cbv zeta.
  do 4 (apply defined_bind; [eapply rect_ok_defined; [exact Hr|rewrite !elem_of_cons; tauto]|intros ?]).
  auto 10 with gui.
Qed.

Lemma defined_player st : state_wf st -> defined (draw_player st).
Proof. intros []. unfold draw_player. auto 12 with gui. Qed.
Lemma defined_opponent st : state_wf st -> defined (draw_opponent st).
Proof. intros []. unfold draw_opponent. auto 12 with gui. Qed.

(** The texts of the log, the oldest line first. *)
Definition log_texts (st : state_t) : list (list byte) :=
  str "Battle Log:" :: (log_text <$> shown_log st).

Lemma draw_all_texts (l : list (Z * list byte)) :
  draws (draw_all (fun '(i, line) => text (log_text line) (vec AI_X (235 + 18 * i)) SZ_LOG 1 LIGHTGRAY) l)
    (fun _ cs => texts cs = log_text <$> l.*2).
Proof.
  induction l as [|[i line] l IH]; cbn [draw_all]; [by apply draws_ret|].
  apply (draws_bind _ _ (fun _ cs => texts cs = [log_text line])); [by apply draws_emit|].
  intros _ cs Hcs. eapply draws_weaken; [exact IH|]. intros ? cs' Hcs'; cbv beta in Hcs'. by rewrite texts_app, Hcs, Hcs'.
Qed.

Lemma draw_log_texts st : draws (draw_log st) (fun _ cs => texts cs = log_texts st).
Proof.
  unfold draw_log.
  apply (draws_bind _ _ (fun _ cs => texts cs = [])).
  { intros l. do 2 eexists. split; [unfold DrawPanel, lines, emit, mbind, StO_bind;
      by rewrite <- !app_assoc|done]. }
  intros _ cs Hcs. apply (draws_bind _ _ (fun _ cs => texts cs = [str "Battle Log:"])); [by apply draws_emit|].
  intros _ cs1 Hcs1. eapply draws_weaken; [apply draw_all_texts|]. intros ? cs2 Hcs2; cbv beta in Hcs2.
  rewrite !texts_app, Hcs, Hcs1, Hcs2, snd_zip; [done|]. unfold shown_log. by rewrite length_fmap.
Qed.

Definition verdict (st : state_t) : draw :=
  DrawTextEx (str ("GAME OVER - WINNER: " +:+ winner_name (winner st))) (vec 250 270) (f_int 32) (f_int 2) GOLD.

Lemma draw_banner_verdict st :
  draws (draw_banner st) (fun _ cs => game_over st <> 0 -> last cs = Some (verdict st)).
Proof.
  unfold draw_banner, truthy.
  apply draws_then; [auto with gui|]. intros _ cs.
  destruct (Z.eqb_spec (game_over st) 0); cbn [negb]; [by apply draws_ret|].
  apply draws_then; [apply defined_emit|]. intros _ cs1.
  apply draws_emit. intros _. rewrite app_assoc. apply last_after. unfold verdict.
  cbn [last]. do 2 f_equal. unfold winner_name. by repeat case_match.
Qed.

(** The picture of the game, its log and its verdict. *)
Definition game_shown (st : state_t) (cs : list draw) : Prop :=
  (exists before after, texts cs = before ++ log_texts st ++ after) /\
  (game_over st <> 0 -> last cs = Some (verdict st)).

Lemma draw_game_shown sh mouse selected_idx : state_wf (sh_st sh) -> hand_wf (sh_hand sh) ->
  draws (draw_game sh mouse selected_idx) (fun _ => game_shown (sh_st sh)).
Proof.
  intros Hs Hh. unfold draw_game.
  apply draws_then; [by apply defined_player|]. intros _ c1.
  apply draws_then; [by apply defined_opponent|]. intros _ c2.
  eapply draws_bind; [apply draw_log_texts|]. intros ? c3 Hlog; cbv beta in Hlog.
  apply draws_then; [apply defined_button|]. intros _ c4.
  apply draws_then.
  { apply defined_all. intros d Hd. apply defined_slot.
    destruct (card_plan_spec (shown_cards sh) (hover_idx sh mouse) selected_idx) as [Hp _];
      [by apply shown_cards_range|by apply hover_range|].
    apply (list_elem_of_fmap_2 slot_of) in Hd. rewrite Hp, !elem_of_cons, elem_of_nil in Hd. lia. }
  intros _ c5. eapply draws_weaken; [apply draw_banner_verdict|]. intros ? c6 Hv; cbv beta in Hv. split.
  - exists (texts c1 ++ texts c2), (texts c4 ++ texts c5 ++ texts c6).
    by rewrite !texts_app, Hlog, !app_assoc.
  - intros Ho. by rewrite !app_assoc; apply last_after, Hv.
Qed.

(** The animation: its clock in the unit interval, its start in the window's
    neighbourhood. *)
Definition anim_ok (a : anim_t) : Prop :=
  an_active a = 0 \/
  (an_dur a = f_lit 1 2 /\ nonneg (an_t a) /\ mag (an_t a) 0 1 /\
   mag (vec_x (an_from a)) 0 100000 /\ mag (vec_y (an_from a)) 0 100000).

(** A frame takes some time, less than twelve days. *)
Definition time_ok (dt : float) : Prop := nonneg dt /\ mag dt 0 1000000.

Lemma lerp_mag a b t A B : mag a 0 A -> mag b 0 B -> mag t 0 1 -> A + (B + A) < 2 ^ 24 ->
  mag (f_add a (f_mul (f_sub b a) t)) 0 (A + (B + A)).
Proof.
  intros Ha Hb Ht HN.
  assert (0 <= A /\ 0 <= B) as [HA HB].
  { split; [destruct a as [| | |? m e]|destruct b as [| | |? m e]]; cbn in *; try done; try lia;
      pose proof (Z.pow_pos_nonneg 2 (- e)); nia. }
  pose proof (f_sub_mag _ _ _ _ Hb Ha) as Hs.
  destruct (f_mul_mag _ _ _ _ _ _ (Hs ltac:(lia)) Ht) as [Hm _]; [lia..|].
  rewrite Z.mul_1_r in Hm. by apply f_add_mag.
Qed.

Lemma trunc_defined x N : mag x 0 N -> N < 2 ^ 24 -> defined (to_int x).
Proof. intros Hx HN. destruct (f_trunc_mag _ _ _ Hx HN) as (z & Hz & _); [lia|]. apply defined_int. eauto. Qed.

Lemma f_le_lt x y : f_le x y = false -> f_lt x y = false.
Proof. unfold f_le, f_lt, SpecFloat.SFleb, SpecFloat.SFltb. by repeat case_match. Qed.

(** The clock of the animation after a frame. *)
Lemma clock_ok t dt : nonneg t -> mag t 0 1 -> time_ok dt ->
  let t' := f_add t (f_div dt (f_lit 1 2)) in
  let t'' := if f_le f_one t' then f_one else t' in
  nonneg t'' /\ mag t'' 0 1.
Proof.
  intros Ht0 Ht [Hd0 Hd]. cbv zeta.
  replace (f_lit 1 2) with (SpecFloat.S754_finite false 8388608 (-24)) by reflexivity.
  destruct (f_div_mag dt false 8388608 (-24) 0 1000000 0 2000000) as [Hq Hqs]; [done|lia|done|done|done|].
  assert (nonneg (f_div dt (SpecFloat.S754_finite false 8388608 (-24)))) as Hq0.
  { destruct dt as [s|s| |s m e]; try done. cbn in Hd0. subst s. by eapply sign_nonneg. }
  destruct (f_add_mag _ _ _ _ Ht Hq) as [Hm Hn]; [done|]. specialize (Hn Ht0 Hq0).
  set (x := f_add _ _) in *. destruct (f_le f_one x) eqn:E; [rewrite f_one_eq; by cbn|].
  split; [done|]. destruct x as [s|s| |s m e]; try done. cbn in Hn. subst s.
  apply f_le_lt, not_above_one in E; [|apply Hm|apply Hm]. cbn in Hm |- *. lia.
Qed.

Lemma draw_anim_ok dt a : anim_ok a -> time_ok dt ->
  draws (draw_anim dt a) (fun a' cs => anim_ok a' /\ (an_active a = 0 -> cs = [])).
Proof.
  intros Ha Hdt. unfold draw_anim, truthy. destruct (Z.eqb_spec (an_active a) 0) as [E|E].
  { by apply draws_ret. }
  destruct Ha as [|(Ed & Ht0 & Ht & Hx & Hy)]; [done|]. rewrite Ed. cbn [negb]. cbv zeta.
  pose proof (clock_ok (an_t a) dt Ht0 Ht Hdt) as [Hc0 Hc]. cbv zeta in Hc0, Hc.
  set (t := if f_le f_one _ then _ else _) in *.
  destruct (f_int_mag (AI_X + 50)) as [Htx _]; [done|]. destruct (f_int_mag (HP_Y + 10)) as [Hty _]; [done|].
  apply (mag_weaken _ _ _ 0 590) in Htx; [|done..]. apply (mag_weaken _ _ _ 0 90) in Hty; [|done..].
  pose proof (lerp_mag _ _ _ _ _ Hx Htx Hc ltac:(lia)) as Hpx.
  pose proof (lerp_mag _ _ _ _ _ Hy Hty Hc ltac:(lia)) as Hpy.
  destruct (f_int_mag 28) as [H28 _]; [done|]. destruct (f_int_mag 18) as [H18 _]; [done|].
  apply (mag_weaken _ _ _ 0 28) in H28; [|done..]. apply (mag_weaken _ _ _ 0 18) in H18; [|done..].
  cbn [v2_lerp vec_x vec_y an_from an_to an_t anim_target vec].
  apply draws_then; [by eapply trunc_defined|intros px c1].
  apply draws_then; [by eapply trunc_defined|intros py c2].
  apply draws_then; [apply defined_panel|intros _ c3].
  apply draws_then; [eapply trunc_defined; [by apply f_sub_mag|done]|intros x c4].
  apply draws_then; [eapply trunc_defined; [by apply f_sub_mag|done]|intros y c5].
  apply draws_then; [apply defined_emit|intros _ c6].
  apply draws_then; [apply defined_emit|intros _ c7].
  apply draws_ret. split; [|done]. right. by cbn.
Qed.

Lemma start_anim_ok sh i : is_u8 i -> anim_ok (start_anim sh i).
Proof.
  intros Hi. right. unfold is_u8 in Hi. cbn [start_anim an_dur an_t an_from vec_x vec_y].
  split; [done|]. split; [done|]. split; [by cbn|].
  cbn [rec_of_rect rec_of rec_x rec_y]. rewrite Z2Nat.id by lia.
  split.
  - destruct (f_int_mag (180 + 190 * i)) as [H1 _]; [lia|].
    destruct (f_int_mag 110) as [H2 _]; [done|].
    apply (mag_weaken _ _ _ 0 50000) in H1; [|lia..]. apply (mag_weaken _ _ _ 0 110) in H2; [|done..].
    destruct (f_add_mag _ _ _ _ H1 H2) as [Hm _]; [done|]. by apply (mag_weaken _ 0 50110).
  - by apply (mag_weaken _ 430 430).
Qed.

Lemma on_click_slot hit sh selected_idx : forall c,
  (on_click hit sh selected_idx).2 = Some c -> is_u8 (hand_idx (play_payload c)).
Proof.
  intros c. unfold on_click. repeat case_match; cbn; intros E; simplify_eq; cbn; auto with mach; mach_lia.
Qed.

(** The selection and the command after the mouse has been read. *)
Definition clicked (mouse : Vector2) (pressed : bool) (sh : shared_t) (selected_idx : Z) : Z * option net_cmd_t :=
  if pressed then on_click (fun r => CheckCollisionPointRec mouse (rec_of_rect r)) sh selected_idx
  else (selected_idx, None).

Lemma gui_frame_draws dt mouse pressed sh anim selected_idx :
  state_wf (sh_st sh) -> hand_wf (sh_hand sh) -> has_state sh <> 0 -> anim_ok anim -> time_ok dt ->
  draws (gui_frame dt mouse pressed sh anim selected_idx) (fun '(anim', sel, cmd) cs =>
    (sel, cmd) = clicked mouse pressed sh selected_idx /\ anim_ok anim' /\
    exists head game tail, cs = head ++ game ++ tail /\ game_shown (sh_st sh) game /\
      (an_active anim = 0 -> tail = [])).
Proof.
  intros Hs Hh Hst Ha Hdt. unfold gui_frame, truthy.
  apply Z.eqb_neq in Hst. rewrite Hst. cbn [negb]. rewrite andb_false_r.
  apply draws_then; [apply defined_emit|intros _ c1].
  apply draws_then; [apply defined_emit|intros _ c2].
  eapply draws_bind; [by apply draw_game_shown|intros ? c3 Hg; cbv beta in Hg].
  eapply draws_bind; [by apply draw_anim_ok|intros anim' c4 [Ha' Hc4]; cbv beta in *].
  assert (c1 ++ c2 ++ c3 ++ c4 = (c1 ++ c2) ++ c3 ++ c4) as Ec by by rewrite <- app_assoc.
  unfold clicked. destruct pressed.
  - destruct (on_click _ sh selected_idx) as [sel cmd] eqn:Ek. apply draws_ret.
    rewrite app_nil_r, Ec. split; [done|]. split; [|by exists (c1 ++ c2), c3, c4].
    destruct cmd as [c|]; [|done]. case_match; [|done]. apply start_anim_ok.
    eapply on_click_slot. by rewrite Ek.
  - apply draws_ret. rewrite app_nil_r, Ec. split; [done|]. split; [done|]. by exists (c1 ++ c2), c3, c4.
Qed.
End Frame.
(** ** Theorems *)




(** A raylib without textures. *)
Module TestRaylib.
#[global] Instance raylib : Raylib := {|
  loaded _ := no_texture;
  CheckCollisionPointRec p r :=
    f_le (rec_x r) (vec_x p) && f_lt (vec_x p) (f_add (rec_x r) (rec_width r)) &&
    f_le (rec_y r) (vec_y p) && f_lt (vec_y p) (f_add (rec_y r) (rec_height r));
  MeasureText s size := Z.of_nat (String.length s) * size;
|}.
End TestRaylib.

(** The AI has won; an animation is half-way. *)
Definition lost_game : shared_t := {|
  sh_st := push_log (set_winner 2 (set_game_over 1 Demo.state)) "GAME OVER";
  sh_hand := zero_hand; has_state := 1; has_hand := 1; connected := 1; sh_game_over := 1 |}.
Definition half_way : anim_t := {|
  an_active := 1; an_t := f_lit 1 2; an_dur := f_lit 1 2; an_from := vec 290 430;
  an_to := vec 0 0; an_text := str "Slash" |}.

