(* ===== verification/Bench.v ===== *)
(** * The benchmark client

    src/client.c: the exchange of one thread with the server, [worker] from
    the login on, and the statistics of [main] over the threads' results.
    Connecting and the command line are in BenchMain.v; the clock is the class
    [Clock].  Times are in nanoseconds, as [long long]; they stay far from its
    bounds and are plain integers here. *)

From S2P Require Export ClientApp.

Class Clock := {
  clk : Type;
  now_ns : St clk Z;
}.

(** A clock that advances by one with every reading. *)
Module TestClock.
#[global] Instance clock : Clock := {| clk := Z; now_ns t := (t, t + 1) |}.
End TestClock.

Section Bench.
Context {C : Type} `{Channel C} `{Clock}.

Record bench_world := { b_conn : C; b_clk : clk }.

Definition b_chan {A} (m : St C A) : St bench_world A := fun w =>
  let '(a, c) := m (b_conn w) in (a, {| b_conn := c; b_clk := b_clk w |}).
Definition b_now : St bench_world Z := fun w =>
  let '(t, k) := now_ns (b_clk w) in (t, {| b_conn := b_conn w; b_clk := k |}).
Definition b_send (op : Z) (payload : list byte) : St bench_world Z :=
  b_chan (ch_send op payload).
Definition b_recv : St bench_world (option (Z * list byte)) := b_chan (ch_recv 1024).
Definition b_close : St bench_world unit := b_chan (fun c => (tt, ch_close c)).

(** [while (!got_state)]: the variable is the opcode last received; the result
    says whether a state came before the connection failed. *)
Definition until_state_step (op : Z) : St bench_world (Z + bool) :=
  if op =? OP_STATE then mret (inr true)
  else
    p ← b_recv;
    match p with
    | None => mret (inr false)
    | Some (op, _) => mret (inl op)
    end.

(** [while (!seen_state || !seen_hand)]: the result says whether the loop was
    left by [goto done].  Only thread 0 looks into the state. *)
Definition wait_step (idx : Z) (v : bool * bool) : St bench_world (bool * bool + bool) :=
  let '(seen_state, seen_hand) := v in
  if negb seen_state || negb seen_hand then
    p ← b_recv;
    match p with
    | None => mret (inr false)
    | Some (op, payload) =>
        if op =? OP_STATE then
          if (Z.of_nat (length payload) =? Z.of_nat (csize state_codec)) && (idx =? 0)
             && truthy (game_over (dec state_codec payload))
          then mret (inr true)
          else mret (inl (true, seen_hand))
        else if op =? OP_HAND then mret (inl (seen_state, true))
        else mret (inl (seen_state, seen_hand))
    end
  else mret (inr false).

Definition lift {A} (m : St bench_world A) : StO bench_world A := fun w => Some (m w).

(** One round; the variables are [i] and [sum]. *)
Definition round_step (fuel : nat) (idx rounds : Z) (v : Z * Z) :
    StO bench_world (Z * Z + Z) :=
  let '(i, sum) := v in
  if negb (i <? rounds) then mret (inr sum) else
  t0 ← lift b_now;
  r ← lift (b_send OP_PLAY_CARD (enc play_req_codec {| hand_idx := 0 |}));
  if negb (r =? 0) then mret (inr sum) else
  over ← loopM (wait_step idx) fuel (false, false);
  if over : bool then mret (inr sum) else
  r ← lift (b_send OP_END_TURN []);
  if negb (r =? 0) then mret (inr sum) else
  over ← loopM (wait_step idx) fuel (false, false);
  if over : bool then mret (inr sum) else
  t1 ← lift b_now;
  mret (inl (i + 1, sum + (t1 - t0))).

(** [worker] from the login on: what it stores in [lat_ns_out[idx]]. *)
Definition worker (fuel : nat) (idx rounds : Z) : StO bench_world Z :=
  t0 ← lift b_now;
  r ← lift (b_send OP_LOGIN_REQ []);
  if negb (r =? 0) then _ ← lift b_close; mret (-1) else
  p ← lift b_recv;
  match p with
  | None => _ ← lift b_close; mret (-1)
  | Some (op, _) =>
      q ← (if op =? OP_LOGIN_RESP then lift b_recv else mret p);
      match q with
      | None => _ ← lift b_close; mret (-1)
      | Some (op, _) =>
          got ← loopM until_state_step fuel op;
          if negb got then _ ← lift b_close; mret (-1) else
          t1 ← lift b_now;
          sum ← loopO (round_step fuel idx rounds) fuel (0, t1 - t0);
          _ ← lift b_close;
          mret sum
      end
  end.
End Bench.

(** ** The statistics of [main] *)

Record stats_t := { st_ok : Z; st_sum : Z; st_min : Z; st_max : Z }.

Definition add_lat (s : stats_t) (lat : Z) : stats_t :=
  if lat <=? 0 then s else
  {| st_ok := st_ok s + 1; st_sum := st_sum s + lat;
     st_min := if lat <? st_min s then lat else st_min s;
     st_max := if st_max s <? lat then lat else st_max s |}.

Definition bench_stats (lats : list Z) : stats_t :=
  foldl add_lat {| st_ok := 0; st_sum := 0; st_min := 2 ^ 62; st_max := 0 |} lats.

(** ** A thread whose connection is lost after the login *)

Section Lost.
Context {C : Type} `{ChannelApart C} `{Clock}.
Hypothesis clock_runs : forall k, (now_ns k).1 < (now_ns (now_ns k).2).1.

(** Nothing more arrives but perhaps the hand of the login. *)
Definition drained (w : bench_world (C:=C)) : Prop :=
  arriving (b_conn w) = [] \/
  exists h, arriving (b_conn w) = [(opcode OP_HAND, h)] /\ (length h <= 1024)%nat.

Lemma b_send_arriving op payload w :
  exists r w', b_send op payload w = (r, w') /\ arriving (b_conn w') = arriving (b_conn w) /\
    b_clk w' = b_clk w.
Proof.
  unfold b_send, b_chan. pose proof (arriving_send op payload (b_conn w)) as Hs.
  destruct (ch_send op payload (b_conn w)) as [r c]. by eexists _, _.
Qed.

Lemma b_recv_next op payload q w :
  arriving (b_conn w) = (op, payload) :: q -> (length payload <= 1024)%nat ->
  exists w', b_recv w = (Some (op, payload), w') /\ arriving (b_conn w') = q /\ b_clk w' = b_clk w.
Proof.
  intros Ha Hl. destruct (arriving_next 1024 _ _ _ _ Ha) as [Hr Hq]; [lia|].
  unfold b_recv, b_chan. destruct (ch_recv 1024 (b_conn w)) as [r c]. cbn in Hr, Hq. subst r.
  by eexists.
Qed.

Lemma b_recv_end w :
  arriving (b_conn w) = [] ->
  exists w', b_recv w = (None, w') /\ arriving (b_conn w') = [] /\ b_clk w' = b_clk w.
Proof.
  intros Ha. destruct (arriving_end 1024 _ Ha) as [Hr Hq].
  unfold b_recv, b_chan. destruct (ch_recv 1024 (b_conn w)) as [r c]. cbn in Hr, Hq. subst r.
  by eexists.
Qed.

Lemma wait_lost fuel idx sh w :
  arriving (b_conn w) = [] ->
  exists w', loopM (wait_step idx) (S fuel) (false, sh) w = Some (false, w') /\
    arriving (b_conn w') = [] /\ b_clk w' = b_clk w.
Proof.
  intros Ha. destruct (b_recv_end w Ha) as (w' & E & Ha' & Hk). exists w'.
  unfold loopM. cbn [loop fst snd]. unfold wait_step, mbind, St_bind. cbn [negb orb].
  rewrite E. done.
Qed.

Lemma wait_drained fuel idx w :
  drained w ->
  exists w', loopM (wait_step idx) (S (S fuel)) (false, false) w = Some (false, w') /\
    arriving (b_conn w') = [] /\ b_clk w' = b_clk w.
Proof.
  intros [Ha|(h & Ha & Hh)]; [by apply wait_lost|].
  destruct (b_recv_next _ _ _ _ Ha Hh) as (w1 & E & Ha1 & Hk1).
  destruct (wait_lost fuel idx true w1 Ha1) as (w' & E' & Ha' & Hk').
  exists w'. split; [|split; [done|congruence]].
  rewrite <- E'. apply loopM_step. unfold wait_step, mbind, St_bind. cbn [negb orb].
  rewrite E. done.
Qed.

(** One round without an answer. *)
Lemma round_drained fuel idx rounds i sum w :
  drained w -> i < rounds ->
  exists r w', round_step (S (S fuel)) idx rounds (i, sum) w = Some (r, w') /\ drained w' /\
    match r with
    | inl (i', sum') => i' = i + 1 /\ sum < sum'
    | inr sum' => sum' = sum
    end.
Proof.
  intros Hd Hi. unfold round_step. destruct (Z.ltb_spec i rounds); [|lia]. cbn [negb].
  unfold lift, b_now, mbind, StO_bind. pose proof (clock_runs (b_clk w)) as Hck.
  destruct (now_ns (b_clk w)) as [t0 k]. cbn [fst snd] in Hck.
  set (w0 := {| b_conn := b_conn w; b_clk := k |}).
  destruct (b_send_arriving OP_PLAY_CARD (enc play_req_codec {| hand_idx := 0 |}) w0)
    as (r1 & w1 & -> & Ha1 & Hk1).
  assert (drained w1) as Hd1 by (unfold drained; rewrite Ha1; exact Hd).
  destruct (negb (r1 =? 0)); [exists (inr sum), w1; by split|].
  destruct (wait_drained fuel idx w1 Hd1) as (w2 & -> & Ha2 & Hk2).
  destruct (b_send_arriving OP_END_TURN [] w2) as (r3 & w3 & -> & Ha3 & Hk3).
  assert (arriving (b_conn w3) = []) as Ha3' by congruence.
  destruct (negb (r3 =? 0)); [exists (inr sum), w3; split; [done|split; [by left|done]]|].
  destruct (wait_lost (S fuel) idx false w3 Ha3') as (w4 & -> & Ha4 & Hk4).
  assert (b_clk w4 = k) as -> by (rewrite Hk4, Hk3, Hk2, Hk1; done).
  destruct (now_ns k) as [t1 k']. cbn [fst] in Hck.
  eexists _, _. split; [reflexivity|]. split; [by left|]. lia.
Qed.

Lemma loopO_eq {W T R} (body : T -> StO W (T + R)) fuel s w :
  loopO body (S fuel) s w =
    match body s w with
    | Some (inl s', w') => loopO body fuel s' w'
    | Some (inr r, w') => Some (r, w')
    | None => None
    end.
Proof. cbn [loopO]. unfold mbind, StO_bind. destruct (body s w) as [[[?|?] ?]|]; done. Qed.

(** The remaining rounds run to their end without an answer. *)
Lemma rounds_drained n fuel idx rounds i sum w :
  drained w -> 0 < sum -> rounds - i <= Z.of_nat n ->
  exists sum' w', loopO (round_step (S (S fuel)) idx rounds) (S n) (i, sum) w = Some (sum', w') /\
    0 < sum'.
Proof.
  revert i sum w. induction n as [|n IH]; intros i sum w Hd Hs Hn; rewrite loopO_eq;
    (destruct (decide (i < rounds)) as [Hi|Hi];
     [|exists sum, w; unfold round_step; destruct (Z.ltb_spec i rounds); [lia|done]]); [lia|].
  destruct (round_drained fuel idx rounds i sum w Hd Hi) as ([[i' sum']|sum'] & w' & -> & Hd' & Hr).
  - apply IH; [done|lia|lia].
  - subst sum'. by exists sum, w'.
Qed.

(** The thread as a whole: it reports a latency although it never got an
    answer to a move. *)
Lemma worker_lost fuel idx rounds sid st hand w :
  (forall op payload c, (length payload <= 4088)%nat -> (ch_send op payload c).1 = 0) ->
  state_wf st -> hand_wf hand -> 0 <= rounds < Z.of_nat fuel ->
  arriving (b_conn w) = [login_packet; resume_packet 1 sid] ++ game_packets st hand ->
  exists sum w', worker (S (S fuel)) idx rounds w = Some (sum, w') /\ 0 < sum.
Proof.
  intros Hsend Hs Hh Hf Ha. apply state_codec_wf in Hs. apply hand_codec_wf in Hh.
  pose proof (enc_length _ _ Hs) as Hsl. pose proof (enc_length _ _ Hh) as Hhl.
  unfold worker, lift, b_now, mbind, StO_bind. pose proof (clock_runs (b_clk w)) as Hck.
  destruct (now_ns (b_clk w)) as [t0 k]. cbn [fst snd] in Hck.
  set (w0 := {| b_conn := b_conn w; b_clk := k |}).
  destruct (b_send_arriving OP_LOGIN_REQ [] w0) as (r1 & w1 & E1 & Ha1 & Hk1).
  assert (r1 = 0) as ->.
  { unfold b_send, b_chan in E1. pose proof (Hsend OP_LOGIN_REQ [] (b_conn w0) ltac:(cbn; lia)) as Hz.
    destruct (ch_send _ _ _). cbn in Hz. congruence. }
  rewrite E1. cbn [negb Z.eqb].
  change (b_conn w0) with (b_conn w) in Ha1. rewrite Ha in Ha1.
  destruct (b_recv_next _ _ _ _ Ha1) as (w2 & -> & Ha2 & Hk2); [by vm_compute; lia|].
  change (opcode OP_LOGIN_RESP =? opcode OP_LOGIN_RESP) with true. cbn match.
  destruct (b_recv_next _ _ _ _ Ha2) as (w3 & -> & Ha3 & Hk3);
    [change (length (resume_packet 1 sid).2 <= 1024)%nat; rewrite resume_packet_length; lia|].
  destruct (b_recv_next _ _ _ _ Ha3) as (w4 & E4 & Ha4 & Hk4); [rewrite Hsl; cbn; lia|].
  assert (loopM until_state_step (S (S fuel)) (opcode OP_RESUME_RESP) w3 = Some (true, w4)) as ->.
  { rewrite (loopM_step _ _ _ _ (opcode OP_STATE) w4); [reflexivity|].
    unfold until_state_step, mbind, St_bind. cbn [Z.eqb opcode Pos.eqb]. by rewrite E4. }
  cbn [negb]. assert (b_clk w4 = k) as -> by (rewrite Hk4, Hk3, Hk2, Hk1; done).
  destruct (now_ns k) as [t1 k']. cbn [fst] in Hck.
  destruct (rounds_drained (S fuel) fuel idx rounds 0 (t1 - t0)
    {| b_conn := b_conn w4; b_clk := k' |}) as (sum & w5 & -> & Hsum); [|lia|lia|].
  { right. eexists. split; [exact Ha4|]. rewrite Hhl. cbn. lia. }
  by eexists sum, _.
Qed.
End Lost.

(** ** Theorems *)

Lemma stats_from (lats : list Z) (s : stats_t) :
  let r := foldl add_lat s lats in
  let good := filter (fun l => 0 < l) lats in
  st_ok r = st_ok s + Z.of_nat (length good) /\ st_sum r = st_sum s + foldr Z.add 0 good /\
  st_min r = foldr Z.min (st_min s) good /\ st_max r = foldr Z.max (st_max s) good.
Proof.
  revert s. induction lats as [|l lats IH]; intros s; [cbn; lia|].
  cbn [foldl]. rewrite filter_cons. specialize (IH (add_lat s l)). cbv zeta in IH.
  destruct IH as (-> & -> & -> & ->). unfold add_lat.
  destruct (Z.leb_spec l 0); [by rewrite decide_False by lia|rewrite decide_True by lia].
  cbn [st_ok st_sum st_min st_max foldr length].
  assert (forall m k, foldr Z.min (Z.min l m) k = Z.min l (foldr Z.min m k)) as Hmin
    by (intros m k; induction k; cbn; lia).
  assert (forall m k, foldr Z.max (Z.max l m) k = Z.max l (foldr Z.max m k)) as Hmax
    by (intros m k; induction k; cbn; lia).
  rewrite <- Hmin, <- Hmax. splits; [lia|lia|f_equal|f_equal]; zcase; lia.
Qed.

(** The statistics: the threads counted as successful are those with a
    positive latency, and sum, minimum and maximum are taken over exactly
    these. *)
Theorem bench_stats_spec lats :
  let r := bench_stats lats in
  let good := filter (fun l => 0 < l) lats in
  st_ok r = Z.of_nat (length good) /\ st_sum r = foldr Z.add 0 good /\
  st_min r = foldr Z.min (2 ^ 62) good /\ st_max r = foldr Z.max 0 good.
Proof. apply (stats_from lats (Build_stats_t 0 0 (2 ^ 62) 0)). Qed.


Definition lost_world : bench_world (H0 := TestClock.clock) := {|
  b_conn := {| Queue.inbox := [login_packet; resume_packet 1 42] ++
                              game_packets zero_state zero_hand;
               Queue.outbox := [] |};
  b_clk := 7 |}.

