(* ===== verification/BenchMain.v ===== *)
(** * The benchmark client's threads

    src/client.c: connecting and the TLS handshake of a thread around the
    exchange of Bench.v, the command line, and the collection of the threads'
    results.  [main] as a whole is in BenchReport.v. *)

From S2P Require Export Bench GuiNet.

(** ** The code *)

(** The command line: the terminal client, or a benchmark. *)
Inductive client_mode :=
  | app_mode (host : string) (port : Z)
  | bench_mode (threads rounds : Z) (host : string) (port : Z).

(** [argv[i]], if it is there. *)
Definition arg (argv : list string) (i : nat) : option string := argv !! i.

Definition client_args (argv : list string) : client_mode :=
  if decide (arg argv 1 = Some "--app"%string) then
    app_mode (default "127.0.0.1"%string (arg argv 2)) (from_option (fun a => u16 (atoi a)) 9000 (arg argv 3))
  else
    bench_mode (from_option atoi 100 (arg argv 1)) (from_option atoi 5 (arg argv 2))
      (default "127.0.0.1"%string (arg argv 3)) (from_option (fun a => u16 (atoi a)) 9000 (arg argv 4)).

Section Code.
Context `{Os} `{Clock}.

(** [worker] up to the login: a connection, or [None] when it reports -1. *)
Definition bench_connect (ctx : SSL_CTX) (host : string) (port : Z) : St nio (option connection_t) :=
  fd ← tcp_connect host port;
  if fd <? 0 then
    _ ← call (perror "[client] connect failed");
    mret None
  else
    _ ← net_set_timeout fd 3;
    ssl ← SSL_new ctx;
    _ ← call (SSL_set_fd ssl fd);
    r ← SSL_connect ssl;
    if r <=? 0 then
      _ ← call (SSL_free ssl);
      _ ← call (close fd);
      mret None
    else mret (Some (conn_init fd (Some ssl))).

(** [worker] as a whole: the value that it stores in [lat_ns_out[idx]].  [m] is
    the fuel of the reads and writes, [fuel] that of the loops over packets. *)
Definition bench_thread (m fuel : nat) (ctx : SSL_CTX) (host : string) (port idx rounds : Z) :
    StO (nio * clk) Z := fun w =>
  let '(c, n) := bench_connect ctx host port w.1 in
  match c with
  | None => Some (-1, (n, w.2))
  | Some conn =>
      match worker (H := byte_channel m) fuel idx rounds {| b_conn := Some (conn, n); b_clk := w.2 |} with
      | Some (lat, {| b_conn := Some (_, n); b_clk := k |}) => Some (lat, (n, k))
      | _ => None
      end
  end.
End Code.

(** [a->lat_ns_out[a->idx] = ...], by a thread that ends. *)
Definition report_lat (lats : list Z) (r : nat * Z) : list Z := <[r.1 := r.2]> lats.

(** The array, from [calloc] on, after the threads have ended in some order. *)
Definition collect (threads : nat) (ended : list (nat * Z)) : list Z :=
  foldl report_lat (replicate threads 0) ended.

(** The first line that [main] prints. *)
Definition summary (threads rounds : Z) (lats : list Z) : string :=
  let ok := st_ok (bench_stats lats) in
  "threads=" +:+ pretty threads +:+ " rounds=" +:+ pretty rounds +:+
  " ok=" +:+ pretty ok +:+ " fail=" +:+ pretty (threads - ok).

(** ** What a thread holds *)

Section Holds.
Context `{Os} `{Clock} (holds : nio -> held) (Hoh : os_holds holds).

Section Connection.
Context (m : nat) (c : connection_t) (h : held).

Definition b_holds (w : bench_world (C := bchan)) : Prop := chan_holds holds c h (b_conn w).
(** Keeping the connection, whatever the fuel. *)
Definition b_keeps {A} (k : StO (bench_world (C := bchan)) A) : Prop :=
  forall w a w', b_holds w -> k w = Some (a, w') -> b_holds w'.

Lemma b_keeps_ret {A} (a : A) : b_keeps (mret a).
Proof. by intros w a' w' Hw [= _ <-]. Qed.
Lemma b_keeps_bind {A B} (k : StO bench_world A) (k' : A -> StO bench_world B) :
  b_keeps k -> (forall a, b_keeps (k' a)) -> b_keeps (k ≫= k').
Proof.
  intros Hk Hk' w b w' Hw. unfold mbind, StO_bind. destruct (k w) as [[a w1]|] eqn:E; [|done].
  apply Hk'. by eapply Hk.
Qed.
Lemma b_keeps_lift {A} (k : St bench_world A) :
  (forall w, b_holds w -> b_holds (k w).2) -> b_keeps (lift k).
Proof. intros Hk w a w' Hw [= E]. specialize (Hk w Hw). by rewrite E in Hk. Qed.
Lemma b_send_holds op payload w : b_holds w -> b_holds (b_send (H := byte_channel m) op payload w).2.
Proof.
  intros Hw. pose proof (chan_send_holds holds Hoh m c h op payload _ Hw) as Hs.
  unfold b_send, b_chan, b_holds in *. by destruct (ch_send op payload (b_conn w)).
Qed.
Lemma b_recv_holds w : b_holds w -> b_holds (b_recv (H := byte_channel m) w).2.
Proof.
  intros Hw. pose proof (chan_recv_holds holds Hoh m c h 1024 _ Hw) as Hs.
  unfold b_recv, b_chan, b_holds in *. by destruct (ch_recv 1024 (b_conn w)).
Qed.
Lemma b_now_holds w : b_holds w -> b_holds (b_now w).2.
Proof. intros Hw. unfold b_now, b_holds in *. by destruct (now_ns (b_clk w)). Qed.

Lemma b_keeps_loopM {V R} (body : V -> St bench_world (V + R)) fuel v :
  (forall v w, b_holds w -> b_holds (body v w).2) -> b_keeps (loopM body fuel v).
Proof.
  intros Hb w r w' Hw E.
  refine (loopM_triple (fun _ => b_holds) (fun _ => b_holds) body fuel v w r w' _ Hw E).
  intros v1 w1 Hw1. specialize (Hb v1 w1 Hw1). by destruct (body v1 w1) as [[?|?] ?].
Qed.
Lemma b_keeps_loopO {V R} (body : V -> StO bench_world (V + R)) fuel v :
  (forall v, b_keeps (body v)) -> b_keeps (loopO body fuel v).
Proof.
  intros Hb. revert v. induction fuel as [|fuel IH]; intros v; [by intros w a w'|].
  cbn [loopO]. apply b_keeps_bind; [apply Hb|]. intros [v'|r]; [apply IH|apply b_keeps_ret].
Qed.

Lemma until_state_holds op w : b_holds w -> b_holds (until_state_step (H := byte_channel m) op w).2.
Proof.
  intros Hw. unfold until_state_step, mbind, St_bind, mret, St_ret. destruct (op =? _); [done|].
  pose proof (b_recv_holds w Hw) as Hr. destruct (b_recv w) as [[[? ?]|] w1]; exact Hr.
Qed.
Lemma wait_holds idx v w : b_holds w -> b_holds (wait_step (H := byte_channel m) idx v w).2.
Proof.
  intros Hw. destruct v as [ss sh]. unfold wait_step, mbind, St_bind, mret, St_ret.
  destruct (negb ss || negb sh); [|done].
  pose proof (b_recv_holds w Hw) as Hr. destruct (b_recv w) as [[[op payload]|] w1]; [|exact Hr].
  destruct (op =? OP_STATE); [by case_match|by case_match].
Qed.

Lemma b_keeps_now : b_keeps (lift (b_now (C := bchan))).
Proof. apply b_keeps_lift, b_now_holds. Qed.
Lemma b_keeps_send op payload : b_keeps (lift (b_send (H := byte_channel m) op payload)).
Proof. apply b_keeps_lift, b_send_holds. Qed.
Lemma b_keeps_recv : b_keeps (lift (b_recv (H := byte_channel m))).
Proof. apply b_keeps_lift, b_recv_holds. Qed.

Lemma round_keeps fuel idx rounds v : b_keeps (round_step (H := byte_channel m) fuel idx rounds v).
Proof.
  destruct v as [i sum]. unfold round_step. case_match; [apply b_keeps_ret|].
  apply b_keeps_bind; [apply b_keeps_now|intros t0].
  apply b_keeps_bind; [apply b_keeps_send|intros r]. case_match; [apply b_keeps_ret|].
  apply b_keeps_bind; [apply b_keeps_loopM, wait_holds|intros [|]]; [apply b_keeps_ret|].
  apply b_keeps_bind; [apply b_keeps_send|intros r']. case_match; [apply b_keeps_ret|].
  apply b_keeps_bind; [apply b_keeps_loopM, wait_holds|intros [|]]; [apply b_keeps_ret|].
  apply b_keeps_bind; [apply b_keeps_now|intros t1]. apply b_keeps_ret.
Qed.
End Connection.

(** A computation that closes the connection it is given. *)
Definition b_closes (c : connection_t) (h : held) {A} (k : StO (bench_world (C := bchan)) A) : Prop :=
  forall w a w', b_holds c (add_ssls 1 (add_fd (conn_fd c) h)) w -> k w = Some (a, w') ->
    chan_closed holds h (b_conn w').

Section Closing.
Context (m : nat) (c : connection_t) (h : held) (ssl : SSL_t).
Hypotheses (Hssl : conn_ssl c = Some ssl) (Hfd : 0 <= conn_fd c) (Hn : (conn_fd c ∉ h_fds h)).

Lemma b_closes_after {A B} (k : StO bench_world A) (k' : A -> StO bench_world B) :
  b_keeps c (add_ssls 1 (add_fd (conn_fd c) h)) k -> (forall a, b_closes c h (k' a)) -> b_closes c h (k ≫= k').
Proof.
  intros Hk Hk' w b w' Hw. unfold mbind, StO_bind. destruct (k w) as [[a w1]|] eqn:E; [|done].
  apply Hk'. by eapply Hk.
Qed.
Lemma b_closes_close {A} (a : A) :
  b_closes c h (lift (b_close (H := byte_channel m)) ≫= fun _ => mret a).
Proof.
  intros w b w' Hw [= _ <-]. unfold b_close, b_chan. cbn [b_conn snd].
  by apply (chan_close_holds holds Hoh m c ssl).
Qed.

Lemma worker_closes fuel idx rounds : b_closes c h (worker (H := byte_channel m) fuel idx rounds).
Proof.
  unfold worker. apply b_closes_after; [apply b_keeps_now|intros t0].
  apply b_closes_after; [apply b_keeps_send|intros r]. case_match; [apply b_closes_close|].
  apply b_closes_after; [apply b_keeps_recv|intros [[op p]|]]; [|apply b_closes_close].
  apply b_closes_after; [case_match; [apply b_keeps_recv|apply b_keeps_ret]|].
  intros [[op' p']|]; [|apply b_closes_close].
  apply b_closes_after; [apply b_keeps_loopM, until_state_holds|intros [|]]; [|apply b_closes_close].
  apply b_closes_after; [apply b_keeps_now|intros t1].
  apply b_closes_after; [apply b_keeps_loopO, round_keeps|intros sum]. apply b_closes_close.
Qed.
End Closing.

(** What connecting leaves. *)
Definition connected_as (h : held) (c : option connection_t) (w : nio) : Prop :=
  match c with
  | None => holds w = h
  | Some c => (exists ssl, conn_ssl c = Some ssl) /\ 0 <= conn_fd c /\ (conn_fd c ∉ h_fds h) /\
      holds w = add_ssls 1 (add_fd (conn_fd c) h)
  end.

Ltac bench_step lem := eapply triple_bind; [apply lem; exact Hoh|intros ?; cbv beta].

Lemma bench_connect_holds ctx host port h :
  triple (at_held holds h) (bench_connect ctx host port) (connected_as h).
Proof.
  unfold bench_connect. eapply triple_bind; [by apply tcp_connect_held|intros fd; cbv beta].
  destruct (Z.ltb_spec fd 0) as [Hf|Hf].
  - eapply triple_conseq with (P' := at_held holds h) (Q' := connected_as h);
      [|intros w [[]|[]]; [lia|done]|done].
    eapply triple_bind; [apply (held_call holds _ (fun h => h)), Hoh|intros ?]. by apply triple_ret.
  - eapply triple_conseq with (P' := fun w => (fd ∉ h_fds h) /\ at_held holds (add_fd fd h) w)
      (Q' := connected_as h); [|intros w [(? & ? & ?)|[]]; [done|lia]|done].
    apply triple_pure. intros Hn.
    eapply triple_bind; [apply (timeout_held holds Hoh)|intros r]. apply triple_pure. intros _.
    bench_step held_ssl_new. bench_step held_set_fd. bench_step held_ssl_connect. case_match.
    + bench_step held_ssl_free.
      eapply triple_bind; [by apply held_close_fresh|intros ?; cbv beta]. by apply triple_ret.
    + apply triple_ret. intros w Hw. split; [by eexists|]. by splits.
Qed.
End Holds.

(** ** The array of the results *)

Lemma report_lats_length ended lats : length (foldl report_lat lats ended) = length lats.
Proof. revert lats. induction ended as [|r ended IH]; intros lats; cbn; [done|]. rewrite IH. apply length_insert. Qed.

Lemma report_lats_other ended lats i :
  (i ∉ ended.*1) -> foldl report_lat lats ended !! i = lats !! i.
Proof.
  revert lats. induction ended as [|[j v] ended IH]; intros lats Hi; cbn; [done|].
  apply not_elem_of_cons in Hi as [Hj Hi]. rewrite IH by done. by apply list_lookup_insert_ne.
Qed.

Lemma report_lats_lookup ended lats i v :
  NoDup ended.*1 -> (i, v) ∈ ended -> (i < length lats)%nat ->
  foldl report_lat lats ended !! i = Some v.
Proof.
  revert lats. induction ended as [|[j u] ended IH]; intros lats Hd Hin Hi; [by apply not_elem_of_nil in Hin|].
  cbn in Hd |- *. apply NoDup_cons in Hd as [Hj Hd].
  apply elem_of_cons in Hin as [[= -> ->]|Hin].
  - rewrite report_lats_other by done. by apply list_lookup_insert_eq.
  - apply IH; [done|done|by rewrite length_insert].
Qed.

(** ** Theorems *)

(** A thread of the benchmark leaks nothing: whether it cannot connect, fails
    the handshake, loses its session anywhere or plays all its rounds, when it
    has stored its result it holds what it held before. *)
Theorem bench_thread_releases `{Os} `{Clock} holds m fuel ctx host port idx rounds w lat w' :
  os_holds holds -> bench_thread m fuel ctx host port idx rounds w = Some (lat, w') ->
  holds w'.1 = holds w.1.
Proof.
  intros Hoh. unfold bench_thread.
  pose proof (bench_connect_holds holds Hoh ctx host port (holds w.1) w.1 eq_refl) as Hc.
  destruct (bench_connect ctx host port w.1) as [[c|] n]; cbn [fst snd] in Hc;
    [|by intros [= _ <-]].
  destruct Hc as ([ssl Hs] & Hfd & Hn & Hh).
  destruct (worker _ _ _ _) as [[lat' [[[c' n']|] k]]|] eqn:E; [|done..]. intros [= _ <-].
  refine (proj2 (proj2 (worker_closes holds Hoh m c (holds w.1) ssl Hs Hfd Hn _ _ _ _ _ _ _ E))).
  by split.
Qed.

(** The order in which the threads end does not matter: when each of them has
    stored its result once, the array is the list of the results by thread, and
    so are the statistics of [main] and its summary. *)
Theorem bench_any_order (lats : list Z) (ended : list (nat * Z)) rounds :
  ended ≡ₚ zip (seq 0 (length lats)) lats ->
  let collected := collect (length lats) ended in
  collected = lats /\ bench_stats collected = bench_stats lats /\
  summary (Z.of_nat (length lats)) rounds collected = summary (Z.of_nat (length lats)) rounds lats.
Proof.
  intros Hp. cbv zeta. enough (collect (length lats) ended = lats) as -> by done.
  assert (NoDup ended.*1) as Hd.
  { rewrite Hp, fst_zip by (rewrite length_seq; lia). apply NoDup_seq. }
  unfold collect. apply list_eq. intros i. destruct (lats !! i) as [v|] eqn:E.
  - apply report_lats_lookup; [done| |by rewrite length_replicate; eapply lookup_lt_Some].
    rewrite Hp. apply list_elem_of_lookup. exists i. rewrite lookup_zip_with, lookup_seq_lt, E; [done|].
    by eapply lookup_lt_Some.
  - apply lookup_ge_None. rewrite report_lats_length, length_replicate. by apply lookup_ge_None.
Qed.

Lemma bench_any_order_witness : collect 3 [(2%nat, 7); (0%nat, -1); (1%nat, 40)] = [-1; 40; 7].
Proof.
  apply (bench_any_order [-1; 40; 7] [(2%nat, 7); (0%nat, -1); (1%nat, 40)] 5). cbn. solve_Permutation.
Defined.

Lemma bench_thread_releases_witness : exists w',
  bench_thread (H0 := TestOs.os) (H1 := TestClock.clock) 2 3 tt "localhost" 9000 0 5 (TestOs.world0 [-1], 0)
    = Some (-1, w') /\
  TestOs.hold w'.1 = TestOs.hold (TestOs.world0 [-1]).
Proof.
  set (r := bench_thread (H0 := TestOs.os) (H1 := TestClock.clock) 2 3 tt "localhost" 9000 0 5 (TestOs.world0 [-1], 0)).
  assert (fst <$> r = Some (-1)) as Hs by (lazy; reflexivity).
  destruct r as [[lat w']|] eqn:E; [|discriminate Hs]. injection Hs as ->. subst r.
  exists w'. split; [reflexivity|].
  exact (bench_thread_releases (H0 := TestOs.os) (H1 := TestClock.clock) _ _ _ _ _ _ _ _ _ _ w' TestOs.test_holds E).
Defined.
