(* ===== verification/AppMain.v ===== *)
(** * The terminal client as a whole

    src/client_app.c, [run_app_mode]: the TLS context, connecting, the TLS
    handshake and the session of ClientApp.v.  The file declares [ctx] and
    [ssl] twice in one block and does not compile: of its two handshakes the one
    in lines 82 to 94, which replaces the context by a second one, is left
    out. *)

From S2P Require Export BenchMain.

Section Code.
Context `{Os} `{Curses}.

(** The handshake on a connected socket, up to [conn_init]. *)
Definition app_tls (ctx : SSL_CTX) (fd : Z) : St nio (option connection_t) :=
  ssl ← SSL_new ctx;
  _ ← call (SSL_set_fd ssl fd);
  r ← SSL_connect ssl;
  if r <=? 0 then
    _ ← ERR_print_errors;
    _ ← call (SSL_free ssl);
    _ ← call (close fd);
    _ ← call (SSL_CTX_free ctx);
    mret None
  else mret (Some (conn_init fd (Some ssl))).

(** Up to the login: the connection with the context to free at the end. *)
Definition app_dial (host : string) (port : Z) : St nio (option (connection_t * SSL_CTX)) :=
  ctx ← ssl_init_client_ctx;
  match ctx with
  | None => mret None
  | Some ctx =>
      fd ← tcp_connect host port;
      if fd <? 0 then
        _ ← call (perror "tcp_connect");
        _ ← call (SSL_CTX_free ctx);
        mret None
      else
        _ ← net_set_timeout fd 3;
        c ← app_tls ctx fd;
        mret (option_map (fun c => (c, ctx)) c)
  end.

(** The result is the exit status.  [m] is the fuel of the reads and writes,
    [fuel] that of the loops over keys and packets. *)
Definition run_app_mode (m fuel : nat) (host : string) (port : Z) : StO (nio * scr) Z := fun w =>
  let '(c, n) := app_dial host port w.1 in
  match c with
  | None => Some (1, (n, w.2))
  | Some (conn, ctx) =>
      match app_session (H := byte_channel m) fuel {| a_conn := Some (conn, n); a_term := w.2 |} with
      | Some (rc, {| a_conn := Some (_, n); a_term := t |}) => Some (rc, (SSL_CTX_free ctx n, t))
      | _ => None
      end
  end.
End Code.

(** ** What the process holds *)

Section Holds.
Context `{Os} `{Curses} (holds : nio -> held) (Hoh : os_holds holds).

Lemma app_tls_holds ctx fd h :
  0 <= fd -> (fd ∉ h_fds h) ->
  triple (at_held holds (add_fd fd (add_ctxs 1 h))) (app_tls ctx fd) (fun c w =>
    match c with
    | None => at_held holds h w
    | Some c => connected_as holds (add_ctxs 1 h) (Some c) w
    end).
Proof.
  intros Hfd Hn. unfold app_tls.
  eapply triple_bind; [apply held_ssl_new, Hoh|intros ssl; cbv beta].
  eapply triple_bind; [apply held_set_fd, Hoh|intros ?; cbv beta].
  eapply triple_bind; [apply held_ssl_connect, Hoh|intros r; cbv beta]. destruct (r <=? 0).
  - eapply triple_bind; [apply held_errors, Hoh|intros ?; cbv beta].
    eapply triple_bind; [apply held_ssl_free, Hoh|intros ?; cbv beta].
    eapply triple_bind; [by apply held_close_fresh|intros ?; cbv beta].
    eapply triple_bind; [apply held_ctx_free, Hoh|intros ?; cbv beta]. by apply triple_ret.
  - apply triple_ret. intros w Hw. split; [by eexists|]. by splits.
Qed.

Lemma app_dial_holds host port h :
  triple (at_held holds h) (app_dial host port) (fun c w =>
    match c with
    | None => at_held holds h w
    | Some (c, _) => connected_as holds (add_ctxs 1 h) (Some c) w
    end).
Proof.
  unfold app_dial. eapply triple_bind; [by apply client_ctx_held|intros [ctx|]];
    [|by apply triple_ret]. unfold gives_ctx.
  eapply triple_bind; [by apply tcp_connect_held|intros fd; cbv beta].
  destruct (Z.ltb_spec fd 0) as [Hf|Hf].
  - eapply triple_conseq with (P' := at_held holds (add_ctxs 1 h));
      [|intros w [[]|[]]; [lia|done]|intros a w Hw; exact Hw].
    eapply triple_bind; [apply (held_call holds _ (fun h => h)), Hoh|intros ?; cbv beta].
    eapply triple_bind; [apply held_ctx_free, Hoh|intros ?; cbv beta]. by apply triple_ret.
  - eapply triple_conseq with (P' := fun w => (fd ∉ h_fds h) /\ at_held holds (add_fd fd (add_ctxs 1 h)) w);
      [|intros w [(? & ? & ?)|[]]; [done|lia]|intros a w Hw; exact Hw].
    apply triple_pure. intros Hn.
    eapply triple_bind; [apply (timeout_held holds Hoh)|intros r]. apply triple_pure. intros _.
    eapply triple_bind; [by apply app_tls_holds|intros c; cbv beta].
    apply triple_ret. intros w Hw. destruct c; exact Hw.
Qed.

(** *** The session keeps its connection and closes it *)

Section Session.
Context (m : nat) (c : connection_t) (h : held).

Definition a_holds (w : app_world (C := bchan)) : Prop := chan_holds holds c h (a_conn w).
Definition a_keeps {A} (k : StO (app_world (C := bchan)) A) : Prop :=
  forall w a w', a_holds w -> k w = Some (a, w') -> a_holds w'.

Lemma a_keeps_ret {A} (a : A) : a_keeps (mret a).
Proof. by intros w a' w' Hw [= _ <-]. Qed.
Lemma a_keeps_bind {A B} (k : StO app_world A) (k' : A -> StO app_world B) :
  a_keeps k -> (forall a, a_keeps (k' a)) -> a_keeps (k ≫= k').
Proof.
  intros Hk Hk' w b w' Hw. unfold mbind, StO_bind. destruct (k w) as [[a w1]|] eqn:E; [|done].
  apply Hk'. by eapply Hk.
Qed.
Lemma a_keeps_term {A} (k : St scr A) : a_keeps (app_term k).
Proof. intros w a w' Hw. unfold app_term. destruct (k (a_term w)). by intros [= _ <-]. Qed.
Lemma a_keeps_send op payload : a_keeps (app_send (H := byte_channel m) op payload).
Proof.
  intros w r w' Hw. unfold app_send, app_conn.
  pose proof (chan_send_holds holds Hoh m c h op payload _ Hw) as Hs.
  destruct (ch_send op payload (a_conn w)). by intros [= _ <-].
Qed.
Lemma a_keeps_until fuel st hand : a_keeps (app_conn (recv_until (H := byte_channel m) fuel st hand)).
Proof.
  intros w r w' Hw. unfold app_conn.
  destruct (recv_until fuel st hand (a_conn w)) as [[r' c']|] eqn:E; [|done]. intros [= _ <-].
  refine (recv_until_frame (H := byte_channel m) (chan_holds holds c h) fuel st hand _ _ _ _ E Hw).
  intros s. by apply chan_recv_holds.
Qed.
Lemma a_keeps_request fuel op payload st hand :
  a_keeps (app_request (H := byte_channel m) fuel op payload st hand).
Proof.
  unfold app_request. apply a_keeps_bind; [apply a_keeps_send|intros r].
  case_match; [apply a_keeps_ret|]. apply a_keeps_bind; [apply a_keeps_until|intros [[rc st'] hand']].
  case_match; apply a_keeps_ret.
Qed.
Lemma a_keeps_step fuel v : a_keeps (app_step (H := byte_channel m) fuel v).
Proof.
  destruct v as [st hand]. unfold app_step.
  apply a_keeps_bind; [apply a_keeps_term|intros ?]. apply a_keeps_bind; [apply a_keeps_term|intros ch].
  repeat (case_match; try apply a_keeps_ret); apply a_keeps_request.
Qed.
Lemma a_keeps_loop fuel n v : a_keeps (loopO (app_step (H := byte_channel m) fuel) n v).
Proof.
  revert v. induction n as [|n IH]; intros v; [by intros w a w'|]. cbn [loopO].
  apply a_keeps_bind; [apply a_keeps_step|intros [v'|r]]; [apply IH|apply a_keeps_ret].
Qed.
End Session.

Section Closing.
Context (m : nat) (c : connection_t) (h : held) (ssl : SSL_t).
Hypotheses (Hssl : conn_ssl c = Some ssl) (Hfd : 0 <= conn_fd c) (Hn : (conn_fd c ∉ h_fds h)).
#[local] Abbreviation held_open := (add_ssls 1 (add_fd (conn_fd c) h)).

(** A computation that closes the connection it is given. *)
Definition a_closes {A} (k : StO (app_world (C := bchan)) A) : Prop :=
  forall w a w', a_holds c held_open w -> k w = Some (a, w') -> chan_closed holds h (a_conn w').

Lemma a_closes_after {A B} (k : StO app_world A) (k' : A -> StO app_world B) :
  a_keeps c held_open k -> (forall a, a_closes (k' a)) -> a_closes (k ≫= k').
Proof.
  intros Hk Hk' w b w' Hw. unfold mbind, StO_bind. destruct (k w) as [[a w1]|] eqn:E; [|done].
  apply Hk'. by eapply Hk.
Qed.
Lemma a_closes_close {A} (a : A) : a_closes (app_close (H := byte_channel m) ≫= fun _ => mret a).
Proof.
  intros w b w' Hw [= _ <-]. cbn [a_conn].
  by apply (chan_close_holds holds Hoh m c ssl).
Qed.
Lemma app_session_closes fuel : a_closes (app_session (H := byte_channel m) fuel).
Proof.
  unfold app_session. apply a_closes_after; [apply a_keeps_send|intros r].
  case_match; [apply a_closes_close|].
  apply a_closes_after; [apply a_keeps_until|intros [[rc st] hand]]. case_match; [apply a_closes_close|].
  apply a_closes_after; [apply a_keeps_term|intros ?].
  apply a_closes_after; [apply a_keeps_loop|intros ?].
  apply a_closes_after; [apply a_keeps_term|intros ?]. apply a_closes_close.
Qed.
End Closing.
End Holds.

(** ** Theorems *)

(** The terminal client leaks nothing: whether the context cannot be made, it
    cannot connect, fails the handshake, loses its session or is quit, at its
    end its socket is closed and its TLS objects are freed. *)
Theorem app_mode_releases `{Os} `{Curses} holds m fuel host port w rc w' :
  os_holds holds -> run_app_mode m fuel host port w = Some (rc, w') -> holds w'.1 = holds w.1.
Proof.
  intros Hoh. unfold run_app_mode.
  pose proof (app_dial_holds holds Hoh host port (holds w.1) w.1 eq_refl) as Hc.
  destruct (app_dial host port w.1) as [[[c ctx]|] n]; cbn [fst snd] in Hc; [|by intros [= _ <-]].
  destruct Hc as ([ssl Hs] & Hfd & Hn & Hh).
  destruct (app_session _ _) as [[rc' [[[c' n']|] t]]|] eqn:E; [|done..]. intros [= _ <-]. cbn [fst].
  rewrite (oh_ctx_free _ Hoh).
  assert (holds n' = add_ctxs 1 (holds w.1)) as ->; [|apply add_ctxs_back].
  refine (proj2 (proj2 (app_session_closes holds Hoh m c (add_ctxs 1 (holds w.1)) ssl Hs Hfd Hn _ _ _ _ _ E))).
  by split.
Qed.

(** A client that finds no server. *)
Lemma app_mode_releases_witness : exists w',
  run_app_mode (H0 := TestOs.os) (H1 := TestTerm.curses) 2 3 "localhost" 9000
    (TestOs.world0 [-1], {| TestTerm.keys := []; TestTerm.drawing := []; TestTerm.shown := [] |}) = Some (1, w') /\
  TestOs.hold w'.1 = TestOs.hold (TestOs.world0 [-1]).
Proof.
  set (r := run_app_mode _ _ _ _ _).
  assert (fst <$> r = Some 1) as Hs by (lazy; reflexivity).
  destruct r as [[rc w']|] eqn:E; [|discriminate Hs]. injection Hs as ->. subst r.
  exists w'. split; [reflexivity|].
  exact (app_mode_releases (H0 := TestOs.os) (H1 := TestTerm.curses) _ _ _ _ _ _ _ w' TestOs.test_holds E).
Defined.
