(* ===== verification/BenchReport.v ===== *)
(** * The client program as a whole

    src/client.c, [main]: the terminal client, or the benchmark with its TLS
    context, its threads, and the two lines that it prints, the second one with
    an average in double precision.  The function declares [ctx] twice; of the two contexts the one
    of lines 211 to 217 ([net_create_context]) is left out.  The threads are run
    one after the other in any order; how their calls interleave is not
    modelled. *)

From Stdlib Require Import Floats.SpecFloat.
From S2P Require Export AppMain Float.

(** ** Numbers in [double] *)

Definition d_int : Z -> float := fl_int 53 1024.
Definition d_div : float -> float -> float := fl_div 53 1024.
Definition d_million : float := d_int 1000000.

(** [n / d], rounded to the nearest integer, ties to even, as [printf] rounds. *)
Definition div_nearest (n d : Z) : Z :=
  let q := n / d in
  let r := n mod d in
  if 2 * r <? d then q else if d <? 2 * r then q + 1
  else if Z.even q then q else q + 1.

(** The thousandths of a number that is neither infinite nor NaN. *)
Definition thousandths (x : float) : option Z :=
  match x with
  | S754_zero _ => Some 0
  | S754_finite _ m e =>
      Some (if 0 <=? e then Zpos m * 2 ^ e * 1000 else div_nearest (Zpos m * 1000) (2 ^ (- e)))
  | S754_infinity _ | S754_nan => None
  end.

Definition digits3 (z : Z) : string :=
  pretty (z / 100) +:+ pretty (z / 10 mod 10) +:+ pretty (z mod 10).

(** [%.3f]. *)
Definition fmt_f3 (x : float) : string :=
  (if f_sign x then "-" else "") +:+
  match thousandths x with
  | Some z => pretty (z / 1000) +:+ "." +:+ digits3 (z mod 1000)
  | None => match x with S754_infinity _ => "inf" | _ => "nan" end
  end.

(** ** The report *)

(** [(double)sum / (double)ok / 1e6], and the same of one latency. *)
Definition avg_ms (s : stats_t) : float := d_div (d_div (d_int (st_sum s)) (d_int (st_ok s))) d_million.
Definition ms (lat : Z) : float := d_div (d_int lat) d_million.

Definition latency_line (s : stats_t) : string :=
  "latency(sum per thread) avg=" +:+ fmt_f3 (avg_ms s) +:+ " ms min=" +:+ fmt_f3 (ms (st_min s)) +:+
  " ms max=" +:+ fmt_f3 (ms (st_max s)) +:+ " ms".

(** What is printed for the array of the results. *)
Definition report (threads rounds : Z) (lats : list Z) : list string :=
  let s := bench_stats lats in
  (summary threads rounds lats +:+ nl) :: if 0 <? st_ok s then [latency_line s +:+ nl] else [].

Section Code.
Context `{Os} `{Clock} `{Curses}.

Fixpoint print_all (ls : list string) : St nio unit :=
  match ls with
  | [] => mret tt
  | l :: ls => _ ← call (print l); print_all ls
  end.

(** The threads with the numbers [order]: what each of them reports. *)
Fixpoint run_threads (m fuel : nat) (ctx : SSL_CTX) (host : string) (port rounds : Z)
    (order : list nat) : StO (nio * clk) (list (nat * Z)) :=
  match order with
  | [] => mret []
  | i :: order =>
      lat ← bench_thread m fuel ctx host port (Z.of_nat i) rounds;
      ended ← run_threads m fuel ctx host port rounds order;
      mret ((i, lat) :: ended)
  end.

Definition on_nio {A} (k : St nio A) : StO (nio * clk) A := fun w =>
  let '(a, n) := k w.1 in Some (a, (n, w.2)).

(** The benchmark mode; the result is the exit status. *)
Definition bench_main (m fuel : nat) (threads rounds : Z) (host : string) (port : Z)
    (order : list nat) : StO (nio * clk) Z :=
  ctx ← on_nio ssl_init_client_ctx;
  match ctx with
  | None => _ ← on_nio (call (eprint ("Failed to init SSL client ctx" +:+ nl))); mret 1
  | Some ctx =>
      ended ← run_threads m fuel ctx host port rounds order;
      let lats := collect (Z.to_nat threads) ended in
      _ ← on_nio (print_all (report threads rounds lats));
      _ ← on_nio (call (SSL_CTX_free ctx));
      mret 0
  end.

Definition client_main (m fuel : nat) (argv : list string) (order : list nat) :
    StO (nio * scr * clk) Z := fun '(n, t, k) =>
  let n := (ssl_msg_init n).2 in
  match client_args argv with
  | app_mode host port =>
      match run_app_mode m fuel host port (n, t) with
      | Some (rc, (n, t)) => Some (rc, (n, t, k))
      | None => None
      end
  | bench_mode threads rounds host port =>
      match bench_main m fuel threads rounds host port order (n, k) with
      | Some (rc, (n, k)) => Some (rc, (n, t, k))
      | None => None
      end
  end.
End Code.

Example f3_exact : fmt_f3 (ms 1234567) = "1.235". Proof. vm_compute. reflexivity. Qed.
Example f3_half : fmt_f3 (d_div (d_int 1) (d_int 16)) = "0.062". Proof. vm_compute. reflexivity. Qed.
Example f3_line : report 3 5 [2000000; -1; 4000000] =
  [ "threads=3 rounds=5 ok=2 fail=1" +:+ nl;
    "latency(sum per thread) avg=3.000 ms min=2.000 ms max=4.000 ms" +:+ nl ]%string.
Proof. vm_compute. reflexivity. Qed.

(** ** What the program holds *)

Section Holds.
Context `{Os} `{Clock} `{Curses} (holds : nio -> held) (Hoh : os_holds holds).

Lemma print_all_holds ls h : triple (at_held holds h) (print_all ls) (fun _ => at_held holds h).
Proof.
  induction ls as [|l ls IH]; cbn [print_all]; [by apply triple_ret|].
  eapply triple_bind; [apply (held_call holds _ (fun h => h)), Hoh|intros ?; exact IH].
Qed.

Lemma run_threads_holds m fuel ctx host port rounds order w ended w' :
  run_threads m fuel ctx host port rounds order w = Some (ended, w') ->
  holds w'.1 = holds w.1 /\ ended.*1 = order.
Proof.
  revert w ended. induction order as [|i order IH]; intros w ended; cbn [run_threads].
  { intros E. by injection E as <- <-. }
  unfold mbind, StO_bind. destruct (bench_thread _ _ _ _ _ _ _ w) as [[lat w1]|] eqn:E1; [|done].
  destruct (run_threads _ _ _ _ _ _ order w1) as [[ended' w2]|] eqn:E2; [|done].
  intros E. injection E as <- <-. destruct (IH _ _ E2) as [Hh He].
  rewrite Hh, (bench_thread_releases holds _ _ _ _ _ _ _ _ _ _ Hoh E1). cbn. by rewrite He.
Qed.

Lemma bench_main_holds m fuel threads rounds host port order w rc w' :
  bench_main m fuel threads rounds host port order w = Some (rc, w') -> holds w'.1 = holds w.1.
Proof.
  unfold bench_main, mbind, StO_bind, on_nio.
  pose proof (client_ctx_held holds Hoh (holds w.1) w.1 eq_refl) as Hc.
  destruct (ssl_init_client_ctx w.1) as [[ctx|] n1]; unfold gives_ctx, at_held in Hc; cbn [fst snd] in Hc |- *.
  2:{ intros E. injection E as _ <-. cbn [fst]. rewrite <- Hc. apply Hoh. }
  destruct (run_threads _ _ _ _ _ _ _ _) as [[ended w2]|] eqn:E2; [|done].
  destruct (run_threads_holds _ _ _ _ _ _ _ _ _ _ E2) as [Hh _]. cbn [fst] in Hh.
  pose proof (print_all_holds (report threads rounds (collect (Z.to_nat threads) ended)) _ w2.1 Hh) as Hp.
  destruct (print_all _ w2.1) as [[] n3]. cbn [fst snd] in Hp |- *. intros E. injection E as _ <-. cbn [fst].
  pose proof (held_ctx_free holds Hoh ctx (holds w.1) n3) as Hf. apply Hf. unfold at_held in *. congruence.
Qed.
End Holds.

(** ** Averages *)

Lemma div_nearest_bounds A B n d : 0 < d -> A * d <= n <= B * d -> A <= div_nearest n d <= B.
Proof.
  intros Hd Hn. unfold div_nearest. pose proof (Z.div_mod n d ltac:(lia)) as E.
  pose proof (Z.mod_pos_bound n d Hd) as Hr. set (q := n / d) in *. set (r := n mod d) in *.
  assert (A <= q) by (apply Z.div_le_lower_bound; lia).
  assert (q <= B) by (apply Z.div_le_upper_bound; lia).
  assert (0 < r -> q + 1 <= B) by nia.
  repeat (case_match || zcase); lia.
Qed.

Lemma thousandths_mag x K N : fl_mag 53 1024 x K N ->
  exists z, thousandths x = Some z /\ 1000 * K <= z <= 1000 * N.
Proof.
  destruct x as [s|s| |s m e]; cbn [fl_mag thousandths]; [intros ?; exists 0; by split; [|lia]|done..|].
  intros (He & _ & HK). eexists. split; [reflexivity|].
  pose proof (Z.pow_pos_nonneg 2 (- e)). destruct (Z.leb_spec 0 e).
  - assert (e = 0) as -> by lia. cbn in *. lia.
  - apply div_nearest_bounds; nia.
Qed.

(** Dividing by an integer. *)
Lemma d_div_mag x b K N K' N' : fl_mag 53 1024 x K N -> 0 < b < 2 ^ 53 -> N' < 2 ^ 53 ->
  K' * b <= K -> N <= N' * b -> fl_mag 53 1024 (d_div x (d_int b)) K' N'.
Proof.
  intros Hx Hb HN HK1 HN1. destruct (fl_int_mag 53 1024 ltac:(lia) ltac:(lia) b) as [Hm _]; [lia|].
  rewrite Z.abs_eq in Hm by lia. unfold d_div, d_int.
  destruct (fl_int 53 1024 b) as [s|s| |s m e]; try done; [cbn in Hm; lia|].
  destruct Hm as (He & Hm & Hbm). pose proof (Z.pow_pos_nonneg 2 (- e)) as Hp.
  assert (Zpos m = b * 2 ^ (- e)) as Em by lia.
  apply (fl_div_mag 53 1024 ltac:(lia) ltac:(lia) x s m e K N K' N' Hx); [lia|exact HN| |];
    rewrite Em, Z.mul_assoc; apply Z.mul_le_mono_nonneg_r; lia.
Qed.

Lemma d_int_mag z : 0 <= z < 2 ^ 53 -> fl_mag 53 1024 (d_int z) z z.
Proof.
  intros Hz. destruct (fl_int_mag 53 1024 ltac:(lia) ltac:(lia) z) as [Hm _]; [lia|].
  by rewrite Z.abs_eq in Hm by lia.
Qed.

Lemma d_ms_mag x K N : fl_mag 53 1024 x K N -> N < 2 ^ 53 ->
  fl_mag 53 1024 (d_div x d_million) (K / 1000000) ((N + 999999) / 1000000).
Proof. intros Hx HN. apply (d_div_mag x 1000000 K N); [done|lia|..]; zlia. Qed.

(** Sums of positive numbers and their bounds. *)
Lemma positive_sum (l : list Z) : Forall (fun x => 0 < x) l ->
  foldr Z.min (2 ^ 62) l * Z.of_nat (length l) <= foldr Z.add 0 l <=
    foldr Z.max 0 l * Z.of_nat (length l) /\
  0 < foldr Z.min (2 ^ 62) l /\ 0 <= foldr Z.max 0 l <= foldr Z.add 0 l.
Proof. induction 1 as [|x l Hx Hl IH]; [cbn; lia|]. cbn [foldr length]. rewrite Nat2Z.inj_succ. nia. Qed.

(** The latencies that count lie between the least and the greatest of them. *)
Lemma stats_between lats :
  let s := bench_stats lats in
  0 < st_ok s ->
  st_min s * st_ok s <= st_sum s <= st_max s * st_ok s /\ 0 < st_min s <= st_max s /\
  st_max s <= st_sum s /\ st_ok s <= st_sum s.
Proof.
  cbv zeta. destruct (stats_from lats (Build_stats_t 0 0 (2 ^ 62) 0)) as (E1 & E2 & E3 & E4).
  fold (bench_stats lats) in E1, E2, E3, E4. rewrite E1, E2, E3, E4. cbn [st_ok st_sum st_min st_max].
  destruct (positive_sum (filter (fun l => 0 < l) lats)) as (Hs & Hp & Hm); [|intros Hok; nia].
  apply Forall_forall. intros l Hl. by apply list_elem_of_filter in Hl as [? _].
Qed.

(** ** Theorems *)

(** The program as a whole leaks nothing, in either mode and whatever its
    command line: when it ends, every socket of the terminal client and of the
    threads is closed, and every TLS object is freed. *)
Theorem client_main_releases `{Os} `{Clock} `{Curses} holds m fuel argv order w rc w' :
  os_holds holds -> client_main m fuel argv order w = Some (rc, w') ->
  holds w'.1.1 = holds w.1.1.
Proof.
  intros Hoh. destruct w as [[n t] k]. unfold client_main. cbn [fst].
  pose proof (held_msg_init holds Hoh (holds n) n eq_refl) as Hi.
  destruct (ssl_msg_init n) as [[] n1]. cbn [fst snd] in Hi |- *. unfold at_held in Hi. rewrite <- Hi.
  destruct (client_args argv).
  - destruct (run_app_mode _ _ _ _ _) as [[rc' [n2 t2]]|] eqn:E; [|done]. intros Er. injection Er as _ <-.
    exact (app_mode_releases holds _ _ _ _ _ _ _ Hoh E).
  - destruct (bench_main _ _ _ _ _ _ _ _) as [[rc' [n2 k2]]|] eqn:E; [|done]. intros Er. injection Er as _ <-.
    exact (bench_main_holds holds Hoh _ _ _ _ _ _ _ _ _ _ E).
Qed.

(** The averages that are printed.  As long as the latencies sum up to less than
    2^53 nanoseconds, the quotient that the program computes in double precision
    lies between the least and the greatest latency, in spite of two roundings;
    and the three numbers printed, in thousandths of a millisecond, are numbers
    and are off by at most a millisecond from these bounds. *)
Theorem report_average lats :
  let s := bench_stats lats in
  0 < st_ok s -> st_sum s < 2 ^ 53 ->
  fl_mag 53 1024 (d_div (d_int (st_sum s)) (d_int (st_ok s))) (st_min s) (st_max s) /\
  exists avg lo hi, thousandths (avg_ms s) = Some avg /\
    thousandths (ms (st_min s)) = Some lo /\ thousandths (ms (st_max s)) = Some hi /\
    let a := st_min s / 1000000 * 1000 in
    let b := (st_max s + 999999) / 1000000 * 1000 in
    a <= avg <= b /\ a <= lo <= a + 1000 /\ b - 1000 <= hi <= b.
Proof.
  cbv zeta. intros Hok Hsum.
  destruct (stats_between lats Hok) as ((Hlo & Hhi) & [Hmin Hmm] & Hmax & Hoks).
  set (s := bench_stats lats) in *.
  assert (fl_mag 53 1024 (d_div (d_int (st_sum s)) (d_int (st_ok s))) (st_min s) (st_max s)) as Ha
    by (apply (d_div_mag _ _ (st_sum s) (st_sum s)); [apply d_int_mag; lia|lia..]).
  split; [exact Ha|].
  destruct (thousandths_mag _ _ _ (d_ms_mag _ _ _ Ha ltac:(lia))) as (avg & E1 & H1).
  destruct (thousandths_mag _ _ _ (d_ms_mag _ _ _ (d_int_mag (st_min s) ltac:(lia)) ltac:(lia)))
    as (lo & E2 & H2).
  destruct (thousandths_mag _ _ _ (d_ms_mag _ _ _ (d_int_mag (st_max s) ltac:(lia)) ltac:(lia)))
    as (hi & E3 & H3).
  exists avg, lo, hi. splits; [done|done|done|lia|lia|zlia|zlia|zlia|zlia].
Qed.
