(* ===== verification/Play.v ===== *)
(** * A client and the server, composed

    The clients of ClientApp.v and Bench.v talk to whatever implements their
    connection.  Here the other end is the server's own worker: a [table] is a
    client seated opposite a worker of System.v, whose every packet goes
    through the worker's loop, and who reads what the worker sent.  The
    theorems are about the closed system of src/client_app.c or src/client.c on
    one side and src/server.c, with the shared store, on the other. *)

From S2P Require Export Bench.
From S2P Require Import System.

(** ** The connection to a worker *)

Section Table.
Context `{Libc}.

(** [tb_reply] is what the worker has sent and the client has not read yet;
    [tb_waits] records that the client read from an empty connection that the
    worker keeps open, so that both wait for each other. *)
Record table := { tb_worker : System.worker Queue.chan; tb_shm : shm_t;
                  tb_reply : list (Z * list byte); tb_waits : bool }.

(** Packets arrive at the worker; it runs one iteration of its loop, and what
    it sends is on its way to the client. *)
Definition react (ps : list (Z * list byte)) (t : table) : table :=
  let k := tb_worker t in
  let c := {| Queue.inbox := Queue.inbox (wk_conn k) ++ ps; Queue.outbox := [] |} in
  let '(k', shm) := worker_step
    {| wk_conn := c; wk_env := wk_env k; wk_phase := wk_phase k |} (tb_shm t) in
  {| tb_worker := {| wk_conn := {| Queue.inbox := Queue.inbox (wk_conn k'); Queue.outbox := [] |};
                     wk_env := wk_env k'; wk_phase := wk_phase k' |};
     tb_shm := shm; tb_reply := tb_reply t ++ Queue.outbox (wk_conn k'); tb_waits := tb_waits t |}.

Definition worker_ended (t : table) : bool :=
  match wk_phase (tb_worker t) with finished => true | _ => false end.

Definition with_reply (q : list (Z * list byte)) (t : table) : table :=
  {| tb_worker := tb_worker t; tb_shm := tb_shm t; tb_reply := q; tb_waits := tb_waits t |}.

(** Reading from an empty connection ends only if the worker has closed it. *)
Definition read_end (t : table) : table :=
  {| tb_worker := tb_worker t; tb_shm := tb_shm t; tb_reply := [];
     tb_waits := tb_waits t || negb (worker_ended t) |}.

(** To the worker the end of the connection is a failed reception. *)
#[global] Instance table_channel : Channel table := {|
  ch_recv cap t :=
    match tb_reply t with
    | [] => (None, read_end t)
    | (op, payload) :: q =>
        (if cap <? Z.of_nat (length payload) then None else Some (op, payload), with_reply q t)
    end;
  ch_send op payload t :=
    if (4088 <? length payload)%nat then (-1, t) else (0, react [(op, payload)] t);
  ch_close t := react [] t;
|}.

#[global] Program Instance table_in : ChannelIn table := {| arriving := tb_reply |}.
Next Obligation.
  intros cap t op payload q E Hc. cbn in E |- *. rewrite E.
  destruct (Z.ltb_spec cap (Z.of_nat (length payload))); [lia|done].
Qed.
Next Obligation. intros cap t E. cbn in E |- *. by rewrite E. Qed.

(** A client that has just been accepted by the server. *)
Definition new_table (e : env) (shm : shm_t) : table :=
  let '(k, shm) := start_worker {| Queue.inbox := []; Queue.outbox := [] |} e shm in
  {| tb_worker := k; tb_shm := shm; tb_reply := []; tb_waits := false |}.

(** ** The game, played without a server

    What the end of the player's turn, and what a request, makes of the game
    according to the rules alone, whatever [rand] returns. *)
Definition local_turn (v v' : game) : Prop :=
  exists e1 e2, let v1 := (phase_end v.1 v.2 e1).1 in
    v' = if (turn v1.1 =? 1) && negb (truthy (game_over v1.1))
         then (process_ai_turn v1.1 v1.2 e2).1 else v1.

Definition local_card (b : Z) (v : game) : game := ((handle_play_card v.1 v.2 true b).2, v.2).

(** A decided game does not move. *)
Definition local_move (op : Z) (payload : list byte) (v v' : game) : Prop :=
  if truthy (game_over v.1) then v' = v
  else if op =? OP_PLAY_CARD then
    exists b, payload = [b] /\ v' = local_card (byte.unsigned b) v
  else local_turn v v'.

(** The two requests of a client. *)
Definition asks (op : Z) (payload : list byte) : Prop :=
  op = opcode OP_END_TURN /\ payload = [] \/
  op = opcode OP_PLAY_CARD /\ exists b, payload = [b].

(** The worker plays [v] as session [sid] and waits for a packet; the store has
    [s] for the session. *)
Record engaged (sid : Z) (v s : game) (t : table) : Prop := {
  en_phase : wk_phase (tb_worker t) = playing sid v;
  en_inbox : Queue.inbox (wk_conn (tb_worker t)) = [];
  en_waiting : waiting v;
  en_store : store_map (tb_shm t).2 !! sid = Some s;
  en_calm : tb_waits t = false;
}.

(** The client plays session [sid], whose game [v] is the worker's and the
    store's, and the worker waits for a packet. *)
Record seated (sid : Z) (v : game) (t : table) : Prop := {
  se_phase : wk_phase (tb_worker t) = playing sid v;
  se_inbox : Queue.inbox (wk_conn (tb_worker t)) = [];
  se_waiting : waiting v;
  se_store : store_map (tb_shm t).2 !! sid = Some v;
  se_reach : exists n, reach n v.1 v.2;
  se_calm : tb_waits t = false;
}.

Lemma seated_engaged sid v t :
  seated sid v t <-> engaged sid v v t /\ exists n, reach n v.1 v.2.
Proof. split; [by intros []|by intros [[] ?]]. Qed.
End Table.

(** ** One request *)

Section Requests.
Context `{LibcOK}.

Lemma local_turn_reach v v' n :
  reach n v.1 v.2 -> game_over v.1 = 0 -> turn v.1 = 0 -> local_turn v v' ->
  exists m, reach m v'.1 v'.2.
Proof.
  intros Hr Ho Ht (e1 & e2 & E). cbv zeta in E.
  destruct (phase_end v.1 v.2 e1) as [[s1 h1] e1'] eqn:E1. cbn [fst snd] in E.
  pose proof (reach_end _ _ _ _ _ _ _ Hr Ho Ht E1) as Hr1.
  destruct ((turn s1 =? 1) && negb (truthy (game_over s1))) eqn:Ed; [|subst v'; eauto].
  apply andb_true_iff in Ed as [Et%Z.eqb_eq Eo%negb_true_iff].
  apply negb_false_iff, Z.eqb_eq in Eo.
  destruct (process_ai_turn s1 h1 e2) as [[s2 h2] e2'] eqn:E2. subst v'. cbn [fst snd].
  exists (S (S n)). by eapply reach_ai.
Qed.

Lemma local_move_reach op payload v v' :
  (exists n, reach n v.1 v.2) -> waiting v -> local_move op payload v v' ->
  exists n, reach n v'.1 v'.2.
Proof.
  intros [n Hr] Hw. unfold local_move. destruct (truthy (game_over v.1)) eqn:Eo;
    [intros ->; eauto|]. apply negb_false_iff, Z.eqb_eq in Eo.
  destruct (waiting_main _ Hw Eo) as [Ht _].
  destruct (op =? OP_PLAY_CARD).
  - intros (b & _ & ->). exists n. unfold local_card. cbn [fst snd].
    destruct (handle_play_card v.1 v.2 true (byte.unsigned b)) as [rc s'] eqn:E.
    by eapply reach_card.
  - by eapply local_turn_reach.
Qed.

(** The computed game of the handlers, whatever the packets and the store. *)
Lemma run_env_is {C} {A} (m : St env A) (w : world C) :
  exists e w', on_env m w = ((m e).1, w').
Proof. unfold on_env. exists (w_env w). destruct (m (w_env w)) as [a e]. by eexists. Qed.

Lemma on_end_turn_moves {C} `{Channel C} sid v (w : world C) :
  turn v.1 = 0 -> local_turn v (on_end_turn sid v.1 v.2 w).1.
Proof.
  intros Ht. unfold on_end_turn, local_turn. rewrite Ht. cbn [Z.eqb negb].
  unfold mbind at 1, St_bind at 1.
  destruct (run_env_is (phase_end v.1 v.2) w) as (e1 & w1 & ->). exists e1.
  destruct (phase_end v.1 v.2 e1).1 as [s1 h1]. cbn [fst snd].
  unfold mbind, St_bind, mret, St_ret. destruct (save sid s1 h1 w1) as [r2 w2].
  unfold ai_if_due, mbind, St_bind, mret, St_ret.
  destruct ((turn s1 =? 1) && negb (truthy (game_over s1))).
  - destruct (run_env_is (process_ai_turn s1 h1) w2) as (e2 & w3 & ->). exists e2.
    destruct (process_ai_turn s1 h1 e2).1 as [s2 h2].
    destruct (save sid s2 h2 w3) as [r3 w4]. by destruct (send_game s2 h2 w4).
  - exists e1. by destruct (send_game s1 h1 w2).
Qed.

(** An error packet, as the server sends it before the game. *)
Definition error_reply (p : Z * list byte) : Prop :=
  p.1 = opcode OP_ERROR /\ (length p.2 <= 52)%nat.

Lemma error_passed p : error_reply p -> passed_over p.
Proof. intros [E Hl]. unfold passed_over. rewrite E. splits; [done|done|lia]. Qed.

Lemma play_errors_replies rc : Forall error_reply (play_errors rc).
Proof.
  unfold play_errors. repeat case_match; [by apply Forall_nil|apply Forall_singleton..];
    (split; [done|]; unfold err_packet; cbn [snd]; rewrite err_payload_length by mach_lia; lia).
Qed.

Lemma login_passed sid : Forall passed_over [login_packet; resume_packet 1 sid].
Proof.
  pose proof (resume_packet_length 1 sid).
  repeat apply Forall_cons_2; [..|by apply Forall_nil]; (split; [done|split; [done|]]);
    [vm_compute|]; lia.
Qed.

(** What the handlers of the main loop do with a request of a client, decided
    games included: the store gets the new game, or nothing has changed. *)
Lemma dispatch_request {C} `{ChannelOK C} sid op payload (v s : game) l sm (w : world C) :
  waiting v -> asks op payload -> sm !! sid = Some s -> at_ l sm w ->
  let '(v', w') := dispatch sid op payload v.1 v.2 w in
  waiting v' /\ local_move op payload v v' /\ exists pre s',
    Forall error_reply pre /\ (length pre <= 1)%nat /\
    sent (w_conn w') = l ++ pre ++ game_packets v'.1 v'.2 /\
    store_map (w_store w') !! sid = Some s' /\ (s' = v' \/ v' = v /\ s' = s).
Proof.
  intros Hw Hop Hsm Hat. destruct v as [st hand]. unfold dispatch, local_move. cbn [fst snd].
  replace (op =? OP_PING) with false by (by destruct Hop as [[-> _]|[-> _]]).
  destruct (truthy (game_over st)) eqn:Eo.
  { unfold mbind, St_bind, mret, St_ret. pose proof (send_game_at l sm st hand (proj1 Hw) w Hat) as Hs.
    destruct (send_game st hand w) as [[] w']. cbn [fst snd] in *. destruct Hs as [Hs Hm].
    splits; [done|done|]. exists [], s. cbn [app].
    splits; [constructor|cbn; lia|done|by rewrite Hm|by right]. }
  apply negb_false_iff, Z.eqb_eq in Eo.
  assert (forall g, put sid g sm !! sid = Some g) as Hput by (intros g; apply put_lookup; by exists s).
  destruct Hop as [[-> ->]|[-> [b ->]]]; cbn match.
  - change (opcode OP_END_TURN =? opcode OP_PLAY_CARD) with false.
    change (opcode OP_END_TURN =? opcode OP_END_TURN) with true. cbn match.
    pose proof (on_end_turn_moves sid (st, hand) w (proj1 (waiting_main _ Hw Eo))) as Hm.
    pose proof (on_end_turn_at l sm sid st hand Hw Eo w Hat) as He. cbn [fst snd] in *.
    destruct (on_end_turn sid st hand w) as [v' w']. cbn [fst snd] in *. destruct He as [Hv' [Hs Hst]].
    splits; [done|done|]. exists [], v'. cbn [app].
    splits; [constructor|cbn; lia|done|by rewrite Hst|by left].
  - change (opcode OP_PLAY_CARD =? opcode OP_PLAY_CARD) with true. cbn match.
    pose proof (on_play_card_at l sm sid [b] st hand Hw Eo w Hat) as Hc.
    change (Z.of_nat (length [b]) =? 1) with true in Hc. cbv zeta iota in Hc.
    replace (hand_idx (dec play_req_codec [b])) with (byte.unsigned b) in Hc
      by (symmetry; apply play_req_byte).
    destruct (on_play_card sid [b] st hand w) as [v' w']. cbn [fst snd] in *.
    destruct Hc as ([Hv' Hwv] & Hs & Hst). split; [done|]. split; [by exists b|].
    exists (play_errors (handle_play_card st hand true (byte.unsigned b)).1), v'.
    splits; [apply play_errors_replies|apply play_errors_passed| |by rewrite Hst|by left].
    by rewrite Hs, Hv'.
Qed.

(** A packet that reaches an engaged worker is dispatched. *)
Lemma react_packet sid v s (t : table) op payload :
  engaged sid v s t -> (length payload <= 1024)%nat ->
  exists w, at_ [] (store_map (tb_shm t).2) w /\
    let '(v', w') := dispatch sid op payload v.1 v.2 w in
    let t' := react [(op, payload)] t in
    tb_reply t' = tb_reply t ++ sent (w_conn w') /\ tb_waits t' = false /\
    wk_phase (tb_worker t') = playing sid v' /\ Queue.inbox (wk_conn (tb_worker t')) = [] /\
    store_map (tb_shm t').2 = store_map (w_store w').
Proof.
  intros [Hp Hi Hw _ Hc] Hl. unfold react. rewrite Hp, Hi. cbn [app].
  set (c := {| Queue.inbox := [(op, payload)]; Queue.outbox := [] |}).
  unfold worker_step. cbn [wk_phase]. set (w := wk_world _ _).
  assert ((ch_recv 1024 (w_conn w)).1 = Some (op, payload)) as Hrecv.
  { cbn. by destruct (Z.ltb_spec 1024 (Z.of_nat (length payload))); [lia|]. }
  destruct (main_recv sid v w op payload _ _ Hw Hrecv (proj1 (here_now w))) as (w1 & Hat & E).
  pose proof (proj2 (main_consumes sid v w)) as Hcons. rewrite E in Hcons |- *. cbn [fst snd] in Hcons.
  exists w1. split; [exact Hat|].
  destruct (dispatch sid op payload v.1 v.2 w1) as [v' w2]. cbn [fst snd] in *.
  specialize (Hcons _ eq_refl). unfold pending, Queue.channel_fin in Hcons.
  cbn [w_conn w wk_world wk_conn c Queue.inbox length] in Hcons.
  cbn [wk_after tb_reply tb_waits tb_worker tb_shm wk_conn wk_phase Queue.inbox snd]. splits; try done.
  destruct (Queue.inbox (w_conn w2)); [done|cbn in Hcons; lia].
Qed.

(** The worker's reaction to a request. *)
Lemma react_asks sid v s (t : table) op payload :
  engaged sid v s t -> asks op payload ->
  exists pre v' s', Forall error_reply pre /\ (length pre <= 1)%nat /\
    tb_reply (react [(op, payload)] t) = tb_reply t ++ pre ++ game_packets v'.1 v'.2 /\
    engaged sid v' s' (react [(op, payload)] t) /\ local_move op payload v v' /\
    (s' = v' \/ v' = v /\ s' = s).
Proof.
  intros Hen Hop. destruct (react_packet sid v s t op payload Hen) as (w & Hat & Hd).
  { by destruct Hop as [[-> ->]|[-> [b ->]]]; cbn; lia. }
  pose proof (dispatch_request sid op payload v s _ _ w (en_waiting _ _ _ _ Hen) Hop
    (en_store _ _ _ _ Hen) Hat) as Hr.
  destruct (dispatch sid op payload v.1 v.2 w) as [v' w']. cbv zeta in Hd.
  destruct Hd as (Hq & Hc & Hp & Hi & Hst). destruct Hr as (Hw' & Hm & pre & s' & Hpre & Hl & Hs & Hs' & Hk).
  exists pre, v', s'. cbn [app] in Hs. splits; [done|done|by rewrite Hq, Hs| |done|done].
  by split; [..|rewrite Hst|].
Qed.

Lemma react_request sid v (t : table) op payload :
  seated sid v t -> asks op payload ->
  exists pre v', Forall error_reply pre /\ (length pre <= 1)%nat /\
    tb_reply (react [(op, payload)] t) = tb_reply t ++ pre ++ game_packets v'.1 v'.2 /\
    seated sid v' (react [(op, payload)] t) /\ local_move op payload v v'.
Proof.
  intros [Hen Hr]%seated_engaged Hop.
  destruct (react_asks sid v v t op payload Hen Hop) as (pre & v' & s' & Hpre & Hl & Hq & Hen' & Hm & Hs).
  exists pre, v'. assert (s' = v') as -> by (destruct Hs as [?|[-> ->]]; done).
  splits; [done..| |done]. apply seated_engaged. split; [done|].
  eapply local_move_reach; [exact Hr|apply Hen|exact Hm].
Qed.

(** A worker that reads the end of the connection stops; the store keeps the
    game. *)
Lemma react_hangup sid v s (t : table) :
  engaged sid v s t ->
  wk_phase (tb_worker (react [] t)) = finished /\
  store_map (tb_shm (react [] t)).2 = store_map (tb_shm t).2 /\ tb_waits (react [] t) = false.
Proof.
  intros [Hp Hi Hw Hst Hc]. unfold react. rewrite Hp, Hi. cbn [app].
  unfold worker_step. cbn [wk_phase]. set (w := wk_world _ _). destruct v as [st hand].
  assert (ai_if_due (C := Queue.chan) sid st hand = mret (st, hand)) as E by (by apply ai_not_due).
  unfold main_step. rewrite E. unfold mbind, St_bind, mret, St_ret, recv, on_conn.
  by cbn.
Qed.

Lemma react_close sid v (t : table) :
  seated sid v t ->
  wk_phase (tb_worker (react [] t)) = finished /\
  store_map (tb_shm (react [] t)).2 !! sid = Some v /\ tb_waits (react [] t) = false.
Proof.
  intros [Hen _]%seated_engaged. destruct (react_hangup _ _ _ _ Hen) as (Hp & Hst & Hw).
  rewrite Hst. splits; [done|apply Hen|done].
Qed.

(** Reading what the worker has sent. *)
Lemma recv_seated sid v cap (t : table) p :
  (ch_recv cap t).1 = Some p -> seated sid v t -> seated sid v (ch_recv cap t).2.
Proof.
  intros E [Hp Hi Hw Hst Hr Hc]. cbn in E |- *. destruct (tb_reply t) as [|[op payload] q]; [done|].
  by split.
Qed.

(** *** The login *)

Definition dealt (v : game) : Prop := exists e, v = (enter_turn login_state zero_hand 0 e).1.

Lemma dealt_reach v : dealt v -> exists n, reach n v.1 v.2.
Proof. intros [e ->]. exists 1%nat. apply reach_login_run. Qed.

Lemma handshake_login_deals {C} `{Channel C} (w : world C) sid st hand :
  (handshake_login zero_state zero_hand w).1 = inr (Some (sid, st, hand)) -> dealt (st, hand).
Proof.
  unfold handshake_login. cbv zeta. change (set_game_over 0 _) with login_state.
  unfold mbind at 1, St_bind at 1.
  destruct (run_env_is (enter_turn login_state zero_hand 0) w) as (e1 & w1 & ->).
  intros E. exists e1. destruct (enter_turn login_state zero_hand 0 e1).1 as [s1 h1].
  unfold mbind, St_bind, mret, St_ret in E. destruct (alloc w1) as [sid' w2].
  destruct (sid' =? 0).
  - destruct (err_send _ _ w2) as [? w3]. by destruct (close_conn w3).
  - destruct (save _ _ _ w2) as [? w3]. destruct (send _ _ w3) as [? w4].
    destruct (send _ _ w4) as [? w5]. destruct (send_game _ _ w5) as [? w6]. cbn in E. congruence.
Qed.

(** The handlers read nothing. *)
Definition same_inbox (w w' : world Queue.chan) : Prop :=
  Queue.inbox (w_conn w') = Queue.inbox (w_conn w).

#[local] Instance same_inbox_preorder : PreOrder same_inbox.
Proof. split; [by intros w|]. intros w1 w2 w3. unfold same_inbox. congruence. Qed.

Lemma login_reads_nothing st hand : frames same_inbox (handshake_login st hand).
Proof.
  apply frames_login; try apply _; unfold same_inbox.
  - intros op payload w. unfold send, on_conn, ch_send, Queue.channel.
    by destruct (4088 <? length payload)%nat.
  - done.
  - intros A m w. unfold on_env. by destruct (m (w_env w)).
  - intros A m w. unfold on_store. by destruct (m (w_store w) (w_env w)) as [[? ?] ?].
Qed.

Definition fresh_seat (t : table) : Prop :=
  wk_phase (tb_worker t) = handshaking (zero_state, zero_hand) /\
  Queue.inbox (wk_conn (tb_worker t)) = [] /\ tb_waits t = false /\ tb_reply t = [].

Lemma new_table_fresh e shm :
  fresh_seat (new_table e shm) /\ (tb_shm (new_table e shm)).2 = shm.2.
Proof.
  unfold new_table. destruct (start_worker _ e shm) as [k shm'] eqn:E.
  pose proof (start_worker_shm _ _ _ _ _ E) as [Hp ->]. splits; try done. cbn.
  revert E. unfold start_worker, seed_rand, on_env. cbn [w_env]. case_match.
  intros Ek. apply (f_equal fst) in Ek. cbn in Ek. by subst k.
Qed.

Lemma react_login (t : table) payload :
  fresh_seat t ->
  let t' := react [(opcode OP_LOGIN_REQ, payload)] t in
  Z.of_nat (length payload) <= 1024 ->
  if (free_slots (tb_shm t).2 =? 0)%nat then
    wk_phase (tb_worker t') = finished /\ tb_waits t' = false /\
    tb_reply t' = [err_packet (-999) "server full"]
  else exists sid v, seated sid v t' /\ dealt v /\
    tb_reply t' = [login_packet; resume_packet 1 sid] ++ game_packets v.1 v.2 /\
    sid <> 0 /\ is_u64 sid.
Proof.
  intros (Hp & Hi & Hc & Hr) t' Hl. subst t'. unfold react. rewrite Hp, Hi, Hr. cbn [app].
  unfold worker_step. cbn [wk_phase]. set (w := wk_world _ _).
  set (w1 := World {| Queue.inbox := []; Queue.outbox := [] |} (w_env w) (w_stats w) (w_store w)).
  assert (handshake_step (zero_state, zero_hand) w = handshake_login zero_state zero_hand w1) as ->.
  { unfold handshake_step, mbind, St_bind, recv, on_conn. cbn.
    destruct (Z.ltb_spec 1024 (Z.of_nat (length payload))); [lia|done]. }
  pose proof (login_at [] _ _ w1 (here_now w1)) as Hlog.
  pose proof (handshake_login_deals w1) as Hd.
  pose proof (login_reads_nothing zero_state zero_hand w1) as Hin.
  change (free_slots (tb_shm t).2) with (free_slots (w_store w1)).
  destruct (handshake_login zero_state zero_hand w1) as [r w2]. unfold same_inbox in Hin.
  cbn [fst snd] in Hlog, Hd, Hin.
  destruct (free_slots (w_store w1) =? 0)%nat.
  - destruct Hlog as (-> & Hs & _). by splits.
  - destruct Hlog as (sid & st & hand & sm' & (-> & [Hne Hu] & Hm) & (Hsid & _) & Hs & Hsm).
    specialize (Hd _ _ _ eq_refl). exists sid, (st, hand).
    split; [|split; [done|split; [exact Hs|done]]].
    split; cbn [tb_worker tb_shm tb_waits wk_phase wk_conn Queue.inbox snd wk_after]; try done.
    + split; [by eapply main_phase_ready|]. right. exact (mp_turn _ _ _ Hm).
    + by rewrite Hsm.
    + by apply dealt_reach.
Qed.
End Requests.

(** ** The terminal client at the table *)

(** A player who quits after finitely many keys; [getch] may also time out, as
    any key that does nothing. *)
Class CursesQuits `{Curses} := {
  keys_left : scr -> nat;
  getch_quits : forall t, (getch t).1 = 113 \/ (getch t).1 = 81 \/
    (keys_left (getch t).2 < keys_left t)%nat;
  initscr_keys : forall t, keys_left (initscr t) = keys_left t;
  erase_keys : forall t, keys_left (erase t) = keys_left t;
  mvprintw_keys : forall y x s t, keys_left (mvprintw y x s t) = keys_left t;
  refresh_keys : forall t, keys_left (refresh t) = keys_left t;
}.

#[global] Program Instance term_quits : CursesQuits := {| keys_left t := length (TestTerm.keys t) |}.
Next Obligation. intros [[|k ks] d s]; cbn; [by left|right; right; lia]. Qed.
Next Obligation. done. Qed.
Next Obligation. done. Qed.
Next Obligation. done. Qed.
Next Obligation. done. Qed.

(** What a key does to the game that the player sees: the end of the turn, a
    card of the hand, or nothing. *)
Definition is_quit (ch : Z) : bool := (ch =? 113) || (ch =? 81).
Definition is_end (ch : Z) : bool := (ch =? 101) || (ch =? 69).
Definition is_card (ch : Z) (hand : hand_t) : bool :=
  ((ch =? 49) || (ch =? 50) || (ch =? 51)) && (ch - 49 <? hand_n hand).

Definition local_key `{Libc} (ch : Z) (v v' : game) : Prop :=
  if truthy (game_over v.1) then v' = v
  else if is_end ch then local_turn v v'
  else if is_card ch v.2 then v' = local_card (ch - 49) v
  else v' = v.

Section AppTable.
Context `{LibcOK} `{CursesQuits}.

Lemma draw_ui_keys st hand t : keys_left (draw_ui st hand t) = keys_left t.
Proof.
  unfold draw_ui. rewrite refresh_keys. rewrite <- (erase_keys t). generalize (erase t).
  induction (ui_lines st hand) as [|[[y x] s] l IH]; intros t'; [done|].
  cbn [foldl]. by rewrite IH, mvprintw_keys.
Qed.

(** A request of the client completes: it reads the worker's new game, and
    nothing is left on the connection. *)
Lemma app_request_seated sid v (w : app_world (C:=table)) op payload fuel :
  seated sid v (a_conn w) -> tb_reply (a_conn w) = [] -> asks op payload -> (4 <= fuel)%nat ->
  exists v' w', app_request fuel op payload v.1 v.2 w = Some (inl v', w') /\
    local_move op payload v v' /\ seated sid v' (a_conn w') /\ tb_reply (a_conn w') = [] /\
    a_term w' = a_term w.
Proof.
  intros Hs Hr Hop Hf. destruct (react_request sid v _ op payload Hs Hop)
    as (pre & v' & Hpre & Hl & Hr' & Hs' & Hm). rewrite Hr in Hr'. cbn [app] in Hr'.
  set (t := react [(op, payload)] (a_conn w)) in *.
  assert (ch_send op payload (a_conn w) = (0, t)) as Es.
  { unfold ch_send, table_channel. by destruct Hop as [[-> ->]|[-> [b ->]]]. }
  pose proof (proj1 (se_waiting _ _ _ Hs')) as [Hi Hh _].
  destruct (recv_until_game pre v'.1 v'.2 [] v.1 v.2 fuel t) as (t' & E & Ha);
    [by eapply Forall_impl, error_passed|apply (gi_wf _ Hi)|apply Hh|by rewrite app_nil_r|lia|].
  exists v', {| a_conn := t'; a_term := a_term w |}.
  unfold app_request, app_send, app_conn, mbind, StO_bind. rewrite Es. cbn [a_conn negb Z.eqb].
  rewrite E. cbn [negb Z.eqb a_conn a_term]. destruct v' as [st' hand'].
  splits; [done|done| |exact Ha|done]. cbn [a_conn].
  eapply recv_until_keeps; [|exact E|exact Hs']. intros c p Hp. by eapply recv_seated.
Qed.

(** One key press. *)
Definition key_pressed (v : game) (w : app_world (C:=table)) : Z :=
  (getch (draw_ui v.1 v.2 (a_term w))).1.

Lemma app_key sid v (w : app_world (C:=table)) fuel :
  seated sid v (a_conn w) -> tb_reply (a_conn w) = [] -> (4 <= fuel)%nat ->
  exists r w', app_step fuel v w = Some (r, w') /\
    a_term w' = (getch (draw_ui v.1 v.2 (a_term w))).2 /\
    match r with
    | inr _ => is_quit (key_pressed v w) = true /\ a_conn w' = a_conn w
    | inl v' => is_quit (key_pressed v w) = false /\ local_key (key_pressed v w) v v' /\
        seated sid v' (a_conn w') /\ tb_reply (a_conn w') = []
    end.
Proof.
  intros Hs Hr Hf. unfold key_pressed. destruct v as [st hand]. cbn [fst snd].
  unfold app_step, app_term, mbind, StO_bind. cbn [a_conn a_term].
  destruct (getch (draw_ui st hand (a_term w))) as [ch x]. cbn [fst snd].
  fold (is_quit ch). destruct (is_quit ch) eqn:Eq; [by eexists _, _|].
  set (w1 := {| a_conn := a_conn w; a_term := x |}).
  unfold local_key. cbn [fst snd].
  destruct (truthy (game_over st)) eqn:Eo; [by eexists _, _|].
  fold (is_end ch). destruct (is_end ch).
  { destruct (app_request_seated sid (st, hand) w1 (opcode OP_END_TURN) [] fuel)
      as (v' & w' & E & Hm & Hs' & Hr' & Ht); [done|done|by left|done|].
    eexists _, w'. split; [exact E|]. splits; try done.
    revert Hm. unfold local_move. cbn [fst]. by rewrite Eo. }
  unfold is_card. destruct ((ch =? 49) || (ch =? 50) || (ch =? 51)) eqn:Ek; cbn [andb];
    [|by eexists _, _].
  replace ((ch - 49 <? 0) || (hand_n hand <=? ch - 49)) with (negb (ch - 49 <? hand_n hand)).
  2:{ destruct (Z.ltb_spec (ch - 49) 0); [|by rewrite Z.leb_antisym].
      repeat zcase; try lia; discriminate Ek. }
  destruct (ch - 49 <? hand_n hand); cbn [negb]; [|by eexists _, _].
  assert (exists b, enc play_req_codec {| hand_idx := u8 (ch - 49) |} = [b] /\
    byte.unsigned b = ch - 49) as (b & Eb & Hb).
  { assert (ch = 49 \/ ch = 50 \/ ch = 51) as [-> | [-> | ->]]
      by (repeat zcase; try lia; discriminate Ek);
      [by exists Byte.x00|by exists Byte.x01|by exists Byte.x02]. }
  rewrite Eb. destruct (app_request_seated sid (st, hand) w1 (opcode OP_PLAY_CARD) [b] fuel)
    as (v' & w' & E & Hm & Hs' & Hr' & Ht); [done|done|right; by eauto|done|].
  eexists _, w'. split; [exact E|]. splits; try done.
  revert Hm. unfold local_move. cbn [fst]. rewrite Eo.
  change (opcode OP_PLAY_CARD =? opcode OP_PLAY_CARD) with true. cbn match.
  intros (b' & [= <-] & ->). by rewrite Hb.
Qed.

(** The game goes from one to the other by keys. *)
Definition keyed : game -> game -> Prop := rtc (fun v v' => exists ch, local_key ch v v').

Lemma app_keys sid v (w : app_world (C:=table)) fuel n :
  seated sid v (a_conn w) -> tb_reply (a_conn w) = [] -> (4 <= fuel)%nat ->
  (keys_left (a_term w) < n)%nat ->
  exists v' w', loopO (app_step fuel) n v w = Some (tt, w') /\ keyed v v' /\
    seated sid v' (a_conn w').
Proof.
  intros Hs Hr Hf. revert v w Hs Hr. induction n as [|n IH]; intros v w Hs Hr Hn; [lia|].
  rewrite loopO_eq. destruct (app_key sid v w fuel Hs Hr Hf) as (r & w1 & -> & Ht & Hm).
  destruct r as [v1|[]].
  - destruct Hm as (Hq & Hk & Hs1 & Hr1).
    destruct (IH v1 w1 Hs1 Hr1) as (v' & w' & E & Hks & Hs').
    { rewrite Ht. destruct (getch_quits (draw_ui v.1 v.2 (a_term w))) as [E|[E|Hlt]].
      - unfold key_pressed in Hq. by rewrite E in Hq.
      - unfold key_pressed in Hq. by rewrite E in Hq.
      - rewrite draw_ui_keys in Hlt. lia. }
    exists v', w'. splits; [done| |done]. eapply rtc_l; [by exists (key_pressed v w)|exact Hks].
  - destruct Hm as [_ Hc]. exists v, w1. splits; [done|by apply rtc_refl|by rewrite Hc].
Qed.
End AppTable.

(** ** Theorems *)

Section AppThms.
Context `{LibcOK} `{CursesQuits}.

(** C4. The client shows the game that the server holds, key by key.  At every
    iteration of the key loop the screen drawn is that of the game which the
    worker plays and the store keeps; a key that is not quit completes, moves
    that game as the rules alone would (a card of the hand, the end of the turn
    with the AI's turn after it, or nothing), and leaves no packet unread; a
    quit key leaves the connection alone. *)
Theorem app_mirrors_server sid v (w : app_world (C:=table)) fuel :
  seated sid v (a_conn w) -> tb_reply (a_conn w) = [] -> (4 <= fuel)%nat ->
  exists r w', app_step fuel v w = Some (r, w') /\
    a_term w' = (getch (draw_ui v.1 v.2 (a_term w))).2 /\
    match r with
    | inr _ => is_quit (key_pressed v w) = true /\ a_conn w' = a_conn w
    | inl v' => is_quit (key_pressed v w) = false /\ local_key (key_pressed v w) v v' /\
        seated sid v' (a_conn w') /\ tb_reply (a_conn w') = []
    end.
Proof. apply app_key. Qed.

Definition ended (t : table) : Prop :=
  wk_phase (tb_worker t) = finished /\ tb_waits t = false.

Lemma ended_recv cap t : ended t -> ended (ch_recv cap t).2.
Proof.
  intros [Hp Hw]. cbn. destruct (tb_reply t) as [|[op payload] q]; [|done].
  split; [done|]. unfold read_end, worker_ended. cbn. by rewrite Hp, Hw.
Qed.

Lemma ended_close t : ended t -> ended (react [] t).
Proof. intros [Hp Hw]. unfold ended, react, worker_step. cbn [wk_phase]. by rewrite Hp. Qed.

End AppThms.

(** ** The benchmark thread at the table *)

Section BenchTable.
Context `{LibcOK} `{Clock}.
Hypothesis clock_runs : forall k, (now_ns k).1 < (now_ns (now_ns k).2).1.

Lemma b_recv_table op payload q (t : table) k :
  tb_reply t = (op, payload) :: q -> (length payload <= 1024)%nat ->
  b_recv {| b_conn := t; b_clk := k |} =
    (Some (op, payload), {| b_conn := with_reply q t; b_clk := k |}).
Proof.
  intros E Hl. unfold b_recv, b_chan. cbn. rewrite E.
  by destruct (Z.ltb_spec 1024 (Z.of_nat (length payload))); [lia|].
Qed.

Lemma wait_step_table idx sst shd op payload q (t : table) k :
  tb_reply t = (op, payload) :: q -> (length payload <= 1024)%nat ->
  sst && shd = false ->
  wait_step idx (sst, shd) {| b_conn := t; b_clk := k |} =
    (if op =? OP_STATE then
       if (Z.of_nat (length payload) =? Z.of_nat (csize state_codec)) && (idx =? 0)
          && truthy (game_over (dec state_codec payload))
       then inr true else inl (true, shd)
     else if op =? OP_HAND then inl (sst, true) else inl (sst, shd),
     {| b_conn := with_reply q t; b_clk := k |}).
Proof.
  intros E Hl Hs. unfold wait_step, mbind, St_bind.
  rewrite <- negb_andb, Hs. cbn [negb]. rewrite (b_recv_table _ _ _ _ _ E Hl).
  cbn match. destruct (op =? OP_STATE); [by case_match|by destruct (op =? OP_HAND)].
Qed.

(** The loop that waits for the answer finds the hand of the answer before,
    then the state of this one, whose hand it leaves unread. *)
Lemma wait_answer idx fuel h pre (v : game) (t : table) k :
  tb_reply t = (opcode OP_HAND, h) :: pre ++ game_packets v.1 v.2 -> (length h <= 1024)%nat ->
  Forall error_reply pre -> state_wf v.1 -> (length pre + 3 <= fuel)%nat ->
  loopM (wait_step idx) fuel (false, false) {| b_conn := t; b_clk := k |} =
    Some ((idx =? 0) && truthy (game_over v.1),
      {| b_conn := with_reply [(opcode OP_HAND, enc hand_codec v.2)] t; b_clk := k |}).
Proof.
  intros Hr Hl Hpre Hw Hf. destruct fuel as [|fuel]; [lia|].
  erewrite loopM_step; [|by apply (wait_step_table _ _ _ _ _ _ _ _ Hr Hl)].
  set (t1 := with_reply _ t).
  assert (with_reply [(opcode OP_HAND, enc hand_codec v.2)] t1 =
    with_reply [(opcode OP_HAND, enc hand_codec v.2)] t) as <- by done.
  assert (tb_reply t1 = pre ++ game_packets v.1 v.2) as Hr1 by done.
  clearbody t1. clear Hr. revert t1 Hr1 fuel Hf.
  induction Hpre as [|[op p] pre [Ho Hp] _ IH]; intros t1 Hr1 fuel Hf; cbn [app length] in Hr1, Hf.
  - destruct fuel as [|[|fuel]]; [lia..|]. apply state_codec_wf in Hw.
    pose proof (enc_length _ _ Hw) as Hlen.
    pose proof (wait_step_table idx false true _ _ _ t1 k Hr1) as Es.
    rewrite Hlen, !Z.eqb_refl, dec_enc in Es by done. cbn [andb] in Es.
    specialize (Es ltac:(cbn; lia) eq_refl).
    destruct ((idx =? 0) && truthy (game_over v.1)).
    + by apply loopM_stop.
    + by rewrite (loopM_step _ _ _ _ _ _ Es).
  - destruct fuel as [|fuel]; [lia|]. cbn in Ho. subst op.
    erewrite loopM_step; [|apply (wait_step_table _ _ _ _ _ _ _ _ Hr1); [cbn in Hp; lia|done]].
    exact (IH (with_reply _ t1) eq_refl fuel ltac:(lia)).
Qed.

(** Between two requests the client has the last hand still to read. *)
Definition bench_at (sid : Z) (w : bench_world (C:=table)) : Prop :=
  exists v h, seated sid v (b_conn w) /\ tb_reply (b_conn w) = [(opcode OP_HAND, h)] /\
    (length h <= 1024)%nat.

(** A request and the wait for its answer. *)
Lemma request_answered sid idx fuel op payload (w : bench_world (C:=table)) :
  bench_at sid w -> asks op payload -> (4 <= fuel)%nat ->
  exists w1 over w2, b_send op payload w = (0, w1) /\
    loopM (wait_step idx) fuel (false, false) w1 = Some (over, w2) /\
    bench_at sid w2 /\ b_clk w2 = b_clk w.
Proof.
  intros (v & h & Hs & Hr & Hl) Hop Hf.
  destruct (react_request sid v _ op payload Hs Hop) as (pre & v' & Hpre & Hn & Hr' & Hs' & _).
  rewrite Hr in Hr'. cbn [app] in Hr'. destruct w as [t k]. cbn [b_conn b_clk] in *.
  destruct (proj1 (se_waiting _ _ _ Hs')) as [Hi Hh _].
  exists {| b_conn := react [(op, payload)] t; b_clk := k |}. eexists _, _.
  split; [by destruct Hop as [[-> ->]|[-> [b ->]]]|]. split.
  { apply (wait_answer idx fuel h pre v'); [exact Hr'|done|done|apply (gi_wf _ Hi)|lia]. }
  split; [|done]. exists v', (enc hand_codec v'.2). splits.
  - destruct Hs'. by split.
  - done.
  - rewrite enc_length by (apply hand_codec_wf, Hh). cbn. lia.
Qed.

Lemma round_answered sid idx fuel rounds i sum (w : bench_world (C:=table)) :
  bench_at sid w -> (4 <= fuel)%nat ->
  exists r w', round_step fuel idx rounds (i, sum) w = Some (r, w') /\ bench_at sid w' /\
    match r with
    | inl (i', sum') => i < rounds /\ i' = i + 1 /\ sum < sum'
    | inr sum' => sum' = sum
    end.
Proof.
  intros Hw Hf. unfold round_step. destruct (i <? rounds) eqn:Ei; cbn [negb];
    [|by exists (inr sum), w]. apply Z.ltb_lt in Ei.
  unfold lift, b_now, mbind, StO_bind. pose proof (clock_runs (b_clk w)) as Hck.
  destruct (now_ns (b_clk w)) as [t0 k]. cbn [fst snd] in Hck.
  destruct (request_answered sid idx fuel (opcode OP_PLAY_CARD) (enc play_req_codec {| hand_idx := 0 |})
    {| b_conn := b_conn w; b_clk := k |}) as (w1 & o1 & w2 & E1 & E2 & Hw2 & Hk2);
    [exact Hw|right; split; [done|by exists Byte.x00]|done|].
  rewrite E1. cbn [negb Z.eqb]. rewrite E2. destruct o1; [by exists (inr sum), w2|].
  destruct (request_answered sid idx fuel (opcode OP_END_TURN) [] w2)
    as (w3 & o2 & w4 & E3 & E4 & Hw4 & Hk4); [exact Hw2|by left|done|].
  rewrite E3. cbn [negb Z.eqb]. rewrite E4. destruct o2; [by exists (inr sum), w4|].
  rewrite Hk4, Hk2. cbn [b_clk]. destruct (now_ns k) as [t1 k']. cbn [fst] in Hck.
  eexists _, _. split; [reflexivity|]. split; [exact Hw4|]. lia.
Qed.

Lemma rounds_answered sid n idx fuel rounds i sum (w : bench_world (C:=table)) :
  bench_at sid w -> (4 <= fuel)%nat -> 0 < sum -> rounds - i <= Z.of_nat n ->
  exists sum' w', loopO (round_step fuel idx rounds) (S n) (i, sum) w = Some (sum', w') /\
    0 < sum' /\ bench_at sid w'.
Proof.
  intros Hw Hf. revert i sum w Hw. induction n as [|n IH]; intros i sum w Hw Hs Hn; rewrite loopO_eq;
    (destruct (round_answered sid idx fuel rounds i sum w Hw Hf)
       as ([[i' sum']|sum'] & w' & -> & Hw' & Hr); [|by subst sum'; exists sum, w']); [lia|].
  apply IH; [done|lia|lia].
Qed.

(** The thread as a whole, with and without a free slot in the store. *)
Lemma bench_refused e shm idx rounds fuel k :
  free_slots shm.2 = 0%nat -> (1 <= fuel)%nat ->
  exists w', Bench.worker fuel idx rounds {| b_conn := new_table e shm; b_clk := k |} = Some (-1, w') /\
    ended (b_conn w').
Proof.
  intros Hfree Hf. destruct (new_table_fresh e shm) as [Hfr Hsh].
  pose proof (react_login _ [] Hfr) as Hl. cbv zeta in Hl. rewrite Hsh, Hfree in Hl.
  destruct (Hl ltac:(cbn; lia)) as (Hp & Hw & Hr). clear Hl.
  unfold Bench.worker, lift, b_now, mbind, StO_bind, mret, StO_ret. cbn [b_clk b_conn].
  destruct (now_ns k) as [t0 k0]. unfold b_send, b_chan. cbn [b_clk b_conn].
  change (ch_send OP_LOGIN_REQ [] (new_table e shm)) with
    (0, react [(opcode OP_LOGIN_REQ, [])] (new_table e shm)).
  set (t := react _ _) in *. cbn [negb Z.eqb].
  rewrite (b_recv_table _ _ _ _ _ Hr) by (rewrite err_payload_length by done; lia).
  change (opcode OP_ERROR =? OP_LOGIN_RESP) with false. cbn match.
  destruct fuel as [|fuel]; [lia|].
  rewrite (loopM_stop until_state_step _ _ _ false {| b_conn := read_end (with_reply [] t); b_clk := k0 |})
    by done.
  cbn [negb]. eexists _. split; [reflexivity|]. cbn [b_conn]. apply ended_close.
  apply (ended_recv 1024 (with_reply [] t)). by split.
Qed.

Lemma bench_answered e shm idx rounds fuel k :
  free_slots shm.2 <> 0%nat -> (4 <= fuel)%nat -> rounds < Z.of_nat fuel ->
  exists sum w' sid, Bench.worker fuel idx rounds {| b_conn := new_table e shm; b_clk := k |} =
      Some (sum, w') /\
    0 < sum /\ ended (b_conn w') /\ exists v n,
      store_map (tb_shm (b_conn w')).2 !! sid = Some v /\ reach n v.1 v.2.
Proof.
  intros Hfree Hf Hrd. destruct (new_table_fresh e shm) as [Hfr Hsh].
  pose proof (react_login _ [] Hfr) as Hl. cbv zeta in Hl.
  rewrite Hsh, (proj2 (Nat.eqb_neq _ _) Hfree) in Hl.
  destruct (Hl ltac:(cbn; lia)) as (sid & v & Hs & _ & Hr & _). clear Hl.
  destruct (proj1 (se_waiting _ _ _ Hs)) as [Hi Hh _].
  pose proof (enc_length _ _ (proj2 (state_codec_wf _) (gi_wf _ Hi))) as Hsl.
  pose proof (enc_length _ _ (proj2 (hand_codec_wf _) (hi_wf _ Hh))) as Hhl.
  unfold Bench.worker, lift, b_now, mbind, StO_bind, mret, StO_ret. cbn [b_clk b_conn].
  pose proof (clock_runs k) as Hck. destruct (now_ns k) as [t0 k0]. cbn [fst snd] in Hck.
  unfold b_send, b_chan. cbn [b_clk b_conn].
  change (ch_send OP_LOGIN_REQ [] (new_table e shm)) with
    (0, react [(opcode OP_LOGIN_REQ, [])] (new_table e shm)).
  set (t := react _ _) in *. cbn [negb Z.eqb].
  rewrite (b_recv_table _ _ _ _ _ Hr) by (vm_compute; lia).
  change (opcode OP_LOGIN_RESP =? OP_LOGIN_RESP) with true. cbv beta iota.
  rewrite (b_recv_table (resume_packet 1 sid).1 (resume_packet 1 sid).2 (game_packets v.1 v.2)
    (with_reply (resume_packet 1 sid :: game_packets v.1 v.2) t) k0)
    by (first [done|rewrite resume_packet_length; lia]).
  destruct fuel as [|[|fuel]]; [lia..|].
  rewrite (loopM_step until_state_step _ _ _ (opcode OP_STATE)
    {| b_conn := with_reply [(opcode OP_HAND, enc hand_codec v.2)] t; b_clk := k0 |}).
  2:{ unfold until_state_step, mbind, St_bind. cbn [Z.eqb opcode Pos.eqb fst resume_packet].
      by rewrite (b_recv_table (opcode OP_STATE) (enc state_codec v.1)
        [(opcode OP_HAND, enc hand_codec v.2)]) by (first [done|rewrite Hsl; cbn; lia]). }
  erewrite (loopM_stop until_state_step) by reflexivity. cbn [negb b_clk b_conn].
  destruct (now_ns k0) as [t1 k1]. cbn [fst] in Hck.
  destruct (rounds_answered sid (S fuel) idx (S (S fuel)) rounds 0 (t1 - t0)
    {| b_conn := with_reply [(opcode OP_HAND, enc hand_codec v.2)] t; b_clk := k1 |})
    as (sum & w' & -> & Hsum & v' & h & Hs' & _); [|lia|lia|lia|].
  { exists v. eexists. split; [by destruct Hs|]. split; [done|]. rewrite Hhl. cbn. lia. }
  destruct (react_close sid v' _ Hs') as (Hp & Hst & Hw). destruct (se_reach _ _ _ Hs') as [n Hn].
  eexists sum, _, sid. split; [reflexivity|]. split; [done|]. split; [by split|]. by exists v', n.
Qed.
End BenchTable.


(** ** Witnesses *)

(** The game of [SessionDemo] as session 42, and the keys "2", "e", "q". *)
Definition demo_table : table := {|
  tb_worker := {| wk_conn := {| Queue.inbox := []; Queue.outbox := [] |};
                  wk_env := TestLibc.env0; wk_phase := playing 42 SessionDemo.game0 |};
  tb_shm := (zero_stats, SessionDemo.store0); tb_reply := []; tb_waits := false |}.

Definition demo_keys : TestTerm.term :=
  {| TestTerm.keys := [50; 101; 113]; TestTerm.drawing := []; TestTerm.shown := [] |}.

Definition demo_app : app_world (C := table) (H0 := TestTerm.curses) :=
  {| a_conn := demo_table; a_term := demo_keys |}.

Lemma demo_seated : seated 42 SessionDemo.game0 demo_table.
Proof.
  destruct SessionDemo.game0_waiting as [Hw _].
  split; [done|done|exact Hw| |exists 1%nat; apply reach_login_run|done].
  change (store_map SessionDemo.store0 !! 42 = Some SessionDemo.game0).
  rewrite SessionDemo.store0_map. apply lookup_singleton_eq.
Qed.

Lemma term_draw_keys st hand (t : TestTerm.term) :
  TestTerm.keys (draw_ui st hand t) = TestTerm.keys t.
Proof.
  unfold draw_ui. cbn [refresh TestTerm.curses TestTerm.keys].
  change (TestTerm.keys t) with (TestTerm.keys (erase t : TestTerm.term)).
  generalize (erase t : TestTerm.term).
  induction (ui_lines st hand) as [|[[y x] s] l IH]; intros t'; [done|]. exact (IH _).
Qed.

Lemma term_getch (t : TestTerm.term) k ks :
  TestTerm.keys t = k :: ks -> (getch (Curses := TestTerm.curses) t).1 = k.
Proof. destruct t as [l d s]. cbn. by intros ->. Qed.

Lemma demo_key : key_pressed SessionDemo.game0 demo_app = 50.
Proof. apply (term_getch _ 50 [101; 113]). exact (term_draw_keys _ _ demo_keys). Qed.

Lemma app_mirrors_server_witness : exists v' w',
  app_step 4 SessionDemo.game0 demo_app = Some (inl v', w') /\ seated 42 v' (a_conn w').
Proof.
  destruct (app_mirrors_server 42 SessionDemo.game0 demo_app 4 demo_seated eq_refl ltac:(lia))
    as (r & w' & E & _ & Hr).
  rewrite demo_key in Hr.
  destruct r as [v'|[]]; [|by destruct Hr].
  exists v', w'. split; [exact E|apply Hr].
Defined.


