(* ===== verification/Hall.v ===== *)
(** * Many clients at the server

    Play.v seats one client at the server.  Here any number of terminal clients
    play at once: each has a worker of its own, all workers share the
    statistics and the store, and clients arrive, log in, ask, read and leave
    in any order.  A step is one call of a client, with the reaction of its
    worker. *)

From stdpp Require Import relations.
From S2P Require Export Play.
From S2P Require Import System.

(** Where a client of src/client_app.c is: before its login; waiting in
    [recv_until] for the answer to a request; showing a game; or gone. *)
Inductive seat_pc := arrived | asked (view : game) | showing (view : game) | gone.

Section Hall.
Context `{Libc}.

Record hall := { h_shm : shm_t; h_seats : list (seat_pc * table) }.

(** A table as it finds the shared segments. *)
Definition at_shm (shm : shm_t) (t : table) : table :=
  {| tb_worker := tb_worker t; tb_shm := shm; tb_reply := tb_reply t; tb_waits := tb_waits t |}.

Definition seat_set (h : hall) (i : nat) (pc : seat_pc) (t : table) : hall :=
  {| h_shm := tb_shm t; h_seats := <[i := (pc, t)]> (h_seats h) |}.

Definition no_game : game := (zero_state, zero_hand).

Inductive hall_step (fuel : nat) (h : hall) : hall -> Prop :=
  | hall_arrives e t :
      new_table e (h_shm h) = t ->
      hall_step fuel h {| h_shm := tb_shm t; h_seats := h_seats h ++ [(arrived, t)] |}
  | hall_login i t t' :
      h_seats h !! i = Some (arrived, t) ->
      ch_send OP_LOGIN_REQ [] (at_shm (h_shm h) t) = (0, t') ->
      hall_step fuel h (seat_set h i (asked no_game) t')
  | hall_asks i v t op payload t' :
      h_seats h !! i = Some (showing v, t) -> asks op payload ->
      ch_send op payload (at_shm (h_shm h) t) = (0, t') ->
      hall_step fuel h (seat_set h i (asked v) t')
  | hall_reads i v t st hand t' :
      h_seats h !! i = Some (asked v, t) ->
      recv_until fuel v.1 v.2 (at_shm (h_shm h) t) = Some ((0, st, hand), t') ->
      hall_step fuel h (seat_set h i (showing (st, hand)) t')
  | hall_fails i v t rc st hand t' :
      h_seats h !! i = Some (asked v, t) ->
      recv_until fuel v.1 v.2 (at_shm (h_shm h) t) = Some ((rc, st, hand), t') -> rc <> 0 ->
      hall_step fuel h (seat_set h i gone (ch_close t'))
  | hall_leaves i v t :
      h_seats h !! i = Some (showing v, t) ->
      hall_step fuel h (seat_set h i gone (ch_close (at_shm (h_shm h) t))).

Definition hall_start : hall := {| h_shm := (zero_stats, zero_store); h_seats := [] |}.

(** The server of the hall. *)
Definition hall_system (h : hall) : system Queue.chan :=
  {| sys_shm := h_shm h; sys_workers := tb_worker ∘ snd <$> h_seats h |}.

(** A run in which no session is ever played twice: [ipc_alloc_session] does
    not compare the id that it makes with those in use. *)
Definition hall_reach (fuel : nat) : hall -> Prop :=
  rtc (fun h h' => hall_step fuel h h' /\ exclusive (hall_system h')) hall_start.

(** *** The invariant *)

Definition seat_ok (shm : shm_t) (s : seat_pc * table) : Prop :=
  let t := at_shm shm s.2 in
  match s.1 with
  | arrived => fresh_seat t
  | asked _ =>
      (exists sid v pre, seated sid v t /\ Forall passed_over pre /\ (length pre <= 2)%nat /\
         tb_reply t = pre ++ game_packets v.1 v.2) \/
      (ended t /\ tb_reply t = [err_packet (-999) "server full"])
  | showing v => exists sid, seated sid v t /\ tb_reply t = []
  | gone => ended t
  end.

Definition hall_ok (h : hall) : Prop :=
  ok_map (store_map (h_shm h).2) /\ Forall (seat_ok (h_shm h)) (h_seats h).
End Hall.

Section HallThms.
Context `{LibcOK}.

(** Another seat does not care as long as its session's entry stays. *)
Lemma seat_ok_other shm shm' (s : seat_pc * table) :
  (forall sid, plays (tb_worker s.2) = Some sid -> store_map shm'.2 !! sid = store_map shm.2 !! sid) ->
  seat_ok shm s -> seat_ok shm' s.
Proof.
  destruct s as [pc t]. cbn [fst snd].
  intros Hst. assert (forall sid v, seated sid v (at_shm shm t) -> seated sid v (at_shm shm' t)) as Hs.
  { intros sid v [Hp Hi Hw Hl Hr Hc]. split; try done. cbn [at_shm tb_shm] in *.
    rewrite Hst; [done|]. cbn in Hp. unfold plays. by rewrite Hp. }
  unfold seat_ok. cbn [fst snd]. destruct pc as [|v|v|].
  - done.
  - intros [(sid & v' & pre & Hv & Hrest)|Hf]; [left|by right]. exists sid, v', pre. auto.
  - intros (sid & Hv & Hr). eauto.
  - done.
Qed.

Lemma at_shm_id t : at_shm (tb_shm t) t = t.
Proof. by destruct t. Qed.

Lemma seat_worker_ok shm s : seat_ok shm s -> worker_ok (tb_worker s.2).
Proof.
  destruct s as [pc t]. unfold seat_ok, worker_ok. cbn [fst snd].
  assert (forall sid v, seated sid v (at_shm shm t) ->
    match wk_phase (tb_worker t) with
    | handshaking v => v = (zero_state, zero_hand) | playing _ v => ready v.1 v.2 | finished => True
    end) as Hs.
  { intros sid v [Hp _ [Hw _] _ _ _]. cbn in Hp. by rewrite Hp. }
  destruct pc as [|v|v|].
  - intros [Hp _]. cbn in Hp. by rewrite Hp.
  - intros [(sid & v' & pre & Hv & _)|[[Hp _] _]]; [by eapply Hs|]. cbn in Hp. by rewrite Hp.
  - intros (sid & Hv & _). by eapply Hs.
  - intros [Hp _]. cbn in Hp. by rewrite Hp.
Qed.

(** What one call of a client does to the store. *)
Definition store_step (shm : shm_t) (t t' : table) : Prop :=
  ok_map (store_map (tb_shm t').2) /\
  exists sid, same_but sid (store_map shm.2) (store_map (tb_shm t').2) /\
    (store_map (tb_shm t').2 = store_map shm.2 \/
     plays (tb_worker t) = Some sid \/ plays (tb_worker t') = Some sid).

Lemma react_store shm t ps :
  worker_ok (tb_worker t) -> ok_map (store_map shm.2) ->
  store_step shm t (react ps (at_shm shm t)).
Proof.
  intros Hw Hok. unfold store_step, react. cbn [at_shm tb_worker tb_shm].
  set (k := {| wk_conn := _; wk_env := _; wk_phase := _ |}).
  destruct (worker_step k shm) as [k' shm'] eqn:E.
  destruct (worker_step_ok k shm shm' k' Hw Hok E) as (_ & Hok' & (sid & Hsb & Hc) & _).
  split; [exact Hok'|]. exists sid. split; [exact Hsb|exact Hc].
Qed.

Lemma store_step_same shm t t' :
  ok_map (store_map shm.2) -> (tb_shm t').2 = shm.2 -> store_step shm t t'.
Proof. intros Hok E. split; rewrite E; [done|]. exists 0. split; [by intros k|by left]. Qed.

(** One seat acts: the others keep what they have. *)
Lemma hall_acts h i pc t pc' t' :
  hall_ok h -> exclusive (hall_system h) -> exclusive (hall_system (seat_set h i pc' t')) ->
  h_seats h !! i = Some (pc, t) -> store_step (h_shm h) t t' -> seat_ok (tb_shm t') (pc', t') ->
  hall_ok (seat_set h i pc' t').
Proof.
  intros [Hok Hs] Hex Hex' Hi (Hok' & sid & Hsb & Hc) Hseat. split; [exact Hok'|].
  apply Forall_lookup_2. intros j sj Hj. cbn [seat_set h_seats h_shm] in *.
  pose proof (lookup_lt_Some _ _ _ Hi) as Hlt.
  destruct (decide (i = j)) as [<-|Hne].
  { rewrite list_lookup_insert_eq in Hj by done. by injection Hj as <-. }
  pose proof Hj as Hj'. rewrite list_lookup_insert_ne in Hj by done.
  eapply seat_ok_other; [|exact (Forall_lookup_1 _ _ _ _ Hs Hj)].
  intros sid' Hp. destruct Hc as [E|Hc]; [by rewrite E|]. apply Hsb. intros ->. apply Hne.
  destruct Hc as [Hc|Hc].
  - eapply (Hex i j); [| |exact Hc|exact Hp]; cbn [hall_system sys_workers];
      rewrite list_lookup_fmap; [by rewrite Hi|by rewrite Hj].
  - eapply (Hex' i j (tb_worker t')); [| |exact Hc|exact Hp]; cbn [hall_system sys_workers seat_set h_seats];
      rewrite list_lookup_fmap; [by rewrite list_lookup_insert_eq|by rewrite Hj'].
Qed.

(** Reading changes neither the worker nor the segments. *)
Lemma recv_until_seat fuel st hand t r t' :
  recv_until fuel st hand t = Some (r, t') -> tb_worker t' = tb_worker t /\ tb_shm t' = tb_shm t.
Proof.
  intros E. refine (recv_until_frame (fun t' => tb_worker t' = tb_worker t /\ tb_shm t' = tb_shm t)
    fuel st hand t r t' _ E (conj eq_refl eq_refl)).
  intros t1 Ht. cbn. by destruct (tb_reply t1) as [|[op payload] q].
Qed.

(** What a waiting client reads. *)
Lemma asked_reads fuel shm v t :
  (5 <= fuel)%nat -> seat_ok shm (asked v, t) ->
  (exists sid v' t', recv_until fuel v.1 v.2 (at_shm shm t) = Some ((0, v'.1, v'.2), t') /\
     seated sid v' t' /\ tb_reply t' = []) \/
  (exists t', recv_until fuel v.1 v.2 (at_shm shm t) = Some ((-1, v.1, v.2), t') /\ ended t').
Proof.
  intros Hf. unfold seat_ok. cbn [fst snd].
  intros [(sid & v' & pre & Hs & Hpre & Hl & Hr)|[He Hr]]; [left|right].
  - destruct (proj1 (se_waiting _ _ _ Hs)) as [Hi Hh _].
    destruct (recv_until_game pre v'.1 v'.2 [] v.1 v.2 fuel (at_shm shm t)) as (t' & E & Ha);
      [done|apply (gi_wf _ Hi)|apply Hh|by rewrite app_nil_r|lia|].
    exists sid, v', t'. split; [exact E|]. split; [|exact Ha].
    exact (recv_until_keeps (seated sid v') _ _ _ _ _ _ _ (fun c p => recv_seated sid v' 2048 c p) E Hs).
  - destruct (recv_until_cut [err_packet (-999) "server full"] v.1 v.2 (at_shm shm t) fuel)
      as (t' & E); [by apply Forall_singleton, err_packet_passed|exact Hr|cbn; lia|].
    exists t'. split; [exact E|]. by apply (recv_until_frame ended fuel _ _ _ _ _ (ended_recv 2048) E).
Qed.

Lemma hall_step_ok fuel h h' :
  (5 <= fuel)%nat -> hall_ok h -> exclusive (hall_system h) -> exclusive (hall_system h') ->
  hall_step fuel h h' -> hall_ok h'.
Proof.
  intros Hf Hh Hex Hex' Hst.
  destruct Hst as [e t Ht|i t t' Hi E|i v t op payload t' Hi Hop E|i v t st hand t' Hi E
    |i v t rc st hand t' Hi E Hrc|i v t Hi].
  - destruct Hh as [Hok Hs]. destruct (new_table_fresh e (h_shm h)) as [Hfr Hsh].
    rewrite Ht in Hfr, Hsh. split; cbn [h_shm h_seats]; [by rewrite Hsh|].
    apply Forall_app. split; [|apply Forall_singleton; unfold seat_ok; cbn; by rewrite at_shm_id].
    eapply Forall_impl; [exact Hs|]. intros s. apply seat_ok_other. intros sid _. by rewrite Hsh.
  - pose proof (Forall_lookup_1 _ _ _ _ (proj2 Hh) Hi) as Hs.
    injection E as <-. eapply hall_acts; [done..| |].
    { apply react_store; [exact (seat_worker_ok _ _ Hs)|apply Hh]. }
    pose proof (react_login _ [] Hs ltac:(cbn; lia)) as Hl. cbv zeta in Hl. cbn [fst snd] in Hl.
    unfold seat_ok. cbn [fst snd]. rewrite at_shm_id.
    destruct (_ =? 0)%nat; [right; destruct Hl as (? & ? & ?); by repeat split|left].
    destruct Hl as (sid & v & Hv & _ & Hr & _). exists sid, v, [login_packet; resume_packet 1 sid].
    splits; [done|apply login_passed|cbn; lia|exact Hr].
  - pose proof (Forall_lookup_1 _ _ _ _ (proj2 Hh) Hi) as Hs.
    assert (t' = react [(op, payload)] (at_shm (h_shm h) t)) as ->.
    { by destruct Hop as [[-> ->]|[-> [b ->]]]; injection E as <-. }
    eapply hall_acts; [done..| |].
    { apply react_store; [exact (seat_worker_ok _ _ Hs)|apply Hh]. }
    destruct Hs as (sid & Hs & Hr). cbn [fst snd] in Hs, Hr.
    destruct (react_request sid v _ op payload Hs Hop) as (pre & v' & Hpre & Hl & Hr' & Hs' & _).
    unfold seat_ok. cbn [fst snd]. rewrite at_shm_id. left. exists sid, v', pre.
    splits; [done|by eapply Forall_impl, error_passed|lia|]. by rewrite Hr', Hr.
  - pose proof (Forall_lookup_1 _ _ _ _ (proj2 Hh) Hi) as Hs.
    destruct (recv_until_seat _ _ _ _ _ _ E) as [Ew Esh].
    eapply hall_acts; [done..|apply store_step_same; [apply Hh|by rewrite Esh]|].
    destruct (asked_reads fuel _ v t Hf Hs) as [(sid & v' & t1 & E1 & Hs1 & Hr1)|(t1 & E1 & _)];
      rewrite E in E1; [|discriminate E1].
    injection E1 as -> -> ->. unfold seat_ok. cbn [fst snd]. rewrite at_shm_id.
    exists sid. destruct v'. by split.
  - pose proof (Forall_lookup_1 _ _ _ _ (proj2 Hh) Hi) as Hs.
    destruct (recv_until_seat _ _ _ _ _ _ E) as [Ew Esh].
    destruct (asked_reads fuel _ v t Hf Hs) as [(sid & v' & t1 & E1 & _)|(t1 & E1 & He)];
      rewrite E in E1; [injection E1 as -> _ _ _; done|]. injection E1 as _ _ _ ->.
    pose proof (ended_close t1 He) as Hc.
    eapply hall_acts; [done..| |unfold seat_ok; cbn [fst snd]; by rewrite at_shm_id].
    assert (tb_shm (react [] t1) = h_shm h) as Er.
    { unfold react, worker_step. cbn [wk_phase]. destruct He as [-> _]. exact Esh. }
    apply store_step_same; [apply Hh|]. cbn. by rewrite Er.
  - pose proof (Forall_lookup_1 _ _ _ _ (proj2 Hh) Hi) as Hs.
    eapply hall_acts; [done..| |].
    { apply react_store; [exact (seat_worker_ok _ _ Hs)|apply Hh]. }
    destruct Hs as (sid & Hs & Hr). cbn [fst snd] in Hs. unfold seat_ok. cbn [fst snd].
    rewrite at_shm_id. destruct (react_close sid v _ Hs) as (Hp & _ & Hw). by split.
Qed.

Lemma hall_reach_ok fuel h :
  (5 <= fuel)%nat -> hall_reach fuel h -> hall_ok h /\ exclusive (hall_system h).
Proof.
  intros Hf. unfold hall_reach.
  assert (hall_ok hall_start /\ exclusive (hall_system hall_start)) as H0.
  { split; [split; [apply zero_store_ok|constructor]|by intros []]. }
  revert H0. generalize hall_start. intros h0 H0 Hr. revert H0.
  induction Hr as [|h1 h2 h3 [Hst Hex] _ IH]; [done|]. intros [Hok Hex1]. apply IH.
  split; [by eapply hall_step_ok|done].
Qed.

(** ** Theorems *)

End HallThms.

(** ** Witness *)

(** A client that has arrived and logged in. *)
Lemma hall_demo : exists h v t, hall_reach 5 h /\ h_seats h !! 0%nat = Some (asked v, t).
Proof.
  pose (t0 := new_table TestLibc.env0 (zero_stats, zero_store)).
  pose (h1 := {| h_shm := tb_shm t0; h_seats := [(arrived, t0)] |}).
  pose (t1 := react [(opcode OP_LOGIN_REQ, [])] (at_shm (h_shm h1) t0)).
  exists (seat_set h1 0 (asked no_game) t1), no_game, t1. split; [|reflexivity].
  assert (forall shm x, exclusive (hall_system {| h_shm := shm; h_seats := [x] |})) as Hex
    by (intros shm x; apply exclusive_single).
  eapply rtc_l; [split; [by apply (hall_arrives 5 hall_start TestLibc.env0 t0)|apply Hex]|].
  apply rtc_once. split; [|apply Hex]. by apply (hall_login 5 h1 0 t0 t1).
Qed.

