(* ===== verification/GuiMain.v ===== *)
(** * The graphical client as a whole

    src/client_gui.c, [main]: the command line, the pipe, the network thread,
    the window with its font and textures, the main loop around the frames of
    GuiDraw.v, and the end.  Then the two threads together: the main loop and
    [net_thread] share [g_sh] under a mutex, and the pipe.  A step is an access
    of the main loop to what is shared, or an iteration of the network
    thread. *)

From S2P Require Export BenchMain GuiDrawThms Play.

(** ** The window *)

(** What [main] asks raylib for.  Textures and fonts are handles. *)
Class Window := {
  win : Type;
  font : Type;
  (** [font.texture.id] *)
  font_texture : font -> Z;
  InitWindow : Z -> Z -> string -> win -> win;
  IsWindowReady : St win bool;
  WindowShouldClose : St win bool;
  CloseWindow : win -> win;
  LoadFontEx : string -> Z -> St win font;
  GetFontDefault : St win font;
  UnloadFont : font -> win -> win;
  LoadTexture : string -> St win Texture2D;
  UnloadTexture : Texture2D -> win -> win;
  (** [SetTextureFilter(texture, TEXTURE_FILTER_POINT)], by the texture's id *)
  SetPointFilter : Z -> win -> win;
  BeginDrawing : win -> win;
  EndDrawing : win -> win;
  perform : draw -> win -> win;
  GetFrameTime : St win float;
  GetMousePosition : St win Vector2;
  IsMouseButtonPressed : St win bool;
  collides : Vector2 -> Rectangle -> bool;
  text_width : string -> Z -> Z;
}.

Record ui_assets_t `{Window} := {
  ui_font : font;
  ui_atk : Texture2D; ui_heal : Texture2D; ui_shield : Texture2D; ui_buff : Texture2D;
  ui_poison : Texture2D;
  ui_ok : Z;
}.

Section Main.
Context `{Window}.

(** raylib, as the frames use it, with the textures that [main] has loaded. *)
Definition gui_raylib (ui : ui_assets_t) : Raylib := {|
  loaded t := match t with
    | tex_atk => ui_atk ui | tex_heal => ui_heal ui | tex_shield => ui_shield ui
    | tex_buff => ui_buff ui | tex_poison => ui_poison ui
    end;
  CheckCollisionPointRec := collides;
  MeasureText := text_width;
|}.

(** *** Set-up *)

Definition gui_args (argv : list string) : string * Z :=
  (default "127.0.0.1"%string (argv !! 1%nat),
   from_option (fun a => u16 (atoi a)) 9000 (argv !! 2%nat)).

(** [g_ui], from [InitWindow] on; [None] when the window is not ready. *)
Definition load_font : St win font :=
  f ← LoadFontEx "src/assets/font/pixel.ttf" 28;
  if font_texture f =? 0 then GetFontDefault
  else _ ← call (SetPointFilter (font_texture f)); mret f.

Definition load_assets : St win ui_assets_t :=
  f ← load_font;
  atk ← LoadTexture "src/assets/cards/atk.png";
  heal ← LoadTexture "src/assets/cards/heal.png";
  shield ← LoadTexture "src/assets/cards/shield.png";
  buff ← LoadTexture "src/assets/cards/buff.png";
  poison ← LoadTexture "src/assets/cards/poison.png";
  _ ← call (SetPointFilter (tex_id atk));
  _ ← call (SetPointFilter (tex_id heal));
  _ ← call (SetPointFilter (tex_id shield));
  _ ← call (SetPointFilter (tex_id buff));
  _ ← call (SetPointFilter (tex_id poison));
  mret {| ui_font := f; ui_atk := atk; ui_heal := heal; ui_shield := shield; ui_buff := buff;
          ui_poison := poison; ui_ok := 1 |}.

Definition open_window : St win (option ui_assets_t) :=
  _ ← call (InitWindow 900 600 "Mini TCG - GUI Client (SSL Enabled)");
  ready ← IsWindowReady;
  if negb ready then mret None
  else ui ← load_assets; mret (Some ui).

Definition close_window (ui : ui_assets_t) : St win unit :=
  _ ← call (UnloadTexture (ui_atk ui));
  _ ← call (UnloadTexture (ui_heal ui));
  _ ← call (UnloadTexture (ui_shield ui));
  _ ← call (UnloadTexture (ui_buff ui));
  _ ← call (UnloadTexture (ui_poison ui));
  _ ← call (UnloadFont (ui_font ui));
  call CloseWindow.

(** *** The main loop *)

(** The variables of the main thread alone: the window, [g_anim] and
    [selected_idx]. *)
Record main_t := { mt_win : win; mt_anim : anim_t; mt_selected : Z }.

(** Neither connected nor with a state: the frame ends early. *)
Definition connecting (sh : shared_t) : bool :=
  negb (truthy (connected sh)) && negb (truthy (has_state sh)).

(** What the frame asks about the time and the mouse. *)
Definition frame_inputs (sh : shared_t) : St win (float * Vector2 * bool) :=
  if connecting sh then mret (f_zero, GuiDraw.vec 0 0, false)
  else
    dt ← GetFrameTime;
    mouse ← GetMousePosition;
    pressed ← IsMouseButtonPressed;
    mret (dt, mouse, pressed).

(** One iteration, with the copy of [g_sh] that it has taken: the command that
    it writes to the pipe, if any. *)
Definition window_frame (ui : ui_assets_t) (sh : shared_t) : StO main_t (option net_cmd_t) := fun m =>
  let '((dt, mouse, pressed), w) := frame_inputs sh (BeginDrawing (mt_win m)) in
  match gui_frame (H := gui_raylib ui) dt mouse pressed sh (mt_anim m) (mt_selected m) [] with
  | None => None
  | Some ((anim, sel, cmd), calls) =>
      Some (cmd, {| mt_win := EndDrawing (foldl (fun w d => perform d w) w calls);
                    mt_anim := anim; mt_selected := sel |})
  end.
End Main.

(** What [net_thread] is started with: [net_arg_t]. *)
Record net_arg_t `{Os} := { na_host : string; na_port : Z; na_pipe : Z; na_ctx : SSL_CTX }.

Section Process.
Context `{Os} `{Window}.

Record gui_proc := { gp_nio : nio; gp_win : win }.
Definition gp_sys {A} (m : St nio A) : St gui_proc A := fun p =>
  let '(a, n) := m (gp_nio p) in (a, {| gp_nio := n; gp_win := gp_win p |}).
Definition gp_window {A} (m : St win A) : St gui_proc A := fun p =>
  let '(a, w) := m (gp_win p) in (a, {| gp_nio := gp_nio p; gp_win := w |}).

(** [main] up to the loop: the exit status, or what the two threads start
    with.  [pipe] gives the read and the write end; [spawn] is
    [pthread_create]. *)
Definition gui_startup (pipe : St nio (option (Z * Z))) (spawn : net_arg_t -> nio -> nio)
    (argv : list string) : St gui_proc (Z + net_arg_t * Z * ui_assets_t) :=
  let '(host, port) := gui_args argv in
  pfd ← gp_sys pipe;
  match pfd with
  | None => _ ← gp_sys (call (perror "pipe")); mret (inl 1)
  | Some (pfd0, pfd1) =>
      _ ← gp_sys ssl_msg_init;
      ctx ← gp_sys ssl_init_client_ctx;
      match ctx with
      | None => mret (inl 1)
      | Some ctx =>
          let na := {| na_host := host; na_port := port; na_pipe := pfd0; na_ctx := ctx |} in
          _ ← gp_sys (call (spawn na));
          ui ← gp_window open_window;
          match ui with
          | None => _ ← gp_sys (call (eprint ("ERROR: GUI init failed" +:+ nl))); mret (inl 1)
          | Some ui => mret (inr (na, pfd1, ui))
          end
      end
  end.
End Process.

(** ** The two threads *)

(** The pipe, which the kernel keeps in order; a command is written and read as
    a whole. *)
Class PipeOS `{NetOS} := {
  pipe_of : os -> list net_cmd_t;
  pipe_write : net_cmd_t -> os -> os;
  pipe_written : forall c o, pipe_of (pipe_write c o) = pipe_of o ++ [c];
  pipe_read : forall o,
    pipe_of o = match (os_pipe o).1 with Some c => [c] | None => [] end ++ pipe_of (os_pipe o).2;
  pipe_time : forall o, pipe_of (os_time o).2 = pipe_of o;
  pipe_select : forall o, pipe_of (os_select o).2 = pipe_of o;
  pipe_sleep : forall n o, pipe_of (os_sleep n o) = pipe_of o;
}.

(** Where the main thread is: between two frames, in a frame with its copy of
    [g_sh], or past the loop. *)
Inductive main_pc := at_top | in_frame (sh : shared_t) | past_loop.

Section Threads.
Context `{Window} {C : Type} `{ChannelOK C} `{PipeOS}.

(** [gs_up] is [last_ping] while there is a connection.  What the program does
    not keep, but the theorems speak of: [gs_past], the packets sent on earlier
    connections, and [gs_clicks], the commands written to the pipe with the
    copy of [g_sh] that each was decided on. *)
Record gui_sys := {
  gs_pc : main_pc;
  gs_main : main_t;
  gs_net : gui_world (C := C);
  gs_up : option Z;
  gs_past : list (Z * list byte);
  gs_clicks : list (shared_t * net_cmd_t);
}.

Definition on_os (f : os -> os) (w : gui_world (C := C)) : gui_world :=
  {| n_conn := n_conn w; n_os := f (n_os w); n_gui := n_gui w |}.
Definition on_gui (f : gui_t -> gui_t) (w : gui_world (C := C)) : gui_world :=
  {| n_conn := n_conn w; n_os := n_os w; n_gui := f (n_gui w) |}.
Definition dial (c : C) (w : gui_world (C := C)) : gui_world :=
  {| n_conn := c; n_os := n_os w; n_gui := n_gui w |}.

(** The parts of [net_connection]: the request that opens it, and its end. *)
Definition say_hello : St (gui_world (C := C)) Z := fun w =>
  n_chan (ch_send (hello (n_gui w)).1 (hello (n_gui w)).2) w.
Definition hang_up : St (gui_world (C := C)) unit := n_chan (fun c => (tt, ch_close c)).
Definition disconnected (w : gui_world (C := C)) : gui_world :=
  on_os (os_sleep 1) (on_gui (set_connected 0) (hang_up w).2).

Definition write_cmd (cmd : option net_cmd_t) (w : gui_world (C := C)) : gui_world :=
  match cmd with Some c => on_os (pipe_write c) w | None => w end.
Definition clicked_on (sh : shared_t) (cmd : option net_cmd_t) : list (shared_t * net_cmd_t) :=
  match cmd with Some c => [(sh, c)] | None => [] end.

Definition moved (s : gui_sys) (pc : main_pc) (m : main_t) : gui_sys :=
  {| gs_pc := pc; gs_main := m; gs_net := gs_net s; gs_up := gs_up s; gs_past := gs_past s;
     gs_clicks := gs_clicks s |}.
Definition netted (s : gui_sys) (w : gui_world (C := C)) (up : option Z)
    (past : list (Z * list byte)) : gui_sys :=
  {| gs_pc := gs_pc s; gs_main := gs_main s; gs_net := w; gs_up := up; gs_past := past;
     gs_clicks := gs_clicks s |}.
Definition with_win (w : win) (m : main_t) : main_t :=
  {| mt_win := w; mt_anim := mt_anim m; mt_selected := mt_selected m |}.

Inductive gui_step (ui : ui_assets_t) (s : gui_sys) : gui_sys -> Prop :=
  (** the main thread *)
  | gui_copies w :
      gs_pc s = at_top -> WindowShouldClose (mt_win (gs_main s)) = (false, w) ->
      gui_step ui s (moved s (in_frame (g_sh (n_gui (gs_net s)))) (with_win w (gs_main s)))
  | gui_quits w :
      gs_pc s = at_top -> WindowShouldClose (mt_win (gs_main s)) = (true, w) ->
      gui_step ui s (moved s past_loop (with_win w (gs_main s)))
  | gui_draws sh cmd m :
      gs_pc s = in_frame sh -> window_frame ui sh (gs_main s) = Some (cmd, m) ->
      gui_step ui s {| gs_pc := at_top; gs_main := m; gs_net := write_cmd cmd (gs_net s);
                       gs_up := gs_up s; gs_past := gs_past s;
                       gs_clicks := gs_clicks s ++ clicked_on sh cmd |}
  (** the network thread: no address or socket; no TLS; a connection whose
      request is refused; one that is opened; an iteration of the receive loop;
      its end *)
  | net_no_socket :
      gs_up s = None ->
      gui_step ui s (netted s (on_os (os_sleep 2) (on_gui (set_connected 0) (gs_net s))) None (gs_past s))
  | net_no_tls :
      gs_up s = None ->
      gui_step ui s (netted s (on_os (os_sleep 2) (gs_net s)) None (gs_past s))
  | net_refused c r w :
      gs_up s = None -> sent c = [] -> say_hello (dial c (gs_net s)) = (r, w) -> r <> 0 ->
      gui_step ui s (netted s (hang_up w).2 None (gs_past s ++ sent (n_conn w)))
  | net_opens c w now w' :
      gs_up s = None -> sent c = [] -> say_hello (dial c (gs_net s)) = (0, w) ->
      n_sys os_time w = (now, w') ->
      gui_step ui s (netted s w' (Some now) (gs_past s))
  | net_iterates last_ping last_ping' w :
      gs_up s = Some last_ping -> net_step last_ping (gs_net s) = (inl last_ping', w) ->
      gui_step ui s (netted s w (Some last_ping') (gs_past s))
  | net_loses last_ping w :
      gs_up s = Some last_ping -> net_step last_ping (gs_net s) = (inr tt, w) ->
      gui_step ui s (netted s (disconnected w) None (gs_past s ++ sent (n_conn w))).

Definition gui_start (w : win) (c : C) (o : os) : gui_sys := {|
  gs_pc := at_top;
  gs_main := {| mt_win := w; mt_selected := -1;
                mt_anim := {| an_active := 0; an_t := f_zero; an_dur := f_zero;
                              an_from := GuiDraw.vec 0 0; an_to := GuiDraw.vec 0 0; an_text := [] |} |};
  gs_net := {| n_conn := c; n_os := o; n_gui := zero_gui |};
  gs_up := None; gs_past := []; gs_clicks := []
|}.

Definition all_sent (s : gui_sys) : list (Z * list byte) :=
  gs_past s ++ match gs_up s with Some _ => sent (n_conn (gs_net s)) | None => [] end.
End Threads.
Arguments gui_sys {_} _ {_}.

(** ** What goes through the pipe *)

(** The packet that carries a command. *)
Definition is_cmd (p : Z * list byte) : bool := (p.1 =? OP_PLAY_CARD) || (p.1 =? OP_END_TURN).
Definition cmd_packet (c : net_cmd_t) : Z * list byte :=
  if cmd_op c =? OP_PLAY_CARD then (opcode OP_PLAY_CARD, enc play_req_codec (play_payload c))
  else (opcode OP_END_TURN, []).
Definition cmds (l : list (Z * list byte)) : list (Z * list byte) := filter (fun p => is_cmd p = true) l.

Definition cmd_ok (c : net_cmd_t) : Prop :=
  cmd_op c = opcode OP_PLAY_CARD \/ cmd_op c = opcode OP_END_TURN.

(** What a command on the snapshot [sh] may be: an undecided game, connected and
    the player's to move; the end of the turn, or one of the cards shown. *)
Definition legal_click (p : shared_t * net_cmd_t) : Prop :=
  let '(sh, c) := p in
  connected sh <> 0 /\ game_over (sh_st sh) = 0 /\ turn (sh_st sh) = 0 /\
  (cmd_op c = opcode OP_END_TURN \/
   cmd_op c = opcode OP_PLAY_CARD /\ 0 <= hand_idx (play_payload c) < Z.min 3 (hand_n (sh_hand sh))).

Lemma legal_click_ok sh c : legal_click (sh, c) -> cmd_ok c.
Proof. intros (_ & _ & _ & [E|[E _]]); [by right|by left]. Qed.

Lemma on_click_legal hit sh sel c : (on_click hit sh sel).2 = Some c -> legal_click (sh, c).
Proof.
  pose proof (click_plays_confirmed hit sh sel) as Hc. destruct (on_click hit sh sel) as [sel' cmd].
  cbn [snd]. intros ->. destruct Hc as (Ho & Ht & Hcn & _ & Hc). split; [done|]. splits; [done|done|].
  destruct Hc as [[E _]|(E & i & _ & _ & Hi & Hn & H3)]; [by left|right]. split; [done|]. lia.
Qed.

Section Pipe.
Context `{Window} {C : Type} `{ChannelOK C} `{PipeOS}.

(** A frame commands only what [on_click] decides. *)
Lemma gui_frame_cmd `{Raylib} dt mouse pressed sh anim sel l anim' sel' c l' :
  gui_frame dt mouse pressed sh anim sel l = Some ((anim', sel', Some c), l') -> legal_click (sh, c).
Proof.
  unfold gui_frame, mbind, StO_bind, mret, StO_ret.
  destruct (emit _ l) as [[? ?]|]; [|done]. destruct (text _ _ _ _ _ _) as [[? ?]|]; [|done].
  destruct (negb (truthy (connected sh)) && _); cbv beta.
  { destruct (text _ _ _ _ _ _) as [[? ?]|]; discriminate. }
  match goal with |- match ?x with _ => _ end = _ -> _ => destruct x as [[? l2]|]; [|done] end.
  destruct (draw_anim dt anim l2) as [[? ?]|]; [|done].
  destruct pressed; [|discriminate].
  match goal with |- context [on_click ?hit sh sel] => pose proof (on_click_legal hit sh sel) as Hl;
    destruct (on_click hit sh sel) as [s cmd] end.
  intros E. apply Hl. cbn. congruence.
Qed.

Lemma window_frame_cmd ui sh m c m' :
  window_frame ui sh m = Some (Some c, m') -> legal_click (sh, c).
Proof.
  unfold window_frame. destruct (frame_inputs sh _) as [[[dt mouse] pressed] w].
  destruct (gui_frame _ _ _ _ _ _ _) as [[[[anim sel] cmd] calls]|] eqn:E; [|discriminate].
  intros Ec. apply (f_equal (fmap fst)) in Ec. cbn [fmap option_fmap option_map fst] in Ec.
  injection Ec as ->. exact (gui_frame_cmd _ _ _ _ _ _ _ _ _ _ _ E).
Qed.

(** A computation of the network thread takes some commands out of the pipe and
    sends exactly those. *)
Definition forwarded (w w' : gui_world (C := C)) : Prop := exists done,
  pipe_of (n_os w) = done ++ pipe_of (n_os w') /\
  (Forall cmd_ok done -> cmds (sent (n_conn w')) = cmds (sent (n_conn w)) ++ (cmd_packet <$> done)).
Definition forwards {A} (m : St (gui_world (C := C)) A) : Prop := forall w, forwarded w (m w).2.

Lemma forwarded_same w w' :
  pipe_of (n_os w') = pipe_of (n_os w) -> cmds (sent (n_conn w')) = cmds (sent (n_conn w)) ->
  forwarded w w'.
Proof. intros Hp Hs. exists []. rewrite Hp, Hs. cbn. by rewrite app_nil_r. Qed.

Lemma forwards_ret {A} (a : A) : forwards (mret a).
Proof. intros w. by apply forwarded_same. Qed.
Lemma forwarded_trans w1 w2 w3 : forwarded w1 w2 -> forwarded w2 w3 -> forwarded w1 w3.
Proof.
  intros (d1 & Hp1 & Hs1) (d2 & Hp2 & Hs2). exists (d1 ++ d2).
  rewrite Hp1, Hp2, <- (assoc_L (++)). split; [done|]. intros [Hd1 Hd2]%Forall_app.
  by rewrite Hs2, Hs1, fmap_app, (assoc_L (++)) by done.
Qed.
Lemma forwards_bind {A B} (m : St gui_world A) (k : A -> St gui_world B) :
  forwards m -> (forall a, forwards (k a)) -> forwards (m ≫= k).
Proof.
  intros Hm Hk w. specialize (Hm w). unfold mbind, St_bind. destruct (m w) as [a w1].
  cbn [snd] in Hm. eapply forwarded_trans; [exact Hm|apply Hk].
Qed.

Lemma cmds_app l1 l2 : cmds (l1 ++ l2) = cmds l1 ++ cmds l2.
Proof. apply filter_app. Qed.

Lemma n_send op payload w :
  (length payload <= 4088)%nat ->
  n_os (n_chan (C := C) (ch_send op payload) w).2 = n_os w /\
  sent (n_conn (n_chan (ch_send op payload) w).2) = sent (n_conn w) ++ [(op, payload)].
Proof.
  intros Hl. unfold n_chan. pose proof (sent_send op payload (n_conn w) Hl) as Hs.
  by destruct (ch_send op payload (n_conn w)).
Qed.

(** Sending anything but a command. *)
Lemma forwards_send op payload :
  (length payload <= 4088)%nat -> is_cmd (op, payload) = false ->
  forwards (n_chan (ch_send op payload)).
Proof.
  intros Hl Hc w. destruct (n_send op payload w Hl) as [Ho Hs]. apply forwarded_same; [by rewrite Ho|].
  rewrite Hs, cmds_app. unfold cmds at 2. rewrite filter_cons, Hc. cbn. by rewrite app_nil_r.
Qed.

Lemma forwards_recv cap : forwards (n_chan (ch_recv cap)).
Proof.
  intros w. unfold n_chan. pose proof (sent_recv cap (n_conn w)) as Hr.
  destruct (ch_recv cap (n_conn w)) as [p c]. apply forwarded_same; cbn; [done|].
  cbn in Hr. by rewrite Hr.
Qed.
Lemma forwards_close : forwards hang_up.
Proof. intros w. apply forwarded_same; [done|]. cbn. by rewrite sent_close. Qed.
Lemma forwards_get : forwards n_get.
Proof. intros w. by apply forwarded_same. Qed.
Lemma forwards_put g : forwards (n_put g).
Proof. intros w. by apply forwarded_same. Qed.
Lemma forwards_time : forwards (n_sys os_time).
Proof.
  intros w. unfold n_sys. pose proof (pipe_time (n_os w)) as Ht. destruct (os_time (n_os w)).
  by apply forwarded_same.
Qed.
Lemma forwards_select : forwards (n_sys os_select).
Proof.
  intros w. unfold n_sys. pose proof (pipe_select (n_os w)) as Ht. destruct (os_select (n_os w)).
  by apply forwarded_same.
Qed.

(** Reading the pipe and doing what the command says. *)
Lemma forwards_pipe :
  forwards (cmd ← n_sys os_pipe; match cmd with Some cmd => on_cmd cmd | None => mret tt end).
Proof.
  intros w. unfold mbind, St_bind, n_sys. pose proof (pipe_read (n_os w)) as Hp.
  destruct (os_pipe (n_os w)) as [[c|] o]; cbn [fst snd app] in Hp |- *;
    [|by apply forwarded_same].
  set (w1 := {| n_conn := n_conn w; n_os := o; n_gui := n_gui w |}).
  unfold on_cmd, mbind, St_bind, mret, St_ret. exists [c]. cbn [app fmap list_fmap].
  unfold cmd_packet. destruct (cmd_op c =? OP_PLAY_CARD) eqn:Ep.
  - destruct (n_send OP_PLAY_CARD (enc play_req_codec (play_payload c)) w1) as [Ho Hs];
      [by rewrite play_req_length; lia|].
    destruct (n_chan _ w1) as [r w2]. cbn [snd] in *. rewrite Ho, Hp, Hs. split; [done|].
    intros _. by rewrite cmds_app.
  - destruct (cmd_op c =? OP_END_TURN) eqn:Ee.
    + destruct (n_send OP_END_TURN [] w1) as [Ho Hs]; [by cbn; lia|].
      destruct (n_chan _ w1) as [r w2]. cbn [snd] in *. rewrite Ho, Hp, Hs. split; [done|].
      intros _. by rewrite cmds_app.
    + split; [exact Hp|]. intros [[E|E] _]%Forall_cons_1; by rewrite E in Ep, Ee.
Qed.

Lemma forwards_step last_ping : forwards (net_step last_ping).
Proof.
  unfold net_step. apply forwards_bind; [apply forwards_time|intros now]. cbv zeta.
  apply forwards_bind.
  { destruct (2 <=? now - last_ping); [by apply forwards_send; [cbn; lia|]|apply forwards_ret]. }
  intros r. destruct (negb (r =? 0)); [apply forwards_ret|].
  apply forwards_bind; [apply forwards_select|intros [[sret pipe_set] fd_set]].
  destruct (sret <? 0); [apply forwards_ret|]. destruct (sret =? 0); [apply forwards_ret|].
  apply forwards_bind; [destruct pipe_set; [apply forwards_pipe|apply forwards_ret]|intros _].
  destruct fd_set; [|apply forwards_ret]. unfold on_readable.
  apply forwards_bind; [apply forwards_recv|intros [[op payload]|]; [|apply forwards_ret]].
  apply forwards_bind; [apply forwards_get|intros g].
  destruct (on_packet op payload g) as [g'|g'];
    (apply forwards_bind; [apply forwards_put|intros _; apply forwards_ret]).
Qed.

Lemma hello_length g : (length (hello g).2 <= 4088)%nat.
Proof.
  unfold hello. case_match; [|cbn; lia]. transitivity 8%nat; [by apply Nat.eq_le_incl|lia].
Qed.
Lemma hello_no_cmd g : is_cmd (hello g) = false.
Proof. unfold hello. by case_match. Qed.

Lemma forwards_hello : forwards say_hello.
Proof.
  intros w. unfold say_hello. apply forwards_send; [apply hello_length|].
  rewrite <- (hello_no_cmd (n_gui w)). by destruct (hello _).
Qed.

(** *** The invariant of the two threads *)

Definition in_order (l : list (Z * list byte)) (pipe : list net_cmd_t)
    (clicks : list (shared_t * net_cmd_t)) : Prop :=
  exists done, clicks.*2 = done ++ pipe /\ cmds l = cmd_packet <$> done /\ Forall legal_click clicks.

Lemma legal_clicks_ok clicks : Forall legal_click clicks -> Forall cmd_ok clicks.*2.
Proof. intros Hc. apply Forall_fmap. eapply Forall_impl; [exact Hc|]. intros [sh c]. apply legal_click_ok. Qed.

Lemma in_order_forwarded past w w' clicks :
  in_order (past ++ sent (n_conn w)) (pipe_of (n_os w)) clicks -> forwarded w w' ->
  in_order (past ++ sent (n_conn w')) (pipe_of (n_os w')) clicks.
Proof.
  intros (done & Hc & Hs & Hl) (d & Hp & Hd). exists (done ++ d).
  rewrite Hp, (assoc_L (++)) in Hc. split; [done|]. split; [|done].
  pose proof (legal_clicks_ok _ Hl) as Hok. rewrite Hc in Hok.
  apply Forall_app in Hok as [[_ Hok]%Forall_app _].
  rewrite cmds_app in Hs |- *. by rewrite (Hd Hok), (assoc_L (++)), Hs, fmap_app.
Qed.

Lemma in_order_click l o clicks sh cmd :
  in_order l (pipe_of o) clicks -> (forall c, cmd = Some c -> legal_click (sh, c)) ->
  in_order l (pipe_of (match cmd with Some c => pipe_write c o | None => o end))
    (clicks ++ clicked_on sh cmd).
Proof.
  intros (done & Hc & Hs & Hl) Hcmd. destruct cmd as [c|]; cbn [clicked_on]; [|by rewrite app_nil_r; exists done].
  exists done. rewrite pipe_written, fmap_app, Hc, (assoc_L (++)). splits; [done|done|].
  apply Forall_app. split; [done|]. apply Forall_singleton. by apply Hcmd.
Qed.

Definition gui_inv (s : gui_sys C) : Prop :=
  in_order (all_sent s) (pipe_of (n_os (gs_net s))) (gs_clicks s).

Lemma gui_step_inv ui s s' : gui_inv s -> gui_step ui s s' -> gui_inv s'.
Proof.
  unfold gui_inv, all_sent. intros Hi Hs.
  destruct Hs as [w _ _|w _ _|sh cmd m _ Hf|Hu|Hu|c r w Hu Hc Hh _|c w now w' Hu Hc Hh Ht
    |lp lp' w Hu Hn|lp w Hu Hn]; try rewrite Hu in Hi;
    cbn [moved netted gs_pc gs_net gs_up gs_past gs_clicks] in *.
  - exact Hi.
  - exact Hi.
  - assert (n_conn (write_cmd cmd (gs_net s)) = n_conn (gs_net s)) as -> by by destruct cmd.
    replace (n_os (write_cmd cmd (gs_net s))) with
      (match cmd with Some c => pipe_write c (n_os (gs_net s)) | None => n_os (gs_net s) end)
      by by destruct cmd.
    apply in_order_click; [exact Hi|]. intros c ->. by eapply window_frame_cmd.
  - cbn [n_os on_os on_gui]. by rewrite pipe_sleep.
  - cbn [n_os on_os]. by rewrite pipe_sleep.
  - pose proof (forwards_hello (dial c (gs_net s))) as Hw. rewrite Hh in Hw. cbn [snd] in Hw.
    rewrite <- Hc in Hi. rewrite app_nil_r.
    exact (in_order_forwarded _ (dial c (gs_net s)) _ _ Hi Hw).
  - pose proof (forwards_hello (dial c (gs_net s))) as Hw. rewrite Hh in Hw.
    pose proof (forwards_time w) as Hw'. rewrite Ht in Hw'. cbn [snd] in Hw, Hw'.
    rewrite <- Hc in Hi. eapply in_order_forwarded; [|exact Hw'].
    exact (in_order_forwarded _ (dial c (gs_net s)) _ _ Hi Hw).
  - pose proof (forwards_step lp (gs_net s)) as Hw. rewrite Hn in Hw.
    exact (in_order_forwarded _ _ _ _ Hi Hw).
  - pose proof (forwards_step lp (gs_net s)) as Hw. rewrite Hn in Hw. cbn [snd] in Hw.
    rewrite app_nil_r. cbn [disconnected n_os on_os on_gui]. rewrite pipe_sleep.
    exact (in_order_forwarded _ _ _ _ Hi Hw).
Qed.

Lemma gui_reach_inv ui w c o s :
  pipe_of o = [] -> rtc (gui_step ui) (gui_start w c o) s -> gui_inv s.
Proof.
  intros Ho Hs. assert (gui_inv (gui_start w c o)) as Hi.
  { exists []. cbn. rewrite Ho. by splits. }
  induction Hs; eauto using gui_step_inv.
Qed.

(** One connection of [net_thread] is a sequence of its steps. *)
Lemma net_connection_steps ui fuel (s : gui_sys C) c w' :
  gs_up s = None -> sent c = [] -> net_connection fuel (dial c (gs_net s)) = Some (tt, w') ->
  exists past, rtc (gui_step ui) s (netted s w' None past).
Proof.
  intros Hu Hc. unfold net_connection. unfold n_get at 1. cbv beta iota.
  change (n_chan (ch_send (hello (n_gui (dial c (gs_net s)))).1 _) _) with (say_hello (dial c (gs_net s))).
  destruct (say_hello (dial c (gs_net s))) as [r w1] eqn:Eh.
  destruct (Z.eqb_spec r 0) as [->|Hr]; cbn [negb].
  2:{ intros [= <-]. eexists. apply rtc_once. by eapply net_refused. }
  destruct (n_sys os_time w1) as [now w2] eqn:Et.
  destruct (loopM net_step fuel now w2) as [[[] w3]|] eqn:El; [|done].
  intros [= <-]. eexists.
  apply (loopM_triple (fun lp w => rtc (gui_step ui) s (netted s w (Some lp) (gs_past s)))
    (fun _ w => rtc (gui_step ui) s (netted s (disconnected w) None (gs_past s ++ sent (n_conn w)))))
    in El; [exact El| |].
  - intros lp w Hw. destruct (net_step lp w) as [[lp'|[]] w4] eqn:En.
    + eapply rtc_r; [exact Hw|]. by apply (net_iterates ui (netted s w (Some lp) (gs_past s)) lp lp' w4).
    + eapply rtc_r; [exact Hw|]. by apply (net_loses ui (netted s w (Some lp) (gs_past s)) lp w4).
  - apply rtc_once. by eapply net_opens.
Qed.
End Pipe.

(** ** Theorems *)


(** A command of the end of the turn, at the table. *)
Lemma on_cmd_end `{LibcOK} `{NetOS} sid v (w : gui_world (C := table)) :
  seated sid v (n_conn w) ->
  let c := {| cmd_op := opcode OP_END_TURN; play_payload := {| hand_idx := 0 |} |} in
  exists v', seated sid v' (n_conn (on_cmd c w).2) /\ local_move OP_END_TURN [] v v'.
Proof.
  intros Hs c. destruct (react_request sid v _ (opcode OP_END_TURN) [] Hs) as (pre & v' & _ & _ & _ & Hs' & Hm);
    [by left|]. by exists v'.
Qed.

(** C30. The click is decided on the last state received, and nothing marks a
    request as pending: a second click on the button before the answer to the
    first has arrived is accepted too, and the server ends two turns of the
    player, who never gets to see or play the one in between. *)
Theorem double_click_ends_two_turns `{LibcOK} `{NetOS} hit sh sel sid v (w : gui_world (C := table)) :
  hit endBtn = true -> sh_st sh = v.1 -> game_over v.1 = 0 ->
  connected sh = 1 -> has_state sh = 1 -> has_hand sh = 1 -> seated sid v (n_conn w) ->
  let '(sel1, cmd1) := on_click hit sh sel in
  let '(_, cmd2) := on_click hit sh sel1 in
  exists c v1 v2, cmd1 = Some c /\ cmd2 = Some c /\
    local_turn v v1 /\ (if truthy (game_over v1.1) then v2 = v1 else local_turn v1 v2) /\
    seated sid v2 (n_conn ((_ ← on_cmd c; on_cmd c) w).2).
Proof.
  intros Hhit Hst Ho Hc Hs Hh Hw. destruct (waiting_main v (se_waiting _ _ _ Hw) Ho) as [Ht _].
  unfold on_click. rewrite Hc, Hs, Hh, Hst, Ho, Ht, Hhit. cbn [truthy negb Z.eqb andb].
  set (c := {| cmd_op := _; play_payload := _ |}).
  destruct (on_cmd_end sid v w Hw) as (v1 & Hw1 & Hm1). fold c in Hw1.
  destruct (on_cmd_end sid v1 _ Hw1) as (v2 & Hw2 & Hm2). fold c in Hw2.
  exists c, v1, v2. splits; [done|done| | |].
  - unfold local_move in Hm1. by rewrite Ho in Hm1.
  - exact Hm2.
  - unfold mbind, St_bind. by destruct (on_cmd c w) as [[] w1].
Qed.

(** ** Witnesses *)

(** A window in which the player keeps clicking on the button, and a pipe. *)
Module TestGui.
#[global] Instance window : Window := {|
  win := unit; font := unit; font_texture _ := 0;
  InitWindow _ _ _ w := w; IsWindowReady w := (true, w); WindowShouldClose w := (false, w);
  CloseWindow w := w; LoadFontEx _ _ w := (tt, w); GetFontDefault w := (tt, w); UnloadFont _ w := w;
  LoadTexture _ w := (no_texture, w); UnloadTexture _ w := w; SetPointFilter _ w := w;
  BeginDrawing w := w; EndDrawing w := w; perform _ w := w;
  GetFrameTime w := (f_lit 1 60, w); GetMousePosition w := (GuiDraw.vec 820 40, w);
  IsMouseButtonPressed w := (true, w);
  collides := CheckCollisionPointRec (Raylib := TestRaylib.raylib);
  text_width := MeasureText (Raylib := TestRaylib.raylib);
|}.

#[global] Instance net_os : NetOS := {|
  os := list net_cmd_t; os_time o := (0, o);
  os_select o := ((1, match o with [] => false | _ => true end, true), o);
  os_pipe o := (head o, tail o); os_sleep _ o := o;
|}.

#[global] Program Instance pipe_os : PipeOS := {| pipe_of o := o; pipe_write c o := o ++ [c] |}.
Next Obligation. done. Qed.
Next Obligation. by intros [|c o]. Qed.
Next Obligation. done. Qed.
Next Obligation. done. Qed.
Next Obligation. done. Qed.

Definition assets : ui_assets_t := (load_assets tt).1.
End TestGui.

Definition demo_cmd : net_cmd_t := {| cmd_op := opcode OP_END_TURN; play_payload := {| hand_idx := 0 |} |}.

Definition demo_step : @gui_sys TestGui.window Queue.chan TestGui.net_os ->
    @gui_sys TestGui.window Queue.chan TestGui.net_os -> Prop :=
  gui_step (C := Queue.chan) (H := TestGui.window) (H3 := TestGui.pipe_os) TestGui.assets.
Definition demo_start : @gui_sys TestGui.window Queue.chan TestGui.net_os :=
  gui_start (C := Queue.chan) (H := TestGui.window) (H2 := TestGui.net_os)
    tt {| Queue.inbox := []; Queue.outbox := [] |} [].
Definition demo_conn : Queue.chan :=
  {| Queue.inbox := game_packets Demo.state Demo.hand; Queue.outbox := [] |}.

Definition demo_sh : shared_t := {|
  sh_st := Demo.state; sh_hand := Demo.hand; has_state := 1; has_hand := 1; connected := 1;
  sh_game_over := 0 |}.

(** A frame in which the button is clicked. *)
Lemma demo_frame (m : main_t (H := TestGui.window)) :
  mt_anim m = mt_anim (gs_main demo_start) -> mt_selected m = -1 ->
  exists m', window_frame TestGui.assets demo_sh m = Some (Some demo_cmd, m').
Proof.
  intros Ha Hs. unfold window_frame. change (connecting demo_sh) with false.
  cbn [frame_inputs]. destruct m as [w a sel]. cbn [mt_anim mt_selected mt_win] in *. subst a sel.
  pose proof (gui_frame_draws (H := gui_raylib TestGui.assets) (f_lit 1 60) (GuiDraw.vec 820 40) true demo_sh
    (mt_anim (gs_main demo_start)) (-1)) as Hf.
  destruct (Hf ltac:(by_decide) ltac:(by_decide) ltac:(done) ltac:(by left)
    ltac:(vm_compute; by repeat split) []) as ([[a s] c] & cs & E & Hk & _).
  assert (clicked (H := gui_raylib TestGui.assets) (GuiDraw.vec 820 40) true demo_sh (-1) =
    (-1, Some demo_cmd)) as Hc by (vm_compute; reflexivity).
  rewrite Hc in Hk. injection Hk as -> ->.
  unfold frame_inputs, mbind, St_bind, mret, St_ret. cbn [GetFrameTime GetMousePosition IsMouseButtonPressed TestGui.window].
  change (connecting demo_sh) with false. cbv beta iota. rewrite E. by eexists.
Qed.

Lemma demo_run : exists s sh, rtc demo_step demo_start s /\ gs_clicks s = [(sh, demo_cmd)].
Proof.
  pose (w1 := (say_hello (H0 := Queue.channel) (H2 := TestGui.net_os) (dial demo_conn (gs_net demo_start))).2).
  pose (w2 := (net_step (H := Queue.channel) (H0 := TestGui.net_os) 0 w1).2).
  pose (w3 := (net_step (H := Queue.channel) (H0 := TestGui.net_os) 0 w2).2).
  pose (s1 := netted demo_start w1 (Some 0) []). pose (s2 := netted s1 w2 (Some 0) []).
  pose (s3 := netted s2 w3 (Some 0) []).
  assert (demo_step demo_start s1) as H1.
  { eapply (net_opens _ demo_start demo_conn w1 0 w1); [done|done|reflexivity|reflexivity]. }
  assert (demo_step s1 s2) as H2 by (eapply (net_iterates _ s1 0 0); reflexivity).
  assert (demo_step s2 s3) as H3 by (eapply (net_iterates _ s2 0 0); reflexivity).
  assert (g_sh (n_gui w3) = demo_sh) as Hsh by (vm_compute; reflexivity).
  pose (s4 := moved s3 (in_frame (g_sh (n_gui w3))) (with_win (H := TestGui.window) tt (gs_main s3))).
  assert (demo_step s3 s4) as H4 by (eapply (gui_copies _ s3); reflexivity).
  destruct (demo_frame (gs_main s4) eq_refl eq_refl) as [m' Hm].
  eexists _, demo_sh. split.
  - do 4 (eapply rtc_l; [eassumption|]). apply rtc_once.
    eapply (gui_draws _ s4 demo_sh (Some demo_cmd) m'); [|exact Hm]. cbn. by rewrite Hsh.
  - reflexivity.
Qed.


Definition seated_gui : gui_world (C := table) (H0 := TestGui.net_os) :=
  {| n_conn := demo_table; n_os := []; n_gui := zero_gui |}.
Definition game0_sh : shared_t := {|
  sh_st := SessionDemo.game0.1; sh_hand := SessionDemo.game0.2; has_state := 1; has_hand := 1;
  connected := 1; sh_game_over := 0 |}.

Lemma double_click_ends_two_turns_witness : exists c v1 v2,
  (on_click (fun _ => true) game0_sh 0).2 = Some c /\ local_turn SessionDemo.game0 v1 /\
  seated 42 v2 (n_conn ((_ ← on_cmd c; on_cmd c) seated_gui).2).
Proof.
  pose proof (double_click_ends_two_turns (fun _ => true) game0_sh 0 42 SessionDemo.game0 seated_gui
    eq_refl eq_refl (proj2 SessionDemo.game0_waiting) eq_refl eq_refl eq_refl demo_seated) as Hd.
  destruct (on_click (fun _ => true) game0_sh 0) as [sel1 cmd1].
  destruct (on_click (fun _ => true) game0_sh sel1) as [sel2 cmd2].
  destruct Hd as (c & v1 & v2 & -> & _ & Hm & _ & Hs). exists c, v1, v2. split; [reflexivity|].
  split; [exact Hm|exact Hs].
Defined.
