(* ===== verification/GuiPlay.v ===== *)
(** * The graphical client and the server, composed

    The network thread of src/client_gui.c at the [table] of Play.v: it logs in,
    plays what the main thread writes to the pipe, loses its connections and
    resumes its session with a new worker, while other clients come and go.  A
    step is a step of the thread, as in GuiMain.v, with the reaction of the
    worker. *)

From stdpp Require Import relations.
From S2P Require Export Hall GuiMain.
From S2P Require Import System.

(** ** The closed system *)

Section Visit.
Context `{Libc} `{NetOS}.

(** [vs_up] is [last_ping] while there is a connection. *)
Record visit := { vs_net : gui_world (C := table); vs_up : option Z }.

Definition visit_store (s : visit) : gmap Z game := store_map (tb_shm (n_conn (vs_net s))).2.
Definition remembered (s : visit) : Z := g_session_id (n_gui (vs_net s)).

(** The session of this client. *)
Definition mine (s : visit) (sid : Z) : Prop :=
  remembered s = sid \/ plays (tb_worker (n_conn (vs_net s))) = Some sid.

Definition on_table (f : table -> table) (w : gui_world (C := table)) : gui_world :=
  {| n_conn := f (n_conn w); n_os := n_os w; n_gui := n_gui w |}.

Inductive visit_step (s : visit) : visit -> Prop :=
  (** what other processes do: the main thread and the pipe, the other workers *)
  | vs_pipe f : visit_step s {| vs_net := on_os f (vs_net s); vs_up := vs_up s |}
  | vs_others shm :
      ok_map (store_map shm.2) ->
      (forall sid, mine s sid -> store_map shm.2 !! sid = visit_store s !! sid) ->
      visit_step s {| vs_net := on_table (at_shm shm) (vs_net s); vs_up := vs_up s |}
  (** the network thread; [select] does not let it read from a connection on
      which nothing has arrived, so that reading does not block *)
  | vs_no_socket :
      vs_up s = None ->
      visit_step s {| vs_net := on_os (os_sleep 2) (on_gui (set_connected 0) (vs_net s)); vs_up := None |}
  | vs_no_tls :
      vs_up s = None ->
      visit_step s {| vs_net := on_os (os_sleep 2) (vs_net s); vs_up := None |}
  | vs_opens e now w w' :
      vs_up s = None ->
      say_hello (dial (new_table e (tb_shm (n_conn (vs_net s)))) (vs_net s)) = (0, w) ->
      n_sys os_time w = (now, w') ->
      visit_step s {| vs_net := w'; vs_up := Some now |}
  | vs_iterates last_ping last_ping' w :
      vs_up s = Some last_ping -> net_step last_ping (vs_net s) = (inl last_ping', w) ->
      tb_waits (n_conn w) = false ->
      visit_step s {| vs_net := w; vs_up := Some last_ping' |}
  | vs_loses last_ping w :
      vs_up s = Some last_ping -> net_step last_ping (vs_net s) = (inr tt, w) ->
      tb_waits (n_conn w) = false ->
      visit_step s {| vs_net := disconnected w; vs_up := None |}.

(** The thread starts without a session, at a server with any games. *)
Definition visit_start (s : visit) : Prop :=
  vs_up s = None /\ n_gui (vs_net s) = zero_gui /\ ok_map (visit_store s).

(** ** What is promised *)

(** The same game, up to the line that a resumed worker logs. *)
Definition near (a b : game) : Prop :=
  a.2 = b.2 /\ (a.1 = b.1 \/ a.1 = push_log b.1 resumed_msg).

(** The stored game moves by requests, as the rules say. *)
Definition gui_move (s s' : game) : Prop :=
  exists v op payload, near v s /\ asks op payload /\ local_move op payload v s'.
Definition played (s : game) : Prop := exists v0, dealt v0 /\ rtc gui_move v0 s.

(** The client shows [x] and remembers session [sid]. *)
Definition shows (sid : Z) (x : game) (g : gui_t) : Prop :=
  g_session_id g = sid /\ sh_st (g_sh g) = x.1 /\ sh_hand (g_sh g) = x.2 /\
  connected (g_sh g) = 1 /\ has_state (g_sh g) = 1 /\ has_hand (g_sh g) = 1.

(** A packet that the thread goes on after, and that names no other session. *)
Definition tame (sid : Z) (p : Z * list byte) : Prop :=
  (length p.2 <= 4096)%nat /\ forall g, exists g', on_packet p.1 p.2 g = inl g' /\
    (g_session_id g' = g_session_id g \/ g_session_id g' = sid).

(** What has not been read leads to [x]. *)
Definition coming (sid : Z) (x : game) (ps : list (Z * list byte)) (g : gui_t) : Prop :=
  Forall (tame sid) ps /\ exists g', feed ps g = inl g' /\ shows sid x g'.

(** The worker plays the stored game [s], and the client is on its way to it. *)
Definition view_ok (sid : Z) (s : game) (w : gui_world (C := table)) : Prop :=
  ok_map (store_map (tb_shm (n_conn w)).2) /\
  (g_session_id (n_gui w) = 0 \/ g_session_id (n_gui w) = sid) /\
  exists v x, engaged sid v s (n_conn w) /\ near v s /\ near x s /\
    coming sid x (tb_reply (n_conn w)) (n_gui w).

(** The server was full. *)
Definition turned_away (w : gui_world (C := table)) : Prop :=
  ok_map (store_map (tb_shm (n_conn w)).2) /\ g_session_id (n_gui w) = 0 /\
  ended (n_conn w) /\ Forall (tame 0) (tb_reply (n_conn w)).

(** Without a connection: the store has the session that the client remembers. *)
Definition away_ok (sid : Z) (s : game) (w : gui_world (C := table)) : Prop :=
  ok_map (store_map (tb_shm (n_conn w)).2) /\ g_session_id (n_gui w) = sid /\
  store_map (tb_shm (n_conn w)).2 !! sid = Some s /\ waiting s.
End Visit.

(** ** Packets *)

Section Packets.
Context `{LibcOK}.

Lemma feed_app ps qs g g' : feed ps g = inl g' -> feed (ps ++ qs) g = feed qs g'.
Proof.
  revert g. induction ps as [|[op p] ps IH]; intros g; cbn [feed app]; [congruence|].
  destruct (on_packet op p g) as [g1|g1]; [apply IH|done].
Qed.

Lemma tame_ignored sid op p :
  (length p <= 4096)%nat -> (forall g, on_packet op p g = inl g) -> tame sid (op, p).
Proof. intros Hl Hg. split; [exact Hl|]. intros g. exists g. split; [apply Hg|by left]. Qed.

Lemma tame_pong sid : tame sid (opcode OP_PONG, []).
Proof. apply tame_ignored; [cbn; lia|done]. Qed.

Lemma tame_error sid p : error_reply p -> tame sid p.
Proof. destruct p as [op p]. intros [Ho Hl]. cbn in Ho, Hl. subst op. apply tame_ignored; [lia|done]. Qed.

Lemma tame_login sid : tame sid login_packet.
Proof. apply tame_ignored; [vm_compute; lia|done]. Qed.

Lemma tame_resume sid : is_u64 sid -> tame sid (resume_packet 1 sid).
Proof.
  intros Hs. split; [rewrite resume_packet_length; lia|]. intros g. exists (set_session sid g).
  split; [|by right]. change (resume_packet 1 sid).1 with (opcode OP_RESUME_RESP).
  rewrite on_resume_resp by auto. done.
Qed.

Lemma on_state_session st g : g_session_id (on_state st g) = g_session_id g.
Proof. unfold on_state, set_float, set_shared. by repeat case_match. Qed.

Lemma tame_game sid (v : game) : state_wf v.1 -> hand_wf v.2 -> Forall (tame sid) (game_packets v.1 v.2).
Proof.
  intros Hs Hh. apply state_codec_wf in Hs. apply hand_codec_wf in Hh.
  pose proof (enc_length _ _ Hs) as Hsl. pose proof (enc_length _ _ Hh) as Hhl.
  repeat apply Forall_cons_2; [..|by apply Forall_nil].
  - split; cbn [fst snd]; [rewrite Hsl; cbn; lia|]. intros g. unfold on_packet.
    cbn [Z.eqb opcode Pos.eqb andb]. rewrite Hsl, Z.eqb_refl.
    eexists. split; [reflexivity|]. left. apply on_state_session.
  - split; cbn [fst snd]; [rewrite Hhl; cbn; lia|]. intros g. unfold on_packet.
    cbn [Z.eqb opcode Pos.eqb andb]. rewrite Hhl, Z.eqb_refl.
    eexists. split; [reflexivity|]. by left.
Qed.

Lemma feed_errors pre g : Forall error_reply pre -> feed pre g = inl g.
Proof.
  induction 1 as [|[op p] pre [Ho _] _ IH]; [done|]. cbn in Ho. subst op. exact IH.
Qed.

(** More packets arrive behind those that have not been read. *)
Lemma coming_pong sid x ps g :
  coming sid x ps g -> coming sid x (ps ++ [(opcode OP_PONG, [])]) g.
Proof.
  intros [Ht (g' & E & Hg)]. split; [by apply Forall_app_2; [|apply Forall_singleton, tame_pong]|].
  exists g'. by rewrite (feed_app _ _ _ _ E).
Qed.

Lemma coming_game sid x ps g pre v :
  coming sid x ps g -> Forall error_reply pre -> waiting v ->
  coming sid v (ps ++ pre ++ game_packets v.1 v.2) g.
Proof.
  intros [Ht (g' & E & Hg)] Hpre [[Hi Hh _] _]. split.
  - repeat apply Forall_app_2; [done|by eapply Forall_impl, tame_error|].
    by apply tame_game; [apply gi_wf|apply hi_wf].
  - rewrite (feed_app _ _ _ _ E), (feed_app _ _ _ _ (feed_errors pre g' Hpre)).
    destruct (feed_game v.1 v.2 g') as (g2 & E2 & H1 & H2 & H3 & H4 & H5 & H6);
      [apply (gi_wf _ Hi)|apply Hh|]. exists g2. split; [exact E2|].
    destruct Hg as [Hg _]. unfold shows. splits; congruence.
Qed.

(** The first of them is read. *)
Lemma coming_read sid x op p ps g :
  coming sid x ((op, p) :: ps) g -> exists g', on_packet op p g = inl g' /\ coming sid x ps g' /\
    (g_session_id g' = g_session_id g \/ g_session_id g' = sid).
Proof.
  intros [[[_ Ht] Hts]%Forall_cons (g' & E & Hg)]. destruct (Ht g) as (g1 & E1 & Hs).
  exists g1. cbn [fst snd] in E1. cbn [feed] in E. rewrite E1 in E. by splits; [|split; [|exists g']|].
Qed.

(** What a new worker sends. *)
Lemma coming_hello sid v (ps : list (Z * list byte)) g :
  is_u64 sid -> ready v.1 v.2 -> ps = [login_packet; resume_packet 1 sid] \/ ps = [resume_packet 1 sid] ->
  coming sid v (ps ++ game_packets v.1 v.2) g.
Proof.
  intros Hu [Hi Hh _] Hps.
  assert (Forall (tame sid) ps /\ feed ps g = inl (set_session sid g)) as [Ht E].
  { pose proof (on_resume_resp 1 sid g Hu (or_intror eq_refl)) as Hr. cbn [Z.eqb] in Hr.
    destruct Hps as [-> | ->]; (split; [repeat apply Forall_cons_2|]);
      [apply tame_login|by apply tame_resume|by apply Forall_nil| |by apply tame_resume|by apply Forall_nil|].
    - unfold login_packet. cbn [feed].
      change (on_packet (opcode OP_LOGIN_RESP) _ g) with (@inl gui_t gui_t g). cbn iota.
      unfold resume_packet in *. cbn [snd] in Hr. by rewrite Hr.
    - unfold resume_packet in *. cbn [snd feed] in Hr |- *. by rewrite Hr. }
  split; [apply Forall_app_2; [done|by apply tame_game; [apply gi_wf|apply hi_wf]]|].
  rewrite (feed_app _ _ _ _ E).
  destruct (feed_game v.1 v.2 (set_session sid g)) as (g2 & E2 & H1 & H2 & H3 & H4 & H5 & H6);
    [apply (gi_wf _ Hi)|apply Hh|]. exists g2. split; [exact E2|]. unfold shows. by splits.
Qed.

Lemma near_refl v : near v v.
Proof. split; [done|by left]. Qed.

(** A resumed game waits for the player as the stored one does. *)
Lemma near_waiting v s : near v s -> waiting v -> ready s.1 s.2 -> waiting s.
Proof. intros [_ [E|E]] [_ Ht] Hr; (split; [done|]); by rewrite E in Ht. Qed.

Definition resumed_game (s : game) : game := (push_log s.1 resumed_msg, s.2).

Lemma resumed_waiting s : waiting s -> waiting (resumed_game s).
Proof. intros [Hr Ht]. split; [by apply resumed_ready|done]. Qed.
End Packets.

(** ** The worker's reactions *)

Section Reactions.
Context `{LibcOK}.
#[local] Existing Instance Queue.channel.

Lemma react_ping sid v s (t : table) :
  engaged sid v s t ->
  engaged sid v s (react [(opcode OP_PING, [])] t) /\
  tb_reply (react [(opcode OP_PING, [])] t) = tb_reply t ++ [(opcode OP_PONG, [])].
Proof.
  intros Hen. destruct (react_packet sid v s t (opcode OP_PING) [] Hen) as (w & Hat & Hd);
    [cbn; lia|].
  pose proof (send_at (C := Queue.chan) [] (store_map (tb_shm t).2) (opcode OP_PONG) [] ltac:(cbn; lia) w Hat) as Hs.
  assert (dispatch sid (opcode OP_PING) [] v.1 v.2 w =
    ((v.1, v.2), (send (opcode OP_PONG) [] w).2)) as E.
  { by destruct v. }
  rewrite E in Hd. cbv zeta in Hd. destruct Hd as (Hq & Hc & Hp & Hi & Hst).
  assert (at_ [(opcode OP_PONG, [])] (store_map (tb_shm t).2) (send (opcode OP_PONG) [] w).2)
    as [Hs' Hm] by exact Hs. clear Hs.
  split; [|by rewrite Hq, Hs']. destruct v.
  split; [exact Hp|exact Hi|apply Hen| |exact Hc]. rewrite Hst, Hm. apply Hen.
Qed.

Lemma react_ended ps (t : table) :
  ended t -> ended (react ps t) /\ tb_reply (react ps t) = tb_reply t /\
    tb_shm (react ps t) = tb_shm t.
Proof.
  intros [Hp Hw]. unfold ended, react, worker_step. cbn [wk_phase]. rewrite Hp.
  by rewrite app_nil_r.
Qed.

(** A resume at a new worker. *)
Lemma resume_reads_nothing payload st hand : frames same_inbox (handshake_resume payload st hand).
Proof.
  apply frames_resume; try apply _; unfold same_inbox.
  - split; [done|]. intros w1 w2 w3. congruence.
  - intros op payload' w. unfold send, on_conn, ch_send, Queue.channel.
    by destruct (4088 <? length payload')%nat.
  - done.
  - intros A m w. unfold on_store. by destruct (m (w_store w) (w_env w)) as [[? ?] ?].
Qed.

Lemma react_resume (t : table) sid s :
  fresh_seat t -> ok_map (store_map (tb_shm t).2) -> is_u64 sid ->
  store_map (tb_shm t).2 !! sid = Some s -> waiting s ->
  let t' := react [(opcode OP_RESUME_REQ, enc resume_req_codec {| req_session_id := sid |})] t in
  engaged sid (resumed_game s) s t' /\ tb_reply t' = [resume_packet 1 sid] ++ game_packets s.1 s.2.
Proof.
  intros (Hp & Hi & Hc & Hr) Hok Hu Hst Hw t'. subst t'. unfold react. rewrite Hp, Hi, Hr. cbn [app].
  unfold worker_step. cbn [wk_phase]. set (w := wk_world _ _).
  set (w1 := World {| Queue.inbox := []; Queue.outbox := [] |} (w_env w) (w_stats w) (w_store w)).
  set (payload := enc resume_req_codec {| req_session_id := sid |}).
  assert (cwf resume_req_codec {| req_session_id := sid |}) as Hwf by (cbn; mach_lia).
  pose proof (enc_length _ _ Hwf) as Hlen. fold payload in Hlen.
  assert (handshake_step (zero_state, zero_hand) w = handshake_resume payload zero_state zero_hand w1)
    as -> by reflexivity.
  assert (requested payload = sid) as Hreq.
  { unfold requested. rewrite take_ge by (by rewrite Hlen). subst payload. by rewrite dec_enc. }
  pose proof (resume_at (C := Queue.chan) [] _ payload (zero_state, zero_hand) Hok w1 (proj1 (here_now w1))) as Hl.
  pose proof (resume_reads_nothing payload zero_state zero_hand w1) as Hin.
  change (store_map (w_store w1)) with (store_map (tb_shm t).2) in Hl.
  rewrite Hlen, Hreq in Hl. unfold game in *. rewrite Hst in Hl. destruct s as [st hand].
  change (Z.of_nat (csize resume_req_codec) <? 8) with false in Hl. cbn match in Hl. cbn [fst snd] in Hl.
  destruct (handshake_resume payload zero_state zero_hand w1) as [r w2]. unfold same_inbox in Hin.
  cbn [fst snd] in Hl, Hin. destruct Hl as (-> & Hs & Hm).
  split; [|exact Hs]. split; cbn [tb_worker tb_shm tb_waits wk_phase wk_conn Queue.inbox snd wk_after];
    try done; [by apply resumed_waiting|by rewrite Hm].
Qed.

(** Every reaction keeps the store well-formed. *)
Lemma react_ok_map ps (t : table) :
  worker_ok (tb_worker t) -> ok_map (store_map (tb_shm t).2) ->
  ok_map (store_map (tb_shm (react ps t)).2).
Proof. intros Hw Hok. pose proof (react_store (tb_shm t) t ps Hw Hok) as [Hs _]. by rewrite at_shm_id in Hs. Qed.

Lemma engaged_worker_ok sid v s t : engaged sid v s t -> worker_ok (tb_worker t).
Proof. intros Hen. unfold worker_ok. rewrite (en_phase _ _ _ _ Hen). apply (en_waiting _ _ _ _ Hen). Qed.

Lemma fresh_worker_ok t : fresh_seat t -> worker_ok (tb_worker t).
Proof. intros [Hp _]. unfold worker_ok. by rewrite Hp. Qed.
End Reactions.

(** ** The network thread at the table *)

Section Thread.
Context `{LibcOK} `{NetOS}.

Lemma n_send_table op payload (w : gui_world (C := table)) :
  (length payload <= 4088)%nat ->
  n_chan (ch_send op payload) w = (0, on_table (react [(op, payload)]) w).
Proof.
  intros Hl. unfold n_chan, on_table, ch_send, table_channel.
  by destruct (Nat.ltb_spec 4088 (length payload)); [lia|].
Qed.

(** What the thread keeps in an iteration: it may send pings and requests, and
    read. *)
Section Keeps.
Context (I : gui_world (C := table) -> Prop).
Hypothesis I_os : forall o w, I w -> I (on_os (fun _ => o) w).
Hypothesis I_ping : forall w, I w -> I (on_table (react [(opcode OP_PING, [])]) w).
Hypothesis I_asks : forall w op payload, I w -> asks op payload -> I (on_table (react [(op, payload)]) w).
Hypothesis I_reads : forall w last_ping, I w ->
  let '(_, w') := on_readable last_ping w in tb_waits (n_conn w') = false -> I w'.

Lemma on_cmd_keeps cmd w : I w -> I (on_cmd cmd w).2.
Proof.
  intros Hw. unfold on_cmd, mbind, St_bind, mret, St_ret.
  destruct (cmd_op cmd =? OP_PLAY_CARD).
  - pose proof (play_req_length (play_payload cmd)) as Hl.
    rewrite n_send_table by (rewrite Hl; lia). apply I_asks; [done|right]. split; [done|].
    destruct (enc play_req_codec (play_payload cmd)) as [|b [|? ?]]; [done|by exists b|done].
  - destruct (cmd_op cmd =? OP_END_TURN); [|done].
    rewrite n_send_table by (cbn; lia). apply I_asks; [done|by left].
Qed.

Lemma net_step_keeps last_ping w :
  I w -> let '(_, w') := net_step last_ping w in tb_waits (n_conn w') = false -> I w'.
Proof.
  intros Hw. unfold net_step. unfold mbind at 1, St_bind at 1, n_sys at 1.
  destruct (os_time (n_os w)) as [now o]. cbv zeta. apply (I_os o) in Hw.
  change {| n_conn := n_conn w; n_os := o; n_gui := n_gui w |} with (on_os (fun _ => o) w).
  set (w1 := on_os (fun _ => o) w) in *. clearbody w1.
  unfold mbind at 1, St_bind at 1.
  assert (exists w2, (if 2 <=? now - last_ping then n_chan (ch_send OP_PING []) else mret 0) w1 = (0, w2)
    /\ I w2) as (w2 & -> & Hw2).
  { destruct (2 <=? now - last_ping); [|by exists w1]. rewrite n_send_table by (cbn; lia).
    eexists. split; [reflexivity|]. by apply I_ping. }
  cbn [Z.eqb negb]. clear w w1 Hw. generalize (if 2 <=? now - last_ping then now else last_ping).
  intros lp. unfold mbind at 1, St_bind at 1, n_sys at 1.
  destruct (os_select (n_os w2)) as [[[sret pipe_set] fd_set] o2]. apply (I_os o2) in Hw2.
  change {| n_conn := n_conn w2; n_os := o2; n_gui := n_gui w2 |} with (on_os (fun _ => o2) w2).
  set (w3 := on_os (fun _ => o2) w2) in *. clearbody w3.
  destruct (sret <? 0); [by intros _|]. destruct (sret =? 0); [by intros _|].
  unfold mbind at 1, St_bind at 1.
  assert (I ((if pipe_set then cmd ← n_sys os_pipe;
      match cmd with Some cmd => on_cmd cmd | None => mret tt end else mret tt) w3).2) as Hw4.
  { destruct pipe_set; [|done]. unfold mbind, St_bind, n_sys.
    destruct (os_pipe (n_os w3)) as [[cmd|] o3]; apply (I_os o3) in Hw2; [by apply on_cmd_keeps|done]. }
  match type of Hw4 with I (?m w3).2 => destruct (m w3) as [[] w4] end. cbn [snd] in Hw4.
  destruct fd_set; [by apply I_reads|by intros _].
Qed.
End Keeps.

(** *** Reading *)

Lemma reads_next last_ping op payload q (w : gui_world (C := table)) g :
  tb_reply (n_conn w) = (op, payload) :: q -> (length payload <= 4096)%nat ->
  on_packet op payload (n_gui w) = inl g ->
  on_readable last_ping w = (inl last_ping,
    {| n_conn := with_reply q (n_conn w); n_os := n_os w; n_gui := g |}).
Proof.
  intros E Hl Eg. unfold on_readable, mbind, St_bind, n_chan, n_get, n_put, mret, St_ret.
  cbn. rewrite E. destruct (Z.ltb_spec 4096 (Z.of_nat (length payload))); [lia|].
  cbn. by rewrite Eg.
Qed.

Lemma reads_nothing last_ping (w : gui_world (C := table)) :
  tb_reply (n_conn w) = [] -> on_readable last_ping w =
    (inr tt, {| n_conn := read_end (n_conn w); n_os := n_os w; n_gui := n_gui w |}).
Proof.
  intros E. unfold on_readable, mbind, St_bind, n_chan, mret, St_ret. cbn. by rewrite E.
Qed.

(** *** Both cases of a connection *)

Lemma engaged_reply sid v s t q : engaged sid v s t -> engaged sid v s (with_reply q t).
Proof. by intros []. Qed.

(** The store's game goes on from [s]; a client that knew its session still
    does. *)
Definition follows (known : Prop) (sid : Z) (s : game) (w : gui_world (C := table)) : Prop :=
  (known -> g_session_id (n_gui w) = sid) /\ exists s', rtc gui_move s s' /\ view_ok sid s' w.

Lemma follows_reads k sid s w last_ping :
  follows k sid s w ->
  let '(_, w') := on_readable last_ping w in tb_waits (n_conn w') = false -> follows k sid s w'.
Proof.
  intros (Hk & s' & Hs & Hok & Hid & v & x & Hen & Hv & Hx & Hc).
  destruct (tb_reply (n_conn w)) as [|[op payload] q] eqn:E.
  - rewrite (reads_nothing _ _ E). cbn [n_conn read_end tb_waits]. unfold worker_ended.
    rewrite (en_phase _ _ _ _ Hen). by rewrite orb_true_r.
  - destruct (coming_read _ _ _ _ _ _ Hc) as (g & Eg & Hc' & Hg).
    pose proof (proj1 (Forall_inv (proj1 Hc))) as Hl.
    rewrite (reads_next _ _ _ _ _ _ E Hl Eg). intros _. split; [cbn; intros Hkn; destruct Hg as [-> | ->]; auto|]. exists s'. split; [done|].
    split; [exact Hok|]. split; [cbn; destruct Hg as [-> | ->]; auto|].
    exists v, x. cbn [n_conn n_gui]. split; [by apply engaged_reply|by splits].
Qed.

Lemma follows_ping k sid s w : follows k sid s w -> follows k sid s (on_table (react [(opcode OP_PING, [])]) w).
Proof.
  intros (Hk & s' & Hs & Hok & Hid & v & x & Hen & Hv & Hx & Hc). split; [done|]. exists s'. split; [done|].
  destruct (react_ping _ _ _ _ Hen) as [Hen' Hq].
  split; [by apply react_ok_map; [eapply engaged_worker_ok|]|]. split; [done|].
  exists v, x. splits; [done..|]. cbn [n_conn n_gui on_table]. rewrite Hq. by apply coming_pong.
Qed.

Lemma follows_asks k sid s w op payload :
  follows k sid s w -> asks op payload -> follows k sid s (on_table (react [(op, payload)]) w).
Proof.
  intros (Hk & s' & Hs & Hok & Hid & v & x & Hen & Hv & Hx & Hc) Hop.
  destruct (react_asks _ _ _ _ _ _ Hen Hop) as (pre & v' & s2 & Hpre & _ & Hq & Hen' & Hm & Hs2).
  split; [done|]. exists s2. split.
  - destruct Hs2 as [-> |[_ ->]]; [|done]. eapply rtc_r; [exact Hs|]. by exists v, op, payload.
  - split; [by apply react_ok_map; [eapply engaged_worker_ok|]|]. split; [done|]. exists v', v'.
    assert (near v' s2) as Hn by (destruct Hs2 as [-> |[-> ->]]; [apply near_refl|done]).
    splits; [done..|]. cbn [n_conn n_gui on_table]. rewrite Hq.
    by eapply coming_game, Hen'.
Qed.

Lemma follows_step k sid s w last_ping :
  follows k sid s w ->
  let '(_, w') := net_step last_ping w in tb_waits (n_conn w') = false -> follows k sid s w'.
Proof.
  apply (net_step_keeps (follows k sid s)).
  - by intros o w' Hw.
  - apply follows_ping.
  - apply follows_asks.
  - apply follows_reads.
Qed.

Lemma turned_away_step w last_ping :
  turned_away w ->
  let '(_, w') := net_step last_ping w in tb_waits (n_conn w') = false -> turned_away w'.
Proof.
  assert (forall w p, turned_away w -> turned_away (on_table (react [p]) w)) as Hr.
  { intros w' p (Hok & Hid & He & Ht). destruct (react_ended [p] _ He) as (He' & Hq & Hm).
    unfold turned_away. cbn [n_conn n_gui on_table]. rewrite Hm, Hq. by splits. }
  apply (net_step_keeps turned_away).
  - by intros o w' Hw.
  - intros w'. apply Hr.
  - intros w' op payload Hw _. by apply Hr.
  - intros w' lp (Hok & Hid & He & Ht). destruct (tb_reply (n_conn w')) as [|[op payload] q] eqn:E.
    + rewrite (reads_nothing _ _ E). intros Hw. split; [exact Hok|]. split; [exact Hid|].
      split; [split; [apply He|exact Hw]|by apply Forall_nil].
    + apply Forall_cons in Ht as [[Hl Ht] Hts]. destruct (Ht (n_gui w')) as (g & Eg & Hg).
      cbn [fst snd] in Hl, Eg. rewrite (reads_next _ _ _ _ _ _ E Hl Eg). intros _.
      split; [exact Hok|]. split; [cbn; destruct Hg; congruence|]. by split.
Qed.
End Thread.

(** ** The invariant *)

Section Invariant.
Context `{LibcOK} `{NetOS}.

Definition named (sid : Z) : Prop := sid <> 0 /\ is_u64 sid.

(** The session [sid] of the client, with the stored game [s]. *)
Definition has_session (sid : Z) (s : game) (t : visit) : Prop :=
  named sid /\ played s /\
  match vs_up t with
  | Some _ => view_ok sid s (vs_net t)
  | None => away_ok sid s (vs_net t)
  end.

(** The client remembers no session, and has none on its way. *)
Definition no_session (t : visit) : Prop :=
  match vs_up t with
  | Some _ => turned_away (vs_net t)
  | None => g_session_id (n_gui (vs_net t)) = 0 /\ ok_map (visit_store t)
  end.

Definition visit_ok (t : visit) : Prop := no_session t \/ exists sid s, has_session sid s t.

(** A new worker. *)
Lemma hello_fresh e w :
  let t := new_table e (tb_shm (n_conn w)) in
  fresh_seat t /\ (ok_map (store_map (tb_shm (n_conn w)).2) -> ok_map (store_map (tb_shm t).2)) /\
  (tb_shm t).2 = (tb_shm (n_conn w)).2 /\
  say_hello (dial t w) = (0, on_table (react [hello (n_gui w)]) (dial t w)).
Proof.
  cbv zeta. destruct (new_table_fresh e (tb_shm (n_conn w))) as [Hf Hs].
  splits; [exact Hf|by rewrite Hs|exact Hs|]. unfold say_hello. rewrite n_send_table by apply hello_length.
  change (n_gui (dial _ w)) with (n_gui w). by destruct (hello (n_gui w)).
Qed.

Lemma opens_new e w now w1 w2 :
  g_session_id (n_gui w) = 0 -> ok_map (store_map (tb_shm (n_conn w)).2) ->
  say_hello (dial (new_table e (tb_shm (n_conn w))) w) = (0, w1) -> n_sys os_time w1 = (now, w2) ->
  visit_ok {| vs_net := w2; vs_up := Some now |}.
Proof.
  intros Hz Hok. destruct (hello_fresh e w) as (Hf & Hok' & _ & ->). specialize (Hok' Hok).
  set (t := new_table e _) in *. assert (hello (n_gui w) = (opcode OP_LOGIN_REQ, [])) as Eh
    by (unfold hello; by rewrite Hz).
  rewrite Eh. intros E1%(f_equal snd). cbn [snd] in E1. subst w1.
  unfold n_sys. destruct (os_time _) as [now' o]. intros E2%(f_equal snd). cbn [snd] in E2. subst w2.
  pose proof (react_ok_map [(opcode OP_LOGIN_REQ, [])] t (fresh_worker_ok t Hf) Hok') as Hok2.
  pose proof (react_login t [] Hf ltac:(cbn; lia)) as Hl. cbv zeta in Hl.
  destruct (_ =? 0)%nat in Hl; [left|right].
  - destruct Hl as (Hp & Hw & Hr). split; [exact Hok2|]. split; [exact Hz|]. split; [by split|].
    cbn [n_conn]. change (Forall (tame 0) (tb_reply (react [(opcode OP_LOGIN_REQ, [])] t))).
    rewrite Hr. apply Forall_singleton, tame_error. split; [done|].
    unfold err_packet. cbn [snd]. by rewrite err_payload_length by done; lia.
  - destruct Hl as (sid & v & Hs & Hd & Hr & Hn). exists sid, v. split; [done|].
    split; [by exists v|]. split; [exact Hok2|]. split; [by left|]. exists v, v.
    apply seated_engaged in Hs as [Hen _]. splits; [exact Hen|apply near_refl..|].
    cbn [n_conn n_gui]. change (coming sid v (tb_reply (react [(opcode OP_LOGIN_REQ, [])] t)) (n_gui w)).
    rewrite Hr. apply coming_hello; [apply Hn|apply Hen|by left].
Qed.

(** With a remembered session it is resumed with the stored game. *)
Lemma opens_again e sid s w now w1 w2 :
  named sid -> played s -> away_ok sid s w ->
  say_hello (dial (new_table e (tb_shm (n_conn w))) w) = (0, w1) -> n_sys os_time w1 = (now, w2) ->
  has_session sid s {| vs_net := w2; vs_up := Some now |} /\ g_session_id (n_gui w2) = sid.
Proof.
  intros [Hne Hu] Hs (Hok & Hid & Hst & Hw). destruct (hello_fresh e w) as (Hf & Hok' & Hsh & ->).
  specialize (Hok' Hok). set (t := new_table e _) in *. rewrite <- Hsh in Hst.
  assert (hello (n_gui w) = (opcode OP_RESUME_REQ, enc resume_req_codec {| req_session_id := sid |})) as ->
    by (unfold hello; rewrite Hid; by destruct (Z.eqb_spec sid 0)).
  intros E1%(f_equal snd). cbn [snd] in E1. subst w1.
  unfold n_sys. destruct (os_time _) as [now' o]. intros E2%(f_equal snd). cbn [snd] in E2. subst w2.
  split; [|exact Hid].
  destruct (react_resume t sid s Hf Hok' Hu Hst Hw) as [Hen Hr].
  split; [done|]. split; [done|].
  split; [by apply (react_ok_map _ t (fresh_worker_ok t Hf))|]. split; [by right|].
  exists (resumed_game s), s. splits; [exact Hen|split; [done|by right]|apply near_refl|].
  cbn [n_conn n_gui]. change (coming sid s (tb_reply (react [(opcode OP_RESUME_REQ,
    enc resume_req_codec {| req_session_id := sid |})] t)) (n_gui w)).
  rewrite Hr. apply coming_hello; [done|apply Hw|by right].
Qed.

(** The end of a connection. *)
Lemma loses_session sid s w :
  named sid -> view_ok sid s w ->
  g_session_id (n_gui (disconnected w)) = g_session_id (n_gui w) /\
  ok_map (store_map (tb_shm (n_conn (disconnected w))).2) /\
  (g_session_id (n_gui w) = sid -> away_ok sid s (disconnected w)).
Proof.
  intros Hn (Hok & Hid & v & x & Hen & Hv & _).
  destruct (react_hangup _ _ _ _ Hen) as (_ & Hm & _).
  unfold away_ok. cbn [disconnected on_os on_gui hang_up n_chan n_conn n_gui snd ch_close table_channel].
  rewrite Hm. splits; [done|done|]. intros E. splits; [done|done|apply Hen|].
  eapply near_waiting; [exact Hv|apply Hen|]. exact (Hok _ _ (en_store _ _ _ _ Hen)).
Qed.

Lemma played_on s s' : played s -> rtc gui_move s s' -> played s'.
Proof. intros (v0 & Hd & Hr) Hs. exists v0. split; [done|]. by etrans. Qed.
End Invariant.

Section Steps.
Context `{LibcOK} `{NetOS}.

(** Another process changes the store, but not this session. *)
Lemma view_others sid s shm w :
  ok_map (store_map shm.2) ->
  (forall sid', plays (tb_worker (n_conn w)) = Some sid' ->
     store_map shm.2 !! sid' = store_map (tb_shm (n_conn w)).2 !! sid') ->
  view_ok sid s w -> view_ok sid s (on_table (at_shm shm) w).
Proof.
  intros Hok' Hm (_ & Hid & v & x & Hen & Hrest). split; [exact Hok'|]. split; [exact Hid|].
  exists v, x. split; [|exact Hrest]. destruct Hen as [Hp Hi Hw Hst Hc].
  split; try done. cbn [n_conn on_table at_shm tb_shm]. rewrite Hm; [exact Hst|].
  unfold plays. by rewrite Hp.
Qed.

(** A session that the client has goes on, unless the connection is lost before
    the client has read its number. *)
Lemma visit_step_session sid s t t' :
  has_session sid s t -> visit_step t t' ->
  (remembered t = sid -> remembered t' = sid) /\
  (no_session t' \/ exists s', rtc gui_move s s' /\ has_session sid s' t') /\
  (remembered t' = sid -> exists s', rtc gui_move s s' /\ has_session sid s' t').
Proof.
  intros (Hn & Hs & Ht) Hst.
  assert (forall t', (remembered t = sid -> remembered t' = sid) ->
    (exists s', rtc gui_move s s' /\ has_session sid s' t') ->
    (remembered t = sid -> remembered t' = sid) /\
    (no_session t' \/ exists s', rtc gui_move s s' /\ has_session sid s' t') /\
    (remembered t' = sid -> exists s', rtc gui_move s s' /\ has_session sid s' t')) as Hgo
    by (intros t1 Hr Hg; split; [done|]; split; [by right|done]).
  destruct Hst as [f|shm Hok Hm|Hu|Hu|e now w w' Hu Eh Et|lp lp' w Hu E Hw|lp w Hu E Hw].
  - apply Hgo; [done|]. exists s. split; [done|]. split; [done|]. by split.
  - apply Hgo; [done|]. exists s. split; [done|]. split; [done|]. split; [done|]. cbn [vs_up vs_net].
    destruct (vs_up t).
    + apply view_others; [done| |done]. intros sid' Hp. apply Hm. by right.
    + destruct Ht as (_ & Hid & Hl & Hwt). split; [exact Hok|]. split; [exact Hid|]. split; [|exact Hwt].
      cbn [n_conn on_table at_shm tb_shm]. rewrite Hm; [exact Hl|by left].
  - rewrite Hu in Ht. apply Hgo; [done|]. exists s. split; [done|]. split; [done|]. by split.
  - rewrite Hu in Ht. apply Hgo; [done|]. exists s. split; [done|]. split; [done|]. by split.
  - rewrite Hu in Ht. destruct (opens_again _ _ _ _ _ _ _ Hn Hs Ht Eh Et) as [Hs' Hid].
    apply Hgo; [done|]. by exists s.
  - rewrite Hu in Ht. pose proof (follows_step (remembered t = sid) sid s (vs_net t) lp) as Hf.
    rewrite E in Hf. destruct Hf as (Hk & s' & Hr & Hv); [by split; [|exists s]|done|].
    apply Hgo; [done|]. exists s'. split; [done|]. by split; [|split; [eapply played_on|]].
  - rewrite Hu in Ht. pose proof (follows_step (remembered t = sid) sid s (vs_net t) lp) as Hf.
    rewrite E in Hf. destruct Hf as (Hk & s' & Hr & Hv); [by split; [|exists s]|done|].
    destruct (loses_session sid s' w Hn Hv) as (Eg & Hok & Ha).
    assert (remembered {| vs_net := disconnected w; vs_up := None |} = sid ->
      exists s', rtc gui_move s s' /\ has_session sid s' {| vs_net := disconnected w; vs_up := None |})
      as Hl.
    { intros Er. exists s'. split; [done|]. split; [done|]. split; [by eapply played_on|].
      apply Ha. by rewrite <- Eg. }
    split; [intros Er; unfold remembered; cbn [vs_net]; rewrite Eg; auto|]. split; [|done].
    destruct (proj1 (proj2 Hv)) as [Ez|Ez]; [left|right].
    + split; [cbn [vs_net]; by rewrite Eg|done].
    + apply Hl. unfold remembered. cbn [vs_net]. by rewrite Eg.
Qed.

(** Without a session the next connection logs in. *)
Lemma visit_step_none t t' : no_session t -> visit_step t t' -> visit_ok t'.
Proof.
  unfold no_session. intros Ht Hst.
  destruct Hst as [f|shm Hok Hm|Hu|Hu|e now w w' Hu Eh Et|lp lp' w Hu E Hw|lp w Hu E Hw].
  - left. unfold no_session. by destruct (vs_up t).
  - left. unfold no_session. destruct (vs_up t).
    + destruct Ht as (_ & Hid & He & Hr). by split.
    + by destruct Ht.
  - rewrite Hu in Ht. by left.
  - rewrite Hu in Ht. by left.
  - rewrite Hu in Ht. destruct Ht as [Hz Hok]. by eapply opens_new.
  - rewrite Hu in Ht. left. pose proof (turned_away_step _ lp Ht) as Hf. rewrite E in Hf. by apply Hf.
  - rewrite Hu in Ht. left. pose proof (turned_away_step _ lp Ht) as Hf. rewrite E in Hf.
    destruct (Hf Hw) as (Hok & Hid & He & _). destruct (react_ended [] _ He) as (_ & _ & Hm).
    split; [exact Hid|]. unfold visit_store. cbn [vs_net disconnected on_os on_gui hang_up n_chan n_conn snd
      ch_close table_channel]. by rewrite Hm.
Qed.

Lemma visit_reach_ok t0 t : visit_start t0 -> rtc visit_step t0 t -> visit_ok t.
Proof.
  intros (Hu & Hg & Hok) Hr. assert (visit_ok t0) as Hv0.
  { left. unfold no_session. rewrite Hu. split; [by rewrite Hg|exact Hok]. }
  clear Hu Hg Hok. induction Hr as [|t1 t2 t3 Hst _ IH]; [done|]. apply IH.
  destruct Hv0 as [Hn|(sid & s & Hs)]; [by eapply visit_step_none|].
  destruct (visit_step_session sid s _ _ Hs Hst) as (_ & [Hn|(s' & _ & Hs')] & _); [by left|right].
  by exists sid, s'.
Qed.

Lemma visit_reach_session sid s t t' :
  has_session sid s t -> remembered t = sid -> rtc visit_step t t' ->
  remembered t' = sid /\ exists s', rtc gui_move s s' /\ has_session sid s' t'.
Proof.
  intros Hs Hr Hrt. revert s Hs Hr. induction Hrt as [t|t1 t2 t3 Hst _ IH]; intros s Hs Hr.
  - split; [done|]. by exists s.
  - destruct (visit_step_session sid s _ _ Hs Hst) as (Hk & _ & Hg).
    destruct (Hg (Hk Hr)) as (s2 & Hr2 & Hs2). destruct (IH s2 Hs2 (Hk Hr)) as (Hr3 & s3 & Hm3 & Hs3).
    split; [done|]. exists s3. split; [by etrans|done].
Qed.

Lemma session_stored sid s t : has_session sid s t -> visit_store t !! sid = Some s.
Proof.
  intros (_ & _ & Hs). destruct (vs_up t).
  - destruct Hs as (_ & _ & v & x & Hen & _). apply Hen.
  - apply Hs.
Qed.
End Steps.

(** ** Theorems *)

(** C6. The graphical client and the server.  However the user clicks, whatever
    other clients do to their own sessions, and however often connections fail,
    are lost and are opened again: while there is a connection the client is
    either turned away by a full server, or what it has not read yet leads it to
    the game that the store keeps for its session and that its worker plays (up
    to the line that a resumed worker logs), a game that the rules allow the
    player's requests to make of the one dealt; so that a client that has read
    everything shows that game.  Neither side waits for a packet that does not
    come.  And once the client knows its session it keeps it: whatever happens
    later, the store has that session, with a game that its requests have made
    of this one. *)
Theorem gui_keeps_its_game `{LibcOK} `{NetOS} t0 t :
  visit_start t0 -> rtc visit_step t0 t ->
  (vs_up t <> None -> let w := vs_net t in
    remembered t = 0 /\ wk_phase (tb_worker (n_conn w)) = finished \/
    exists sid v s x g, tb_waits (n_conn w) = false /\
      (remembered t = 0 \/ remembered t = sid) /\ visit_store t !! sid = Some s /\ played s /\
      wk_phase (tb_worker (n_conn w)) = playing sid v /\ near v s /\
      feed (tb_reply (n_conn w)) (n_gui w) = inl g /\ shows sid x g /\ near x s /\
      (tb_reply (n_conn w) = [] -> shows sid x (n_gui w))) /\
  forall t', remembered t <> 0 -> rtc visit_step t t' ->
    remembered t' = remembered t /\ exists s s', visit_store t !! remembered t = Some s /\
      visit_store t' !! remembered t = Some s' /\ rtc gui_move s s'.
Proof.
  intros Hst Hr. pose proof (visit_reach_ok t0 t Hst Hr) as Hok. split.
  - intros Hu w. destruct Hok as [Hn|(sid & s & Hs)].
    + left. unfold no_session in Hn. destruct (vs_up t); [|done]. destruct Hn as (_ & Hz & [Hp _] & _). done.
    + right. pose proof (session_stored _ _ _ Hs) as Hl. destruct Hs as (_ & Hpl & Hv).
      destruct (vs_up t); [|done]. destruct Hv as (_ & Hid & v & x & Hen & Hv & Hx & _ & g & Hg & Hsh).
      exists sid, v, s, x, g. splits; [apply Hen|done..|apply Hen|done|done|done|done|].
      intros Eq. fold w in Hg. rewrite Eq in Hg. injection Hg as ->. done.
  - intros t' Hne Hrt. destruct Hok as [Hn|(sid & s & Hs)].
    + unfold no_session in Hn. destruct (vs_up t); [by destruct Hn as (_ & Hz & _)|by destruct Hn].
    + assert (remembered t = sid) as Er.
      { pose proof Hs as (_ & _ & Hv). destruct (vs_up t); [|apply Hv].
        by destruct Hv as (_ & [Hz|Hz] & _). }
      destruct (visit_reach_session sid s t t' Hs Er Hrt) as (Er' & s' & Hm & Hs').
      split; [congruence|]. exists s, s'. rewrite Er.
      splits; [by apply session_stored|by apply session_stored|done].
Qed.

(** A first connection to a server with no sessions. *)
#[local] Existing Instance TestGuiOs.net_os.
Definition demo_world : gui_world (C := table) :=
  @Build_gui_world table TestGuiOs.net_os (new_table TestLibc.env0 (zero_stats, zero_store)) 0 zero_gui.
Definition demo_visit : visit := {| vs_net := demo_world; vs_up := None |}.

Lemma visit_opens `{LibcOK} `{NetOS} (t : visit) (e : env) :
  vs_up t = None -> exists now w, visit_step t {| vs_net := w; vs_up := Some now |}.
Proof.
  intros Hu. destruct (hello_fresh e (vs_net t)) as (_ & _ & _ & Eh).
  set (w := on_table _ _) in Eh. destruct (n_sys os_time w) as [now w'] eqn:Et.
  exists now, w'. by eapply vs_opens.
Qed.

Lemma demo_start : visit_start demo_visit.
Proof.
  split; [reflexivity|]. split; [reflexivity|]. unfold visit_store. cbn [demo_visit demo_world vs_net n_conn].
  rewrite (proj2 (new_table_fresh TestLibc.env0 (zero_stats, zero_store))). apply zero_store_ok.
Qed.

Lemma gui_keeps_its_game_witness : exists t, vs_up t <> None /\
  (remembered t = 0 /\ wk_phase (tb_worker (n_conn (vs_net t))) = finished \/
   exists sid s g, visit_store t !! sid = Some s /\ played s /\
     feed (tb_reply (n_conn (vs_net t))) (n_gui (vs_net t)) = inl g /\ g_session_id g = sid).
Proof.
  destruct (visit_opens demo_visit TestLibc.env0 eq_refl) as (now & w & Hst).
  pose (t := {| vs_net := w; vs_up := Some now |}).
  assert (vs_up t <> None) as Hu by (intros E; discriminate E).
  exists t. split; [exact Hu|].
  destruct (gui_keeps_its_game demo_visit t demo_start (rtc_once _ _ Hst)) as [Hg _].
  destruct (Hg Hu) as [Ha|(sid & v & s & x & g & _ & _ & Hl & Hp & _ & _ & Hf & Hs & _)];
    [left; exact Ha|right]. exists sid, s, g. split; [exact Hl|]. split; [exact Hp|].
  split; [exact Hf|exact (proj1 Hs)].
Defined.
